(* ===== verification/_CoqProject ===== *)
-Q . S2P
Prelude.v
StdMap.v
QtInterface.v
MessageItem.v
FragmentedMessage.v
FragmentOwner.v
ProtocolState.v
ProtocolSend.v
ProtocolRecv.v
ProtocolStream.v
ProtocolFrame.v
StreamProofs.v
SendProofs.v
ReceiveProofs.v
LostProofs.v
ProtocolInvariant.v
OwnershipProofs.v
FragmentProofs.v
WaitingProofs.v
LossyProofs.v
TransferProofs.v
TransferLoss.v
PacketBounds.v
ProtocolTimer.v
QtString.v
DbQuery.v
DbQueryProofs.v
DbBase.v
DbBaseProofs.v
DbDelete.v
DbThread.v
DbBuilder.v
DbMetaMacros.v
DtlsNode.v
DtlsServer.v
DtlsSocketIo.v
DtlsInvariant.v
DtlsServerProofs.v
DtlsClient.v
DtlsTransport.v
DtlsClientProofs.v
DtlsRecords.v
DtlsServerThread.v
IndexSequence.v
ApplyParse.v
DataStream.v
StdString.v
Settings.v
ZFile.v
SimpleThread.v
Logging.v
DtlsSession.v
DtlsSessionProofs.v
DtlsCredentials.v
NetHelpers.v
ServiceObject.v
QtServiceCommands.v
QtService.v
QtServiceProofs.v
QtServiceWitness.v
QtServiceWin.v
QtServiceWinThreads.v
QtServiceWinProofs.v
DtlsOpenSsl.v
DtlsSslSocket.v
Widgets.v
QtServiceDebug.v
