(* ===== verification/Prelude.v ===== *)
(** * Helpz: a verification development

    Helpz is a C++ library of helpers for network services: a message protocol
    over datagrams ([src/Network]), its transport over DTLS ([src/DTLS]), an
    SQL layer ([src/Database], [src/DBMeta]), basic classes ([src/Base]) and a
    service process ([src/Service], on [src/qtservice]). This library models them as executable
    definitions and proves what makes them correct.

    ** How the program's parts work together

    User code derives from [Net::Protocol]. A [Protocol_Sender] builds a
    [Message_Item]; its destructor hands it to the protocol's writer, a
    [DTLS::Node], which posts it to the io thread; there
    [prepare_packet_to_send] makes a packet of it, and keeps it in the waiting
    list if it has an end time. Received bytes go from the socket through the
    TLS channel to [process_bytes], which cuts them into packets, checks
    sequence numbers, reassembles fragments and calls the user. The
    [Protocol_Timer] thread calls [process_wait_list] for messages to repeat
    and fragments to ask for again. The server keeps one node per endpoint and
    threads that process received records; the client has one node, a
    deadline timer and a thread that reconnects. TLS sessions may be kept in
    an SQL table through [DB::Base]. The service runs one worker object and a
    log, which lives in a [ParamThread]; [qtservice] starts it, and passes the
    orders of a controller to it, over a local socket on Unix and by the
    service control manager on Windows.

    ** Files

    - [Prelude]: machine integers as [Z] with their wrap-around written out,
      [Z]-indexed slices, big-endian numerals, the outcome of a C++ call
      ([Ret], [Throw], [Undef] for undefined behaviour, [Unfinished] for a
      loop out of fuel) and the state monad [M] over it, hint databases.
    - [StdMap]: [std::map] with its order and [emplace] semantics.
    - [QtInterface], [QtString]: the parts of Qt the sources call, as classes
      of operations and of documented laws, with a small concrete instance
      ([QtRef], [QtStringRef]) that satisfies the laws and runs the witnesses.
      A device that is not open does nothing.
    - [MessageItem], [FragmentedMessage]: [net_message_item], [net_defs],
      [net_fragmented_message]; [FragmentOwner]: the devices and temporary
      files fragmented messages own.
    - [ProtocolState], [ProtocolSend], [ProtocolRecv], [ProtocolStream]:
      [net_protocol] and [net_protocol_sender], in this order: members and
      waiting list; sending; handling one message, fragments and timers; the
      receive buffer. Calls of user code, of the writer and of callbacks are
      events in order; which of them throw is arbitrary.
    - [ProtocolFrame] (what handling a message leaves alone), [StreamProofs],
      [SendProofs], [ReceiveProofs], [LostProofs], [ProtocolInvariant],
      [OwnershipProofs], [FragmentProofs], [WaitingProofs], [LossyProofs] (the
      receiver over a lossy channel), [TransferProofs] (two protocols and a
      whole fragmented transfer), [TransferLoss] (the same when queries and
      answers are lost), [PacketBounds]: the theorems.
    - [ProtocolTimer]: [net_protocol_timer], a thread as a step function.
    - [DbQuery], [DbQueryProofs]: [db_table] and the statement texts of
      [db_base]; [DbBase], [DbBaseProofs]: connections and [exec];
      [DbDelete]: [db_delete_row]; [DbThread]: [db_thread]; [DbBuilder]:
      [db_builder] and what the macros of [db_meta] define; [DbMetaMacros]: the
      macros themselves and their expansion.
    - [DtlsNode]: [dtls_node], [dtls_server_node], [dtls_client_node] over a
      store of shared nodes and protocols. Each protocol in the store is a
      [Protocol] of the files above and runs its code ([run_protocol]).
      [DtlsServer]: [dtls_server_controller], [dtls_socket], [dtls_server];
      [DtlsSocketIo]: the buffers of [dtls_socket] while the system sends and
      receives;
      [DtlsInvariant], [DtlsServerProofs]: their theorems. [DtlsClient],
      [DtlsClientProofs]: [dtls_client_controller], [dtls_client],
      [dtls_client_thread]. [DtlsTransport]: a client and a server joined by a
      TLS channel, over an interface of what the channel promises.
      [DtlsRecords]: the record threads.
      [DtlsServerThread]: [dtls_server_thread]. [DtlsSession],
      [DtlsSessionProofs]: [dtls_session_manager_sql] over [DbBase], with an
      interface of what the SQL engine does to the table. [DtlsCredentials]:
      [dtls_credentials_manager], [dtls_tools]. [DtlsOpenSsl],
      [DtlsSslSocket] (its socket and the objects it owns): [src/DTLS/OpenSSL],
      an earlier implementation that no build file names.
    - [NetHelpers]: [waithelper], [udpclient].
    - [ApplyParse], [DataStream], [StdString], [Settings], [ZFile],
      [SimpleThread], [Logging]: the files of [src/Base] with these names
      ([StdString] has [zstring] and what is used of [std::string]; [Settings]
      also [settingshelper]). [IndexSequence]: [fake_integer_sequence].
      [ServiceObject]: [src/Service]. [Widgets]: [src/Widgets], [src/DBWidgets]
      and [consolereader].
    - [QtServiceCommands]: the command channel of [qtservice_unix]; [QtService]:
      the rest of it with [qtservice], [qtunixsocket], [qtunixserversocket], over
      the state of a machine (settings, socket files, processes);
      [QtServiceProofs], [QtServiceWitness]: their theorems, also with the
      service object of [ServiceObject], and runs. [QtServiceWin],
      [QtServiceWinThreads], [QtServiceWinProofs]: [qtservice_win], the
      controller and the threads of a running service. [QtServiceDebug]: the
      debug log, and the filters of [qtservice_win] for the end of a session.

    ** What the theorems show

    - Reassembly (C1, C2): fragments in any order and with any overlap give
      back exactly the message; the missing parts are exact.
    - Framing (C3, C17): the byte stream, cut into datagrams in any way, is
      handled as the messages sent, in order; a corrupt packet that arrives
      when nothing is buffered is dropped alone.
    - Sending and receiving (C4, C6, C18): a message prepared by one protocol
      is delivered by another; one too large for a packet is delivered too,
      once and byte for byte, by the receiver's queries and the sender's
      answers, each of which leaves strictly less missing, although queries
      and answers are lost and asked for again by the timer; sizes of packets.
    - Sequence numbers (C5, C16): skipped ids are recorded; over a channel
      that loses, reorders and repeats packets the receiver refines a short
      specification of what is delivered, and nothing is delivered twice unless
      a repeat overtakes its first message.
    - Safety (C7-C10): an invariant of all reachable states, termination of
      [process_bytes] on every input, and that through any history every
      message is owned once: in the waiting list, with the writer, or its
      [finally] function has been told.
    - Transport (C11): from [Node::write] on the client to the user's code on
      the server, through both protocols, nodes, the channel, the socket and
      one record thread, with datagrams in flight and records queued, over a
      network that loses and reorders nothing.
    - Waiting list (C14, C15), timer thread (C19, C20).
    - DTLS: the server's clients, nodes and protocols (C21, C22), also while
      record and timer threads work with a node that is being closed; record
      threads (C23), the client thread and reconnection (C24, C25), the table
      of sessions and its key (C26, C27), datagrams and the buffers of the
      socket (C36).
    - Database (C28-C33): retries of [exec], the classes the macros of
      [db_meta] expand to, the order of a cascading deletion, the task
      queue and its end, objects built from rows.
    - Base (C34, C35, C37, C38): parsing arguments and calling a function,
      bounded reading of aligned values on a machine of either byte order, the
      round trip of files of at most what one system call transfers, the start
      of a thread.
    - Service (C12, C13, C39, C40): the orders of a controller are carried out,
      the life of a service from start to end and what its one worker gets of
      the calls posted to it, that there is one worker, and on Windows that
      every control is served whatever the interleaving of the threads.

    Other theorems describe single behaviours, among them what the code does
    where it fails; they are named in the text of each file.

    ** Bounds and fuel

    Integers are kept at the width of the C++ type where they can wrap (ids
    are 8 bit, sizes 32 bit). Loops written with fuel ([mark_lost] with 256,
    the stream loop with the buffer's length, the packet loop with the number
    of packets, [exec] with its three attempts) are shown never to run out:
    [ProtocolInvariant], [DbBaseProofs]. [digits] has fuel for the digits of
    the width it prints. The loop over commands of [slotReady] has the length of
    what has arrived as fuel, that of [encodeName] the length of the name; both
    are shown enough ([slotReady_ends], [encodeName_filter]). The loops of
    [DtlsOpenSsl] depend on the peer and need not end; what is shown of them
    holds for every fuel. A receive buffer is assumed to stay below 2^31 bytes,
    the limit of [QByteArray]; [lossy_channel_refines] is for a window of 99
    ids within ten seconds, what the lost list keeps. The recursive templates
    of [IndexSequence] are by well-founded recursion, with the depth of their
    instantiations bounded. [lossy_transfer_completes] is for one message at a
    time, a receiver whose timer fires not before its 1.5 seconds, and a sender
    whose own timer does not fire in between.

    ** What is not modelled

    Qt, Botan, boost, POSIX and the SQL driver are parameters with documented
    laws. Handlers of the io threads are atomic towards each other, as their
    locks make them; within the threads that share a queue the interleaving is
    explicit. A record or timer thread works on a node's protocol without a
    lock against [Node::close]: copying the pointer, running the protocol and
    releasing the pointers are single steps, between which the node may be
    closed; overlapping steps are data races, which are not modelled. A step
    that is undefined behaviour ends a history: a close notification from
    inside the channel is one ([close_notify_in_channel]). A signal interrupts
    an operation of the service only in [restart_until], which shows what goes
    wrong; elsewhere it comes between operations. User code called back is an event and does not call back into
    the library. A message posted by [Node::write] is held by the posted
    handler until that ends; the model lets go of it where the protocol does.
    Log output (other than that of [Logging] itself) and output to a terminal,
    thread priorities, the parts of the widgets that only build Qt objects,
    and test programs are left out (those under [src/DTLS/test] are written
    against an earlier interface of the library), as are [exec] of
    [qtservice.cpp] as compiled for Windows, and the options
    [src/DTLS/OpenSSL] sets on its contexts. The two
    threads of a Windows service that write the status do so in one step each.

    ** Plan

    Left: a fragmented transfer whose packets are also repeated and delayed,
    with the sender's timer; the same over the transport; the way back from the
    server to the client; packets larger than a TLS record. *)

From Stdlib Require Export ZArith Lia.
From Stdlib Require Export Strings.Byte.
From stdpp Require Export base tactics option list relations.

(** ** Scopes *)

Declare Scope helpz_scope.
Delimit Scope helpz_scope with helpz.
Global Open Scope Z_scope.
Global Open Scope helpz_scope.

(** ** Machine-width integers

    An unsigned [w]-bit integer is a [Z] in [0, 2^w); an operation that
    the C++ type truncates is written with the wrap-around functions. *)

Definition u8 (z : Z) : Z := z mod 256.
Definition u16 (z : Z) : Z := z mod 65536.
Definition u32 (z : Z) : Z := z mod 4294967296.

Definition is_u8 (z : Z) : Prop := 0 <= z < 256.
Definition is_u16 (z : Z) : Prop := 0 <= z < 65536.
Definition is_u32 (z : Z) : Prop := 0 <= z < 4294967296.

(** A flag test as C++ writes it, [flags & mask] in a condition. *)
Definition has_flag (flags mask : Z) : bool := negb (Z.land flags mask =? 0).

(** ** Time

    A [std::chrono::system_clock::time_point] and a duration are [Z] counts
    of nanoseconds, the clock's tick. *)

Definition milliseconds (n : Z) : Z := n * 1000000.
Definition seconds (n : Z) : Z := n * 1000000000.

(** A callback ([std::function]) is known by an identity; what calling it
    does is outside the model, that it was called is an event. *)
Abbreviation callback := nat.

(** ** Lists indexed by [Z]

    Sizes and positions of byte arrays are machine integers; these are the
    slices the code takes. *)

Definition zlen {A} (l : list A) : Z := Z.of_nat (length l).
Definition ztake {A} (n : Z) (l : list A) : list A := take (Z.to_nat n) l.
Definition zdrop {A} (n : Z) (l : list A) : list A := drop (Z.to_nat n) l.
Definition zget {A} (l : list A) (i : Z) : option A := l !! Z.to_nat i.

(** ** Bytes and positional numerals *)

Definition Z_of_byte (b : byte) : Z := Z.of_N (Byte.to_N b).
Definition byte_of_Z (z : Z) : byte :=
  match Byte.of_N (Z.to_N (u8 z)) with Some b => b | None => x00 end.

(** The [n]-byte big-endian form of [v mod 256^n], and the value of a
    big-endian byte string. *)
Fixpoint be_put (n : nat) (v : Z) : list byte :=
  match n with
  | O => []
  | S n' => byte_of_Z (v / 256 ^ Z.of_nat n') :: be_put n' v
  end.

Fixpoint be_val (bs : list byte) : Z :=
  match bs with
  | [] => 0
  | b :: bs' => Z_of_byte b * 256 ^ zlen bs' + be_val bs'
  end.

(** ** C++ outcomes

    A call returns a value, throws, runs into undefined behaviour, or (only
    for loops written with fuel) has not finished within the fuel. *)

Inductive outcome (A : Type) : Type :=
| Ret (a : A)
| Throw
| Undef
| Unfinished.
Arguments Ret {A} a.
Arguments Throw {A}.
Arguments Undef {A}.
Arguments Unfinished {A}.

Definition returns {A} (o : outcome A) : bool :=
  match o with Ret _ => true | _ => false end.

(** A computation over a state [S]: what C++ code that mutates [S] and may
    throw does. The state survives an exception, as in C++. *)
Definition M (S A : Type) : Type := S -> outcome A * S.

Definition ret {S A} (a : A) : M S A := fun s => (Ret a, s).
Definition throw {S A} : M S A := fun s => (Throw, s).
Definition undef {S A} : M S A := fun s => (Undef, s).
Definition bind {S A B} (m : M S A) (k : A -> M S B) : M S B :=
  fun s =>
    match m s with
    | (Ret a, s') => k a s'
    | (Throw, s') => (Throw, s')
    | (Undef, s') => (Undef, s')
    | (Unfinished, s') => (Unfinished, s')
    end.
Definition gets {S A} (f : S -> A) : M S A := fun s => (Ret (f s), s).
Definition modify {S} (f : S -> S) : M S unit := fun s => (Ret tt, f s).
Definition when {S} (b : bool) (m : M S unit) : M S unit :=
  if b then m else ret tt.

(** [try m with h]: catch (...) around [m]. *)
Definition try_catch {S A} (m h : M S A) : M S A :=
  fun s => match m s with (Throw, s') => h s' | r => r end.

Notation "'let*' x := m 'in' k" := (bind m (fun x => k))
  (at level 10, x pattern, m at level 100, k at level 200) : helpz_scope.
Notation "m1 ;;; m2" := (bind m1 (fun _ => m2))
  (at level 100, m2 at level 200, right associativity) : helpz_scope.

(** ** Automation *)

Create HintDb helpz.
Create Rewrite HintDb helpz.
Create HintDb framed.
Create HintDb keeps.
Create HintDb moves.

Ltac zlists := unfold zlen, ztake, zdrop, zget in *.

(** Turn the boolean comparisons of the code into propositions. *)
Ltac breflect :=
  repeat match goal with
  | H : (_ && _) = true |- _ => apply andb_true_iff in H; destruct H
  | H : (_ || _) = false |- _ => apply orb_false_iff in H; destruct H
  | H : negb _ = true |- _ => apply negb_true_iff in H
  | H : negb _ = false |- _ => apply negb_false_iff in H
  | H : (_ <=? _) = true |- _ => apply Z.leb_le in H
  | H : (_ <=? _) = false |- _ => apply Z.leb_gt in H
  | H : (_ <? _) = true |- _ => apply Z.ltb_lt in H
  | H : (_ <? _) = false |- _ => apply Z.ltb_ge in H
  | H : (_ =? _) = true |- _ => apply Z.eqb_eq in H
  | H : (_ =? _) = false |- _ => apply Z.eqb_neq in H
  end.

(** Case analysis on the innermost comparison of the goal. *)
Ltac case_cmp :=
  match goal with
  | |- context [?a <=? ?b] => destruct (Z.leb_spec a b)
  | |- context [?a <? ?b] => destruct (Z.ltb_spec a b)
  | |- context [?a =? ?b] => destruct (Z.eqb_spec a b)
  end.

(** ** Shared lemmas *)

Lemma u8_range z : is_u8 (u8 z).
Proof. unfold is_u8, u8. apply Z.mod_pos_bound. lia. Qed.

Lemma u32_range z : is_u32 (u32 z).
Proof. unfold is_u32, u32. apply Z.mod_pos_bound. lia. Qed.

Lemma u8_small z : is_u8 z -> u8 z = z.
Proof. unfold is_u8, u8. apply Z.mod_small. Qed.

Lemma u32_small z : is_u32 z -> u32 z = z.
Proof. unfold is_u32, u32. apply Z.mod_small. Qed.

Lemma u8_lor a b : is_u8 a -> is_u8 b -> is_u8 (Z.lor a b).
Proof.
  intros Ha Hb. rewrite <- (u8_small a Ha), <- (u8_small b Hb). unfold u8.
  change 256 with (2 ^ 8). rewrite <- !Z.land_ones, <- Z.land_lor_distr_l, Z.land_ones by lia.
  apply u8_range.
Qed.

#[export] Hint Resolve u8_range u32_range : helpz.

Lemma zlen_nonneg {A} (l : list A) : 0 <= zlen l.
Proof. unfold zlen. lia. Qed.

Lemma zlen_nil {A} : zlen (@nil A) = 0.
Proof. reflexivity. Qed.

Lemma zlen_app {A} (l k : list A) : zlen (l ++ k) = zlen l + zlen k.
Proof. unfold zlen. rewrite length_app. lia. Qed.

Lemma zlen_ztake {A} n (l : list A) : 0 <= n <= zlen l -> zlen (ztake n l) = n.
Proof. zlists. rewrite length_take. lia. Qed.

Lemma zlen_zdrop {A} n (l : list A) : 0 <= n <= zlen l -> zlen (zdrop n l) = zlen l - n.
Proof. zlists. rewrite length_drop. lia. Qed.

Lemma zlen_0_inv {A} (l : list A) : zlen l = 0 -> l = [].
Proof. unfold zlen. destruct l; [done | simpl; lia]. Qed.

Lemma zdrop_0 {A} (l : list A) : zdrop 0 l = l.
Proof. reflexivity. Qed.

Lemma ztake_all {A} n (l : list A) : zlen l <= n -> ztake n l = l.
Proof. zlists. intros. apply take_ge. lia. Qed.

Lemma zdrop_all {A} n (l : list A) : zlen l <= n -> zdrop n l = [].
Proof. zlists. intros. apply drop_ge. lia. Qed.

Lemma ztake_app_exact {A} n (l k : list A) : n = zlen l -> ztake n (l ++ k) = l.
Proof.
  intros ->. zlists. rewrite Nat2Z.id. apply take_app_length.
Qed.

Lemma zdrop_app_exact {A} n (l k : list A) : n = zlen l -> zdrop n (l ++ k) = k.
Proof.
  intros ->. zlists. rewrite Nat2Z.id. apply drop_app_length.
Qed.

Lemma zdrop_zdrop {A} a b (l : list A) :
  0 <= a -> 0 <= b -> zdrop a (zdrop b l) = zdrop (b + a) l.
Proof. intros. zlists. rewrite drop_drop. f_equal. lia. Qed.

Lemma ztake_zdrop {A} n (l : list A) : ztake n l ++ zdrop n l = l.
Proof. apply take_drop. Qed.

#[export] Hint Rewrite @zlen_app @zlen_nil @zdrop_0 : helpz.

(** *** Bytes *)

Lemma Z_of_byte_range b : 0 <= Z_of_byte b < 256.
Proof.
  unfold Z_of_byte. pose proof (Byte.to_N_bounded b). lia.
Qed.

Lemma Z_of_byte_of_Z z : Z_of_byte (byte_of_Z z) = u8 z.
Proof.
  unfold Z_of_byte, byte_of_Z. pose proof (u8_range z) as Hr. unfold is_u8 in Hr.
  destruct (Byte.of_N (Z.to_N (u8 z))) as [b|] eqn:E.
  - rewrite (Byte.to_of_N _ E). lia.
  - apply Byte.of_N_None_iff in E. lia.
Qed.

Lemma byte_of_Z_of_byte b : byte_of_Z (Z_of_byte b) = b.
Proof.
  unfold byte_of_Z. rewrite u8_small by apply Z_of_byte_range.
  unfold Z_of_byte. by rewrite N2Z.id, Byte.of_to_N.
Qed.

Lemma be_put_length n v : length (be_put n v) = n.
Proof. induction n; simpl; auto. Qed.

Lemma be_val_range bs : 0 <= be_val bs < 256 ^ zlen bs.
Proof.
  induction bs as [|b bs IH]; [done|]. cbn [be_val].
  replace (zlen (b :: bs)) with (Z.succ (zlen bs)) by (unfold zlen; simpl; lia).
  rewrite Z.pow_succ_r by apply zlen_nonneg.
  pose proof (Z_of_byte_range b). nia.
Qed.

Lemma be_val_put n v : be_val (be_put n v) = v mod 256 ^ Z.of_nat n.
Proof.
  induction n as [|n IH]; [simpl; by rewrite Z.mod_1_r|].
  cbn [be_put be_val]. rewrite IH, Z_of_byte_of_Z. unfold u8, zlen.
  rewrite be_put_length, Nat2Z.inj_succ, Z.pow_succ_r by lia.
  rewrite (Z.mul_comm 256), Z.rem_mul_r by lia. lia.
Qed.

(** *** Monad laws *)

Lemma bind_ret_l {S A B} (a : A) (k : A -> M S B) s : bind (ret a) k s = k a s.
Proof. reflexivity. Qed.

Lemma bind_assoc {S A B C} (m : M S A) (k : A -> M S B) (h : B -> M S C) s :
  bind (bind m k) h s = bind m (fun a => bind (k a) h) s.
Proof. unfold bind. destruct (m s) as [[] ?]; reflexivity. Qed.

(** [bind] runs [m] and goes on with its value. *)
Lemma bind_Ret {S A B} (m : M S A) (k : A -> M S B) s s' a :
  m s = (Ret a, s') -> bind m k s = k a s'.
Proof. intros E. unfold bind. by rewrite E. Qed.

Lemma bind_Throw {S A B} (m : M S A) (k : A -> M S B) s s' :
  m s = (Throw, s') -> bind m k s = (Throw, s').
Proof. intros E. unfold bind. by rewrite E. Qed.
