(* ===== verification/StdMap.v ===== *)
(** * std::map with integer keys

    The ordered associative container the sources use ([lost_msg_list_],
    [fragmented_messages_], [waiting_messages_], [Protocol_Timer::items_],
    [Server_Controller::clients_]): key/value pairs in ascending key order.
    [emplace] does nothing when the key is present, as in C++. Iteration is
    list traversal, so the order of effects of a loop over the map is the
    key order. *)

From S2P Require Import Prelude.
From Stdlib Require Import Sorted.

Module StdMap.

Abbreviation t V := (list (Z * V)).

Section ops.
Context {V : Type}.

Fixpoint find (k : Z) (m : t V) : option V :=
  match m with
  | [] => None
  | (k', v) :: m' => if k =? k' then Some v else find k m'
  end.

(** [emplace]: insert unless the key exists; the flag says whether it did. *)
Fixpoint emplace (k : Z) (v : V) (m : t V) : t V * bool :=
  match m with
  | [] => ([(k, v)], true)
  | (k', v') :: m' =>
      if k <? k' then ((k, v) :: m, true)
      else if k =? k' then (m, false)
      else let '(m'', b) := emplace k v m' in ((k', v') :: m'', b)
  end.

Fixpoint erase (k : Z) (m : t V) : t V :=
  match m with
  | [] => []
  | (k', v) :: m' => if k =? k' then m' else (k', v) :: erase k m'
  end.

(** Assignment through an iterator or reference to the value at [k]. *)
Fixpoint assign (k : Z) (v : V) (m : t V) : t V :=
  match m with
  | [] => []
  | (k', v') :: m' => if k =? k' then (k', v) :: m' else (k', v') :: assign k v m'
  end.

(** The [for (it = begin(); it != end();)] loop that erases the entries
    satisfying [p]. *)
Fixpoint erase_if (p : Z -> V -> bool) (m : t V) : t V :=
  match m with
  | [] => []
  | (k, v) :: m' => if p k v then erase_if p m' else (k, v) :: erase_if p m'
  end.

(** First entry, in key order, satisfying [p]: its value, and the map
    without it. *)
Fixpoint extract_first (p : V -> bool) (m : t V) : option V * t V :=
  match m with
  | [] => (None, [])
  | (k, v) :: m' =>
      if p v then (Some v, m')
      else let '(r, m'') := extract_first p m' in (r, (k, v) :: m'')
  end.

(** The entries up to the first key beyond [bound], and the rest. *)
Fixpoint pop_until (bound : Z) (m : t V) : list V * t V :=
  match m with
  | [] => ([], [])
  | (k, v) :: m' =>
      if bound <? k then ([], m)
      else let '(vs, r) := pop_until bound m' in (v :: vs, r)
  end.

Definition keys (m : t V) : list Z := map fst m.
Definition values (m : t V) : list V := map snd m.

(** The container's own invariant. *)
Definition sorted (m : t V) : Prop := StronglySorted Z.lt (keys m).

(** *** Lemmas *)

Lemma sorted_nil : sorted [].
Proof. constructor. Qed.

Lemma sorted_cons_inv k v m :
  sorted ((k, v) :: m) -> sorted m /\ Forall (fun k' => k < k') (keys m).
Proof. intros H. inversion H; subst. auto. Qed.

Lemma find_above k m : Forall (fun k' => k < k') (keys m) -> find k m = None.
Proof.
  induction m as [|[k' v] m IH]; simpl; [done|].
  inversion 1; subst. destruct (Z.eqb_spec k k'); [lia | auto].
Qed.

Lemma find_In k v m : find k m = Some v -> In (k, v) m.
Proof.
  induction m as [|[k' v'] m IH]; simpl; [done|].
  destruct (Z.eqb_spec k k'); intros; simplify_eq; auto.
Qed.

Lemma In_find k v m : sorted m -> In (k, v) m -> find k m = Some v.
Proof.
  induction m as [|[k' v'] m IH]; simpl; [done|].
  intros [Hs Hf]%sorted_cons_inv [E|Hin].
  - simplify_eq. by rewrite Z.eqb_refl.
  - destruct (Z.eqb_spec k k') as [->|]; [|auto].
    rewrite Forall_forall in Hf.
    assert (k' < k'); [|lia]. apply Hf, list_elem_of_In. apply in_map_iff. by exists (k', v).
Qed.

Lemma emplace_keys k v m m' b :
  emplace k v m = (m', b) ->
  forall x, In x (keys m') -> x = k \/ In x (keys m).
Proof.
  revert m' b. induction m as [|[k' v'] m IH]; simpl; intros m' b E x Hx.
  - simplify_eq. simpl in Hx. intuition.
  - destruct (k <? k'); [simplify_eq; simpl in *; intuition|].
    destruct (k =? k'); [simplify_eq; simpl in *; intuition|].
    destruct (emplace k v m) as [m'' b'] eqn:E'. simplify_eq. simpl in *.
    destruct Hx as [->|Hx]; [auto|]. destruct (IH _ _ eq_refl x Hx); auto.
Qed.

Lemma emplace_sorted k v m : sorted m -> sorted (emplace k v m).1.
Proof.
  induction m as [|[k' v'] m IH]; simpl; intros Hs.
  - repeat constructor.
  - destruct (sorted_cons_inv _ _ _ Hs) as [Hs' Hf].
    destruct (Z.ltb_spec k k').
    + simpl. constructor; [done|]. simpl. constructor; [done|].
      eapply Forall_impl; [exact Hf|]. intros ? ?; simpl in *; lia.
    + destruct (Z.eqb_spec k k'); [done|].
      destruct (emplace k v m) as [m'' b] eqn:E. simpl.
      constructor; [apply (IH Hs')|].
      apply Forall_forall. intros x Hx%list_elem_of_In.
      destruct (emplace_keys _ _ _ _ _ E x Hx) as [->|Hin]; [simpl in *; lia|].
      rewrite Forall_forall in Hf. by apply Hf, list_elem_of_In.
Qed.

Lemma emplace_find k v m x :
  sorted m ->
  find x (emplace k v m).1 =
  if x =? k then Some (default v (find k m)) else find x m.
Proof.
  induction m as [|[k' v'] m IH]; simpl; intros Hs.
  - by destruct (Z.eqb_spec x k).
  - destruct (sorted_cons_inv _ _ _ Hs) as [Hs' Hf].
    destruct (Z.ltb_spec k k').
    + simpl. destruct (Z.eqb_spec x k); [|done].
      destruct (Z.eqb_spec k k'); [lia|]. rewrite find_above; [done|].
      eapply Forall_impl; [exact Hf|]. intros ? ?; simpl in *; lia.
    + destruct (Z.eqb_spec k k') as [->|].
      * simpl. by destruct (Z.eqb_spec x k').
      * specialize (IH Hs'). destruct (emplace k v m) as [m'' b] eqn:E. simpl in *.
        destruct (Z.eqb_spec x k').
        -- subst. destruct (Z.eqb_spec k' k); [lia|done].
        -- exact IH.
Qed.

Lemma emplace_present k v v' m :
  sorted m -> find k m = Some v' -> emplace k v m = (m, false).
Proof.
  induction m as [|[k' w] m IH]; simpl; [done|].
  intros Hs Hfnd. destruct (sorted_cons_inv _ _ _ Hs) as [Hs' Hf].
  destruct (Z.eqb_spec k k') as [->|].
  - by rewrite Z.ltb_irrefl.
  - destruct (Z.ltb_spec k k').
    + rewrite find_above in Hfnd; [done|].
      eapply Forall_impl; [exact Hf|]. intros ? ?; simpl in *; lia.
    + by rewrite IH.
Qed.

Lemma emplace_fresh_flag k v m : find k m = None -> (emplace k v m).2 = true.
Proof.
  induction m as [|[k' w] m IH]; simpl; [done|].
  destruct (Z.eqb_spec k k') as [->|]; [done|]. intros Hf.
  destruct (k <? k'); [done|]. specialize (IH Hf). by destruct (emplace k v m).
Qed.

Lemma emplace_same k v m m' : emplace k v m = (m', false) -> m' = m.
Proof.
  revert m'. induction m as [|[k' w] m IH]; simpl; intros m' E; [done|].
  destruct (k <? k'); [done|]. destruct (k =? k'); [by simplify_eq|].
  destruct (emplace k v m) as [m'' b]. simplify_eq. by rewrite (IH _ eq_refl).
Qed.

Lemma emplace_values_fresh k v m m' :
  emplace k v m = (m', true) -> values m' ≡ₚ v :: values m.
Proof.
  revert m'. induction m as [|[k' w] m IH]; simpl; intros m' E; [by simplify_eq|].
  destruct (k <? k'); [by simplify_eq|]. destruct (k =? k'); [done|].
  destruct (emplace k v m) as [m'' b]. simplify_eq. simpl.
  rewrite (IH _ eq_refl). constructor.
Qed.

Lemma erase_keys_subset k m x : In x (keys (erase k m)) -> In x (keys m).
Proof.
  induction m as [|[k' v] m IH]; simpl; [done|].
  destruct (k =? k'); simpl; intuition.
Qed.

Lemma erase_sorted k m : sorted m -> sorted (erase k m).
Proof.
  induction m as [|[k' v] m IH]; simpl; [done|]. intros Hs.
  destruct (sorted_cons_inv _ _ _ Hs) as [Hs' Hf].
  destruct (k =? k'); [done|]. apply SSorted_cons; [by apply IH|].
  apply Forall_forall. intros x Hx%list_elem_of_In%erase_keys_subset.
  rewrite Forall_forall in Hf. by apply Hf, list_elem_of_In.
Qed.

Lemma erase_find k m x :
  sorted m -> find x (erase k m) = if x =? k then None else find x m.
Proof.
  induction m as [|[k' v] m IH]; simpl; intros Hs; [by destruct (x =? k)|].
  destruct (sorted_cons_inv _ _ _ Hs) as [Hs' Hf].
  destruct (Z.eqb_spec k k') as [->|].
  - destruct (Z.eqb_spec x k'); [subst; by apply find_above | done].
  - simpl. rewrite IH by done. destruct (Z.eqb_spec x k'), (Z.eqb_spec x k); try lia; done.
Qed.

Lemma assign_keys k v m : keys (assign k v m) = keys m.
Proof.
  induction m as [|[k' w] m IH]; simpl; [done|].
  destruct (k =? k'); simpl; congruence.
Qed.

Lemma assign_sorted k v m : sorted m -> sorted (assign k v m).
Proof. unfold sorted. by rewrite assign_keys. Qed.

Lemma assign_find k v m x :
  find x (assign k v m) = if x =? k then (fun _ => v) <$> find k m else find x m.
Proof.
  induction m as [|[k' w] m IH]; simpl; [by destruct (x =? k)|].
  destruct (Z.eqb_spec k k') as [->|]; simpl.
  - by destruct (Z.eqb_spec x k').
  - rewrite IH. destruct (Z.eqb_spec x k'), (Z.eqb_spec x k); try lia; done.
Qed.

Lemma erase_if_keys_subset p m x : In x (keys (erase_if p m)) -> In x (keys m).
Proof.
  induction m as [|[k' v] m IH]; simpl; [done|].
  destruct (p k' v); simpl; intuition.
Qed.

Lemma erase_if_sorted p m : sorted m -> sorted (erase_if p m).
Proof.
  induction m as [|[k' v] m IH]; simpl; [done|]. intros Hs.
  destruct (sorted_cons_inv _ _ _ Hs) as [Hs' Hf].
  destruct (p k' v); [auto|]. apply SSorted_cons; [by apply IH|].
  apply Forall_forall. intros x Hx%list_elem_of_In%erase_if_keys_subset.
  rewrite Forall_forall in Hf. by apply Hf, list_elem_of_In.
Qed.

Lemma erase_if_find p m x :
  sorted m ->
  find x (erase_if p m) =
  match find x m with
  | Some v => if p x v then None else Some v
  | None => None
  end.
Proof.
  induction m as [|[k' v] m IH]; simpl; intros Hs; [done|].
  destruct (sorted_cons_inv _ _ _ Hs) as [Hs' Hf]. specialize (IH Hs').
  destruct (p k' v) eqn:Ep; simpl.
  - rewrite IH. destruct (Z.eqb_spec x k') as [->|]; [|done].
    rewrite Ep. by rewrite find_above.
  - destruct (Z.eqb_spec x k') as [->|]; [by rewrite Ep | exact IH].
Qed.

Lemma extract_first_None p m m' :
  extract_first p m = (None, m') -> m' = m /\ Forall (fun v => p v = false) (values m).
Proof.
  revert m'. induction m as [|[k v] m IH]; simpl; intros m' E; [by simplify_eq|].
  destruct (p v) eqn:Ep; [done|].
  destruct (extract_first p m) as [r m''] eqn:E'. simplify_eq.
  destruct (IH _ eq_refl) as [-> Hf]. auto.
Qed.

Lemma extract_first_Some p m m' v :
  extract_first p m = (Some v, m') ->
  p v = true /\ values m ≡ₚ v :: values m'
  /\ exists k, In (k, v) m /\ (sorted m -> m' = erase k m).
Proof.
  revert m'. induction m as [|[k w] m IH]; simpl; intros m' E; [done|].
  destruct (p w) eqn:Ep.
  - simplify_eq. split_and!; [done|done|]. exists k. rewrite Z.eqb_refl. auto.
  - destruct (extract_first p m) as [r m''] eqn:E'. simplify_eq.
    destruct (IH _ eq_refl) as (Hp & Hperm & k' & Hin & Her).
    split_and!; [done|simpl; rewrite Hperm; constructor|].
    exists k'. split; [auto|]. intros Hs.
    destruct (sorted_cons_inv _ _ _ Hs) as [Hs' Hf].
    destruct (Z.eqb_spec k' k) as [->|]; [|by rewrite Her].
    rewrite Forall_forall in Hf. assert (k < k); [|lia].
    apply Hf, list_elem_of_In, in_map_iff. by exists (k, v).
Qed.

Lemma extract_first_sorted p m : sorted m -> sorted (extract_first p m).2.
Proof.
  intros Hs. destruct (extract_first p m) as [[v|] m'] eqn:E; simpl.
  - destruct (extract_first_Some _ _ _ _ E) as (_ & _ & k & _ & Her).
    rewrite Her by done. by apply erase_sorted.
  - by destruct (extract_first_None _ _ _ E) as [-> _].
Qed.

Lemma pop_until_app bound m : (pop_until bound m).1 ++ values (pop_until bound m).2 = values m.
Proof.
  induction m as [|[k v] m IH]; simpl; [done|].
  destruct (bound <? k); [done|]. destruct (pop_until bound m).
  simpl in *. unfold values in *. by rewrite IH.
Qed.

Lemma pop_until_sorted bound m : sorted m -> sorted (pop_until bound m).2.
Proof.
  induction m as [|[k v] m IH]; simpl; [done|]. intros Hs.
  destruct (sorted_cons_inv _ _ _ Hs) as [Hs' _].
  destruct (bound <? k); [done|]. destruct (pop_until bound m). by apply IH.
Qed.

(** On a sorted map, [pop_until] splits the entries at [bound]. *)
Lemma pop_until_split bound m :
  sorted m ->
  pop_until bound m =
    (map snd (filter (fun p : Z * V => p.1 <= bound) m), filter (fun p : Z * V => bound < p.1) m).
Proof.
  induction m as [|[k v] m IH]; [done|]. intros Hs. cbn [pop_until].
  destruct (sorted_cons_inv _ _ _ Hs) as [Hs' Hf].
  destruct (Z.ltb_spec bound k).
  - assert (Forall (fun p : Z * V => bound < p.1) m) as Hall.
    { apply Forall_forall. intros [k' v'] Hin%list_elem_of_In. simpl.
      rewrite Forall_forall in Hf. etrans; [exact H|]. apply Hf, list_elem_of_In.
      apply in_map_iff. by exists (k', v'). }
    rewrite !filter_cons. simpl. case_decide; [lia|]. case_decide; [|lia].
    f_equal.
    + clear -Hall. induction Hall as [|[k' v'] m Hk _ IH]; [done|].
      rewrite filter_cons. simpl in *. case_decide; [lia|exact IH].
    + f_equal. symmetry. clear -Hall. induction Hall as [|[k' v'] m Hk _ IH]; [done|].
      rewrite filter_cons. simpl in *. case_decide; [by f_equal|lia].
  - rewrite IH by done. rewrite !filter_cons. simpl.
    case_decide; [|lia]. case_decide; [lia|]. done.
Qed.

End ops.

End StdMap.

#[export] Hint Resolve StdMap.emplace_sorted StdMap.erase_sorted StdMap.assign_sorted
  StdMap.erase_if_sorted StdMap.extract_first_sorted StdMap.sorted_nil : helpz.
