(* ===== verification/QtInterface.v ===== *)
(** * The parts of Qt the sources call

    Qt is not part of the repository, so its classes are parameters: a class
    of operations, and a class of laws stating the documented behaviour the
    sources rely on. Every theorem that needs a law takes the laws as a
    hypothesis. Module [QtRef] has small concrete instances (an in-memory
    buffer, a big-endian codec), used to evaluate the definitions on concrete
    inputs and to show that the laws can be satisfied. *)

From S2P Require Import Prelude.

(** ** QIODevice

    A random-access byte device: a QBuffer or a QFile. [dev_content] is the
    bytes it holds, [dev_pos] the current position. *)
Class QIODevice (D : Type) := {
  dev_content : D -> list byte;
  dev_pos : D -> Z;
  dev_is_open : D -> bool;
  (** [QIODevice::open(QIODevice::ReadWrite)]; [None] when it fails. *)
  dev_open : D -> option D;
  dev_close : D -> D;
  dev_seek : Z -> D -> D;
  (** [QIODevice::read(char*, maxSize)]: the bytes read, the device after. *)
  dev_read : Z -> D -> list byte * D;
  dev_write : list byte -> D -> D;
  (** [new QBuffer], and [new QFile] on the temporary file named by a time in
      milliseconds and a message id. *)
  new_QBuffer : D;
  new_QFile : Z -> Z -> D;
}.

Definition dev_size {D} `{QIODevice D} (d : D) : Z := zlen (dev_content d).
Definition dev_bytesAvailable {D} `{QIODevice D} (d : D) : Z := Z.max 0 (dev_size d - dev_pos d).
Definition dev_atEnd {D} `{QIODevice D} (d : D) : bool := dev_bytesAvailable d <=? 0.

(** Documented behaviour. On a device that is not open seek, read and write
    fail and change nothing. On an open one a seek inside the device moves the
    position and nothing else; past the end the position moves too, and a write
    there extends the device, the gap holding unspecified bytes. *)
Class QIODeviceLaws (D : Type) `{QIODevice D} := {
  dev_pos_nonneg : forall d : D, 0 <= dev_pos d;
  seek_pos : forall p (d : D), dev_is_open d = true -> 0 <= p < 2147483648 -> dev_pos (dev_seek p d) = p;
  seek_content : forall p (d : D), 0 <= p <= dev_size d -> dev_content (dev_seek p d) = dev_content d;
  seek_extends : forall p (d : D) i, 0 <= i < dev_size d ->
    zget (dev_content (dev_seek p d)) i = zget (dev_content d) i;
  seek_size : forall p (d : D), 0 <= p < 2147483648 ->
    dev_size d <= dev_size (dev_seek p d) <= Z.max (dev_size d) p;
  seek_open : forall p (d : D), dev_is_open (dev_seek p d) = dev_is_open d;
  seek_closed : forall p (d : D), dev_is_open d = false ->
    dev_content (dev_seek p d) = dev_content d /\ dev_pos (dev_seek p d) = dev_pos d;
  read_bytes : forall n (d : D), dev_is_open d = true -> 0 <= n -> (dev_read n d).1 = ztake n (zdrop (dev_pos d) (dev_content d));
  read_pos : forall n (d : D), 0 <= n -> dev_pos (dev_read n d).2 = dev_pos d + zlen (dev_read n d).1;
  read_content : forall n (d : D), dev_content (dev_read n d).2 = dev_content d;
  read_open : forall n (d : D), dev_is_open (dev_read n d).2 = dev_is_open d;
  read_closed : forall n (d : D), dev_is_open d = false -> (dev_read n d).1 = [];
  write_pos : forall bs (d : D), dev_is_open d = true -> dev_pos (dev_write bs d) = dev_pos d + zlen bs;
  write_size : forall bs (d : D), dev_is_open d = true -> bs <> [] ->
    dev_size (dev_write bs d) = Z.max (dev_size d) (dev_pos d + zlen bs);
  write_nil : forall d : D, dev_pos d <= dev_size d -> dev_content (dev_write [] d) = dev_content d;
  write_inside : forall bs (d : D) i, dev_is_open d = true -> dev_pos d <= i < dev_pos d + zlen bs ->
    zget (dev_content (dev_write bs d)) i = zget bs (i - dev_pos d);
  write_outside : forall bs (d : D) i, 0 <= i < dev_size d ->
    i < dev_pos d \/ dev_pos d + zlen bs <= i ->
    zget (dev_content (dev_write bs d)) i = zget (dev_content d) i;
  write_open : forall bs (d : D), dev_is_open (dev_write bs d) = dev_is_open d;
  write_closed : forall bs (d : D), dev_is_open d = false ->
    dev_content (dev_write bs d) = dev_content d /\ dev_pos (dev_write bs d) = dev_pos d;
  open_content : forall d d' : D, dev_open d = Some d' ->
    dev_content d' = dev_content d /\ dev_pos d' = 0 /\ dev_is_open d' = true;
  close_content : forall d : D, dev_content (dev_close d) = dev_content d;
  close_open : forall d : D, dev_is_open (dev_close d) = false;
  new_QBuffer_spec : dev_content (new_QBuffer : D) = [] /\ dev_pos (new_QBuffer : D) = 0
    /\ dev_is_open (new_QBuffer : D) = false;
  new_QFile_spec : forall t id, dev_content (new_QFile t id : D) = [] /\ dev_pos (new_QFile t id : D) = 0
    /\ dev_is_open (new_QFile t id : D) = false;
}.

(** Opening a closed device succeeds: no disk or permission error. *)
Class DevicesOpen (D : Type) `{QIODevice D} :=
  open_closed : forall d : D, dev_is_open d = false -> is_Some (dev_open d).

(** ** QBuffer

    The protocol's own receive buffer is used through its byte array too:
    [buffer().remove(0, n)] and [buffer().clear()]. Memory can always be
    opened. *)
Class QBuffer (B : Type) `{QIODevice B} := {
  buffer_remove : Z -> B -> B;
  buffer_clear : B -> B;
}.

Class QBufferLaws (B : Type) `{QBuffer B} := {
  buffer_opens : forall b : B, dev_is_open b = false -> is_Some (dev_open b);
  remove_content : forall n (b : B), 0 <= n -> dev_content (buffer_remove n b) = zdrop n (dev_content b);
  remove_pos : forall n (b : B), dev_pos (buffer_remove n b) = dev_pos b;
  remove_open : forall n (b : B), dev_is_open (buffer_remove n b) = dev_is_open b;
  clear_content : forall b : B, dev_content (buffer_clear b) = [];
  clear_open : forall b : B, dev_is_open (buffer_clear b) = dev_is_open b;
}.

(** ** QDataStream

    The binary form of unsigned integers of the three widths used, and of a
    QByteArray. [get] is [>>]: the value and the bytes after it, or [None]
    when the stream ends first (status ReadPastEnd). *)
Inductive width := W8 | W16 | W32.

Definition wbytes (w : width) : Z := match w with W8 => 1 | W16 => 2 | W32 => 4 end.
Definition wbound (w : width) : Z :=
  match w with W8 => 256 | W16 => 65536 | W32 => 4294967296 end.

Class QDataStream := {
  put : width -> Z -> list byte;
  get : width -> list byte -> option (Z * list byte);
  put_QByteArray : list byte -> list byte;
}.

(** The documented format: integers take their width, an array is its
    32-bit size and then its bytes, a null array is 0xffffffff (whether an
    array without bytes is null is left open). *)
Class QDataStreamLaws `{QDataStream} := {
  put_len : forall w v, zlen (put w v) = wbytes w;
  get_put : forall w v rest, 0 <= v < wbound w -> get w (put w v ++ rest) = Some (v, rest);
  get_short : forall w bs, zlen bs < wbytes w -> get w bs = None;
  get_enough : forall w bs, wbytes w <= zlen bs ->
    exists v, get w bs = Some (v, zdrop (wbytes w) bs) /\ 0 <= v < wbound w;
  put_QByteArray_spec : forall bs,
    (put_QByteArray bs = put W32 (zlen bs) ++ bs) \/ (bs = [] /\ put_QByteArray bs = put W32 4294967295);
}.

(** ** qChecksum, qCompress, qUncompress

    The size of a byte array is a 31-bit number. [resize_bytes n] are the
    [n] bytes by which [QByteArray::resize] extends an array; they are not
    initialised. *)
Class QtBytes := {
  resize_bytes : Z -> list byte;
  qChecksum : list byte -> Z;
  qCompress : list byte -> list byte;
  qUncompress : list byte -> list byte;
}.

Class QtBytesLaws `{QtBytes} := {
  resize_bytes_len : forall n, 0 <= n -> zlen (resize_bytes n) = n;
  qChecksum_u16 : forall bs, 0 <= qChecksum bs < 65536;
  qUncompress_qCompress : forall bs, bs <> [] -> zlen bs < 2147483648 -> qUncompress (qCompress bs) = bs;
  qUncompress_size : forall bs, zlen (qUncompress bs) < 2147483648;
  qCompress_nonempty : forall bs, bs <> [] -> qCompress bs <> [];
}.

(** ** Consequences of the laws *)

Section stream_lemmas.
Context `{HL : QDataStreamLaws}.

(** Reading an integer in front of anything leaves exactly the rest. *)
Lemma get_drop w bs v rest : get w bs = Some (v, rest) -> rest = zdrop (wbytes w) bs /\ 0 <= v < wbound w.
Proof.
  intros E. destruct (Z.le_gt_cases (wbytes w) (zlen bs)) as [Hle|Hgt].
  - destruct (get_enough w bs Hle) as (v' & E' & Hv). rewrite E in E'. by simplify_eq.
  - rewrite get_short in E by done. done.
Qed.

Lemma get_ztake w bs n :
  wbytes w <= n -> wbytes w <= zlen bs ->
  get w bs = Some (default 0 (fst <$> get w bs), zdrop (wbytes w) bs).
Proof. intros _ Hle. destruct (get_enough w bs Hle) as (v & E & _). by rewrite E. Qed.

End stream_lemmas.

Lemma resize_bytes_0 `{QtBytesLaws} : resize_bytes 0 = [].
Proof. apply zlen_0_inv, resize_bytes_len. lia. Qed.

(** What [read] leaves unread of [n] bytes asked for, and [resize] fills. *)
Lemma read_resize_len {D : Type} `{HL : QIODeviceLaws D} `{HB : QtBytesLaws} n (d : D) :
  0 <= n -> zlen (dev_read n d).1 <= n
  /\ zlen ((dev_read n d).1 ++ resize_bytes (n - zlen (dev_read n d).1)) = n.
Proof.
  intros Hn. assert (zlen (dev_read n d).1 <= n) as Hle.
  { destruct (dev_is_open d) eqn:Ho.
    - rewrite read_bytes by done. unfold ztake, zlen. rewrite length_take. lia.
    - rewrite read_closed by done. by rewrite zlen_nil. }
  split; [done|]. rewrite zlen_app, resize_bytes_len by lia. lia.
Qed.

Section device_lemmas.
Context {D : Type} `{HL : QIODeviceLaws D}.

(** Reading what is there gives exactly that many bytes. *)
Lemma read_exact n (d : D) :
  dev_is_open d = true -> 0 <= n <= dev_size d - dev_pos d ->
  zlen (dev_read n d).1 = n /\ dev_pos (dev_read n d).2 = dev_pos d + n.
Proof.
  intros Ho Hn. pose proof (dev_pos_nonneg d). unfold dev_size in Hn.
  assert (zlen (dev_read n d).1 = n) as E.
  { rewrite read_bytes by (done || lia). apply zlen_ztake. rewrite zlen_zdrop by lia. lia. }
  split; [done|]. rewrite read_pos by lia. lia.
Qed.

(** Appending at the end of a device. *)
Lemma write_at_end bs (d : D) :
  dev_is_open d = true -> dev_pos d = dev_size d -> dev_content (dev_write bs d) = dev_content d ++ bs.
Proof.
  intros Ho Hp. destruct bs as [|b bs].
  { rewrite app_nil_r. apply write_nil. lia. }
  set (l := b :: bs) in *. assert (l <> []) as Hne by done.
  pose proof (write_size l d Ho Hne) as Hs. unfold dev_size in *.
  rewrite Hp in Hs. apply list_eq. intros i.
  destruct (decide (i < length (dev_content d))%nat) as [Hlt|Hge].
  - rewrite lookup_app_l by done.
    pose proof (write_outside l d (Z.of_nat i)) as Hw. unfold dev_size, zget, zlen in *.
    rewrite Nat2Z.id in Hw. apply Hw; lia.
  - rewrite lookup_app_r by lia.
    destruct (decide (i < length (dev_content d) + length l)%nat).
    + pose proof (write_inside l d (Z.of_nat i) Ho) as Hw. unfold zget, zlen in *.
      rewrite Nat2Z.id in Hw. rewrite Hw by lia. f_equal. lia.
    + rewrite !lookup_ge_None_2; [done| unfold zlen in *; lia | unfold zlen in *; lia].
Qed.

End device_lemmas.

(** ** Concrete instances *)

Module QtRef.

(** An in-memory device. Seeking moves the position only; writing past the
    end fills the gap with zero bytes; nothing happens while it is closed. *)
Record mem := { m_content : list byte; m_pos : Z; m_open : bool }.

Definition zeros (n : Z) : list byte := replicate (Z.to_nat n) x00.

Definition splice (p : Z) (bs c : list byte) : list byte :=
  ztake p (c ++ zeros (p - zlen c)) ++ bs ++ zdrop (p + zlen bs) c.

#[export] Instance mem_device : QIODevice mem := {
  dev_content := m_content;
  dev_pos d := Z.max 0 (m_pos d);
  dev_is_open := m_open;
  dev_open d := if m_open d then None else Some {| m_content := m_content d; m_pos := 0; m_open := true |};
  dev_close d := {| m_content := m_content d; m_pos := 0; m_open := false |};
  dev_seek p d := if m_open d then {| m_content := m_content d; m_pos := p; m_open := true |} else d;
  dev_read n d :=
    if m_open d then
      let bs := ztake n (zdrop (Z.max 0 (m_pos d)) (m_content d)) in
      (bs, {| m_content := m_content d; m_pos := Z.max 0 (m_pos d) + zlen bs; m_open := true |})
    else ([], d);
  dev_write bs d :=
    if m_open d then
      {| m_content := splice (Z.max 0 (m_pos d)) bs (m_content d);
         m_pos := Z.max 0 (m_pos d) + zlen bs; m_open := true |}
    else d;
  new_QBuffer := {| m_content := []; m_pos := 0; m_open := false |};
  new_QFile _ _ := {| m_content := []; m_pos := 0; m_open := false |};
}.

#[export] Instance mem_buffer : QBuffer mem := {
  buffer_remove n d := {| m_content := zdrop n (m_content d); m_pos := m_pos d; m_open := m_open d |};
  buffer_clear d := {| m_content := []; m_pos := m_pos d; m_open := m_open d |};
}.

Lemma splice_len p bs c : 0 <= p -> bs <> [] -> zlen (splice p bs c) = Z.max (zlen c) (p + zlen bs).
Proof.
  intros Hp Hbs. unfold splice, zeros. zlists.
  rewrite !length_app, length_take, length_drop, length_app, length_replicate. lia.
Qed.

Lemma splice_inside p bs c i :
  0 <= p -> p <= i < p + zlen bs -> zget (splice p bs c) i = zget bs (i - p).
Proof.
  intros Hp Hi. unfold splice, zeros. zlists.
  assert (length (take (Z.to_nat p) (c ++ replicate (Z.to_nat (p - Z.of_nat (length c))) x00)) = Z.to_nat p) as E.
  { rewrite length_take, length_app, length_replicate. lia. }
  rewrite lookup_app_r by lia. rewrite lookup_app_l by lia. f_equal. lia.
Qed.

Lemma splice_outside p bs c i :
  0 <= p -> 0 <= i < zlen c -> i < p \/ p + zlen bs <= i -> zget (splice p bs c) i = zget c i.
Proof.
  intros Hp Hi Ho. unfold splice, zeros. zlists.
  assert (length (take (Z.to_nat p) (c ++ replicate (Z.to_nat (p - Z.of_nat (length c))) x00)) = Z.to_nat p) as E.
  { rewrite length_take, length_app, length_replicate. lia. }
  destruct Ho.
  - rewrite lookup_app_l by lia. rewrite lookup_take_lt by lia. by rewrite lookup_app_l by lia.
  - rewrite lookup_app_r by lia. rewrite lookup_app_r by lia. rewrite lookup_drop. f_equal. lia.
Qed.

#[export] Instance mem_laws : QIODeviceLaws mem.
Proof.
  constructor; simpl.
  - intros. lia.
  - intros p d -> Hp. simpl. lia.
  - intros p d _. by destruct (m_open d).
  - intros p d i _. by destruct (m_open d).
  - intros p d Hp. unfold dev_size. simpl. destruct (m_open d); simpl; lia.
  - intros p d. by destruct (m_open d) eqn:E.
  - by intros p d ->.
  - by intros n d ->.
  - intros n d Hn. destruct (m_open d); simpl; [|unfold zlen; simpl; lia].
    pose proof (zlen_nonneg (ztake n (zdrop (Z.max 0 (m_pos d)) (m_content d)))). lia.
  - intros n d. by destruct (m_open d).
  - intros n d. by destruct (m_open d) eqn:E.
  - by intros n d ->.
  - intros bs d ->. pose proof (zlen_nonneg bs). simpl. lia.
  - intros bs d Ho Hbs. unfold dev_size. simpl. rewrite Ho. apply splice_len; [lia|done].
  - unfold dev_size. simpl. intros d Hd. destruct (m_open d); [|done]. simpl. unfold splice, zeros.
    autorewrite with helpz. rewrite Z.add_0_r. zlists. simpl.
    rewrite take_app_le by lia. apply take_drop.
  - intros bs d i -> Hi. apply splice_inside; lia.
  - unfold dev_size. simpl. intros bs d i Hi Ho. destruct (m_open d); [|done]. apply splice_outside; lia.
  - intros bs d. by destruct (m_open d) eqn:E.
  - by intros bs d ->.
  - intros d d'. destruct (m_open d); [done|]. intros. by simplify_eq.
  - done.
  - done.
  - done.
  - done.
Qed.

#[export] Instance mem_opens : DevicesOpen mem.
Proof. intros d H. simpl in *. rewrite H. by eexists. Qed.

#[export] Instance mem_buffer_laws : QBufferLaws mem.
Proof. constructor; try done. exact mem_opens. Qed.

Definition w_nat (w : width) : nat := match w with W8 => 1 | W16 => 2 | W32 => 4 end.

(** Big-endian integers, the default byte order of QDataStream. *)
#[export] Instance be_stream : QDataStream := {
  put w v := be_put (w_nat w) v;
  get w bs := if zlen bs <? wbytes w then None
              else Some (be_val (ztake (wbytes w) bs), zdrop (wbytes w) bs);
  put_QByteArray bs := be_put 4 (zlen bs) ++ bs;
}.

#[export] Instance be_laws : QDataStreamLaws.
Proof.
  constructor; simpl.
  - intros [] v; unfold zlen; by rewrite be_put_length.
  - intros w v rest Hv. assert (zlen (be_put (w_nat w) v) = wbytes w) as E.
    { unfold zlen. rewrite be_put_length. by destruct w. }
    rewrite zlen_app, E. pose proof (zlen_nonneg rest).
    destruct (Z.ltb_spec (wbytes w + zlen rest) (wbytes w)); [lia|].
    rewrite ztake_app_exact, zdrop_app_exact by done.
    rewrite be_val_put, Z.mod_small; [done|]. by destruct w.
  - intros w bs Hlt. destruct (Z.ltb_spec (zlen bs) (wbytes w)); [done|lia].
  - intros w bs Hle. destruct (Z.ltb_spec (zlen bs) (wbytes w)); [lia|].
    eexists. split; [done|]. pose proof (be_val_range (ztake (wbytes w) bs)) as Hr.
    rewrite zlen_ztake in Hr by (destruct w; simpl in *; lia). by destruct w.
  - by left.
Qed.

(** A sum of bytes as checksum, and compression that stores the data. *)
#[export] Instance sum_bytes : QtBytes := {
  resize_bytes n := replicate (Z.to_nat n) x00;
  qChecksum bs := fold_right (fun b s => (Z_of_byte b + s) mod 65536) 0 bs;
  qCompress bs := bs;
  qUncompress bs := if zlen bs <? 2147483648 then bs else [];
}.

#[export] Instance sum_laws : QtBytesLaws.
Proof.
  constructor; cbn [resize_bytes qChecksum qCompress qUncompress sum_bytes].
  - intros n Hn. unfold zlen. rewrite length_replicate. lia.
  - intros [|b bs]; simpl; [lia|]. apply Z.mod_pos_bound. lia.
  - intros bs _ Hl. by rewrite (proj2 (Z.ltb_lt _ _) Hl).
  - intros bs. destruct (Z.ltb_spec (zlen bs) 2147483648); [done|reflexivity].
  - done.
Qed.

End QtRef.
