(* ===== verification/MessageItem.v ===== *)
(** * Net::Message_Item

    The outgoing message: [src/Network/net_message_item.h] and [.cpp], with
    the sizes of [src/Network/net_defs.h]. *)

From S2P Require Import Prelude QtInterface.

Definition HELPZ_MAX_UDP_PACKET_SIZE : Z := 65507.
Definition HELPZ_MAX_PACKET_DATA_SIZE : Z := HELPZ_MAX_UDP_PACKET_SIZE - 17.
Definition HELPZ_MAX_MESSAGE_DATA_SIZE : Z := HELPZ_MAX_PACKET_DATA_SIZE / 2.
Definition HELPZ_PROTOCOL_MAX_MESSAGE_SIZE : Z := 2147483648.

Module Message_Item.

(** The fields of the struct; [D] is the type of its data device. *)
Record t (D : Type) := mk {
  id_ : option Z;
  answer_id_ : option Z;
  resend_timeout_ : Z;
  begin_time_ : Z;
  end_time_ : Z;
  data_device_ : option D;
  answer_func_ : option callback;
  timeout_func_ : option callback;
  finally_func_ : option callback;
  cmd_ : Z;
  flags_ : Z;
  fragment_size_ : Z;
  min_compress_size_ : Z;
}.
Arguments mk {D}.
Arguments id_ {D}.
Arguments answer_id_ {D}.
Arguments resend_timeout_ {D}.
Arguments begin_time_ {D}.
Arguments end_time_ {D}.
Arguments data_device_ {D}.
Arguments answer_func_ {D}.
Arguments timeout_func_ {D}.
Arguments finally_func_ {D}.
Arguments cmd_ {D}.
Arguments flags_ {D}.
Arguments fragment_size_ {D}.
Arguments min_compress_size_ {D}.

Section ops.
Context {D : Type}.

(** The constructor the sender uses. *)
Definition make (command : Z) (answer_id : option Z) (device_ptr : option D) (resend_timeout : Z) : t D :=
  {| id_ := None; answer_id_ := answer_id; resend_timeout_ := resend_timeout;
     begin_time_ := 0; end_time_ := 0; data_device_ := device_ptr;
     answer_func_ := None; timeout_func_ := None; finally_func_ := None;
     cmd_ := command; flags_ := 0; fragment_size_ := HELPZ_MAX_MESSAGE_DATA_SIZE;
     min_compress_size_ := 512 |}.

Definition cmd (m : t D) : Z := cmd_ m.
Definition flags (m : t D) : Z := flags_ m.
Definition fragment_size (m : t D) : Z := fragment_size_ m.
Definition min_compress_size (m : t D) : Z := min_compress_size_ m.

(** Assignments to single fields. *)
Definition with_id (i : option Z) (m : t D) : t D :=
  let '(mk _ a r b e d af tf ff c f fs mc) := m in mk i a r b e d af tf ff c f fs mc.
Definition with_end_time (e : Z) (m : t D) : t D :=
  let '(mk i a r b _ d af tf ff c f fs mc) := m in mk i a r b e d af tf ff c f fs mc.
Definition with_resend_timeout (r : Z) (m : t D) : t D :=
  let '(mk i a _ b e d af tf ff c f fs mc) := m in mk i a r b e d af tf ff c f fs mc.
Definition with_data_device (d : option D) (m : t D) : t D :=
  let '(mk i a r b e _ af tf ff c f fs mc) := m in mk i a r b e d af tf ff c f fs mc.
Definition with_answer_func (af : option callback) (m : t D) : t D :=
  let '(mk i a r b e d _ tf ff c f fs mc) := m in mk i a r b e d af tf ff c f fs mc.
Definition with_timeout_func (tf : option callback) (m : t D) : t D :=
  let '(mk i a r b e d af _ ff c f fs mc) := m in mk i a r b e d af tf ff c f fs mc.
Definition with_finally_func (ff : option callback) (m : t D) : t D :=
  let '(mk i a r b e d af tf _ c f fs mc) := m in mk i a r b e d af tf ff c f fs mc.
Definition set_flags (f : Z) (m : t D) : t D :=
  let '(mk i a r b e d af tf ff c _ fs mc) := m in mk i a r b e d af tf ff c f fs mc.
Definition with_fragment_size (fs : Z) (m : t D) : t D :=
  let '(mk i a r b e d af tf ff c f _ mc) := m in mk i a r b e d af tf ff c f fs mc.
Definition set_min_compress_size (mc : Z) (m : t D) : t D :=
  let '(mk i a r b e d af tf ff c f fs _) := m in mk i a r b e d af tf ff c f fs mc.

(** [set_fragment_size]: at least 32, at most a packet's data. *)
Definition set_fragment_size (size : Z) (m : t D) : t D :=
  let m := with_fragment_size size m in
  if fragment_size_ m <? 32 then with_fragment_size 32 m
  else if HELPZ_MAX_PACKET_DATA_SIZE <? fragment_size_ m
       then with_fragment_size HELPZ_MAX_PACKET_DATA_SIZE m
       else m.

(** The destructor: what it tells [finally_func_], if there is one. *)
Definition dtor (m : t D) : option (callback * bool) :=
  match finally_func_ m with
  | Some f => Some (f, match answer_func_ m with None => true | Some _ => false end)
  | None => None
  end.

(** *** Well-formedness

    Ids, command and flags are bytes, and the fragment size is in the range
    [set_fragment_size] establishes. *)
Definition wf (m : t D) : Prop :=
  (forall i, id_ m = Some i -> is_u8 i) /\ (forall a, answer_id_ m = Some a -> is_u8 a)
  /\ is_u8 (cmd_ m) /\ is_u8 (flags_ m) /\ 32 <= fragment_size_ m <= HELPZ_MAX_PACKET_DATA_SIZE
  /\ is_u32 (min_compress_size_ m).

Lemma make_wf c a d r :
  is_u8 c -> (forall x, a = Some x -> is_u8 x) -> wf (make c a d r).
Proof.
  intros Hc Ha. repeat split; simpl; try done; try lia; try apply Hc; by apply Ha.
Qed.

Lemma set_fragment_size_value size (m : t D) :
  fragment_size_ (set_fragment_size size m) =
  Z.max 32 (Z.min size HELPZ_MAX_PACKET_DATA_SIZE).
Proof.
  unfold set_fragment_size. destruct m; simpl.
  unfold HELPZ_MAX_PACKET_DATA_SIZE, HELPZ_MAX_UDP_PACKET_SIZE.
  repeat case_cmp; simpl; lia.
Qed.

Lemma set_fragment_size_other size (m : t D) :
  set_fragment_size size m = with_fragment_size (fragment_size_ (set_fragment_size size m)) m.
Proof. unfold set_fragment_size. destruct m; simpl. by repeat case_cmp. Qed.

Lemma set_fragment_size_wf size m : wf m -> wf (set_fragment_size size m).
Proof.
  intros (Hi & Ha & Hc & Hf & _ & Hm). rewrite set_fragment_size_other.
  rewrite set_fragment_size_value. destruct m; simpl in *. split_and!; simpl; try done; try lia.
  apply Z.max_lub; [|apply Z.le_min_r]. done.
Qed.

Lemma with_data_device_wf d m : wf m -> wf (with_data_device d m).
Proof. by destruct m. Qed.

Lemma with_end_time_wf e m : wf m -> wf (with_end_time e m).
Proof. by destruct m. Qed.

Lemma with_id_wf i m : is_u8 i -> wf m -> wf (with_id (Some i) m).
Proof. intros Hi (_ & Hr). destruct m. split; [|done]. by intros ? [= <-]. Qed.

Lemma add_flags_wf f m : is_u8 f -> wf m -> wf (set_flags (Z.lor (flags m) f) m).
Proof.
  intros Hf (? & ? & ? & ? & ?). destruct m; simpl in *. split_and!; try done; simpl; try apply u8_lor; tauto.
Qed.

End ops.

End Message_Item.

#[export] Hint Resolve Message_Item.make_wf Message_Item.set_fragment_size_wf Message_Item.with_data_device_wf
  Message_Item.with_end_time_wf Message_Item.with_id_wf Message_Item.add_flags_wf : keeps.
