(* ===== verification/FragmentedMessage.v ===== *)
(** * Net::Fragmented_Message

    The receiving side of a message sent in fragments:
    [src/Network/net_fragmented_message.h] and [.cpp]. The parts still
    missing are kept as a list of half-open intervals, the data that has
    arrived in a device. *)

From S2P Require Import Prelude QtInterface.

Module Fragmented_Message.

Record t (D : Type) := mk {
  id_ : Z;
  cmd_ : Z;
  max_fragment_size_ : Z;
  data_device_ : D;
  last_part_time_ : Z;
  part_vect_ : list (Z * Z);
}.
Arguments mk {D}.
Arguments id_ {D}.
Arguments cmd_ {D}.
Arguments max_fragment_size_ {D}.
Arguments data_device_ {D}.
Arguments last_part_time_ {D}.
Arguments part_vect_ {D}.

(** [remove_from_part_vect]: the loop over the missing parts, one clause
    per branch, in the order of the source. *)
Fixpoint remove_from_part_vect (new_part_start new_part_end : Z) (part_vect : list (Z * Z)) : list (Z * Z) :=
  match part_vect with
  | [] => []
  | (first, second) :: rest =>
      if new_part_end <=? first then part_vect
      else if second <? new_part_start then
        (first, second) :: remove_from_part_vect new_part_start new_part_end rest
      else if new_part_start <? first then
        if second <? new_part_end then remove_from_part_vect second new_part_end rest
        else if new_part_end =? second then rest
        else (new_part_end, second) :: rest
      else if first <? new_part_start then
        let current_end := second in
        if current_end <? new_part_end then
          (first, new_part_start) :: remove_from_part_vect current_end new_part_end rest
        else if new_part_end <? current_end then
          (first, new_part_start) :: (new_part_end, current_end) :: rest
        else (first, new_part_start) :: rest
      else
        if second <? new_part_end then remove_from_part_vect second new_part_end rest
        else if new_part_end <? second then (new_part_end, second) :: rest
        else rest
  end.

Section ops.
Context {D : Type} `{QIODevice D}.

(** The constructor; a big message goes to a temporary file named by the
    time [now]. *)
Definition make (id cmd max_fragment_size full_size now : Z) : t D :=
  {| id_ := id; cmd_ := cmd; max_fragment_size_ := max_fragment_size;
     data_device_ := if full_size <? 1000000 then new_QBuffer else new_QFile (now / 1000000) id;
     last_part_time_ := 0;
     part_vect_ := [(0, full_size)] |}.

Definition with_max_fragment_size (n : Z) (m : t D) : t D :=
  let '(mk i c _ d l p) := m in mk i c n d l p.
Definition with_data_device (d : D) (m : t D) : t D :=
  let '(mk i c f _ l p) := m in mk i c f d l p.
Definition with_last_part_time (l : Z) (m : t D) : t D :=
  let '(mk i c f d _ p) := m in mk i c f d l p.
Definition with_part_vect (p : list (Z * Z)) (m : t D) : t D :=
  let '(mk i c f d l _) := m in mk i c f d l p.

(** [pos + len] is a 32-bit sum. *)
Definition add_data (pos : Z) (data : list byte) (m : t D) : t D :=
  let m := with_part_vect (remove_from_part_vect pos (u32 (pos + zlen data)) (part_vect_ m)) m in
  with_data_device (dev_write data (dev_seek pos (data_device_ m))) m.

Definition is_parts_empty (m : t D) : bool :=
  match part_vect_ m with [] => true | _ => false end.

Definition get_next_part (m : t D) : Z * Z :=
  match part_vect_ m with
  | [] => (0, 0)
  | (first, second) :: _ =>
      if max_fragment_size_ m <? u32 (second - first)
      then (first, max_fragment_size_ m)
      else (first, u32 (second - first))
  end.

End ops.

(** ** Specification

    [missing x l]: byte [x] lies in a part of [l]. [parts_in lo hi l]: the
    parts are non-empty, ascending, disjoint and within [lo, hi). *)

Definition missing (x : Z) (l : list (Z * Z)) : Prop :=
  Exists (fun p : Z * Z => p.1 <= x < p.2) l.

Fixpoint parts_in (lo hi : Z) (l : list (Z * Z)) : Prop :=
  match l with
  | [] => True
  | (a, b) :: l' => lo <= a /\ a < b /\ b <= hi /\ parts_in b hi l'
  end.

(** Bytes still missing. *)
Fixpoint parts_total (l : list (Z * Z)) : Z :=
  match l with [] => 0 | (a, b) :: l' => (b - a) + parts_total l' end.

(** A fragment of message [orig]: its position and its bytes. *)
Definition fragment_of (orig : list byte) (f : Z * list byte) : Prop :=
  0 <= f.1 /\ f.2 <> [] /\ f.1 + zlen f.2 <= zlen orig /\ f.2 = ztake (zlen f.2) (zdrop f.1 orig).

Definition covers (frags : list (Z * list byte)) (x : Z) : Prop :=
  Exists (fun f : Z * list byte => f.1 <= x < f.1 + zlen f.2) frags.

#[export] Instance covers_dec frags x : Decision (covers frags x).
Proof. unfold covers. apply _. Defined.

(** What the handler of a fragment does with the message: it opens the device,
    adds the data, and closes the device again, or rewinds it when nothing is
    missing any more. [None]: the device cannot be opened. *)
Definition take_fragment {D} `{QIODevice D} (f : Z * list byte) (m : t D) : option (t D) :=
  match dev_open (data_device_ m) with
  | None => None
  | Some d =>
      let m := with_data_device d m in
      let m := match f.2 with [] => m | _ => add_data f.1 f.2 m end in
      Some (if is_parts_empty m then with_data_device (dev_seek 0 (data_device_ m)) m
            else with_data_device (dev_close (data_device_ m)) m)
  end.

(** Fragments one after the other, until nothing is missing: then the message
    is handed over and forgotten. *)
Fixpoint receive {D} `{QIODevice D} (frags : list (Z * list byte)) (m : t D) : option (t D) :=
  match frags with
  | [] => Some m
  | f :: frags =>
      match take_fragment f m with
      | None => None
      | Some m => if is_parts_empty m then Some m else receive frags m
      end
  end.

(** The invariant of a message being reassembled: parts well formed, and
    every byte that is not missing is the original one. *)
Record reassembles {D} `{QIODevice D} (orig : list byte) (m : t D) : Prop := {
  re_parts : parts_in 0 (zlen orig) (part_vect_ m);
  re_size : dev_size (data_device_ m) <= zlen orig;
  re_bytes : forall x, 0 <= x < zlen orig -> ~ missing x (part_vect_ m) ->
    zget (dev_content (data_device_ m)) x = zget orig x;
}.

(** ** Interval lemmas *)

Lemma missing_nil x : missing x [] <-> False.
Proof. unfold missing. split; [inversion 1 | done]. Qed.

Lemma missing_cons x a b l : missing x ((a, b) :: l) <-> (a <= x < b) \/ missing x l.
Proof. unfold missing. rewrite Exists_cons. done. Qed.

Lemma missing_bounds lo hi x l : parts_in lo hi l -> missing x l -> lo <= x < hi.
Proof.
  revert lo. induction l as [|[a b] l IH]; intros lo.
  - rewrite missing_nil. done.
  - simpl. rewrite missing_cons. intros (? & ? & ? & Hl) [?|Hm]; [lia|].
    specialize (IH _ Hl Hm). lia.
Qed.

Lemma parts_in_weaken lo lo' hi l : lo' <= lo -> parts_in lo hi l -> parts_in lo' hi l.
Proof. destruct l as [|[a b] l]; simpl; intuition lia. Qed.

(** One pass of the loop: the parts stay well formed and lose exactly the
    new interval. *)
Lemma remove_parts_in s e lo hi l :
  s <= e -> parts_in lo hi l -> parts_in lo hi (remove_from_part_vect s e l).
Proof.
  revert s lo. induction l as [|[a b] l IH]; intros s lo Hse; [done|].
  simpl. intros (Ha & Hab & Hb & Hl).
  repeat case_cmp; simpl; repeat split; try lia; try done;
    try (apply IH; [lia|done]); try (eapply parts_in_weaken; [|apply IH; [lia|exact Hl]]; lia);
    try (eapply parts_in_weaken; [|exact Hl]; lia).
Qed.

Lemma remove_missing s e lo hi l x :
  s <= e -> parts_in lo hi l ->
  missing x (remove_from_part_vect s e l) <-> missing x l /\ ~ (s <= x < e).
Proof.
  revert s lo. induction l as [|[a b] l IH]; intros s lo Hse.
  - simpl. rewrite missing_nil. tauto.
  - simpl. intros (Ha & Hab & Hb & Hl).
    pose proof (fun H => missing_bounds b hi x l Hl H) as Hbd.
    pose proof (IH s b ltac:(lia) Hl) as IHs.
    repeat case_cmp; rewrite ?missing_cons;
      try (pose proof (IH b b ltac:(lia) Hl) as IHb; rewrite IHb);
      try rewrite IHs; intuition lia.
Qed.

Lemma parts_total_nonneg lo hi l : parts_in lo hi l -> 0 <= parts_total l.
Proof.
  revert lo. induction l as [|[a b] l IH]; intros lo; simpl; [lia|].
  intros (? & ? & ? & Hl). specialize (IH _ Hl). lia.
Qed.

(** A part that starts where the first missing one does, and is not empty,
    leaves strictly less missing. *)
Lemma remove_total_le s e lo hi l :
  s <= e -> parts_in lo hi l -> parts_total (remove_from_part_vect s e l) <= parts_total l.
Proof.
  revert s lo. induction l as [|[a b] l IH]; intros s lo Hse; [done|].
  simpl. intros (Ha & Hab & Hb & Hl).
  pose proof (IH s b ltac:(lia) Hl).
  repeat case_cmp; simpl; try lia;
    pose proof (IH b b ltac:(lia) Hl); lia.
Qed.

Lemma remove_first_total a b e lo hi l :
  a < e -> parts_in lo hi ((a, b) :: l) ->
  parts_total (remove_from_part_vect a e ((a, b) :: l)) <= parts_total ((a, b) :: l) - Z.min (e - a) (b - a).
Proof.
  intros He. simpl. intros (Ha & Hab & Hb & Hl).
  repeat case_cmp; simpl; try lia.
  pose proof (remove_total_le b e b hi l ltac:(lia) Hl). lia.
Qed.

(** Parts that end before [s] are all skipped, whatever [e] is: this is why
    a 32-bit overflow of [pos + len] removes nothing. *)
Lemma remove_beyond s e lo hi l : parts_in lo hi l -> hi < s -> remove_from_part_vect s e l = l.
Proof.
  revert lo. induction l as [|[a b] l IH]; intros lo; [done|]. simpl.
  intros (Ha & Hab & Hb & Hl) Hs. repeat case_cmp; try lia; [done|]. f_equal. by eapply IH.
Qed.

Lemma remove_u32 pos len hi l :
  parts_in 0 hi l -> hi < 2147483648 -> is_u32 pos -> 0 <= len <= 2147483648 ->
  remove_from_part_vect pos (u32 (pos + len)) l = remove_from_part_vect pos (pos + len) l.
Proof.
  unfold is_u32. intros Hl Hhi Hp Hlen.
  destruct (Z.lt_ge_cases (pos + len) 4294967296).
  - by rewrite u32_small by (unfold is_u32; lia).
  - by rewrite !(remove_beyond pos _ 0 hi) by (done || lia).
Qed.

(** ** Lemmas on the operations *)

Section lemmas.
Context {D : Type} `{HL : QIODeviceLaws D}.
Implicit Types m : t D.

Lemma add_data_parts pos data m hi :
  parts_in 0 hi (part_vect_ m) -> hi < 2147483648 -> is_u32 pos -> zlen data <= 2147483648 ->
  parts_in 0 hi (part_vect_ (add_data pos data m))
  /\ forall x, missing x (part_vect_ (add_data pos data m)) <->
       missing x (part_vect_ m) /\ ~ (pos <= x < pos + zlen data).
Proof.
  intros Hp Hhi Hpos Hlen. pose proof (zlen_nonneg data).
  assert (part_vect_ (add_data pos data m) = remove_from_part_vect pos (pos + zlen data) (part_vect_ m)) as E.
  { destruct m; simpl. eapply remove_u32; eauto. }
  rewrite E. split.
  - apply remove_parts_in; [lia|done].
  - intros x. eapply remove_missing; [lia|exact Hp].
Qed.

Lemma add_data_device pos data m :
  data_device_ (add_data pos data m) = dev_write data (dev_seek pos (data_device_ m)).
Proof. by destruct m. Qed.

(** Writing a fragment of [orig] into the device. *)
Lemma write_fragment orig pos data (d : D) :
  dev_is_open d = true -> fragment_of orig (pos, data) -> zlen orig < 2147483648 -> dev_size d <= zlen orig ->
  let d' := dev_write data (dev_seek pos d) in
  dev_size d' <= zlen orig
  /\ (forall x, pos <= x < pos + zlen data -> zget (dev_content d') x = zget orig x)
  /\ (forall x, 0 <= x < dev_size d -> ~ (pos <= x < pos + zlen data) ->
        zget (dev_content d') x = zget (dev_content d) x).
Proof.
  intros Hop (Hp & Hne & Hlen & Hdata) Ho Hs d'. simpl in *. pose proof (seek_open pos d) as Hop'. rewrite Hop in Hop'.
  pose proof (zlen_nonneg data). pose proof (seek_size pos d ltac:(lia)) as Hss.
  pose proof (seek_pos pos d Hop ltac:(lia)) as Hsp.
  split_and!.
  - unfold d'. rewrite write_size by done. lia.
  - intros x Hx. unfold d'. rewrite write_inside by (done || lia). rewrite Hsp.
    rewrite Hdata. unfold zget, ztake, zdrop. rewrite lookup_take_lt by lia.
    rewrite lookup_drop. f_equal. lia.
  - intros x Hx Hout. unfold d'. rewrite write_outside by lia. apply seek_extends. lia.
Qed.

Lemma add_data_reassembles orig pos data m :
  dev_is_open (data_device_ m) = true -> fragment_of orig (pos, data) -> zlen orig < 2147483648 ->
  reassembles orig m -> reassembles orig (add_data pos data m).
Proof.
  intros Hop Hf Ho [Hparts Hsize Hbytes].
  destruct (write_fragment _ _ _ (data_device_ m) Hop Hf Ho Hsize) as (Hs' & Hin & Hout).
  destruct Hf as (Hp & Hne & Hlen & Hdata). simpl in *.
  destruct (add_data_parts pos data m (zlen orig) Hparts Ho) as [Hparts' Hmiss];
    [unfold is_u32; pose proof (zlen_nonneg data); lia | lia |].
  constructor; [done | by rewrite add_data_device|].
  intros x Hx Hnm. rewrite add_data_device. rewrite Hmiss in Hnm.
  destruct (decide (pos <= x < pos + zlen data)) as [Hi|Ho']; [by apply Hin|].
  assert (~ missing x (part_vect_ m)) as Hnm' by tauto.
  specialize (Hbytes x Hx Hnm').
  assert (x < dev_size (data_device_ m)).
  { unfold dev_size, zlen, zget in *. apply Z.nle_gt. intros Hge.
    rewrite lookup_ge_None_2 in Hbytes by lia. symmetry in Hbytes.
    apply lookup_ge_None_1 in Hbytes. lia. }
  rewrite Hout by lia. done.
Qed.

Lemma make_reassembles orig id cmd mfs now :
  0 < zlen orig -> reassembles orig (make id cmd mfs (zlen orig) now : t D).
Proof.
  intros Ho. constructor; simpl.
  - lia.
  - destruct (zlen orig <? 1000000); unfold dev_size;
      [rewrite (proj1 new_QBuffer_spec) | rewrite (proj1 (new_QFile_spec _ _))];
      rewrite zlen_nil; lia.
  - intros x Hx Hn. contradict Hn. by apply missing_cons; left.
Qed.

Lemma make_closed id cmd mfs n now : dev_is_open (data_device_ (make id cmd mfs n now : t D)) = false.
Proof. simpl. destruct (_ <? _); [apply new_QBuffer_spec|apply new_QFile_spec]. Qed.

(** Opening, closing and rewinding the device do not change what is stored. *)
Lemma reassembles_device orig d m :
  dev_content d = dev_content (data_device_ m) -> reassembles orig m -> reassembles orig (with_data_device d m).
Proof.
  intros C [Hp Hs Hb]. unfold dev_size in *. destruct m; simpl in *.
  constructor; simpl; [done| |]; unfold dev_size; by rewrite C.
Qed.

(** One fragment: the message stays a part of the original, loses exactly the
    bytes of the fragment, and is closed, or complete, open and rewound. *)
Lemma take_fragment_ok `{HO : !DevicesOpen D} orig f m :
  fragment_of orig f -> zlen orig < 2147483648 -> reassembles orig m -> dev_is_open (data_device_ m) = false ->
  exists m', take_fragment f m = Some m' /\ reassembles orig m'
    /\ (forall x, missing x (part_vect_ m') <-> missing x (part_vect_ m) /\ ~ (f.1 <= x < f.1 + zlen f.2))
    /\ dev_is_open (data_device_ m') = is_parts_empty m'
    /\ (is_parts_empty m' = true -> dev_pos (data_device_ m') = 0).
Proof.
  intros Hf Ho Hm Hcl. destruct f as [pos data]. unfold take_fragment. destruct (open_closed _ Hcl) as [d Eo]. rewrite Eo.
  destruct (open_content _ _ Eo) as (C & _ & Hop).
  assert (reassembles orig (with_data_device d m)) as Hd by by apply reassembles_device.
  set (m1 := with_data_device d m) in *.
  assert (dev_is_open (data_device_ m1) = true /\ part_vect_ m1 = part_vect_ m) as [Hop1 Epv] by by destruct m.
  pose proof (add_data_reassembles orig pos data m1 Hop1 Hf Ho Hd) as Hre.
  destruct Hf as (Hp & Hne & Hlen & _). simpl in *.
  destruct (add_data_parts pos data m1 (zlen orig) (re_parts _ _ Hd) Ho) as [_ Hmiss];
    [unfold is_u32; pose proof (zlen_nonneg data); lia | lia |].
  destruct data as [|b0 bs]; [done|]. set (m2 := add_data pos (b0 :: bs) m1) in *.
  assert (dev_is_open (data_device_ m2) = true) as Hop2.
  { unfold m2. by rewrite add_data_device, write_open, seek_open. }
  rewrite Epv in Hmiss.
  assert (forall d', is_parts_empty (with_data_device d' m2) = is_parts_empty m2
    /\ part_vect_ (with_data_device d' m2) = part_vect_ m2 /\ data_device_ (with_data_device d' m2) = d') as Hwd
    by (intros d'; by destruct m2).
  assert (forall d', dev_content d' = dev_content (data_device_ m2) -> reassembles orig (with_data_device d' m2)) as Hrd
    by (intros d' Hd'; by apply reassembles_device).
  destruct (is_parts_empty m2) eqn:Ee.
  - destruct (Hwd (dev_seek 0 (data_device_ m2))) as (Ep & Ev & Ed). eexists. split; [done|]. rewrite Ep, Ev, Ed.
    split_and!; [|done|by rewrite seek_open|intros _; apply seek_pos; [done|lia]].
    apply Hrd, seek_content. unfold dev_size. pose proof (zlen_nonneg (dev_content (data_device_ m2))). lia.
  - destruct (Hwd (dev_close (data_device_ m2))) as (Ep & Ev & Ed). eexists. split; [done|]. rewrite Ep, Ev, Ed.
    split_and!; [|done|by rewrite close_open|done]. apply Hrd, close_content.
Qed.

Lemma parts_empty_missing lo hi m :
  parts_in lo hi (part_vect_ m) ->
  is_parts_empty m = true <-> forall x, ~ missing x (part_vect_ m).
Proof.
  unfold is_parts_empty. destruct (part_vect_ m) as [|[a b] l]; simpl.
  - intros _. split; [|done]. intros _ x. rewrite missing_nil. tauto.
  - intros (? & ? & ? & ?). split; [done|]. intros Hn. destruct (Hn a).
    apply missing_cons. left. lia.
Qed.

(** When nothing is missing the device holds exactly the message. *)
Lemma reassembles_complete orig m :
  reassembles orig m -> is_parts_empty m = true -> dev_content (data_device_ m) = orig.
Proof.
  intros [Hp Hs Hb] He. pose proof (proj1 (parts_empty_missing _ _ _ Hp) He) as Hn.
  apply list_eq. intros i. destruct (decide (i < length orig)%nat) as [Hi|Hi].
  - specialize (Hb (Z.of_nat i)). unfold zget, zlen in Hb. rewrite Nat2Z.id in Hb.
    apply Hb; [lia|apply Hn].
  - unfold dev_size, zlen in Hs. rewrite !lookup_ge_None_2; [done|lia|lia].
Qed.

Lemma receive_reassembles `{HO : !DevicesOpen D} orig frags m :
  Forall (fragment_of orig) frags -> zlen orig < 2147483648 ->
  reassembles orig m -> dev_is_open (data_device_ m) = false -> is_parts_empty m = false ->
  exists m', receive frags m = Some m' /\ reassembles orig m'
    /\ dev_is_open (data_device_ m') = is_parts_empty m'
    /\ (is_parts_empty m' = true -> dev_pos (data_device_ m') = 0)
    /\ (is_parts_empty m' = true <-> forall x, missing x (part_vect_ m) -> covers frags x).
Proof.
  intros Hfr Ho. revert m. induction Hfr as [|f frags Hf _ IH]; intros m Hm Hcl He.
  - exists m. split; [done|]. rewrite He. split_and!; try done. split; [done|]. intros Hn. exfalso.
    rewrite (proj2 (parts_empty_missing _ _ _ (re_parts _ _ Hm))) in He; [done|]. intros x Hx. specialize (Hn x Hx).
    unfold covers in Hn. by rewrite Exists_nil in Hn.
  - destruct (take_fragment_ok orig f m Hf Ho Hm Hcl) as (m1 & E & Hm1 & Hmiss & Hop1 & Hpos1). cbn [receive]. rewrite E.
    assert (forall x, covers (f :: frags) x <-> f.1 <= x < f.1 + zlen f.2 \/ covers frags x) as Hcov
      by (intros x; unfold covers; by rewrite Exists_cons).
    destruct (is_parts_empty m1) eqn:E1.
    + exists m1. rewrite E1. split_and!; try done. split; [|done]. intros _ x Hx. apply Hcov. left.
      pose proof (proj1 (parts_empty_missing _ _ _ (re_parts _ _ Hm1)) E1 x) as Hn. rewrite Hmiss in Hn.
      destruct (decide (f.1 <= x < f.1 + zlen f.2)); [done|]. by destruct Hn.
    + destruct (IH m1 Hm1 Hop1 E1) as (m' & E' & Hre & Hop & Hpos & Hiff). exists m'. split_and!; try done.
      rewrite Hiff. split; intros Hc x Hx.
      * apply Hcov. destruct (decide (f.1 <= x < f.1 + zlen f.2)); [by left|]. right. apply Hc, Hmiss. done.
      * apply Hmiss in Hx as [Hx Hout]. by destruct (proj1 (Hcov x) (Hc x Hx)).
Qed.

Lemma next_part_spec m hi a b l :
  part_vect_ m = (a, b) :: l -> parts_in 0 hi (part_vect_ m) -> hi < 2147483648 ->
  get_next_part m = (a, Z.min (max_fragment_size_ m) (b - a)).
Proof.
  intros E Hp Hhi. unfold get_next_part. rewrite E in *. destruct Hp as (? & ? & ? & _).
  rewrite u32_small by (unfold is_u32; lia). case_cmp; f_equal; lia.
Qed.

End lemmas.

(** ** Properties *)

Section properties.
Context {D : Type} `{HL : QIODeviceLaws D}.

(** C1. Reassembly: fragments of a message arrive in any order, with overlaps
    and repetitions, each taken in as the protocol does (open the device, add
    the data, close the device or rewind it). When opening a closed device
    does not fail, every fragment is taken in; the list of missing parts
    becomes empty exactly when the fragments cover the message, and the device
    is then open, at its beginning, and holds exactly the original bytes. *)
Theorem reassemble_any_order `{HO : !DevicesOpen D} orig id cmd mfs now frags :
  0 < zlen orig < 2147483648 -> Forall (fragment_of orig) frags ->
  exists m, receive frags (make id cmd mfs (zlen orig) now : t D) = Some m
  /\ (is_parts_empty m = true <-> forall x, 0 <= x < zlen orig -> covers frags x)
  /\ (is_parts_empty m = true ->
       dev_content (data_device_ m) = orig /\ dev_pos (data_device_ m) = 0 /\ dev_is_open (data_device_ m) = true).
Proof.
  intros [Ho Ho'] Hf.
  destruct (receive_reassembles orig frags (make id cmd mfs (zlen orig) now : t D) Hf Ho')
    as (m & E & Hre & Hop & Hpos & Hiff); [by apply make_reassembles|by apply make_closed|done|].
  exists m. split; [done|]. split.
  - rewrite Hiff. simpl. split; intros Hc x Hx; apply Hc; [by apply missing_cons; left|].
    apply missing_cons in Hx as [|Hx]; [done|by apply missing_nil in Hx].
  - intros He. split_and!; [by apply reassembles_complete|by apply Hpos|congruence].
Qed.

(** C2. [add_data] with any 32-bit position, also one for which [pos + len]
    overflows, keeps the missing parts sorted, disjoint and non-empty, and
    removes from them exactly the bytes the data covers. *)
Theorem add_data_missing (m : t D) hi pos data :
  parts_in 0 hi (part_vect_ m) -> hi < 2147483648 -> is_u32 pos -> zlen data <= 2147483648 ->
  parts_in 0 hi (part_vect_ (add_data pos data m))
  /\ forall x, missing x (part_vect_ (add_data pos data m)) <->
       missing x (part_vect_ m) /\ ~ (pos <= x < pos + zlen data).
Proof. apply add_data_parts. Qed.

(** [get_next_part] asks for a non-empty run of missing bytes of at most
    [max_fragment_size_], and adding just those bytes lowers the number of
    missing bytes by that amount: every answered query makes progress. *)
Theorem get_next_part_progress (m : t D) hi data :
  parts_in 0 hi (part_vect_ m) -> hi < 2147483648 -> 0 < max_fragment_size_ m ->
  is_parts_empty m = false -> zlen data = (get_next_part m).2 ->
  let '(pos, n) := get_next_part m in
  0 < n <= max_fragment_size_ m
  /\ (forall x, pos <= x < pos + n -> missing x (part_vect_ m))
  /\ parts_total (part_vect_ (add_data pos data m)) <= parts_total (part_vect_ m) - n.
Proof.
  intros Hp Hhi Hm He. destruct (part_vect_ m) as [|[a b] l] eqn:E.
  { unfold is_parts_empty in He. by rewrite E in He. }
  rewrite <- E in Hp. rewrite (next_part_spec _ _ _ _ _ E Hp Hhi). simpl. intros Hlen.
  pose proof Hp as Hp'. rewrite E in Hp'. destruct Hp' as (? & ? & ? & ?).
  split_and!; [lia|lia| |].
  - intros x Hx. apply missing_cons. left. lia.
  - replace (part_vect_ (add_data a data m)) with (remove_from_part_vect a (a + zlen data) (part_vect_ m)).
    + pose proof (remove_first_total a b (a + zlen data) 0 hi l ltac:(lia)) as Ht.
      rewrite E. rewrite <- E in Ht at 1. specialize (Ht Hp). simpl parts_total at 2 in Ht. lia.
    + destruct m; simpl in *. symmetry. eapply remove_u32; [exact Hp|lia|unfold is_u32; lia|lia].
Qed.

End properties.

End Fragmented_Message.

(** ** Concrete instances of the properties *)

Module Fragmented_Message_Witness.
Import Fragmented_Message QtRef.

Definition orig : list byte := [x01; x02; x03; x04; x05].

Lemma reassemble_any_order_witness :
  let frags := [(3, [x04; x05]); (1, [x02; x03; x04]); (0, [x01; x02])] in
  exists m, receive frags (make 7 16 128 (zlen orig) 0 : t mem) = Some m /\ is_parts_empty m = true
    /\ dev_content (data_device_ m) = orig /\ dev_pos (data_device_ m) = 0 /\ dev_is_open (data_device_ m) = true.
Proof.
  intros frags. destruct (reassemble_any_order (D:=mem) orig 7 16 128 0 frags
    ltac:(unfold zlen; simpl; lia) ltac:(repeat constructor; done)) as (m & E & Hiff & Hd).
  assert (is_parts_empty m = true) as He.
  { vm_compute in E. injection E as <-. reflexivity. }
  exists m. split; [exact E|]. split; [exact He|]. exact (Hd He).
Defined.

Lemma add_data_missing_witness :
  part_vect_ (add_data 4294967295 [x01; x02] (make 7 16 128 100 0 : t mem)) = [(0, 100)]
  /\ ~ missing 5 (part_vect_ (add_data 3 [x01; x02; x03] (make 7 16 128 100 0 : t mem))).
Proof.
  split; [reflexivity|].
  destruct (add_data_missing (make 7 16 128 100 0 : t mem) 100 3 [x01; x02; x03])
    as [_ H]; [simpl; lia | lia | unfold is_u32; lia | unfold zlen; simpl; lia |].
  rewrite H. unfold zlen. simpl. lia.
Defined.

Lemma get_next_part_progress_witness :
  let m := make 7 16 2 5 0 : t mem in
  get_next_part m = (0, 2)
  /\ parts_total (part_vect_ (add_data 0 [x01; x02] m)) <= parts_total (part_vect_ m) - 2.
Proof.
  intros m. assert (get_next_part m = (0, 2)) as E by reflexivity. split; [exact E|].
  assert (parts_in 0 5 (part_vect_ m)) as Hp by (simpl; lia).
  pose proof (get_next_part_progress m 5 [x01; x02] Hp ltac:(lia) ltac:(simpl; lia) eq_refl) as H.
  rewrite E in H. exact (proj2 (proj2 (H eq_refl))).
Defined.

End Fragmented_Message_Witness.
