(* ===== verification/FragmentOwner.v ===== *)
(** * Ownership of the device of a fragmented message

    The special members of [Fragmented_Message]
    ([src/Network/net_fragmented_message.cpp]): a message owns a device by a
    raw pointer, and a large one a temporary file with it. The devices that
    are allocated, the files that exist and the pointers of the objects are
    explicit. *)

From stdpp Require Import gmap.
From S2P Require Import Prelude.

Module Fragment_Owner.

Abbreviation object := nat.
Abbreviation pointer := nat.

(** A [QBuffer], or a [QFile] with its name. *)
Inductive device := Buffer | File (name : nat).

Record t := mk {
  devices : gmap pointer (device * bool);    (** allocated, and whether open *)
  disk : gset nat;                           (** files that exist *)
  next : pointer;
  objects : gmap object (option pointer);    (** [data_device_] *)
}.

Abbreviation OM := (M t).

Definition with_devices v s := mk v (disk s) (next s) (objects s).
Definition with_disk v s := mk (devices s) v (next s) (objects s).
Definition with_objects v s := mk (devices s) (disk s) (next s) v.

Definition init : t := mk ∅ ∅ 0 ∅.

(** The constructor; the file is made when it is opened. A name has the
    time in it, so it is new. *)
Definition construct (o : object) (full_size : Z) : OM unit :=
  modify (fun s => mk (<[next s := (if full_size <? 1000000 then Buffer else File (next s), false)]> (devices s))
                      (disk s) (S (next s)) (<[o := Some (next s)]> (objects s))).

(** A pointer is read, and a device through it. *)
Definition device_of (o : object) : OM (option pointer) :=
  let* p := gets (fun s => objects s !! o) in
  match p with Some p => ret p | None => undef end.

Definition deref (p : pointer) : OM (device * bool) :=
  let* d := gets (fun s => devices s !! p) in
  match d with Some d => ret d | None => undef end.

(** [data_device_->open] *)
Definition open (o : object) : OM unit :=
  let* p := device_of o in
  match p with
  | None => undef
  | Some p =>
      let* (d, _) := deref p in
      modify (fun s => with_devices (<[p := (d, true)]> (devices s))
                         (with_disk (match d with File n => {[n]} ∪ disk s | Buffer => disk s end) s))
  end.

(** [Fragmented_Message(Fragmented_Message&& o)] *)
Definition move_construct (self o : object) : OM unit :=
  let* p := device_of o in
  modify (fun s => with_objects (<[o := None]> (<[self := p]> (objects s))) s).

(** [operator =(Fragmented_Message&&)]: what [self] had is overwritten. *)
Definition move_assign (self o : object) : OM unit :=
  device_of self ;;;
  let* p := device_of o in
  modify (fun s => with_objects (<[o := None]> (<[self := p]> (objects s))) s).

(** The destructor; the object is gone. *)
Definition destroy (o : object) : OM unit :=
  let* p := device_of o in
  match p with
  | None => ret tt
  | Some p =>
      let* (d, _) := deref p in
      modify (fun s => with_devices (<[p := (d, false)]> (devices s)) s) ;;;
      match d with File n => modify (fun s => with_disk (disk s ∖ {[n]}) s) | Buffer => ret tt end ;;;
      modify (fun s => with_devices (delete p (devices s)) s)
  end ;;;
  modify (fun s => with_objects (delete o (objects s)) s).

(** [operator <] and [operator ==] compare ids. *)
Definition less (id o_id : Z) : bool := id <? o_id.
Definition equal (id o_id : Z) : bool := id =? o_id.

(** ** Invariant

    Every device belongs to one object, and every file to a device. *)

Record owned (s : t) : Prop := {
  ow_alive : forall o p, objects s !! o = Some (Some p) -> is_Some (devices s !! p);
  ow_once : forall o o' p, objects s !! o = Some (Some p) -> objects s !! o' = Some (Some p) -> o = o';
  ow_held : forall p, is_Some (devices s !! p) -> exists o, objects s !! o = Some (Some p);
  ow_name : forall p n b, devices s !! p = Some (File n, b) -> n = p;
  ow_disk : forall n, n ∈ disk s -> exists b, devices s !! n = Some (File n, b);
  ow_fresh : forall p, is_Some (devices s !! p) -> (p < next s)%nat;
}.

Lemma init_owned : owned init.
Proof.
  constructor; simpl; try set_solver; intros *; rewrite ?lookup_empty; done || by intros [].
Qed.

Lemma construct_owned s o size :
  owned s -> objects s !! o = None -> exists s', construct o size s = (Ret tt, s') /\ owned s'.
Proof.
  intros [A O H N K F] Ho. eexists. split; [reflexivity|].
  assert (devices s !! next s = None) as Hn by (destruct (devices s !! next s) eqn:E; [specialize (F (next s)); rewrite E in F; specialize (F ltac:(done)); lia|done]).
  assert (forall o', objects s !! o' <> Some (Some (next s))) as Hno by (intros o' E; apply A in E; rewrite Hn in E; by destruct E).
  constructor; simpl.
  - intros o' p E. rewrite lookup_insert in E. case_decide; simplify_eq; [by rewrite lookup_insert_eq|].
    rewrite lookup_insert_ne; [by eapply A|]. intros <-. by eapply Hno.
  - intros o1 o2 p E1 E2. destruct (decide (o = o1)) as [<-|H1], (decide (o = o2)) as [<-|H2]; [done| | |].
    + rewrite lookup_insert_eq in E1. rewrite lookup_insert_ne in E2 by done. injection E1 as <-. by apply Hno in E2.
    + rewrite lookup_insert_eq in E2. rewrite lookup_insert_ne in E1 by done. injection E2 as <-. by apply Hno in E1.
    + rewrite lookup_insert_ne in E1, E2 by done. by eapply O.
  - intros p. rewrite lookup_insert. case_decide as Hp; [subst; intros _; exists o; by rewrite lookup_insert_eq|].
    intros (o' & E)%H. exists o'. rewrite lookup_insert_ne; [done|]. intros <-. congruence.
  - intros p n b. rewrite lookup_insert. case_decide; [|apply N]. intros [= E _]. destruct (size <? 1000000); [done|]. by injection E as <-.
  - intros n Hin. destruct (K n Hin) as [b E]. exists b. rewrite lookup_insert_ne; [done|]. intros <-. congruence.
  - intros p. rewrite lookup_insert. case_decide as Hp; [subst; lia|]. intros E%F. lia.
Qed.

Lemma open_owned s o p :
  owned s -> objects s !! o = Some (Some p) -> exists s', open o s = (Ret tt, s') /\ owned s'.
Proof.
  intros [A O H N K F] Ho. destruct (A _ _ Ho) as [[d b] Hd]. unfold open, device_of, deref, bind, gets. rewrite Ho. simpl. rewrite Hd.
  eexists. split; [reflexivity|].
  assert (forall q, is_Some (<[p := (d, true)]> (devices s) !! q) <-> is_Some (devices s !! q)) as Hi.
  { intros q. rewrite lookup_insert. case_decide; subst; [rewrite Hd; naive_solver|done]. }
  constructor; simpl; try done.
  - intros o' q E. apply Hi. by eapply A.
  - intros q Hq%Hi. by apply H.
  - intros q n b'. rewrite lookup_insert. case_decide; subst; [|apply N]. intros [= -> _]. by eapply N.
  - intros n Hin. rewrite lookup_insert. case_decide as Hp; subst.
    + destruct d as [|n']; [|assert (n' = n) as -> by (by eapply N); by exists true].
      destruct (K n Hin) as [b' E]. congruence.
    + destruct d as [|n']; [by apply K|]. apply elem_of_union in Hin as [Hin|Hin]; [|by apply K].
      apply elem_of_singleton in Hin as ->. exfalso. apply Hp. symmetry. by eapply N.
  - intros q Hq%Hi. by apply F.
Qed.

(** A pointer moves from one object to another that has none. *)
Lemma move_owned s self o p :
  owned s -> objects s !! o = Some p -> self <> o -> (forall q, objects s !! self <> Some (Some q)) ->
  owned (with_objects (<[o := None]> (<[self := p]> (objects s))) s).
Proof.
  intros [A O H N K F] Ho Hne Hself. constructor; simpl; try done.
  - intros x q. rewrite !lookup_insert. repeat case_decide; subst; try done; [intros [= ->]; by eapply A|apply A].
  - intros x y q. rewrite !lookup_insert. repeat case_decide; subst; try done; intros E1 E2; simplify_eq.
    + exfalso. pose proof (O o y q Ho E2). congruence.
    + exfalso. pose proof (O o x q Ho E1). congruence.
    + by eapply O.
  - intros q (x & E)%H. destruct (decide (x = o)) as [->|Hx].
    + exists self. rewrite lookup_insert_ne, lookup_insert_eq by done. congruence.
    + exists x. rewrite lookup_insert_ne by done. rewrite lookup_insert_ne; [done|]. intros <-. by eapply Hself.
Qed.

(** An object goes with its device, and the file with the device. *)
Lemma drop_owned s o p dk :
  owned s -> objects s !! o = Some (Some p) -> (forall n, n ∈ dk -> n ∈ disk s /\ n <> p) ->
  owned (mk (delete p (devices s)) dk (next s) (delete o (objects s))).
Proof.
  intros [A O H N K F] Ho Hdk. constructor; simpl.
  - intros x q. rewrite lookup_delete. case_decide as Hx; [done|]. intros E. rewrite lookup_delete_ne; [by eapply A|].
    intros <-. apply Hx. by eapply O.
  - intros x y q. rewrite !lookup_delete. repeat case_decide; try done. apply O.
  - intros q. rewrite lookup_delete. case_decide; [by intros []|]. intros (x & E)%H. exists x.
    rewrite lookup_delete_ne; [done|]. intros <-. congruence.
  - intros q n b'. rewrite lookup_delete. case_decide; [done|apply N].
  - intros n [Hin Hne]%Hdk. destruct (K n Hin) as [b' E]. exists b'. by rewrite lookup_delete_ne.
  - intros q. rewrite lookup_delete. case_decide; [by intros []|apply F].
Qed.

Lemma destroy_owned s o p :
  owned s -> objects s !! o = Some p -> exists s', destroy o s = (Ret tt, s') /\ owned s' /\ objects s' = delete o (objects s).
Proof.
  intros Hown Ho. pose proof Hown as [A O H N K F]. unfold destroy, device_of, bind at 1, bind at 1, gets at 1. rewrite Ho. simpl.
  destruct p as [p|]; simpl.
  - destruct (A _ _ Ho) as [[d b] Hd]. unfold deref, bind, gets, modify. simpl. rewrite Hd. simpl.
    destruct d as [|n]; simpl; (eexists; split; [reflexivity|]); (split; [|done]);
      unfold with_objects, with_devices, with_disk; simpl; rewrite delete_insert_eq; apply drop_owned; try done.
    + intros n Hin. split; [done|]. intros ->. destruct (K p Hin) as [b' E]. congruence.
    + assert (n = p) as -> by (by eapply N). set_solver.
  - eexists. split; [reflexivity|]. split; [|done]. constructor; simpl; try done.
    + intros x q. rewrite lookup_delete. case_decide; [done|apply A].
    + intros x y q. rewrite !lookup_delete. repeat case_decide; try done. apply O.
    + intros q (x & E)%H. exists x. rewrite lookup_delete_ne; [done|]. intros <-. congruence.
Qed.

(** ** Lives of messages *)

Inductive op :=
| Op_construct (o : object) (full_size : Z)
| Op_open (o : object)
| Op_move (self o : object)
| Op_assign (self o : object)
| Op_destroy (o : object).

Definition run (a : op) : OM unit :=
  match a with
  | Op_construct o size => construct o size
  | Op_open o => open o
  | Op_move self o => move_construct self o
  | Op_assign self o => move_assign self o
  | Op_destroy o => destroy o
  end.

Fixpoint run_all (ops : list op) : OM unit :=
  match ops with [] => ret tt | a :: ops => run a ;;; run_all ops end.

(** An operation C++ and the code allow: an object is made once, used while
    it is there, and assigned to only after it was moved from. *)
Definition allowed (s : t) (a : op) : Prop :=
  match a with
  | Op_construct o _ => objects s !! o = None
  | Op_open o => exists p, objects s !! o = Some (Some p)
  | Op_move self o => objects s !! self = None /\ is_Some (objects s !! o)
  | Op_assign self o => objects s !! self = Some None /\ is_Some (objects s !! o) /\ self <> o
  | Op_destroy o => is_Some (objects s !! o)
  end.

Fixpoint all_allowed (ops : list op) (s : t) : Prop :=
  match ops with [] => True | a :: ops => allowed s a /\ all_allowed ops (run a s).2 end.

Lemma run_owned s a : owned s -> allowed s a -> exists s', run a s = (Ret tt, s') /\ owned s'.
Proof.
  intros Hown Ha. destruct a; simpl in *.
  - by apply construct_owned.
  - destruct Ha as [p Hp]. by eapply open_owned.
  - destruct Ha as [Hs [p Hp]]. unfold move_construct, device_of, bind, gets. rewrite Hp. eexists. split; [reflexivity|].
    apply move_owned; [done|done|intros ->; congruence|congruence].
  - destruct Ha as (Hs & [p Hp] & Hne). unfold move_assign, device_of, bind, gets. rewrite Hs. simpl. rewrite Hp.
    eexists. split; [reflexivity|]. apply move_owned; [done|done|done|congruence].
  - destruct Ha as [p Hp]. destruct (destroy_owned s o p Hown Hp) as (s' & ? & ? & _). by exists s'.
Qed.

(** The devices of fragmented messages are freed, and their temporary files
    removed, once: after any lives of messages that are made, opened, moved
    and destroyed, no pointer is dangling on the way, and when the last object
    is gone no device is allocated and no file is left. *)
Theorem devices_released ops :
  all_allowed ops init ->
  exists s, run_all ops init = (Ret tt, s)
    /\ (forall p, is_Some (devices s !! p) <-> exists o, objects s !! o = Some (Some p))
    /\ (objects s = ∅ -> devices s = ∅ /\ disk s = ∅).
Proof.
  assert (forall ops s0, owned s0 -> all_allowed ops s0 -> exists s, run_all ops s0 = (Ret tt, s) /\ owned s) as Hall.
  { clear ops. induction ops as [|a ops IH]; intros s0 Hown Ha; [by exists s0|]. destruct Ha as [Ha Hrest].
    destruct (run_owned s0 a Hown Ha) as (s1 & E & H1). rewrite E in Hrest. destruct (IH s1 H1 Hrest) as (s & E2 & H2).
    exists s. split; [|done]. cbn [run_all]. by rewrite (bind_Ret _ _ _ _ _ E). }
  intros Ha. destruct (Hall ops init init_owned Ha) as (s & E & [A O H N K F]). exists s. split; [done|].
  split; [intros p; split; [apply H|intros [o Ho]; by eapply A]|]. intros Hobj.
  assert (devices s = ∅) as Hd.
  { apply map_eq. intros p. rewrite lookup_empty. destruct (devices s !! p) eqn:Ep; [|done].
    destruct (H p) as [o Ho]; [by rewrite Ep|]. by rewrite Hobj, lookup_empty in Ho. }
  split; [done|]. apply leibniz_equiv. intros n. split; [|set_solver]. intros [b Hb]%K. by rewrite Hd, lookup_empty in Hb.
Qed.

End Fragment_Owner.

(** ** Concrete lives *)

Module Fragment_Owner_Witness.
Import Fragment_Owner.

(** A large message as [process_fragment_message] makes it: on the stack, moved
    into the map, opened, and erased. *)
Definition stored : list op := [Op_construct 0 2000000; Op_move 1 0; Op_destroy 0; Op_open 1; Op_destroy 1].

Lemma devices_released_witness :
  exists s, run_all stored init = (Ret tt, s) /\ devices s = ∅ /\ disk s = ∅.
Proof.
  assert (all_allowed stored init) as Ha.
  { split; [reflexivity|]. split; [split; [vm_compute; reflexivity|eexists; vm_compute; reflexivity]|].
    split; [eexists; vm_compute; reflexivity|]. split; [eexists; vm_compute; reflexivity|].
    split; [eexists; vm_compute; reflexivity|exact I]. }
  destruct (devices_released stored Ha) as (s & E & _ & He). exists s. split; [exact E|]. apply He.
  vm_compute in E. injection E as <-. vm_compute. reflexivity.
Defined.

(** Assigned to, a message that has a device loses it: the file stays. *)
Example assigned_over_leaks :
  let s := (run_all [Op_construct 0 2000000; Op_open 0; Op_construct 1 5; Op_assign 0 1; Op_destroy 0; Op_destroy 1] init).2 in
  objects s = ∅ /\ disk s = {[0%nat]}.
Proof. vm_compute. split; reflexivity. Qed.

End Fragment_Owner_Witness.
