(* ===== verification/ProtocolState.v ===== *)
(** * Net::Protocol: state, effects, waiting messages

    The members of [Net::Protocol] ([src/Network/net_protocol.h]), the world
    its member functions act on, and the operations on the list of messages
    waiting for an answer, a timeout or a fragment query
    ([src/Network/net_protocol.cpp]).

    Effects that leave the object (calls of the writer, of virtual functions
    and of callbacks) are events, in order. User code called back may throw;
    [env_throws] says which calls do. [std::chrono::system_clock::now()]
    takes the next value of [env_clock]. A [Message_Item] is owned by one
    holder at a time; where its last reference goes away its destructor runs
    ([destroy]). Log output is left out. *)

From S2P Require Import Prelude StdMap QtInterface MessageItem FragmentedMessage.

Module Cmd.
Definition ZERO : Z := 0.
Definition PING : Z := 1.
Definition REMOVE_FRAGMENT : Z := 2.
Definition CLOSE : Z := 3.
Definition USER_COMMAND : Z := 16.
End Cmd.

Module Flags.
Definition RESERVED : Z := 4.
Definition REPEATED : Z := 8.
Definition FRAGMENT_QUERY : Z := 16.
Definition FRAGMENT : Z := 32.
Definition ANSWER : Z := 64.
Definition COMPRESSED : Z := 128.
Definition FLAGS_ALL : Z :=
  Z.lor RESERVED (Z.lor REPEATED (Z.lor FRAGMENT_QUERY (Z.lor FRAGMENT (Z.lor ANSWER COMPRESSED)))).
End Flags.

(** The writer as far as the protocol sees its state: its title and receive
    time, and whether [protocol()] gives a protocol. *)
Record Protocol_Writer := {
  title_ : list byte;
  last_msg_recv_time_ : Z;
  has_protocol : bool;
}.

Definition set_last_msg_recv_time (value : Z) (w : Protocol_Writer) : Protocol_Writer :=
  {| title_ := title_ w; last_msg_recv_time_ := value; has_protocol := has_protocol w |}.

Definition set_title (title : list byte) (w : Protocol_Writer) : Protocol_Writer :=
  {| title_ := title; last_msg_recv_time_ := last_msg_recv_time_ w; has_protocol := has_protocol w |}.

Inductive Event (D : Type) :=
| Ev_write (m : Message_Item.t D)
| Ev_add_timeout_at (time_point data : Z)
| Ev_process_message (msg_id cmd : Z) (data : list byte)
| Ev_process_answer_message (msg_id cmd : Z) (data : list byte)
| Ev_lost_msg_detected (msg_id expected : Z)
| Ev_answer_func (f : callback) (data : list byte)
| Ev_timeout_func (f : callback)
| Ev_finally_func (f : callback) (is_state_ok : bool).
Arguments Ev_write {D}.
Arguments Ev_add_timeout_at {D}.
Arguments Ev_process_message {D}.
Arguments Ev_process_answer_message {D}.
Arguments Ev_lost_msg_detected {D}.
Arguments Ev_answer_func {D}.
Arguments Ev_timeout_func {D}.
Arguments Ev_finally_func {D}.

Record Protocol (D B : Type) := mkProtocol {
  next_rx_msg_id_ : Z;
  next_tx_msg_id_ : Z;
  lost_msg_list_ : StdMap.t Z;
  device_ : B;
  last_msg_send_time_ : Z;
  fragmented_messages_ : StdMap.t (Fragmented_Message.t D);
  waiting_messages_ : StdMap.t (Message_Item.t D);
  protocol_writer_ : option Protocol_Writer;
  packet_end_position_ : list Z;
}.
Arguments mkProtocol {D B}.
Arguments next_rx_msg_id_ {D B}.
Arguments next_tx_msg_id_ {D B}.
Arguments lost_msg_list_ {D B}.
Arguments device_ {D B}.
Arguments last_msg_send_time_ {D B}.
Arguments fragmented_messages_ {D B}.
Arguments waiting_messages_ {D B}.
Arguments protocol_writer_ {D B}.
Arguments packet_end_position_ {D B}.

(** The world a member function runs in. *)
Record World (D B : Type) := mkWorld {
  self : Protocol D B;
  env_clock : nat -> Z;
  env_throws : Event D -> bool;
  ticks : nat;
  events : list (Event D);
}.
Arguments mkWorld {D B}.
Arguments self {D B}.
Arguments env_clock {D B}.
Arguments env_throws {D B}.
Arguments ticks {D B}.
Arguments events {D B}.

Section state.
Context {D B : Type}.
Implicit Types (p : Protocol D B) (w : World D B).

(** Assignments to single members. *)
Definition with_next_rx v p : Protocol D B :=
  let '(mkProtocol _ tx l d t f m w e) := p in mkProtocol v tx l d t f m w e.
Definition with_next_tx v p : Protocol D B :=
  let '(mkProtocol rx _ l d t f m w e) := p in mkProtocol rx v l d t f m w e.
Definition with_lost v p : Protocol D B :=
  let '(mkProtocol rx tx _ d t f m w e) := p in mkProtocol rx tx v d t f m w e.
Definition with_device v p : Protocol D B :=
  let '(mkProtocol rx tx l _ t f m w e) := p in mkProtocol rx tx l v t f m w e.
Definition with_last_send v p : Protocol D B :=
  let '(mkProtocol rx tx l d _ f m w e) := p in mkProtocol rx tx l d v f m w e.
Definition with_fragmented v p : Protocol D B :=
  let '(mkProtocol rx tx l d t _ m w e) := p in mkProtocol rx tx l d t v m w e.
Definition with_waiting v p : Protocol D B :=
  let '(mkProtocol rx tx l d t f _ w e) := p in mkProtocol rx tx l d t f v w e.
Definition with_writer v p : Protocol D B :=
  let '(mkProtocol rx tx l d t f m _ e) := p in mkProtocol rx tx l d t f m v e.
Definition with_packet_end v p : Protocol D B :=
  let '(mkProtocol rx tx l d t f m w _) := p in mkProtocol rx tx l d t f m w v.

Definition on_self (f : Protocol D B -> Protocol D B) w : World D B :=
  mkWorld (f (self w)) (env_clock w) (env_throws w) (ticks w) (events w).

Abbreviation P := (M (World D B)).

Definition member {A} (f : Protocol D B -> A) : P A := gets (fun w => f (self w)).
Definition update (f : Protocol D B -> Protocol D B) : P unit := modify (on_self f).

(** [std::chrono::system_clock::now()]. *)
Definition now : P Z := fun w =>
  (Ret (env_clock w (ticks w)),
   mkWorld (self w) (env_clock w) (env_throws w) (S (ticks w)) (events w)).

Definition emit (e : Event D) : P unit :=
  modify (fun w => mkWorld (self w) (env_clock w) (env_throws w) (ticks w) (events w ++ [e])).

(** A call of user code, which may throw. *)
Definition call_user (e : Event D) : P unit :=
  emit e ;;; (let* th := gets (fun w => env_throws w e) in if th then throw else ret tt).

(** Run [m], then [cleanup] whether [m] returned or threw: a destructor at
    the end of a scope. *)
Definition guarded {A} (m : P A) (cleanup : P unit) : P A := fun w =>
  match m w with
  | (Ret a, w') => (cleanup ;;; ret a) w'
  | (Throw, w') => (cleanup ;;; throw) w'
  | r => r
  end.

(** The last reference to a message goes away. *)
Definition destroy (m : Message_Item.t D) : P unit :=
  match Message_Item.dtor m with
  | Some (f, ok) => emit (Ev_finally_func f ok)
  | None => ret tt
  end.

Definition destroy_opt (m : option (Message_Item.t D)) : P unit :=
  match m with Some m => destroy m | None => ret tt end.

(** *** Construction, ids, writer *)

Definition init `{QIODevice B} : Protocol D B :=
  {| next_rx_msg_id_ := 0; next_tx_msg_id_ := 0; lost_msg_list_ := [];
     device_ := default new_QBuffer (dev_open (new_QBuffer : B));
     last_msg_send_time_ := 0; fragmented_messages_ := []; waiting_messages_ := [];
     protocol_writer_ := None; packet_end_position_ := [] |}.

Definition reset_msg_id : P unit :=
  update (with_next_rx 0) ;;; update (with_next_tx 0).

Definition writer : P (option Protocol_Writer) := member protocol_writer_.

Definition set_writer (protocol_writer : option Protocol_Writer) : P unit :=
  update (with_writer protocol_writer).

Definition title : P (list byte) :=
  let* ptr := writer in
  ret (match ptr with Some wr => title_ wr | None => [] end).

Definition last_msg_send_time : P Z := member last_msg_send_time_.

(** *** Waiting messages *)

Definition value_or_0 (o : option Z) : Z := default 0 o.

Definition pop_waiting_message (check_func : Message_Item.t D -> bool) : P (option (Message_Item.t D)) :=
  let* ws := member waiting_messages_ in
  let '(r, ws') := StdMap.extract_first check_func ws in
  update (with_waiting ws') ;;; ret r.

Definition add_to_waiting (time_point : Z) (message : Message_Item.t D) : P unit :=
  let msg_id := value_or_0 (Message_Item.id_ message) in
  let* old := pop_waiting_message (fun item => value_or_0 (Message_Item.id_ item) =? msg_id) in
  destroy_opt old ;;;
  let* ws := member waiting_messages_ in
  let '(ws', inserted) := StdMap.emplace time_point message ws in
  update (with_waiting ws') ;;;
  (if inserted then ret tt else destroy message).

Definition pop_waiting_messages : P (list (Message_Item.t D)) :=
  let* t := now in
  let bound := t + milliseconds 20 in
  let* ws := member waiting_messages_ in
  let '(messages, ws') := StdMap.pop_until bound ws in
  update (with_waiting ws') ;;; ret messages.

Definition pop_waiting_answer (answer_id cmd : Z) : P (option (Message_Item.t D)) :=
  pop_waiting_message (fun item =>
    (value_or_0 (Message_Item.id_ item) =? answer_id) && (Message_Item.cmd item =? cmd)).

Definition pop_waiting_fragment (fragmanted_msg_id : Z) : P (option (Message_Item.t D)) :=
  pop_waiting_message (fun item => value_or_0 (Message_Item.id_ item) =? fragmanted_msg_id).

(** [send_message]: hand the message to the writer. Without a writer or a
    data device the message is dropped. *)
Definition send_message (msg : option (Message_Item.t D)) : P unit :=
  match msg with
  | None => ret tt
  | Some m =>
      match Message_Item.data_device_ m with
      | Some _ =>
          let* writer_ptr := writer in
          match writer_ptr with
          | Some _ => emit (Ev_write m)
          | None => destroy m
          end
      | None => destroy m
      end
  end.

Definition add_timeout_at (time_point data : Z) : P unit :=
  let* writer_ptr := writer in
  match writer_ptr with
  | Some _ => emit (Ev_add_timeout_at time_point data)
  | None => ret tt
  end.

End state.

Abbreviation PM D B := (M (World D B)).
