(* ===== verification/ProtocolSend.v ===== *)
(** * Sending: Protocol_Sender and prepare_packet_to_send

    [src/Network/net_protocol_sender.cpp] builds a message; the protocol's
    [prepare_packet_to_send] turns it into the bytes of one packet. *)

From S2P Require Import Prelude StdMap QtInterface MessageItem FragmentedMessage ProtocolState.

(** ** Net::Protocol_Sender *)

Module Protocol_Sender.

(** [protocol_] says whether the sender still refers to a protocol. *)
Record t (D : Type) := mk {
  protocol_ : bool;
  msg_ : Message_Item.t D;
}.
Arguments mk {D}.
Arguments protocol_ {D}.
Arguments msg_ {D}.

Section ops.
Context {D B : Type} `{QIODevice D}.

Definition open_device (d : D) : D :=
  if dev_is_open d then d else default d (dev_open d).

Definition make (p : bool) (command : Z) (answer_id : option Z) (device_ptr : option D) (resend_timeout : Z) : t D :=
  {| protocol_ := p;
     msg_ := Message_Item.make command answer_id
               (Some (open_device (default new_QBuffer device_ptr))) resend_timeout |}.

Definition on_msg (f : Message_Item.t D -> Message_Item.t D) (s : t D) : t D :=
  {| protocol_ := protocol_ s; msg_ := f (msg_ s) |}.

(** [operator <<] of the data stream: [bs] is the serialized item. *)
Definition stream_out (bs : list byte) (s : t D) : t D :=
  on_msg (fun m => Message_Item.with_data_device (dev_write bs <$> Message_Item.data_device_ m) m) s.

Definition release (s : t D) : t D := {| protocol_ := false; msg_ := msg_ s |}.

Definition set_fragment_size (fragment_size : Z) (s : t D) : t D :=
  on_msg (Message_Item.set_fragment_size fragment_size) s.

Definition set_min_compress_size (min_compress_size : Z) (s : t D) : t D :=
  on_msg (Message_Item.set_min_compress_size min_compress_size) s.

Definition set_data_device (data_dev : option D) (fragment_size : Z) (s : t D) : t D :=
  match data_dev with
  | None => s
  | Some d => on_msg (fun m => Message_Item.with_data_device (Some d) (Message_Item.set_fragment_size fragment_size m)) s
  end.

(** [answer]; the assertion forbids waiting for an answer to an answer. *)
Definition answer (answer_func : callback) (s : t D) : PM D B (t D) :=
  match Message_Item.answer_id_ (msg_ s) with
  | Some _ => undef
  | None =>
      let s := on_msg (Message_Item.with_answer_func (Some answer_func)) s in
      let* t := now in
      ret (if Message_Item.end_time_ (msg_ s) <? t
           then on_msg (Message_Item.with_end_time (t + seconds 10)) s else s)
  end.

Definition timeout (timeout_func : option callback) (timeout_duration resend_timeout : Z) (s : t D) : PM D B (t D) :=
  let s := on_msg (Message_Item.with_timeout_func timeout_func) s in
  let* t := now in
  ret (on_msg (fun m => Message_Item.with_resend_timeout resend_timeout
                          (Message_Item.with_end_time (t + timeout_duration) m)) s).

Definition finally (func : callback) (s : t D) : t D :=
  on_msg (Message_Item.with_finally_func (Some func)) s.

(** The destructor sends the message, its device positioned at the end. *)
Definition dtor (s : t D) : PM D B unit :=
  match protocol_ s, Message_Item.data_device_ (msg_ s) with
  | true, Some d =>
      send_message (Some (Message_Item.with_data_device (Some (dev_seek (dev_size d) d)) (msg_ s)))
  | _, _ => destroy (msg_ s)
  end.

End ops.

End Protocol_Sender.

Section send.
Context {D B : Type} `{QIODevice D} `{QDataStream} `{QtBytes}.

(** [Protocol::send] and [send_answer]: a sender on the writer's protocol. *)
Definition send_answer (cmd : Z) (msg_id : option Z) : PM D B (Protocol_Sender.t D) :=
  let* ptr := writer in
  ret (Protocol_Sender.make (match ptr with Some wr => has_protocol wr | None => false end)
         cmd msg_id None (milliseconds 3000)).

Definition send (cmd : Z) : PM D B (Protocol_Sender.t D) := send_answer cmd None.

Definition send_byte (cmd byte : Z) : PM D B unit :=
  let* s := send cmd in Protocol_Sender.dtor (Protocol_Sender.stream_out (put W8 byte) s).

Definition send_array (cmd : Z) (buff : list byte) : PM D B unit :=
  let* s := send cmd in Protocol_Sender.dtor (Protocol_Sender.stream_out (put_QByteArray buff) s).

(** ** prepare_packet_to_send *)

(** [add_raw_data_to_packet]: the array grows by [raw_size] bytes, the first of
    which are those read from the device. *)
Definition add_raw_data_to_packet (data : list byte) (pos max_data_size : Z) (device : D) : list byte * D :=
  let raw_size := Z.min max_data_size (u32 (dev_size device - pos)) in
  let '(bs, device') := dev_read raw_size (dev_seek pos device) in
  (data ++ bs ++ resize_bytes (raw_size - zlen bs), device').

(** The flags and the body of the packet before compression. *)
Definition packet_data (msg : Message_Item.t D) (dev : D) : Z * list byte * D :=
  let flags := Message_Item.flags msg in
  let fs := Message_Item.fragment_size msg in
  let '(flags, data) :=
    match Message_Item.answer_id_ msg with
    | Some a => (Z.lor flags Flags.ANSWER, put W8 a)
    | None => (flags, [])
    end in
  if fs <? dev_size dev then
    let flags := Z.lor flags Flags.FRAGMENT in
    let data := data ++ put W32 (u32 (dev_size dev)) in
    let data := data ++ put W32 (u32 (dev_pos dev)) in
    if dev_atEnd dev then (flags, data ++ put W32 fs, dev)
    else
      let '(data, dev') := add_raw_data_to_packet data (u32 (dev_pos dev)) fs dev in
      (flags, data, dev')
  else
    let '(data, dev') := add_raw_data_to_packet data 0 fs dev in
    (flags, data, dev').

(** Compress a body longer than [min_compress_size]. *)
Definition packet_compress (msg : Message_Item.t D) (flags : Z) (data : list byte) : Z * list byte :=
  if Message_Item.min_compress_size msg <? u32 (zlen data)
  then (Z.lor flags Flags.COMPRESSED, qCompress data)
  else (flags, data).

(** Header with a zero checksum, body, then the checksum of bytes 2 to 8. *)
Definition packet_bytes (id cmd flags : Z) (data : list byte) : list byte :=
  let packet := put W16 0 ++ put W8 id ++ put W8 cmd ++ put W8 flags ++ put_QByteArray data in
  put W16 (qChecksum (ztake 7 (zdrop 2 packet))) ++ zdrop 2 packet.

Definition take_msg_id (msg : Message_Item.t D) : PM D B Z :=
  match Message_Item.id_ msg with
  | Some i => ret i
  | None =>
      let* i := member next_tx_msg_id_ in
      update (with_next_tx (u8 (i + 1))) ;;; ret i
  end.

(** Time of the next look at a waiting message: the resend timeout, if it
    comes before the end time. *)
Definition wait_until (t : Z) (msg : Message_Item.t D) : Z :=
  if Message_Item.resend_timeout_ msg <? Message_Item.end_time_ msg - t
  then t + Message_Item.resend_timeout_ msg
  else Message_Item.end_time_ msg.

Definition prepare_packet_to_send (msg_ptr : option (Message_Item.t D)) : PM D B (list byte) :=
  match msg_ptr with
  | None => ret []
  | Some msg =>
  match Message_Item.data_device_ msg with
  | None => destroy msg ;;; ret []
  | Some dev =>
      let '(flags, data, dev') := packet_data msg dev in
      let msg := Message_Item.with_data_device (Some dev') msg in
      let* msg :=
        (if Message_Item.fragment_size msg <? dev_size dev
         then let* t := now in ret (Message_Item.with_end_time (t + seconds 10) msg)
         else ret msg) in
      let '(flags, data) := packet_compress msg flags data in
      let* id := take_msg_id msg in
      let msg := Message_Item.with_id (Some id) msg in
      let packet := packet_bytes id (Message_Item.cmd msg) flags data in
      let* t := now in
      update (with_last_send t) ;;;
      (if t <? Message_Item.end_time_ msg then
         let time_point := wait_until t msg in
         add_to_waiting time_point msg ;;; add_timeout_at time_point 0
       else destroy msg) ;;;
      ret packet
  end
  end.

End send.
