(* ===== verification/ProtocolRecv.v ===== *)
(** * Receiving a message: internal_process_message

    [src/Network/net_protocol.cpp] from [is_lost_message] to
    [process_wait_list]: sequence numbers and lost messages, decompression,
    dispatch on the flags, reassembly of fragments, fragment queries,
    resending and timeouts. *)

From S2P Require Import Prelude StdMap QtInterface MessageItem FragmentedMessage ProtocolState ProtocolSend.

Section recv.
Context {D B : Type} `{QIODevice D} `{QDataStream} `{QtBytes}.

(** [parse_out] of one integer: an exception when the bytes run out. *)
Definition parse (w : width) (bs : list byte) : PM D B (Z * list byte) :=
  match get w bs with Some r => ret r | None => throw end.

(** ** Lost messages *)

Definition is_lost_message (msg_id : Z) : PM D B bool :=
  let* lost := member lost_msg_list_ in
  match StdMap.find msg_id lost with
  | None => ret false
  | Some tp =>
      update (with_lost (StdMap.erase msg_id lost)) ;;;
      let* t := now in
      ret (t - tp <? seconds 10)
  end.

(** Which entries of the lost list [fill_lost_msg] gives up: those older than
    ten seconds, and those its window test rejects. *)
Definition lost_expired (msg_id t : Z) (id tp : Z) : bool :=
  let max_tp := t - seconds 10 in
  let min_id := 255 + u8 (msg_id - 100) in
  let max_id := 255 + msg_id in
  let tmp_id := 255 + id in
  (tp <? max_tp) || ((tmp_id <? min_id) && (max_id <? tmp_id)).

(** [while (msg_id != next_rx_msg_id_) lost_msg_list_.emplace(next_rx_msg_id_++, now)] *)
Fixpoint mark_lost (fuel : nat) (msg_id t next : Z) (lost : StdMap.t Z) : option (Z * StdMap.t Z) :=
  if msg_id =? next then Some (next, lost)
  else match fuel with
       | O => None
       | S fuel => mark_lost fuel msg_id t (u8 (next + 1)) (StdMap.emplace next t lost).1
       end.

Definition fill_lost_msg (msg_id : Z) : PM D B unit :=
  let* t := now in
  let* lost := member lost_msg_list_ in
  let expired := map fst (filter (fun p : Z * Z => lost_expired msg_id t p.1 p.2 = true) lost) in
  update (fun p => with_fragmented (fold_left (fun m k => StdMap.erase k m) expired (fragmented_messages_ p)) p) ;;;
  update (with_lost (StdMap.erase_if (lost_expired msg_id t) lost)) ;;;
  let* next := member next_rx_msg_id_ in
  when (next + 100 <? msg_id) (update (with_next_rx (u8 (msg_id - 100)))) ;;;
  let* next := member next_rx_msg_id_ in
  let* lost := member lost_msg_list_ in
  match mark_lost 256 msg_id t next lost with
  | Some (next', lost') => update (with_next_rx next') ;;; update (with_lost lost')
  | None => fun w => (Unfinished, w)
  end.

(** The test of [internal_process_message] for a message that is repeated or
    at most 99 ids old. *)
Definition is_old (msg_id flags next : Z) : bool :=
  has_flag flags Flags.REPEATED || ((msg_id <? next) && (next - msg_id <? 100)).

(** The sequence-number part: [false] when the message is dropped. *)
Definition check_msg_id (msg_id flags : Z) : PM D B bool :=
  let* next := member next_rx_msg_id_ in
  if is_old msg_id flags next then
    let* lost := is_lost_message msg_id in
    ret (if lost then true else negb (has_flag flags Flags.REPEATED))
  else
    when ((next <? msg_id) || (100 <? next - msg_id))
      (call_user (Ev_lost_msg_detected msg_id next) ;;; fill_lost_msg msg_id) ;;;
    let* next := member next_rx_msg_id_ in
    when (next + 1 <=? msg_id + 1) (update (with_next_rx (u8 (msg_id + 1)))) ;;;
    ret true.

(** ** Fragments *)

(** Send what [s] has collected, with [FRAGMENT_QUERY] set. *)
Definition query_sender (cmd : Z) (bs : list byte) : PM D B (Protocol_Sender.t D) :=
  let* s := send cmd in
  let s := Protocol_Sender.on_msg
             (fun m => Message_Item.set_flags (Z.lor (Message_Item.flags m) Flags.FRAGMENT_QUERY) m) s in
  ret (Protocol_Sender.stream_out bs s).

(** The answer callback of a waiting message is called once and cleared; the
    message is destroyed afterwards, also when the callback throws. *)
Definition call_answer (msg : Message_Item.t D) (f : callback) (data : list byte) : PM D B unit :=
  fun w =>
    match call_user (Ev_answer_func f data) w with
    | (Ret _, w') => destroy (Message_Item.with_answer_func None msg) w'
    | (Throw, w') => (destroy msg ;;; throw) w'
    | r => r
    end.

(** Deliver a complete fragmented message. *)
Definition deliver_fragmented (msg_id cmd : Z) (answer_id : option Z) (data : list byte) : PM D B unit :=
  match answer_id with
  | Some a =>
      let* waiting_msg := pop_waiting_answer a cmd in
      match waiting_msg with
      | Some wm =>
          match Message_Item.answer_func_ wm with
          | Some f => call_answer wm f data
          | None => guarded (call_user (Ev_process_answer_message msg_id cmd data)) (destroy wm)
          end
      | None => call_user (Ev_process_answer_message msg_id cmd data)
      end
  | None => call_user (Ev_process_message msg_id cmd data)
  end.

Definition grow_fragment_size (n : Z) : Z :=
  if n <? HELPZ_MAX_MESSAGE_DATA_SIZE then
    let n := u32 (n + n / 5) in
    if HELPZ_MAX_MESSAGE_DATA_SIZE <? n then HELPZ_MAX_MESSAGE_DATA_SIZE else n
  else n.

(** [emplace], or assign when the key is there. *)
Definition touch_lost (msg_id t : Z) (lost : StdMap.t Z) : StdMap.t Z :=
  match StdMap.emplace msg_id t lost with
  | (lost', true) => lost'
  | (lost', false) => StdMap.assign msg_id t lost'
  end.

(** The [FRAGMENT] branch, from the opened device of fragmented message
    [msg] on. [rest] is the data after the fragment header. *)
Definition process_fragment (msg_id cmd : Z) (answer_id : option Z) (full_size pos : Z)
    (rest : list byte) (msg : Fragmented_Message.t D) : PM D B unit :=
  let msg := match rest with [] => msg | _ => Fragmented_Message.add_data pos rest msg end in
  let store m := update (fun p => with_fragmented (StdMap.assign msg_id m (fragmented_messages_ p)) p) in
  if Fragmented_Message.is_parts_empty msg then
    let* out := query_sender cmd (put W8 msg_id ++ put W32 full_size
                                    ++ put W32 (Fragmented_Message.max_fragment_size_ msg)) in
    let dev := dev_seek 0 (Fragmented_Message.data_device_ msg) in
    let msg := Fragmented_Message.with_data_device dev msg in
    store msg ;;;
    guarded
      (deliver_fragmented msg_id cmd answer_id (dev_content dev) ;;;
       update (fun p => with_fragmented (StdMap.erase msg_id (fragmented_messages_ p)) p))
      (Protocol_Sender.dtor out)
  else
    let msg := Fragmented_Message.with_data_device (dev_close (Fragmented_Message.data_device_ msg)) msg in
    let* t := now in
    update (fun p => with_lost (touch_lost msg_id t (lost_msg_list_ p)) p) ;;;
    let msg := Fragmented_Message.with_last_part_time t msg in
    let msg := Fragmented_Message.with_max_fragment_size
                 (grow_fragment_size (Fragmented_Message.max_fragment_size_ msg)) msg in
    store msg ;;;
    let next_part := Fragmented_Message.get_next_part msg in
    let* out := query_sender cmd (put W8 msg_id ++ put W32 next_part.1 ++ put W32 next_part.2) in
    add_timeout_at (t + milliseconds 1505) Flags.FRAGMENT ;;;
    Protocol_Sender.dtor out.

(** Header of a fragment, lookup or creation of its message, opening of the
    device. *)
Definition process_fragment_message (msg_id cmd : Z) (answer_id : option Z) (ds : list byte) : PM D B unit :=
  let* (full_size, ds) := parse W32 ds in
  let* (pos, ds) := parse W32 ds in
  let* (max_fragment_size, ds) := (if full_size =? pos then parse W32 ds else ret (0, ds)) in
  let* frags := member fragmented_messages_ in
  if HELPZ_PROTOCOL_MAX_MESSAGE_SIZE <=? full_size then
    update (with_fragmented (StdMap.erase msg_id frags))
  else
    let* msg :=
      match StdMap.find msg_id frags with
      | Some msg => ret msg
      | None =>
          let max_fragment_size :=
            if (max_fragment_size =? 0) || (HELPZ_MAX_PACKET_DATA_SIZE <? max_fragment_size)
            then HELPZ_MAX_MESSAGE_DATA_SIZE else max_fragment_size in
          let* t := (if full_size <? 1000000 then ret 0 else now) in
          let msg := Fragmented_Message.make msg_id cmd max_fragment_size full_size t in
          update (with_fragmented (StdMap.emplace msg_id msg frags).1) ;;; ret msg
      end in
    match dev_open (Fragmented_Message.data_device_ msg) with
    | None => update (fun p => with_fragmented (StdMap.erase msg_id (fragmented_messages_ p)) p)
    | Some dev =>
        process_fragment msg_id cmd answer_id full_size pos ds (Fragmented_Message.with_data_device dev msg)
    end.

(** [process_fragment_query]: the peer asks for a part of a waiting message. *)
Definition process_fragment_query (fragmanted_msg_id pos fragmanted_size : Z) : PM D B unit :=
  let* msg := pop_waiting_fragment fragmanted_msg_id in
  let remove_unknown :=
    let* s := send Cmd.REMOVE_FRAGMENT in
    Protocol_Sender.dtor (Protocol_Sender.stream_out (put W8 fragmanted_msg_id) s) in
  match msg with
  | None => remove_unknown
  | Some m =>
      match Message_Item.data_device_ m with
      | Some d =>
          if pos <? dev_size d then
            send_message (Some (Message_Item.with_data_device (Some (dev_seek pos d))
                                  (Message_Item.set_fragment_size fragmanted_size m)))
          else match Message_Item.answer_func_ m with
               | Some _ => add_to_waiting (Message_Item.end_time_ m) m ;;; remove_unknown
               | None => remove_unknown ;;; destroy m
               end
      | None =>
          match Message_Item.answer_func_ m with
          | Some _ => add_to_waiting (Message_Item.end_time_ m) m ;;; remove_unknown
          | None => remove_unknown ;;; destroy m
          end
      end
  end.

(** ** Dispatch *)

Definition dispatch_message (msg_id cmd flags : Z) (data : list byte) : PM D B unit :=
  if cmd =? Cmd.REMOVE_FRAGMENT then
    let* (fragment_id, _) := parse W8 data in
    update (fun p => with_fragmented (StdMap.erase fragment_id (fragmented_messages_ p)) p)
  else if has_flag flags Flags.FRAGMENT_QUERY then
    let* (fragmanted_msg_id, ds) := parse W8 data in
    let* (pos, ds) := parse W32 ds in
    let* (fragmanted_size, _) := parse W32 ds in
    process_fragment_query fragmanted_msg_id pos fragmanted_size
  else if has_flag flags (Z.lor Flags.FRAGMENT Flags.ANSWER) then
    let* (answer_id, ds) :=
      (if has_flag flags Flags.ANSWER
       then let* (a, ds) := parse W8 data in ret (Some a, ds)
       else ret (None, data)) in
    if has_flag flags Flags.FRAGMENT then
      process_fragment_message msg_id cmd answer_id ds
    else
      match answer_id with
      | None => ret tt
      | Some a =>
          let* msg := pop_waiting_answer a cmd in
          match msg with
          | Some m =>
              match Message_Item.answer_func_ m with
              | Some f => call_answer m f (zdrop 1 data)
              | None => destroy m
              end
          | None => ret tt
          end
      end
  else if cmd =? Cmd.PING then
    let* s := send_answer cmd (Some msg_id) in Protocol_Sender.dtor s
  else call_user (Ev_process_message msg_id cmd data).

Definition internal_process_message (msg_id cmd flags : Z) (data : list byte) : PM D B unit :=
  let* accepted := check_msg_id msg_id flags in
  if negb accepted then ret tt
  else if (zlen data =? 0) && has_flag flags (Z.lor Flags.COMPRESSED Flags.FRAGMENT) then ret tt
  else if has_flag flags Flags.COMPRESSED then
    let data := qUncompress data in
    match data with [] => throw | _ => dispatch_message msg_id cmd flags data end
  else dispatch_message msg_id cmd flags data.

(** ** Timers *)

Fixpoint for_each {A} (f : A -> PM D B unit) (l : list A) : PM D B unit :=
  match l with [] => ret tt | x :: l' => f x ;;; for_each f l' end.

Definition shrink_fragment_size (n : Z) : Z :=
  let n := n / 2 in if n <? 128 then 128 else n.

(** One round of the fragment timer for the message at key [k]. *)
Definition requery_fragment (t : Z) (k : Z) : PM D B unit :=
  let* frags := member fragmented_messages_ in
  match StdMap.find k frags with
  | None => ret tt
  | Some msg =>
      if negb (Fragmented_Message.is_parts_empty msg)
         && (milliseconds 1500 <=? t - Fragmented_Message.last_part_time_ msg) then
        let msg := Fragmented_Message.with_max_fragment_size
                     (shrink_fragment_size (Fragmented_Message.max_fragment_size_ msg)) msg in
        update (fun p => with_lost (StdMap.emplace (Fragmented_Message.id_ msg) t (lost_msg_list_ p)).1 p) ;;;
        let msg := Fragmented_Message.with_last_part_time t msg in
        update (with_fragmented (StdMap.assign k msg frags)) ;;;
        let next_part := Fragmented_Message.get_next_part msg in
        let* out := query_sender (Fragmented_Message.cmd_ msg)
                      (put W8 (Fragmented_Message.id_ msg) ++ put W32 next_part.1 ++ put W32 next_part.2) in
        add_timeout_at (t + milliseconds 1505) Flags.FRAGMENT ;;;
        Protocol_Sender.dtor out
      else ret tt
  end.

(** A waiting message whose time has come: send it again, or tell that it
    timed out. The messages not handed on are destroyed afterwards. *)
Definition resend_or_timeout (t : Z) (msg : Message_Item.t D) : PM D B (option (Message_Item.t D)) :=
  match Message_Item.data_device_ msg with
  | Some _ =>
      if t <? Message_Item.end_time_ msg then
        let msg := Message_Item.set_fragment_size (Message_Item.fragment_size msg / 2) msg in
        let msg := Message_Item.set_flags (Z.lor (Message_Item.flags msg) Flags.REPEATED) msg in
        send_message (Some msg) ;;; ret None
      else
        match Message_Item.timeout_func_ msg with
        | Some f => call_user (Ev_timeout_func f) ;;; ret (Some msg)
        | None => ret (Some msg)
        end
  | None =>
      match Message_Item.timeout_func_ msg with
      | Some f => call_user (Ev_timeout_func f) ;;; ret (Some msg)
      | None => ret (Some msg)
      end
  end.

(** The loop over the popped messages; [kept] are those still in the vector,
    destroyed with it, also when a timeout callback throws. *)
Fixpoint resend_all (t : Z) (messages kept : list (Message_Item.t D)) : PM D B unit :=
  match messages with
  | [] => for_each destroy (rev kept)
  | msg :: rest =>
      fun w =>
        match resend_or_timeout t msg w with
        | (Ret r, w') => resend_all t rest (match r with Some m => m :: kept | None => kept end) w'
        | (Throw, w') => (for_each destroy (rev kept ++ msg :: rest) ;;; throw) w'
        | (Undef, w') => (Undef, w')
        | (Unfinished, w') => (Unfinished, w')
        end
  end.

Definition process_wait_list (data : Z) : PM D B unit :=
  if data =? Flags.FRAGMENT then
    let* t := now in
    let* frags := member fragmented_messages_ in
    for_each (requery_fragment t) (StdMap.keys frags)
  else
    let* messages := pop_waiting_messages in
    let* t := now in
    resend_all t messages [].

End recv.
