(* ===== verification/ProtocolStream.v ===== *)
(** * The receive stream: process_stream and process_bytes

    [src/Network/net_protocol.cpp]: the bytes of incoming packets are
    appended to the buffer [device_]; messages are parsed from its front.
    [packet_end_position_] holds the sizes of the packets whose bytes are in
    the buffer. The message handler is a parameter here; the protocol uses
    [internal_process_message]. *)

From S2P Require Import Prelude StdMap QtInterface MessageItem FragmentedMessage ProtocolState ProtocolSend ProtocolRecv.

Section stream.
Context {D B : Type} `{QIODevice B, !QBuffer B} `{QDataStream} `{QtBytes}.
Context (handler : Z -> Z -> Z -> list byte -> PM D B unit).

(** [msg_stream_ >> v]: a read of the device; a value past the end is 0. *)
Definition stream_read (w : width) : PM D B Z :=
  let* b := member device_ in
  let '(bs, b') := dev_read (wbytes w) b in
  update (with_device b') ;;;
  ret (match get w bs with Some (v, _) => v | None => 0 end).

Definition seek_device (p : Z) : PM D B unit :=
  update (fun s => with_device (dev_seek p (device_ s)) s).

(** [msg_stream_ >> checksum >> msg_id >> cmd >> flags >> buffer_size] *)
Definition read_header : PM D B (Z * Z * Z * Z * Z) :=
  let* checksum := stream_read W16 in
  let* msg_id := stream_read W8 in
  let* cmd := stream_read W8 in
  let* flags := stream_read W8 in
  let* buffer_size := stream_read W32 in
  ret (checksum, msg_id, cmd, flags, buffer_size).

(** One iteration of the loop: [Some r] ends the function with [r]. *)
Definition process_one : PM D B (option bool) :=
  let* b := member device_ in
  let pos := dev_pos b in
  let* (checksum, msg_id, cmd, flags, buffer_size) := read_header in
  let checksum_ok := checksum =? qChecksum (ztake 7 (zdrop (pos + 2) (dev_content b))) in
  let buffer_size := if buffer_size =? 4294967295 then 0 else buffer_size in
  if HELPZ_PROTOCOL_MAX_MESSAGE_SIZE <? buffer_size then
    seek_device (dev_size b) ;;; ret (Some true)
  else if negb checksum_ok then
    seek_device pos ;;; ret (Some false)
  else
    let* b' := member device_ in
    if dev_bytesAvailable b' <? buffer_size then
      seek_device pos ;;; ret (Some true)
    else
      let* ok := try_catch
        (handler msg_id cmd flags (ztake buffer_size (zdrop (pos + 9) (dev_content b))) ;;; ret true)
        (ret false) in
      if ok then seek_device (pos + 9 + buffer_size) ;;; ret None
      else ret (Some false).

Fixpoint process_stream_loop (fuel : nat) : PM D B bool :=
  let* b := member device_ in
  if 9 <=? dev_bytesAvailable b then
    match fuel with
    | O => fun w => (Unfinished, w)
    | S fuel =>
        let* r := process_one in
        match r with Some r => ret r | None => process_stream_loop fuel end
    end
  else ret true.

(** Each iteration that goes on consumes at least nine bytes, so the number
    of bytes in the buffer is enough fuel. *)
Definition process_stream : PM D B bool :=
  let* b := member device_ in
  process_stream_loop (length (dev_content b)).

(** The queue without the packets that end at or before [pos], and the
    position inside the first one left. *)
Fixpoint drop_processed (pos : Z) (ends : list Z) : Z * list Z :=
  match ends with
  | [] => (pos, [])
  | e :: ends' => if e <=? pos then drop_processed (pos - e) ends' else (pos, ends)
  end.

(** The loop of [process_bytes] after a failed [process_stream]: drop the
    packets before the position from the queue, the first packet left from
    queue and buffer, and try again. [front()] of an empty queue is
    undefined. Every round takes a packet from the queue, so its length is
    enough fuel. *)
Fixpoint retry_loop (fuel : nat) : PM D B unit :=
  let* ok := process_stream in
  let* ends := member packet_end_position_ in
  match ok, ends with
  | true, _ => ret tt
  | false, [] => ret tt
  | false, _ =>
    match fuel with
    | O => fun w => (Unfinished, w)
    | S fuel =>
      let* b := member device_ in
      match (drop_processed (dev_pos b) ends).2 with
      | [] => update (with_packet_end []) ;;; undef
      | front :: ends' =>
          seek_device 0 ;;;
          update (fun s => with_device (buffer_remove front (device_ s)) s) ;;;
          update (with_packet_end ends') ;;;
          retry_loop fuel
      end
    end
  end.

(** The end of [process_bytes]: drop what was processed. *)
Definition trim_buffer : PM D B unit :=
  let* b := member device_ in
  let* ends := member packet_end_position_ in
  let '(pos, ends) := drop_processed (dev_pos b) ends in
  let ends := match ends with
              | e :: ends' => if pos =? 0 then ends else (e - pos) :: ends'
              | [] => []
              end in
  update (with_packet_end ends) ;;;
  (if dev_bytesAvailable b =? 0 then update (with_device (buffer_clear b))
   else update (with_device (buffer_remove (dev_pos b) b))).

Definition process_bytes (data : list byte) : PM D B unit :=
  if zlen data =? 0 then ret tt
  else
    let* writer_ptr := writer in
    (match writer_ptr with
     | Some wr => let* t := now in update (with_writer (Some (set_last_msg_recv_time t wr)))
     | None => ret tt
     end) ;;;
    update (fun s => with_packet_end (packet_end_position_ s ++ [zlen data]) s) ;;;
    let* b := member device_ in
    seek_device (dev_size b) ;;;
    update (fun s => with_device (dev_write data (device_ s)) s) ;;;
    seek_device 0 ;;;
    let* ends := member packet_end_position_ in
    retry_loop (length ends) ;;;
    trim_buffer.

End stream.

Definition protocol_process_bytes {D B : Type} `{QIODevice D} `{QIODevice B, !QBuffer B} `{QDataStream} `{QtBytes}
    (data : list byte) : PM D B unit :=
  process_bytes internal_process_message data.
