(* ===== verification/ProtocolFrame.v ===== *)
(** * The message handler does not touch the receive buffer

    [process_stream] keeps parsing [device_] after each call of
    [internal_process_message], with a position it computed before the call.
    That is sound because the handler neither reads nor changes [device_] and
    [packet_end_position_]: it commutes with replacing them. *)

From S2P Require Import Prelude StdMap QtInterface MessageItem FragmentedMessage ProtocolState ProtocolSend ProtocolRecv.

Section frame.
Context {D B : Type}.

(** Replace the receive buffer and the packet queue. *)
Definition rx_of (b : B) (ends : list Z) (p : Protocol D B) : Protocol D B :=
  with_packet_end ends (with_device b p).
Definition set_rx (b : B) (ends : list Z) (w : World D B) : World D B := on_self (rx_of b ends) w.

Definition framed {A} (m : PM D B A) : Prop :=
  forall b ends w, m (set_rx b ends w) = let '(o, w') := m w in (o, set_rx b ends w').

Lemma set_rx_id w : set_rx (device_ (self w)) (packet_end_position_ (self w)) w = w.
Proof. destruct w as [[]]. reflexivity. Qed.

Lemma set_rx_set_rx b e b' e' w : set_rx b e (set_rx b' e' w) = set_rx b e w.
Proof. destruct w as [[]]. reflexivity. Qed.

Lemma set_rx_device b e w : device_ (self (set_rx b e w)) = b.
Proof. by destruct w as [[]]. Qed.

Lemma set_rx_ends b e w : packet_end_position_ (self (set_rx b e w)) = e.
Proof. by destruct w as [[]]. Qed.

(** A framed computation leaves buffer and queue as they were. *)
Lemma framed_preserves {A} (m : PM D B A) w :
  framed m ->
  device_ (self (m w).2) = device_ (self w)
  /\ packet_end_position_ (self (m w).2) = packet_end_position_ (self w).
Proof.
  intros Hf. specialize (Hf (device_ (self w)) (packet_end_position_ (self w)) w).
  rewrite set_rx_id in Hf. destruct (m w) as [o w'] eqn:E. simplify_eq. simpl.
  rewrite Hf. by rewrite set_rx_device, set_rx_ends.
Qed.

Lemma framed_ret {A} (a : A) : framed (ret a).
Proof. done. Qed.

Lemma framed_throw {A} : framed (throw : PM D B A).
Proof. done. Qed.

Lemma framed_undef {A} : framed (undef : PM D B A).
Proof. done. Qed.

Lemma framed_unfinished {A} : framed (fun w => (Unfinished, w) : outcome A * World D B).
Proof. done. Qed.

Lemma framed_bind {A A'} (m : PM D B A) (k : A -> PM D B A') :
  framed m -> (forall a, framed (k a)) -> framed (bind m k).
Proof.
  intros Hm Hk b e w. unfold bind. rewrite Hm. destruct (m w) as [[a| | |] w']; try done.
  apply Hk.
Qed.

Lemma framed_member {A} (f : Protocol D B -> A) :
  (forall b e p, f (rx_of b e p) = f p) -> framed (member f).
Proof. intros Hf b e w. unfold member, gets. simpl. by rewrite Hf. Qed.

Lemma framed_update (f : Protocol D B -> Protocol D B) :
  (forall b e p, f (rx_of b e p) = rx_of b e (f p)) -> framed (update f).
Proof.
  intros Hf b e w. unfold update, modify, set_rx, on_self. simpl. by rewrite Hf.
Qed.

Lemma framed_now : framed (now : PM D B Z).
Proof. done. Qed.

Lemma framed_emit (ev : Event D) : framed (emit ev : PM D B unit).
Proof. done. Qed.

Lemma framed_call_user (ev : Event D) : framed (call_user ev : PM D B unit).
Proof. intros b e w. unfold call_user, bind, emit, gets, modify. simpl. by destruct (env_throws w ev). Qed.

Lemma framed_when (c : bool) (m : PM D B unit) : framed m -> framed (when c m).
Proof. by destruct c. Qed.

Lemma framed_guarded {A} (m : PM D B A) (c : PM D B unit) : framed m -> framed c -> framed (guarded m c).
Proof.
  intros Hm Hc b e w. unfold guarded. rewrite Hm.
  destruct (m w) as [[a| | |] w']; try done; apply (framed_bind c); auto using framed_ret, framed_throw.
Qed.

Lemma framed_destroy m : framed (destroy m : PM D B unit).
Proof. unfold destroy. destruct (Message_Item.dtor m) as [[]|]; auto using framed_emit, framed_ret. Qed.

End frame.

#[export] Hint Resolve framed_ret framed_throw framed_undef framed_unfinished framed_now framed_emit
  framed_call_user framed_destroy : framed.

(** Go through a computation combinator by combinator. *)
Ltac framed_step :=
  match goal with
  | |- framed (bind _ _) => apply framed_bind; [|intros ?]
  | |- framed (member _) => apply framed_member; by intros ? ? []
  | |- framed (update _) => apply framed_update; by intros ? ? []
  | |- framed (when _ _) => apply framed_when
  | |- framed (guarded _ _) => apply framed_guarded
  | |- framed (match ?x with _ => _ end) => destruct x
  | |- framed (let '_ := ?x in _) => destruct x
  | |- framed _ => solve [eauto 3 with framed]
  end.
Ltac framed := intros; cbv zeta; repeat framed_step.

Section handler_frame.
Context {D B : Type} `{QIODevice D} `{QDataStream} `{QtBytes}.

Lemma framed_writer : framed (writer : PM D B _).
Proof. unfold writer. framed. Qed.
#[local] Hint Resolve framed_writer : framed.

Lemma framed_send_message m : framed (send_message m : PM D B unit).
Proof. unfold send_message. framed. Qed.

Lemma framed_pop f : framed (pop_waiting_message f : PM D B _).
Proof. unfold pop_waiting_message. framed. Qed.
#[local] Hint Resolve framed_send_message framed_pop : framed.

Lemma framed_destroy_opt m : framed (destroy_opt m : PM D B unit).
Proof. unfold destroy_opt. framed. Qed.
#[local] Hint Resolve framed_destroy_opt : framed.

Lemma framed_add_to_waiting t m : framed (add_to_waiting t m : PM D B unit).
Proof. unfold add_to_waiting. framed. Qed.

Lemma framed_add_timeout_at t x : framed (add_timeout_at t x : PM D B unit).
Proof. unfold add_timeout_at. framed. Qed.

Lemma framed_sender_dtor s : framed (Protocol_Sender.dtor s : PM D B unit).
Proof. unfold Protocol_Sender.dtor. framed. Qed.

Lemma framed_send_answer c a : framed (send_answer c a : PM D B _).
Proof. unfold send_answer. framed. Qed.

Lemma framed_send c : framed (send c : PM D B _).
Proof. apply framed_send_answer. Qed.
#[local] Hint Resolve framed_add_to_waiting framed_add_timeout_at framed_sender_dtor framed_send_answer
  framed_send : framed.

Lemma framed_query_sender c bs : framed (query_sender c bs : PM D B _).
Proof. unfold query_sender. framed. Qed.

Lemma framed_call_answer m f data : framed (call_answer m f data : PM D B unit).
Proof.
  intros b e w. unfold call_answer. rewrite framed_call_user.
  destruct (call_user (Ev_answer_func f data) w) as [[a| | |] w']; try done.
  - apply framed_destroy.
  - apply (framed_bind (destroy m)); auto with framed.
Qed.

Lemma framed_parse w bs : framed (parse w bs : PM D B _).
Proof. unfold parse. framed. Qed.
#[local] Hint Resolve framed_query_sender framed_call_answer framed_parse : framed.

Lemma framed_pop_answer a c : framed (pop_waiting_answer a c : PM D B _).
Proof. apply framed_pop. Qed.
#[local] Hint Resolve framed_pop_answer : framed.

Lemma framed_deliver i c a data : framed (deliver_fragmented i c a data : PM D B unit).
Proof. unfold deliver_fragmented. framed. Qed.

Lemma framed_is_lost_message i : framed (is_lost_message i : PM D B bool).
Proof. unfold is_lost_message. framed. Qed.

Lemma framed_fill_lost_msg i : framed (fill_lost_msg i : PM D B unit).
Proof. unfold fill_lost_msg. framed. Qed.
#[local] Hint Resolve framed_deliver framed_is_lost_message framed_fill_lost_msg : framed.

Lemma framed_check_msg_id i f : framed (check_msg_id i f : PM D B bool).
Proof. unfold check_msg_id. framed. Qed.

Lemma framed_process_fragment i c a fs pos rest m : framed (process_fragment i c a fs pos rest m : PM D B unit).
Proof. unfold process_fragment. framed. Qed.
#[local] Hint Resolve framed_check_msg_id framed_process_fragment : framed.

Lemma framed_process_fragment_message i c a ds : framed (process_fragment_message i c a ds : PM D B unit).
Proof. unfold process_fragment_message. framed. Qed.

Lemma framed_process_fragment_query i pos n : framed (process_fragment_query i pos n : PM D B unit).
Proof. unfold process_fragment_query, pop_waiting_fragment. framed. Qed.
#[local] Hint Resolve framed_process_fragment_message framed_process_fragment_query : framed.

Lemma framed_dispatch_message i c f data : framed (dispatch_message i c f data : PM D B unit).
Proof. unfold dispatch_message. framed. Qed.
#[local] Hint Resolve framed_dispatch_message : framed.

Lemma framed_internal_process_message i c f data :
  framed (internal_process_message i c f data : PM D B unit).
Proof. unfold internal_process_message. framed. Qed.

End handler_frame.

#[export] Hint Resolve framed_internal_process_message framed_writer : framed.
