(* ===== verification/StreamProofs.v ===== *)
(** * Correctness of the receive stream

    Messages are cut out of the byte stream exactly as they were encoded,
    however the stream is divided into packets; a packet with a wrong
    checksum is dropped without effect. *)

From S2P Require Import Prelude StdMap QtInterface MessageItem FragmentedMessage ProtocolState ProtocolSend ProtocolRecv ProtocolFrame ProtocolStream.

(** ** The packet format *)

Section packet.
Context `{HS : QDataStreamLaws} `{QtBytes}.

Definition header (id cmd flags n : Z) : list byte :=
  put W8 id ++ put W8 cmd ++ put W8 flags ++ put W32 n.

(** The size field: 0xffffffff stands for an array without bytes. *)
Definition size_field (n : Z) : Z := if n =? 4294967295 then 0 else n.

Lemma header_len id cmd flags n : zlen (header id cmd flags n) = 7.
Proof. unfold header. autorewrite with helpz. rewrite !put_len. reflexivity. Qed.

Lemma packet_shape id cmd flags data :
  zlen data < 4294967295 ->
  exists n, packet_bytes id cmd flags data =
              put W16 (qChecksum (header id cmd flags n)) ++ header id cmd flags n ++ data
            /\ size_field n = zlen data /\ 0 <= n < 4294967296.
Proof.
  intros Hd. pose proof (zlen_nonneg data).
  assert (forall n, put_QByteArray data = put W32 n ++ data ->
    packet_bytes id cmd flags data =
      put W16 (qChecksum (header id cmd flags n)) ++ header id cmd flags n ++ data) as E.
  { intros n En. unfold packet_bytes. rewrite En.
    rewrite zdrop_app_exact by by rewrite put_len.
    replace (put W8 id ++ put W8 cmd ++ put W8 flags ++ put W32 n ++ data)
      with (header id cmd flags n ++ data) by (unfold header; by rewrite <- !app_assoc).
    by rewrite ztake_app_exact by by rewrite header_len. }
  unfold size_field. destruct (put_QByteArray_spec data) as [En|[-> En]].
  - exists (zlen data). split; [by apply E|]. case_cmp; lia.
  - exists 4294967295. split; [apply E; by rewrite En, app_nil_r|]. split; [reflexivity|lia].
Qed.

Lemma packet_len id cmd flags data :
  zlen data < 4294967295 -> zlen (packet_bytes id cmd flags data) = 9 + zlen data.
Proof.
  intros Hd. destruct (packet_shape id cmd flags data Hd) as (n & -> & _).
  rewrite !zlen_app, header_len, put_len. simpl. lia.
Qed.

End packet.

(** A message on the wire: id, command, flags, body. *)
Record wire_msg := { wm_id : Z; wm_cmd : Z; wm_flags : Z; wm_data : list byte }.

Definition wire_ok (m : wire_msg) : Prop :=
  is_u8 (wm_id m) /\ is_u8 (wm_cmd m) /\ is_u8 (wm_flags m)
  /\ zlen (wm_data m) <= HELPZ_PROTOCOL_MAX_MESSAGE_SIZE.

Section stream_proofs.
Context {D B : Type} `{HBL : QIODeviceLaws B} `{HQ : !QBuffer B} `{HQL : !QBufferLaws B}
  `{HSL : QDataStreamLaws} `{HCL : QtBytesLaws}.
Context (handler : Z -> Z -> Z -> list byte -> PM D B unit).
Hypothesis handler_framed : forall i c f d, framed (handler i c f d).
Implicit Types (w : World D B) (b : B).

Definition encode (m : wire_msg) : list byte :=
  packet_bytes (wm_id m) (wm_cmd m) (wm_flags m) (wm_data m).
Definition encode_all (ms : list wire_msg) : list byte := concat (map encode ms).

Lemma encode_all_cons m ms : encode_all (m :: ms) = encode m ++ encode_all ms.
Proof. reflexivity. Qed.

(** A beginning of a message: not enough to process it. *)
Definition incomplete (r : list byte) : Prop :=
  zlen r < 9 \/ exists m k, wire_ok m /\ 9 <= k < zlen (encode m) /\ r = ztake k (encode m).

Definition handle (m : wire_msg) : PM D B unit :=
  handler (wm_id m) (wm_cmd m) (wm_flags m) (wm_data m).
Definition handle_all (ms : list wire_msg) : PM D B unit := for_each handle ms.

Lemma encode_len m : wire_ok m -> zlen (encode m) = 9 + zlen (wm_data m).
Proof.
  intros (_ & _ & _ & Hl). unfold HELPZ_PROTOCOL_MAX_MESSAGE_SIZE in Hl. apply packet_len. lia.
Qed.

(** ** Single steps *)

Lemma member_set_rx {A} (f : Protocol D B -> A) b e w :
  member f (set_rx b e w) = (Ret (f (rx_of b e (self w))), set_rx b e w).
Proof. done. Qed.

Lemma rx_of_device b e (p : Protocol D B) : device_ (rx_of b e p) = b.
Proof. by destruct p. Qed.

Lemma rx_of_ends b e (p : Protocol D B) : packet_end_position_ (rx_of b e p) = e.
Proof. by destruct p. Qed.

Lemma update_device_set_rx (g : B -> B) b e w :
  update (fun s => with_device (g (device_ s)) s) (set_rx b e w) = (Ret tt, set_rx (g b) e w).
Proof. by destruct w as [[]]. Qed.

Lemma update_device'_set_rx b' b e w :
  update (with_device b') (set_rx b e w) = (Ret tt, set_rx b' e w).
Proof. by destruct w as [[]]. Qed.

Lemma update_ends_set_rx e' b e w :
  update (with_packet_end e') (set_rx b e w) = (Ret tt, set_rx b e' w).
Proof. by destruct w as [[]]. Qed.

Lemma seek_set_rx p b e w : seek_device p (set_rx b e w) = (Ret tt, set_rx (dev_seek p b) e w).
Proof. apply (update_device_set_rx (dev_seek p)). Qed.

(** Reading an integer the stream continues with. *)
Lemma stream_read_ok wd v rest b e w :
  dev_is_open b = true -> zdrop (dev_pos b) (dev_content b) = put wd v ++ rest -> 0 <= v < wbound wd ->
  exists b', stream_read wd (set_rx b e w) = (Ret v, set_rx b' e w)
    /\ dev_content b' = dev_content b /\ dev_pos b' = dev_pos b + wbytes wd
    /\ zdrop (dev_pos b') (dev_content b') = rest /\ dev_is_open b' = true.
Proof.
  intros Ho Hb Hv. pose proof (dev_pos_nonneg b). assert (0 <= wbytes wd) by (destruct wd; simpl; lia).
  exists (dev_read (wbytes wd) b).2.
  assert ((dev_read (wbytes wd) b).1 = put wd v) as Er.
  { rewrite read_bytes by done. rewrite Hb. apply ztake_app_exact. by rewrite put_len. }
  assert (dev_pos (dev_read (wbytes wd) b).2 = dev_pos b + wbytes wd) as Ep.
  { by rewrite read_pos, Er, put_len. }
  split_and!; [|by rewrite read_content|done| |by rewrite read_open].
  - unfold stream_read. rewrite (bind_Ret _ _ _ _ _ (member_set_rx _ _ _ _)), rx_of_device.
    destruct (dev_read (wbytes wd) b) as [bs b'] eqn:E. simpl in *. subst bs.
    rewrite (bind_Ret _ _ _ _ _ (update_device'_set_rx _ _ _ _)).
    pose proof (get_put wd v [] Hv) as G. rewrite app_nil_r in G. by rewrite G.
  - rewrite read_content, Ep, <- zdrop_zdrop by lia. rewrite Hb. apply zdrop_app_exact. by rewrite put_len.
Qed.

Lemma read_header_ok cs i c f n rest b e w :
  dev_is_open b = true -> zdrop (dev_pos b) (dev_content b) = put W16 cs ++ header i c f n ++ rest ->
  0 <= cs < 65536 -> is_u8 i -> is_u8 c -> is_u8 f -> 0 <= n < 4294967296 ->
  exists b', read_header (set_rx b e w) = (Ret (cs, i, c, f, n), set_rx b' e w)
    /\ dev_content b' = dev_content b /\ dev_pos b' = dev_pos b + 9 /\ dev_is_open b' = true.
Proof.
  unfold header. rewrite <- !app_assoc. intros O0 Hb Hcs Hi Hc Hf Hn. unfold read_header.
  destruct (stream_read_ok W16 _ _ b e w O0 Hb Hcs) as (b1 & E1 & C1 & P1 & R1 & O1).
  rewrite (bind_Ret _ _ _ _ _ E1).
  destruct (stream_read_ok W8 _ _ b1 e w O1 R1 Hi) as (b2 & E2 & C2 & P2 & R2 & O2).
  rewrite (bind_Ret _ _ _ _ _ E2).
  destruct (stream_read_ok W8 _ _ b2 e w O2 R2 Hc) as (b3 & E3 & C3 & P3 & R3 & O3).
  rewrite (bind_Ret _ _ _ _ _ E3).
  destruct (stream_read_ok W8 _ _ b3 e w O3 R3 Hf) as (b4 & E4 & C4 & P4 & R4 & O4).
  rewrite (bind_Ret _ _ _ _ _ E4).
  destruct (stream_read_ok W32 _ _ b4 e w O4 R4 Hn) as (b5 & E5 & C5 & P5 & R5 & O5).
  rewrite (bind_Ret _ _ _ _ _ E5).
  exists b5. split; [done|]. simpl in *. split_and!; [congruence|lia|done].
Qed.

(** The checksum the loop computes over the seven bytes after the first two. *)
Lemma checksum_bytes cs i c f n rest b :
  zdrop (dev_pos b) (dev_content b) = put W16 cs ++ header i c f n ++ rest ->
  ztake 7 (zdrop (dev_pos b + 2) (dev_content b)) = header i c f n
  /\ zdrop (dev_pos b + 9) (dev_content b) = rest.
Proof.
  intros Hb. pose proof (dev_pos_nonneg b).
  assert (zdrop (dev_pos b + 2) (dev_content b) = header i c f n ++ rest) as E.
  { rewrite <- zdrop_zdrop, Hb by lia. apply zdrop_app_exact. by rewrite put_len. }
  split.
  - rewrite E. apply ztake_app_exact. by rewrite header_len.
  - replace (dev_pos b + 9) with (dev_pos b + 2 + 7) by lia.
    rewrite <- zdrop_zdrop, E by lia. apply zdrop_app_exact. by rewrite header_len.
Qed.

(** [process_one] up to the decision whether the body is there. *)
Lemma process_one_header i c f n rest b e w :
  dev_is_open b = true ->
  zdrop (dev_pos b) (dev_content b) =
    put W16 (qChecksum (header i c f n)) ++ header i c f n ++ rest ->
  is_u8 i -> is_u8 c -> is_u8 f -> 0 <= n < 4294967296 ->
  size_field n <= HELPZ_PROTOCOL_MAX_MESSAGE_SIZE ->
  exists b', dev_content b' = dev_content b /\ dev_pos b' = dev_pos b + 9 /\ dev_is_open b' = true /\
    process_one handler (set_rx b e w) =
    (if zlen rest <? size_field n then seek_device (dev_pos b) ;;; ret (Some true)
     else
       let* ok := try_catch (handler i c f (ztake (size_field n) rest) ;;; ret true) (ret false) in
       if ok then seek_device (dev_pos b + 9 + size_field n) ;;; ret None
       else ret (Some false)) (set_rx b' e w).
Proof.
  intros Ho Hb Hi Hc Hf Hn Hsz.
  destruct (read_header_ok _ _ _ _ _ _ b e w Ho Hb (qChecksum_u16 _) Hi Hc Hf Hn) as (b' & E & C & Ps & Ho').
  destruct (checksum_bytes _ _ _ _ _ _ _ Hb) as [Ecs Erest].
  exists b'. split; [done|]. split; [done|]. split; [done|].
  unfold process_one. rewrite (bind_Ret _ _ _ _ _ (member_set_rx _ _ _ _)), rx_of_device.
  rewrite (bind_Ret _ _ _ _ _ E). cbv beta iota zeta. rewrite Ecs, Erest. fold (size_field n).
  destruct (Z.ltb_spec HELPZ_PROTOCOL_MAX_MESSAGE_SIZE (size_field n)); [lia|].
  rewrite Z.eqb_refl. change (negb true) with false. cbv iota.
  rewrite (bind_Ret _ _ _ _ _ (member_set_rx _ _ _ _)), rx_of_device.
  replace (dev_bytesAvailable b') with (zlen rest); [done|].
  unfold dev_bytesAvailable, dev_size. rewrite C, Ps.
  pose proof (dev_pos_nonneg b). rewrite <- Erest.
  pose proof (f_equal zlen Hb) as Hl. rewrite !zlen_app, header_len, put_len in Hl.
  pose proof (zlen_nonneg rest). simpl in Hl.
  destruct (Z.le_gt_cases (dev_pos b) (zlen (dev_content b))).
  - rewrite zlen_zdrop in Hl by lia. rewrite zlen_zdrop by lia. lia.
  - rewrite zdrop_all in Hl by lia. rewrite zlen_nil in Hl. lia.
Qed.

Lemma process_one_message m rest b e w w' :
  dev_is_open b = true ->
  zdrop (dev_pos b) (dev_content b) = encode m ++ rest -> wire_ok m ->
  dev_size b < 2147483648 -> handle m w = (Ret tt, w') ->
  exists b', process_one handler (set_rx b e w) = (Ret None, set_rx b' e w')
    /\ dev_content b' = dev_content b /\ dev_pos b' = dev_pos b + zlen (encode m) /\ dev_is_open b' = true.
Proof.
  intros Ho Hb Hok Hsz Hh. pose proof Hok as (Hi & Hc & Hf & Hl).
  unfold HELPZ_PROTOCOL_MAX_MESSAGE_SIZE in Hl.
  assert (dev_pos b + zlen (encode m) <= dev_size b) as Hfit.
  { pose proof (f_equal zlen Hb) as E. rewrite zlen_app in E. pose proof (zlen_nonneg rest).
    pose proof (dev_pos_nonneg b). rewrite encode_len in * by done.
    pose proof (zlen_nonneg (wm_data m)). unfold dev_size in *.
    destruct (Z.le_gt_cases (dev_pos b) (zlen (dev_content b))).
    - rewrite zlen_zdrop in E by lia. lia.
    - rewrite zdrop_all in E by lia. rewrite zlen_nil in E. lia. }
  unfold encode in Hb.
  destruct (packet_shape (wm_id m) (wm_cmd m) (wm_flags m) (wm_data m)) as (n & Ep & En & Hn); [lia|].
  rewrite Ep, <- !app_assoc in Hb.
  destruct (process_one_header _ _ _ _ _ b e w Ho Hb Hi Hc Hf Hn) as (b1 & C1 & P1 & O1 & E1).
  { unfold HELPZ_PROTOCOL_MAX_MESSAGE_SIZE. lia. }
  rewrite E1, En. rewrite zlen_app. pose proof (zlen_nonneg rest).
  destruct (Z.ltb_spec (zlen (wm_data m) + zlen rest) (zlen (wm_data m))); [lia|].
  rewrite ztake_app_exact by done. pose proof (dev_pos_nonneg b). pose proof (zlen_nonneg (wm_data m)).
  rewrite encode_len in * by done.
  exists (dev_seek (dev_pos b + 9 + zlen (wm_data m)) b1). split_and!.
  - unfold bind at 1, try_catch, bind at 1. unfold handle in Hh.
    rewrite handler_framed, Hh. simpl. unfold bind. by rewrite seek_set_rx.
  - rewrite seek_content; [done|]. unfold dev_size in *. rewrite C1. lia.
  - rewrite seek_pos by (done || lia). lia.
  - by rewrite seek_open.
Qed.

(** A message cut short is left in place. *)
Lemma process_one_incomplete r b e w :
  dev_is_open b = true ->
  zdrop (dev_pos b) (dev_content b) = r -> incomplete r -> 9 <= zlen r -> dev_size b < 2147483648 ->
  exists b', process_one handler (set_rx b e w) = (Ret (Some true), set_rx b' e w)
    /\ dev_content b' = dev_content b /\ dev_pos b' = dev_pos b /\ dev_is_open b' = true.
Proof.
  intros Ho Hb [Hlt|(m & k & Hok & Hk & Er)] Hr Hsz; [lia|].
  pose proof Hok as (Hi & Hc & Hf & Hl). unfold HELPZ_PROTOCOL_MAX_MESSAGE_SIZE in Hl.
  rewrite encode_len in Hk by done.
  destruct (packet_shape (wm_id m) (wm_cmd m) (wm_flags m) (wm_data m)) as (n & Ep & En & Hn); [lia|].
  set (hd := put W16 (qChecksum (header (wm_id m) (wm_cmd m) (wm_flags m) n))
             ++ header (wm_id m) (wm_cmd m) (wm_flags m) n).
  assert (zlen hd = 9) as Hhd by (unfold hd; rewrite zlen_app, put_len, header_len; reflexivity).
  assert (r = hd ++ ztake (k - 9) (wm_data m)) as Er'.
  { rewrite Er. unfold encode. rewrite Ep, app_assoc. fold hd. unfold ztake, zlen in *.
    rewrite take_app_ge by lia. f_equal. f_equal. lia. }
  rewrite Er' in Hb. unfold hd in Hb. rewrite <- app_assoc in Hb.
  destruct (process_one_header _ _ _ _ _ b e w Ho Hb Hi Hc Hf Hn) as (b1 & C1 & P1 & O1 & E1).
  { unfold HELPZ_PROTOCOL_MAX_MESSAGE_SIZE. lia. }
  rewrite E1, En, zlen_ztake by lia.
  destruct (Z.ltb_spec (k - 9) (zlen (wm_data m))); [|lia].
  pose proof (dev_pos_nonneg b).
  assert (dev_pos b <= dev_size b).
  { pose proof (f_equal zlen Hb) as E. rewrite !zlen_app, header_len, put_len in E.
    pose proof (zlen_nonneg (ztake (k - 9) (wm_data m))). unfold dev_size.
    destruct (Z.le_gt_cases (dev_pos b) (zlen (dev_content b))); [done|].
    rewrite zdrop_all in E by lia. rewrite zlen_nil in E. simpl in E. lia. }
  exists (dev_seek (dev_pos b) b1). split_and!.
  - unfold bind. by rewrite seek_set_rx.
  - rewrite seek_content; [done|]. unfold dev_size in *. by rewrite C1.
  - apply seek_pos; [done|lia].
  - by rewrite seek_open.
Qed.

Lemma available_drop b :
  dev_bytesAvailable b = zlen (zdrop (dev_pos b) (dev_content b)).
Proof.
  unfold dev_bytesAvailable, dev_size. pose proof (dev_pos_nonneg b).
  destruct (Z.le_gt_cases (dev_pos b) (zlen (dev_content b))).
  - rewrite zlen_zdrop by lia. lia.
  - rewrite zdrop_all by lia. pose proof (@zlen_nil byte). lia.
Qed.

Lemma handle_all_cons m ms w w2 :
  handle_all (m :: ms) w = (Ret tt, w2) ->
  exists w1, handle m w = (Ret tt, w1) /\ handle_all ms w1 = (Ret tt, w2).
Proof.
  unfold handle_all. simpl. unfold bind. destruct (handle m w) as [[[]| | |] w1]; try done. eauto.
Qed.

(** The loop over the buffer. *)
Lemma process_stream_loop_ok ms r fuel b e w w' :
  dev_is_open b = true ->
  zdrop (dev_pos b) (dev_content b) = encode_all ms ++ r -> Forall wire_ok ms -> incomplete r ->
  dev_size b < 2147483648 -> zlen (encode_all ms ++ r) <= Z.of_nat fuel ->
  handle_all ms w = (Ret tt, w') ->
  exists b', process_stream_loop handler fuel (set_rx b e w) = (Ret true, set_rx b' e w')
    /\ dev_content b' = dev_content b /\ dev_pos b' = dev_pos b + zlen (encode_all ms) /\ dev_is_open b' = true.
Proof.
  revert fuel b w. induction ms as [|m ms IH]; intros fuel b w Ho Hb Hms Hr Hsz Hfuel Hh.
  - simpl in *. unfold handle_all in Hh. simpl in Hh. injection Hh as <-.
    destruct fuel as [|fuel].
    + cbn [process_stream_loop]. rewrite (bind_Ret _ _ _ _ _ (member_set_rx _ _ _ _)), rx_of_device.
      rewrite available_drop, Hb. destruct (Z.leb_spec 9 (zlen r)); [lia|].
      exists b. rewrite Z.add_0_r. done.
    + cbn [process_stream_loop]. rewrite (bind_Ret _ _ _ _ _ (member_set_rx _ _ _ _)), rx_of_device.
      rewrite available_drop, Hb. destruct (Z.leb_spec 9 (zlen r)).
      * destruct (process_one_incomplete r b e w Ho Hb Hr) as (b' & E & C & Ps & O'); [lia|done|].
        exists b'. unfold bind. rewrite E. rewrite Z.add_0_r. done.
      * exists b. rewrite Z.add_0_r. done.
  - inversion Hms as [|? ? Hm Hms']; subst. rewrite encode_all_cons in Hb, Hfuel |- *. rewrite <- app_assoc in Hb.
    destruct (handle_all_cons _ _ _ _ Hh) as (w1 & Hh1 & Hh2).
    pose proof (encode_len m Hm) as Hlen. pose proof (zlen_nonneg (wm_data m)).
    rewrite !zlen_app in Hfuel. pose proof (zlen_nonneg (encode_all ms)). pose proof (zlen_nonneg r).
    destruct fuel as [|fuel]; [lia|].
    cbn [process_stream_loop]. rewrite (bind_Ret _ _ _ _ _ (member_set_rx _ _ _ _)), rx_of_device.
    rewrite available_drop, Hb, !zlen_app.
    destruct (Z.leb_spec 9 (zlen (encode m) + (zlen (encode_all ms) + zlen r))); [|lia].
    destruct (process_one_message m _ b e w w1 Ho Hb Hm Hsz Hh1) as (b1 & E1 & C1 & P1 & O1).
    rewrite (bind_Ret _ _ _ _ _ E1).
    destruct (IH fuel b1 w1) as (b2 & E2 & C2 & P2 & O2); try done.
    + rewrite C1, P1. rewrite <- zdrop_zdrop by (apply dev_pos_nonneg || lia).
      rewrite Hb. by rewrite zdrop_app_exact.
    + unfold dev_size in *. by rewrite C1.
    + rewrite zlen_app. lia.
    + exists b2. split_and!; [done|congruence| |done]. rewrite P2, P1. lia.
Qed.

(** ** The packet queue *)

Definition total (ends : list Z) : Z := fold_right Z.add 0 ends.

Lemma total_nonneg ends : Forall (fun e => 0 < e) ends -> 0 <= total ends.
Proof. induction 1; simpl; lia. Qed.

Lemma total_0_nil ends : Forall (fun e => 0 < e) ends -> total ends = 0 -> ends = [].
Proof. destruct 1 as [|x l Hx Hl]; [done|]. pose proof (total_nonneg l Hl). simpl. lia. Qed.

Lemma drop_processed_ok ends pos :
  Forall (fun e => 0 < e) ends -> 0 <= pos <= total ends ->
  let '(p, ends') := drop_processed pos ends in
  Forall (fun e => 0 < e) ends' /\ total ends' - p = total ends - pos /\ 0 <= p
  /\ match ends' with [] => p = 0 | e :: _ => p < e end.
Proof.
  revert pos. induction ends as [|e ends IH]; simpl; intros pos Hf Hp.
  - split_and!; [done|lia|lia|lia].
  - inversion Hf; subst. destruct (Z.leb_spec e pos).
    + specialize (IH (pos - e) ltac:(done) ltac:(lia)). destruct (drop_processed (pos - e) ends) as [p ends'].
      intuition lia.
    + split_and!; [by constructor|simpl; lia|lia|done].
Qed.

(** The buffer is open, as the constructor leaves it, and queue and buffer
    agree: the packets add up to the bytes. *)
Definition rx_ok (b : B) (ends : list Z) : Prop :=
  dev_is_open b = true /\ Forall (fun e => 0 < e) ends /\ total ends = dev_size b.

Lemma trim_buffer_ok b e w :
  rx_ok b e -> dev_pos b <= dev_size b ->
  exists b' e', trim_buffer (set_rx b e w) = (Ret tt, set_rx b' e' w)
    /\ dev_content b' = zdrop (dev_pos b) (dev_content b) /\ rx_ok b' e'.
Proof.
  intros (Hop & Hpos & Htot) Hp. pose proof (dev_pos_nonneg b) as Hnn.
  assert (0 <= dev_pos b <= total e) as Hrange by lia.
  pose proof (drop_processed_ok e _ Hpos Hrange) as Hd.
  unfold trim_buffer. rewrite (bind_Ret _ _ _ _ _ (member_set_rx _ _ _ _)), rx_of_device.
  rewrite (bind_Ret _ _ _ _ _ (member_set_rx _ _ _ _)), rx_of_ends.
  destruct (drop_processed (dev_pos b) e) as [p ends'] eqn:E. destruct Hd as (Hf & Ht & Hp0 & Hh).
  set (e' := match ends' with
             | e0 :: rest => if p =? 0 then ends' else (e0 - p) :: rest
             | [] => []
             end).
  assert (Forall (fun x => 0 < x) e' /\ total e' = dev_size b - dev_pos b) as [Hf' Ht'].
  { unfold e'. destruct ends' as [|e0 rest]; [split; [done|simpl in *; lia]|].
    inversion Hf; subst. destruct (Z.eqb_spec p 0); simpl in *.
    - split; [by constructor|lia].
    - split; [constructor; [lia|done]|lia]. }
  rewrite (bind_Ret _ _ _ _ _ (update_ends_set_rx _ _ _ _)).
  unfold dev_bytesAvailable. destruct (Z.eqb_spec (Z.max 0 (dev_size b - dev_pos b)) 0).
  - exists (buffer_clear b), e'. rewrite update_device'_set_rx. split; [done|].
    unfold rx_ok, dev_size in *. rewrite clear_content, zdrop_all by lia.
    split_and!; [done|by rewrite clear_open|done|]. rewrite zlen_nil. lia.
  - exists (buffer_remove (dev_pos b) b), e'. rewrite update_device'_set_rx. split; [done|].
    unfold rx_ok, dev_size in *. rewrite remove_content by done.
    split_and!; [done|by rewrite remove_open|done|]. rewrite zlen_zdrop by lia. lia.
Qed.

(** The world after the writer has noted the time of arrival. *)
Definition note_received (w : World D B) : World D B :=
  match protocol_writer_ (self w) with
  | Some wr =>
      let w' := (now w).2 in
      on_self (with_writer (Some (set_last_msg_recv_time (env_clock w (ticks w)) wr))) w'
  | None => w
  end.

(** What [process_bytes] does up to the retry loop. *)
Lemma process_bytes_enter data w b e :
  data <> [] -> device_ (self w) = b -> packet_end_position_ (self w) = e -> dev_is_open b = true ->
  dev_size b + zlen data < 2147483648 ->
  exists b', process_bytes handler data w =
      (retry_loop handler (length (e ++ [zlen data])) ;;; trim_buffer)
        (set_rx b' (e ++ [zlen data]) (note_received w))
    /\ dev_content b' = dev_content b ++ data /\ dev_pos b' = 0 /\ dev_is_open b' = true.
Proof.
  intros Hne Hb He Ho Hsz. pose proof (zlen_nonneg data).
  exists (dev_seek 0 (dev_write data (dev_seek (dev_size b) b))). split_and!.
  - unfold process_bytes. destruct (Z.eqb_spec (zlen data) 0) as [E|_]; [by apply zlen_0_inv in E|].
    destruct w as [[? ? ? ? ? ? ? [wr|] ?] ? ? ? ?]; simpl in *; subst; reflexivity.
  - assert (dev_content (dev_write data (dev_seek (dev_size b) b)) = dev_content b ++ data) as E.
    { assert (dev_content (dev_seek (dev_size b) b) = dev_content b) as Es.
      { apply seek_content. pose proof (zlen_nonneg (dev_content b)). unfold dev_size. lia. }
      rewrite write_at_end; [by rewrite Es|by rewrite seek_open|].
      rewrite seek_pos by (done || unfold dev_size in *; pose proof (zlen_nonneg (dev_content b)); lia).
      unfold dev_size in Es |- *. by rewrite Es. }
    rewrite seek_content; [done|]. split; [done|apply zlen_nonneg].
  - apply seek_pos; [by rewrite write_open, seek_open|lia].
  - by rewrite seek_open, write_open, seek_open.
Qed.

Lemma process_stream_ok ms r b e w w' :
  dev_is_open b = true ->
  dev_pos b = 0 -> dev_content b = encode_all ms ++ r -> Forall wire_ok ms -> incomplete r ->
  dev_size b < 2147483648 -> handle_all ms w = (Ret tt, w') ->
  exists b', process_stream handler (set_rx b e w) = (Ret true, set_rx b' e w')
    /\ dev_content b' = dev_content b /\ dev_pos b' = zlen (encode_all ms) /\ dev_is_open b' = true.
Proof.
  intros Ho Hp Hc Hms Hr Hsz Hh. unfold process_stream.
  rewrite (bind_Ret _ _ _ _ _ (member_set_rx _ _ _ _)), rx_of_device.
  destruct (process_stream_loop_ok ms r (length (dev_content b)) b e w w') as (b' & E & C & Ps & O'); try done.
  - by rewrite Hp, zdrop_0.
  - rewrite <- Hc. unfold zlen. lia.
  - exists b'. rewrite Hp in Ps. done.
Qed.

Lemma retry_loop_done fuel w w' : process_stream handler w = (Ret true, w') -> retry_loop handler fuel w = (Ret tt, w').
Proof. intros E. destruct fuel; cbn [retry_loop]; rewrite (bind_Ret _ _ _ _ _ E); reflexivity. Qed.

(** Everything that can be processed is, the rest is kept. *)
Lemma process_bytes_ok ms r data w b e w' :
  data <> [] -> device_ (self w) = b -> packet_end_position_ (self w) = e -> rx_ok b e ->
  dev_content b ++ data = encode_all ms ++ r -> Forall wire_ok ms -> incomplete r ->
  zlen (dev_content b ++ data) < 2147483648 -> handle_all ms (note_received w) = (Ret tt, w') ->
  exists b' e', process_bytes handler data w = (Ret tt, set_rx b' e' w')
    /\ dev_content b' = r /\ rx_ok b' e'.
Proof.
  intros Hne Hb He (Ho & Hf & Ht) Hc Hms Hr Hsz Hh. rewrite zlen_app in Hsz.
  assert (0 < zlen data) as Hpos.
  { destruct data; [done|]. unfold zlen. simpl. lia. }
  destruct (process_bytes_enter data w b e Hne Hb He Ho Hsz) as (b1 & -> & C1 & P1 & O1).
  assert (dev_size b1 = dev_size b + zlen data) as Hs1 by (unfold dev_size; by rewrite C1, zlen_app).
  destruct (process_stream_ok ms r b1 (e ++ [zlen data]) (note_received w) w' O1 P1) as (b2 & E2 & C2 & P2 & O2);
    try done; [congruence|unfold dev_size in *; lia|].
  rewrite (bind_Ret _ _ _ _ _ (retry_loop_done _ _ _ E2)).
  assert (rx_ok b2 (e ++ [zlen data])) as Hrx.
  { split; [done|]. split; [apply Forall_app; split; [done|by constructor]|].
    unfold dev_size in *. rewrite C2, C1, zlen_app. clear -Ht.
    assert (forall l x, total (l ++ [x]) = total l + x) as E.
    { induction l as [|y l IH]; simpl; intros x; [lia|]. rewrite IH. lia. }
    rewrite E. lia. }
  pose proof (f_equal zlen Hc) as Hl. rewrite !zlen_app in Hl. pose proof (zlen_nonneg r).
  destruct (trim_buffer_ok b2 (e ++ [zlen data]) w' Hrx) as (b3 & e3 & E3 & C3 & Hrx3).
  { unfold dev_size in *. rewrite C2, P2, C1, zlen_app. lia. }
  exists b3, e3. split_and!; [done| |done]. rewrite C3, C2, C1, Hc, P2. by apply zdrop_app_exact.
Qed.

(** ** Properties *)

(** C3. Framing: let the buffer hold the beginning [r0] of a message (or
    nothing) and let a packet arrive so that buffer and packet together are
    the encodings of messages [ms] followed by a beginning [r] of another
    one. Then [process_bytes] returns, the handler has been called for
    exactly [ms], in order, the buffer holds [r], and the queue of packet
    sizes adds up to it. So message boundaries do not depend on how the
    stream is cut into packets. *)
Theorem process_bytes_framing ms r data w w' :
  data <> [] -> rx_ok (device_ (self w)) (packet_end_position_ (self w)) ->
  dev_content (device_ (self w)) ++ data = encode_all ms ++ r ->
  Forall wire_ok ms -> incomplete r ->
  zlen (dev_content (device_ (self w)) ++ data) < 2147483648 ->
  handle_all ms (note_received w) = (Ret tt, w') ->
  exists b' e', process_bytes handler data w = (Ret tt, set_rx b' e' w')
    /\ dev_content b' = r /\ rx_ok b' e'.
Proof. intros. by eapply process_bytes_ok. Qed.

(** A message whose checksum does not match. *)
Lemma process_one_corrupt cs i c f n rest b e w :
  dev_is_open b = true ->
  zdrop (dev_pos b) (dev_content b) = put W16 cs ++ header i c f n ++ rest ->
  0 <= cs < 65536 -> is_u8 i -> is_u8 c -> is_u8 f -> 0 <= n < 4294967296 ->
  size_field n <= HELPZ_PROTOCOL_MAX_MESSAGE_SIZE -> cs <> qChecksum (header i c f n) ->
  exists b', process_one handler (set_rx b e w) = (Ret (Some false), set_rx (dev_seek (dev_pos b) b') e w)
    /\ dev_content b' = dev_content b /\ dev_is_open b' = true.
Proof.
  intros Ho Hb Hcs Hi Hc Hf Hn Hsz Hbad.
  destruct (read_header_ok _ _ _ _ _ _ b e w Ho Hb Hcs Hi Hc Hf Hn) as (b' & E & C & Ps & O').
  destruct (checksum_bytes _ _ _ _ _ _ _ Hb) as [Ecs _].
  exists b'. split; [|done].
  unfold process_one. rewrite (bind_Ret _ _ _ _ _ (member_set_rx _ _ _ _)), rx_of_device.
  rewrite (bind_Ret _ _ _ _ _ E). cbv beta iota zeta. rewrite Ecs. fold (size_field n).
  destruct (Z.ltb_spec HELPZ_PROTOCOL_MAX_MESSAGE_SIZE (size_field n)); [lia|].
  destruct (Z.eqb_spec cs (qChecksum (header i c f n))); [done|].
  change (negb false) with true. cbv iota. by rewrite (bind_Ret _ _ _ _ _ (seek_set_rx _ _ _ _)).
Qed.

Lemma process_stream_empty b e w :
  dev_content b = [] -> process_stream handler (set_rx b e w) = (Ret true, set_rx b e w).
Proof.
  intros C. unfold process_stream. rewrite (bind_Ret _ _ _ _ _ (member_set_rx _ _ _ _)), rx_of_device, C.
  cbn [length process_stream_loop]. rewrite (bind_Ret _ _ _ _ _ (member_set_rx _ _ _ _)), rx_of_device.
  rewrite available_drop, C. unfold zdrop. by rewrite drop_nil.
Qed.

(** The loop when its first iteration ends it. *)
Lemma process_stream_stop r b e w w' :
  dev_pos b = 0 -> 9 <= dev_size b -> process_one handler (set_rx b e w) = (Ret (Some r), w') ->
  process_stream handler (set_rx b e w) = (Ret r, w').
Proof.
  intros P Hsz E. unfold process_stream. rewrite (bind_Ret _ _ _ _ _ (member_set_rx _ _ _ _)), rx_of_device.
  destruct (length (dev_content b)) as [|fuel] eqn:El; [unfold dev_size, zlen in Hsz; lia|].
  cbn [process_stream_loop]. rewrite (bind_Ret _ _ _ _ _ (member_set_rx _ _ _ _)), rx_of_device.
  rewrite available_drop, P, zdrop_0. unfold dev_size in Hsz.
  destruct (Z.leb_spec 9 (zlen (dev_content b))); [|lia].
  by rewrite (bind_Ret _ _ _ _ _ E).
Qed.

(** A failure inside the only packet buffered drops that packet. *)
Lemma retry_loop_drop b b' n w :
  process_stream handler (set_rx b [n] w) = (Ret false, set_rx b' [n] w) ->
  dev_is_open b' = true -> dev_pos b' = 0 -> dev_size b' = n -> 0 < n ->
  exists b'', retry_loop handler 1 (set_rx b [n] w) = (Ret tt, set_rx b'' [] w)
    /\ dev_content b'' = [] /\ dev_pos b'' = 0 /\ dev_is_open b'' = true.
Proof.
  intros E Ho P Hn Hpos. set (b'' := buffer_remove n (dev_seek 0 b')).
  assert (dev_content b'' = []) as C.
  { unfold b''. rewrite remove_content by lia. unfold dev_size in Hn.
    rewrite seek_content by (unfold dev_size; lia). apply zdrop_all. lia. }
  exists b''. split_and!; [|done|unfold b''; rewrite remove_pos; apply seek_pos; [done|lia]|unfold b''; by rewrite remove_open, seek_open].
  cbn [retry_loop]. rewrite (bind_Ret _ _ _ _ _ E).
  rewrite (bind_Ret _ _ _ _ _ (member_set_rx _ _ _ _)), rx_of_ends. cbv iota.
  rewrite (bind_Ret _ _ _ _ _ (member_set_rx _ _ _ _)), rx_of_device. rewrite P.
  cbn [drop_processed]. destruct (Z.leb_spec n 0); [lia|]. cbn [snd]. cbv iota.
  rewrite (bind_Ret _ _ _ _ _ (seek_set_rx _ _ _ _)).
  rewrite (bind_Ret _ _ _ _ _ (update_device_set_rx (buffer_remove n) _ _ _)).
  rewrite (bind_Ret _ _ _ _ _ (update_ends_set_rx _ _ _ _)). fold b''.
  rewrite (bind_Ret _ _ _ _ _ (process_stream_empty _ _ _ C)). reflexivity.
Qed.

Lemma trim_buffer_empty b w :
  dev_is_open b = true ->
  dev_content b = [] -> dev_pos b = 0 ->
  exists b', trim_buffer (set_rx b [] w) = (Ret tt, set_rx b' [] w) /\ dev_content b' = [] /\ dev_is_open b' = true.
Proof.
  intros Ho C P. destruct (trim_buffer_ok b [] w) as (b' & e' & E & C' & Ho' & Hf & Ht).
  { split; [done|]. split; [done|]. unfold dev_size. by rewrite C. }
  { unfold dev_size. by rewrite C, P. }
  rewrite C, P in C'. change (zdrop 0 (@nil byte)) with (@nil byte) in C'.
  unfold dev_size in Ht. rewrite C' in Ht. rewrite (total_0_nil e' Hf Ht) in E. eauto.
Qed.

(** C17. A packet whose header checksum is wrong, arriving when nothing is
    buffered, is dropped as a whole: no handler runs, the object is as
    before (but for the time of arrival), buffer and queue are empty. (When
    the beginning of a message is buffered its bytes count as the rest of that
    message.) *)
Theorem process_bytes_corrupt cs i c f n rest w :
  dev_is_open (device_ (self w)) = true -> dev_content (device_ (self w)) = [] -> packet_end_position_ (self w) = [] ->
  0 <= cs < 65536 -> is_u8 i -> is_u8 c -> is_u8 f -> 0 <= n < 4294967296 ->
  size_field n <= HELPZ_PROTOCOL_MAX_MESSAGE_SIZE -> cs <> qChecksum (header i c f n) ->
  zlen rest < 2000000000 ->
  exists b', process_bytes handler (put W16 cs ++ header i c f n ++ rest) w =
      (Ret tt, set_rx b' [] (note_received w))
    /\ dev_content b' = [] /\ dev_is_open b' = true.
Proof.
  intros Ho0 Hb0 He0 Hcs Hi Hc Hf Hn Hsz Hbad Hrest.
  set (data := put W16 cs ++ header i c f n ++ rest).
  assert (zlen data = 9 + zlen rest) as Hlen.
  { unfold data. rewrite !zlen_app, put_len, header_len. simpl. lia. }
  pose proof (zlen_nonneg rest).
  assert (data <> []) as Hne by (intros E; rewrite E, zlen_nil in Hlen; lia).
  destruct (process_bytes_enter data w _ _ Hne eq_refl eq_refl Ho0) as (b1 & -> & C1 & P1 & O1).
  { unfold dev_size. rewrite Hb0, zlen_nil. lia. }
  rewrite Hb0 in C1. rewrite He0. simpl app in *. simpl length.
  destruct (process_one_corrupt cs i c f n rest b1 [zlen data] (note_received w)) as (b2 & E2 & C2 & O2); try done.
  { by rewrite P1, C1, zdrop_0. }
  rewrite P1 in E2.
  assert (dev_content (dev_seek 0 b2) = data) as C3.
  { rewrite seek_content; [congruence|]. split; [done|apply zlen_nonneg]. }
  destruct (retry_loop_drop b1 (dev_seek 0 b2) (zlen data) (note_received w)) as (b4 & E4 & C4 & P4 & O4).
  { apply process_stream_stop; [done|unfold dev_size; rewrite C1; lia|done]. }
  { by rewrite seek_open. }
  { apply seek_pos; [done|lia]. }
  { unfold dev_size. by rewrite C3. }
  { lia. }
  rewrite (bind_Ret _ _ _ _ _ E4). by apply trim_buffer_empty.
Qed.

(** A handler that throws on an empty body, the packet being all there is. *)
Lemma process_bytes_throw i c f w w' :
  dev_is_open (device_ (self w)) = true ->
  dev_content (device_ (self w)) = [] -> packet_end_position_ (self w) = [] ->
  is_u8 i -> is_u8 c -> is_u8 f -> handler i c f [] (note_received w) = (Throw, w') ->
  (process_bytes handler (packet_bytes i c f []) w).1 = Undef.
Proof.
  intros Ho0 Hb0 He0 Hi Hc Hf Hh. set (data := packet_bytes i c f []).
  assert (zlen data = 9) as Hlen by (unfold data; by rewrite packet_len).
  assert (data <> []) as Hne by (intros E; by rewrite E in Hlen).
  destruct (packet_shape i c f []) as (n & Ep & En & Hn); [done|].
  destruct (process_bytes_enter data w _ _ Hne eq_refl eq_refl Ho0) as (b1 & -> & C1 & P1 & O1).
  { unfold dev_size. rewrite Hb0, zlen_nil. lia. }
  rewrite Hb0 in C1. rewrite He0. simpl app in *. simpl length.
  destruct (process_one_header i c f n [] b1 [zlen data] (note_received w)) as (b2 & C2 & P2 & O2 & E2); try done.
  { by rewrite P1, C1, zdrop_0. }
  { by rewrite En. }
  rewrite En in E2. change (zlen [] <? zlen []) with false in E2. cbv iota in E2.
  unfold bind at 1, try_catch, bind at 1 in E2. change (ztake (zlen []) []) with (@nil byte) in E2.
  rewrite handler_framed, Hh in E2. simpl in E2.
  assert (9 <= dev_size b1) as Hs1 by (unfold dev_size; rewrite C1; lia).
  pose proof (process_stream_stop _ _ _ _ _ P1 Hs1 E2) as Es.
  unfold bind. cbn [retry_loop]. rewrite (bind_Ret _ _ _ _ _ Es).
  rewrite (bind_Ret _ _ _ _ _ (member_set_rx _ _ _ _)), rx_of_ends. cbv iota.
  rewrite (bind_Ret _ _ _ _ _ (member_set_rx _ _ _ _)), rx_of_device. rewrite P2, P1, Hlen.
  cbn [drop_processed]. reflexivity.
Qed.

End stream_proofs.

(** ** Concrete instances of the properties *)

Module Stream_Witness.
Import QtRef.

Definition w0 : World mem mem := mkWorld init (fun _ => 0) (fun _ => false) 0 [].

(** A handler that only records its call. *)
Definition record (i c f : Z) (d : list byte) : PM mem mem unit := emit (Ev_process_message i c d).

Definition m1 : wire_msg := {| wm_id := 0; wm_cmd := 16; wm_flags := 0; wm_data := [x0a; x0b] |}.

(** A packet with a whole message and four bytes of another one. *)
Lemma process_bytes_framing_witness :
  exists b' e' w', process_bytes record (encode m1 ++ ztake 4 (encode m1)) w0 = (Ret tt, set_rx b' e' w')
    /\ dev_content b' = ztake 4 (encode m1) /\ rx_ok b' e'.
Proof.
  destruct (process_bytes_framing record (fun i c f d => framed_emit _) [m1] (ztake 4 (encode m1))
    (encode m1 ++ ztake 4 (encode m1)) w0 (emit (Ev_process_message 0 16 [x0a; x0b]) w0).2)
    as (b' & e' & H); [discriminate | | reflexivity | | | reflexivity | reflexivity |].
  - split; [reflexivity|split; [constructor | reflexivity]].
  - repeat constructor; unfold is_u8, HELPZ_PROTOCOL_MAX_MESSAGE_SIZE, zlen; simpl; lia.
  - left. reflexivity.
  - by exists b', e', (emit (Ev_process_message 0 16 [x0a; x0b]) w0).2.
Defined.

Lemma process_bytes_corrupt_witness :
  exists b', process_bytes record (put W16 1 ++ header 0 16 0 2 ++ [x0a; x0b]) w0 = (Ret tt, set_rx b' [] w0)
    /\ dev_content b' = [] /\ dev_is_open b' = true.
Proof.
  apply (process_bytes_corrupt record 1 0 16 0 2 [x0a; x0b] w0);
    try reflexivity; try discriminate; unfold is_u8; lia.
Defined.

End Stream_Witness.
