(* ===== verification/ReceiveProofs.v ===== *)
(** * Correctness of receiving

    Sequence numbers, lost and repeated messages, delivery; and the path of
    a message from [prepare_packet_to_send] of one protocol object through
    [process_bytes] of another one. *)

From S2P Require Import Prelude StdMap QtInterface MessageItem FragmentedMessage ProtocolState ProtocolSend ProtocolRecv ProtocolFrame ProtocolStream StreamProofs SendProofs.

Section receive_proofs.
Context {D B : Type} `{HD : QIODeviceLaws D} `{HSL : QDataStreamLaws} `{HCL : QtBytesLaws}.
Implicit Types (w : World D B).

(** ** In-order messages *)

Definition emitted (e : Event D) w : World D B := (emit e w).2.

Lemma call_user_ok e w : env_throws w e = false -> call_user e w = (Ret tt, emitted e w).
Proof. intros E. unfold call_user, bind, emit, gets, modify. simpl. by rewrite E. Qed.

Lemma check_msg_id_in_order i flags w :
  next_rx_msg_id_ (self w) = i -> is_u8 i -> has_flag flags Flags.REPEATED = false ->
  check_msg_id i flags w = (Ret true, on_self (with_next_rx (u8 (i + 1))) w).
Proof.
  intros Hn Hi Hr. unfold check_msg_id, member, gets, bind at 1. rewrite Hn.
  unfold is_old. rewrite Hr, Z.ltb_irrefl, Z.sub_diag. simpl. unfold bind. simpl. rewrite Hn.
  by rewrite Z.leb_refl.
Qed.

Lemma dispatch_plain i c flags data w :
  has_flag flags Flags.FRAGMENT_QUERY = false ->
  has_flag flags (Z.lor Flags.FRAGMENT Flags.ANSWER) = false ->
  c <> Cmd.REMOVE_FRAGMENT -> c <> Cmd.PING ->
  env_throws w (Ev_process_message i c data) = false ->
  dispatch_message i c flags data w = (Ret tt, emitted (Ev_process_message i c data) w).
Proof.
  intros Hq Hfa Hc1 Hc2 Ht. unfold dispatch_message.
  destruct (Z.eqb_spec c Cmd.REMOVE_FRAGMENT); [done|]. rewrite Hq, Hfa.
  destruct (Z.eqb_spec c Cmd.PING); [done|]. by apply call_user_ok.
Qed.

(** A message with id [i], the expected one, whose body is [data], plain or
    compressed. *)
Lemma internal_plain i c flags body data w :
  next_rx_msg_id_ (self w) = i -> is_u8 i ->
  (flags = 0 /\ body = data) \/ (flags = Flags.COMPRESSED /\ body <> [] /\ qUncompress body = data /\ data <> []) ->
  c <> Cmd.REMOVE_FRAGMENT -> c <> Cmd.PING ->
  env_throws w (Ev_process_message i c data) = false ->
  internal_process_message i c flags body w =
    (Ret tt, emitted (Ev_process_message i c data) (on_self (with_next_rx (u8 (i + 1))) w)).
Proof.
  intros Hn Hi Hfl Hc1 Hc2 Ht. unfold internal_process_message.
  assert (has_flag flags Flags.REPEATED = false) as Hr by by destruct Hfl as [[-> _]|[-> _]].
  rewrite (bind_Ret _ _ _ _ _ (check_msg_id_in_order i flags w Hn Hi Hr)). cbn [negb].
  destruct Hfl as [[-> ->]|(-> & Hne & Hu & Hd)].
  - rewrite andb_false_r. change (has_flag 0 Flags.COMPRESSED) with false. cbv iota.
    by apply dispatch_plain.
  - destruct (Z.eqb_spec (zlen body) 0) as [E|_]; [by apply zlen_0_inv in E|]. simpl andb. cbv iota.
    change (has_flag Flags.COMPRESSED Flags.COMPRESSED) with true. cbv iota zeta. rewrite Hu.
    rewrite <- (dispatch_plain i c Flags.COMPRESSED data) by done.
    by destruct data.
Qed.

End receive_proofs.

(** ** From sender to receiver *)

Section end_to_end.
Context {D B : Type} `{HD : QIODeviceLaws D} `{HBL : QIODeviceLaws B} `{HQ : !QBuffer B} `{HQL : !QBufferLaws B}
  `{HSL : QDataStreamLaws} `{HCL : QtBytesLaws}.
Implicit Types (ws wr : World D B).

Lemma note_received_props wr :
  next_rx_msg_id_ (self (note_received wr)) = next_rx_msg_id_ (self wr)
  /\ events (note_received wr) = events wr /\ env_throws (note_received wr) = env_throws wr.
Proof. unfold note_received. by destruct wr as [[? ? ? ? ? ? ? [|] ?] ? ? ? ?]. Qed.

(** Compression as the receiver sees it. *)
Lemma packet_compress_cases (m : Message_Item.t D) data :
  is_u32 (Message_Item.min_compress_size_ m) -> zlen data < 2147483648 ->
  let '(flags, body) := packet_compress m 0 data in
  (flags = 0 /\ body = data)
  \/ (flags = Flags.COMPRESSED /\ body = qCompress data /\ body <> [] /\ qUncompress body = data /\ data <> []).
Proof.
  intros [Hmc _] Hlen. unfold packet_compress, Message_Item.min_compress_size. simpl.
  destruct (Z.ltb_spec (Message_Item.min_compress_size_ m) (u32 (zlen data))); [|by left].
  right. assert (data <> []) as Hne by (intros ->; change (u32 (zlen (@nil byte))) with 0 in *; lia).
  split_and!; [done|done|by apply qCompress_nonempty|by apply qUncompress_qCompress|done].
Qed.

(** The receive buffer between datagrams. *)
Definition buffer_empty (b : B) : Prop := dev_is_open b = true /\ dev_content b = [].
Definition rx_empty wr : Prop := buffer_empty (device_ (self wr)) /\ packet_end_position_ (self wr) = [].

(** One packet in a datagram of its own: the handler runs on it, and the
    buffer is empty again. *)
Lemma receive_packet i c flags body wr w1 :
  is_u8 i -> is_u8 c -> is_u8 flags -> zlen body < 2147483639 -> rx_empty wr ->
  internal_process_message i c flags body (note_received wr) = (Ret tt, w1) ->
  exists b, protocol_process_bytes (packet_bytes i c flags body) wr = (Ret tt, set_rx b [] w1) /\ buffer_empty b.
Proof.
  intros Hi Hc Hfl Hlen [[Hro Hrb] Hre] Hh.
  set (m := {| wm_id := i; wm_cmd := c; wm_flags := flags; wm_data := body |}).
  assert (wire_ok m) as Hok.
  { unfold wire_ok, HELPZ_PROTOCOL_MAX_MESSAGE_SIZE. simpl. split_and!; [done|done|done|lia]. }
  assert (encode m <> []) as Hne.
  { intros E. apply (f_equal zlen) in E. rewrite encode_len in E by done.
    pose proof (zlen_nonneg (wm_data m)). change (zlen (@nil byte)) with 0 in E. lia. }
  edestruct (process_bytes_ok internal_process_message framed_internal_process_message [m] [] (encode m) wr)
    as (b' & e' & E & Cb & Ho & Hf & Ht); [exact Hne|reflexivity|exact Hre| | | | | | |].
  - unfold rx_ok, dev_size. by rewrite Hro, Hrb.
  - rewrite Hrb, app_nil_r. unfold encode_all. simpl. by rewrite app_nil_r.
  - by constructor.
  - by left.
  - rewrite Hrb. simpl app. rewrite encode_len by done. simpl wm_data. lia.
  - unfold handle_all, handle. simpl. erewrite bind_Ret by exact Hh. reflexivity.
  - exists b'. split; [|done]. unfold dev_size in Ht. rewrite Cb in Ht. rewrite (total_0_nil e' Hf Ht) in E. exact E.
Qed.

(** The receiver's side of one plain message arriving in a packet of its own. *)
Lemma receive_plain i c flags body data wr :
  is_u8 i -> is_u8 c -> zlen body < 2147483639 ->
  (flags = 0 /\ body = data) \/ (flags = Flags.COMPRESSED /\ body <> [] /\ qUncompress body = data /\ data <> []) ->
  c <> Cmd.REMOVE_FRAGMENT -> c <> Cmd.PING ->
  next_rx_msg_id_ (self wr) = i ->
  rx_empty wr ->
  env_throws wr (Ev_process_message i c data) = false ->
  exists wr',
    protocol_process_bytes (packet_bytes i c flags body) wr = (Ret tt, wr')
    /\ events wr' = events wr ++ [Ev_process_message i c data]
    /\ next_rx_msg_id_ (self wr') = u8 (i + 1)
    /\ rx_empty wr'.
Proof.
  intros Hi Hc Hlen Hcases Hc1 Hc2 Hrx Hre Hthr.
  destruct (note_received_props wr) as (Enx & Eev & Eth).
  destruct (receive_packet i c flags body wr
    (emitted (Ev_process_message i c data) (on_self (with_next_rx (u8 (i + 1))) (note_received wr)))) as (b & E & Cb);
    [done|done| |done|done|apply internal_plain; done || congruence|].
  { by destruct Hcases as [[-> _]|[-> _]]. }
  eexists. split; [exact E|]. unfold rx_empty. rewrite set_rx_device, set_rx_ends.
  split_and!; [|by destruct (note_received wr) as [[]]|done|done].
  destruct (note_received wr) as [[]]; simpl in *; congruence.
Qed.

(** The path of a message that fits in one packet. *)
Lemma plain_round_trip ws wr (m : Message_Item.t D) (dev : D) :
  let i := msg_id_of m ws in
  Message_Item.wf m -> is_u8 (next_tx_msg_id_ (self ws)) ->
  Message_Item.flags_ m = 0 -> Message_Item.answer_id_ m = None ->
  Message_Item.data_device_ m = Some dev -> dev_is_open dev = true -> dev_size dev <= Message_Item.fragment_size_ m ->
  Message_Item.cmd_ m <> Cmd.REMOVE_FRAGMENT -> Message_Item.cmd_ m <> Cmd.PING ->
  zlen (qCompress (dev_content dev)) < 2000000000 ->
  next_rx_msg_id_ (self wr) = i ->
  rx_empty wr ->
  env_throws wr (Ev_process_message i (Message_Item.cmd_ m) (dev_content dev)) = false ->
  exists packet ws' wr',
    prepare_packet_to_send (Some m) ws = (Ret packet, ws')
    /\ protocol_process_bytes packet wr = (Ret tt, wr')
    /\ events wr' = events wr ++ [Ev_process_message i (Message_Item.cmd_ m) (dev_content dev)]
    /\ next_rx_msg_id_ (self wr') = u8 (i + 1)
    /\ rx_empty wr'
    /\ zlen packet <= 9 + Z.max (dev_size dev) (zlen (qCompress (dev_content dev))).
Proof.
  intros i (Hid & _ & Hcmd & _ & [_ Hfs] & Hmc) Htx Hfl Ha Hdev Ho Hsz Hc1 Hc2 Hcomp Hrx Hre Hthr.
  destruct (prepare_packet_value m dev ws Hdev) as (ws' & Ep).
  assert (is_u8 i) as Hi.
  { unfold i, msg_id_of. destruct (Message_Item.id_ m) eqn:E; [by apply Hid|done]. }
  unfold HELPZ_MAX_PACKET_DATA_SIZE, HELPZ_MAX_UDP_PACKET_SIZE in Hfs.
  destruct (packet_data_whole m dev Ho Hsz ltac:(lia)) as (dev' & Epd). rewrite Ha in Epd.
  unfold Message_Item.flags in Epd. rewrite Hfl in Epd.
  assert (zlen (dev_content dev) < 2147483648) as Hz.
  { unfold dev_size in Hsz. change (65507 - 17) with 65490 in Hfs. lia. }
  pose proof (packet_compress_cases m (dev_content dev) Hmc Hz) as Hcases.
  unfold expected_packet in Ep. rewrite Epd in Ep.
  destruct (packet_compress m 0 (dev_content dev)) as [flags body].
  destruct (receive_plain i (Message_Item.cmd_ m) flags body (dev_content dev) wr) as (wr' & Er & Hev); try done.
  - destruct Hcases as [[_ ->]|(_ & -> & _)]; [|lia]. unfold dev_size in Hsz. lia.
  - destruct Hcases as [?|(? & _ & ?)]; [by left|by right].
  - exists (packet_bytes i (Message_Item.cmd_ m) flags body), ws', wr'. split; [exact Ep|]. split; [exact Er|].
    destruct Hev as (E1 & E2 & E3). split_and!; try done. unfold dev_size.
    rewrite packet_len by (destruct Hcases as [[_ ->]|(_ & -> & _)]; lia).
    destruct Hcases as [[_ ->]|(_ & -> & _)]; lia.
Qed.

(** C4. A message without flags and answer id, whose command is neither PING
    nor REMOVE_FRAGMENT and whose open device fits in one packet, prepared by
    one protocol object and received by another one that expects its id, has
    nothing buffered and whose handler does not throw for it, is delivered
    once, with the id, the command and exactly the bytes that were sent,
    whether or not the body was compressed; the receiver then expects the next
    id, and its buffer is empty again. *)
Theorem send_receive_roundtrip ws wr (m : Message_Item.t D) (dev : D) :
  let i := msg_id_of m ws in
  Message_Item.wf m -> is_u8 (next_tx_msg_id_ (self ws)) ->
  Message_Item.flags_ m = 0 -> Message_Item.answer_id_ m = None ->
  Message_Item.data_device_ m = Some dev -> dev_is_open dev = true -> dev_size dev <= Message_Item.fragment_size_ m ->
  Message_Item.cmd_ m <> Cmd.REMOVE_FRAGMENT -> Message_Item.cmd_ m <> Cmd.PING ->
  zlen (qCompress (dev_content dev)) < 2000000000 ->
  next_rx_msg_id_ (self wr) = i ->
  rx_empty wr ->
  env_throws wr (Ev_process_message i (Message_Item.cmd_ m) (dev_content dev)) = false ->
  exists packet ws' wr',
    prepare_packet_to_send (Some m) ws = (Ret packet, ws')
    /\ protocol_process_bytes packet wr = (Ret tt, wr')
    /\ events wr' = events wr ++ [Ev_process_message i (Message_Item.cmd_ m) (dev_content dev)]
    /\ next_rx_msg_id_ (self wr') = u8 (i + 1)
    /\ rx_empty wr'.
Proof.
  intros i Hwf Htx Hfl Ha Hdev Ho Hsz Hc1 Hc2 Hcomp Hrx Hre Hthr.
  destruct (plain_round_trip ws wr m dev Hwf Htx Hfl Ha Hdev Ho Hsz Hc1 Hc2 Hcomp Hrx Hre Hthr)
    as (packet & ws' & wr' & E1 & E2 & E3 & E4 & E5 & _).
  by exists packet, ws', wr'.
Qed.

End end_to_end.

(** ** Concrete instances of the properties *)

Module Receive_Witness.
Import QtRef Stream_Witness.

Definition dev3 : mem := {| m_content := [x01; x02; x03]; m_pos := 3; m_open := true |}.
Definition msg3 : Message_Item.t mem := Message_Item.make 16 None (Some dev3) (milliseconds 3000).

Lemma send_receive_roundtrip_witness :
  exists packet ws' wr',
    prepare_packet_to_send (Some msg3) w0 = (Ret packet, ws')
    /\ protocol_process_bytes packet w0 = (Ret tt, wr')
    /\ events wr' = [Ev_process_message 0 16 [x01; x02; x03]].
Proof.
  destruct (send_receive_roundtrip w0 w0 msg3 dev3) as (p & ws' & wr' & H1 & H2 & H3 & _);
    try reflexivity; try discriminate.
  - apply Message_Item.make_wf; [unfold is_u8; lia | discriminate].
  - unfold is_u8. simpl. lia.
  - repeat split; reflexivity.
  - by exists p, ws', wr'.
Defined.

End Receive_Witness.
