(* ===== verification/LostProofs.v ===== *)
(** * Sequence numbers: lost and repeated messages

    What [fill_lost_msg] records when ids are skipped, and that a repeated
    message is delivered at most once. *)

From S2P Require Import Prelude StdMap QtInterface MessageItem FragmentedMessage ProtocolState ProtocolSend ProtocolRecv ProtocolFrame ProtocolStream StreamProofs SendProofs ReceiveProofs.

(** Ids are counted modulo 256: [between a b x] when [x] is one of
    [a, a+1, ..., b-1]. *)
Definition between (a b x : Z) : bool := u8 (x - a) <? u8 (b - a).

Lemma u8_step a b : is_u8 a -> is_u8 b -> a <> b -> u8 (b - u8 (a + 1)) = u8 (b - a) - 1.
Proof.
  unfold is_u8, u8. intros Ha Hb Hne. rewrite Zminus_mod_idemp_r.
  pose proof (Z.div_mod (b - a) 256 ltac:(lia)) as E.
  pose proof (Z.mod_pos_bound (b - a) 256 ltac:(lia)) as R.
  assert ((b - a) mod 256 <> 0).
  { intros E0. rewrite E0 in E. assert ((b - a) / 256 = 0) by lia. lia. }
  symmetry. apply (Z.mod_unique_pos _ _ ((b - a) / 256)); lia.
Qed.

Lemma between_step a b x :
  is_u8 a -> is_u8 b -> is_u8 x -> a <> b ->
  between a b x = (x =? a) || between (u8 (a + 1)) b x.
Proof.
  intros Ha Hb Hx Hne. unfold between. rewrite (u8_step a b) by done.
  assert (0 < u8 (b - a)) as Hpos.
  { pose proof (u8_range (b - a)) as [? ?]. unfold is_u8, u8 in *.
    pose proof (Z.div_mod (b - a) 256 ltac:(lia)).
    assert ((b - a) mod 256 <> 0); [|lia]. intros E0. assert ((b - a) / 256 = 0) by lia. lia. }
  destruct (Z.eqb_spec x a) as [->|Hxa].
  - rewrite Z.sub_diag. simpl. change (u8 0) with 0. by apply Z.ltb_lt.
  - rewrite u8_step by (done || congruence || (intros E; by apply Hxa)).
    simpl. pose proof (u8_range (x - a)). destruct (Z.ltb_spec (u8 (x - a)) (u8 (b - a)));
      destruct (Z.ltb_spec (u8 (x - a) - 1) (u8 (b - a) - 1)); lia.
Qed.

Lemma between_refl a x : between a a x = false.
Proof.
  unfold between. rewrite Z.sub_diag. change (u8 0) with 0.
  apply Z.ltb_ge. apply u8_range.
Qed.

(** The marking loop stops after the distance between the two ids, and marks
    exactly the ids it passes; marked ids keep an earlier time. *)
Lemma mark_lost_spec fuel id t next lost :
  is_u8 id -> is_u8 next -> StdMap.sorted lost -> u8 (id - next) <= Z.of_nat fuel ->
  exists lost', mark_lost fuel id t next lost = Some (id, lost') /\ StdMap.sorted lost'
    /\ forall x, is_u8 x ->
         StdMap.find x lost' = if between next id x then Some (default t (StdMap.find x lost))
                               else StdMap.find x lost.
Proof.
  revert next lost. induction fuel as [|fuel IH]; intros next lost Hid Hnext Hs Hf; cbn [mark_lost].
  - destruct (Z.eqb_spec id next) as [->|Hne].
    + exists lost. split_and!; [done|done|]. intros x _. by rewrite between_refl.
    + exfalso. pose proof (u8_step next id Hnext Hid (not_eq_sym Hne)) as E.
      pose proof (u8_range (id - u8 (next + 1))) as [? _]. simpl in Hf. lia.
  - destruct (Z.eqb_spec id next) as [->|Hne].
    + exists lost. split_and!; [done|done|]. intros x _. by rewrite between_refl.
    + destruct (IH (u8 (next + 1)) (StdMap.emplace next t lost).1) as (lost' & E & Hs' & Hf');
        [done|apply u8_range|by apply StdMap.emplace_sorted|rewrite u8_step by done; lia|].
      exists lost'. split_and!; [done|done|]. intros x Hx. rewrite Hf' by done.
      rewrite StdMap.emplace_find by done. rewrite (between_step next id x) by done.
      destruct (Z.eqb_spec x next) as [->|]; simpl; [|done].
      by destruct (between (u8 (next + 1)) id next).
Qed.

Section lost_proofs.
Context {D B : Type} `{HD : QIODeviceLaws D} `{HSL : QDataStreamLaws} `{HCL : QtBytesLaws}.
Implicit Types (w : World D B).

(** The first id recorded: at most 100 before the received one, unless the
    received id is below the counter. *)
Definition first_lost (id next : Z) : Z := if next + 100 <? id then u8 (id - 100) else next.

(** How many ids that makes. *)
Lemma first_lost_count id next :
  is_u8 id -> is_u8 next ->
  u8 (id - first_lost id next) = if next <=? id then Z.min 100 (id - next) else 256 + id - next.
Proof.
  unfold is_u8, first_lost. intros Hid Hn. destruct (Z.ltb_spec (next + 100) id).
  - rewrite (u8_small (id - 100)) by (unfold is_u8; lia). destruct (Z.leb_spec next id); [|lia].
    rewrite u8_small by (unfold is_u8; lia). lia.
  - destruct (Z.leb_spec next id).
    + rewrite u8_small by (unfold is_u8; lia). lia.
    + unfold u8. symmetry. apply (Z.mod_unique_pos _ _ (-1)); lia.
Qed.

(** What is left of the lost list before new ids are recorded. *)
Definition lost_kept (id t : Z) (lost : StdMap.t Z) (x : Z) : option Z :=
  match StdMap.find x lost with
  | Some tp => if lost_expired id t x tp then None else Some tp
  | None => None
  end.

Lemma fill_lost_msg_ok id w :
  is_u8 id -> is_u8 (next_rx_msg_id_ (self w)) -> StdMap.sorted (lost_msg_list_ (self w)) ->
  let t := env_clock w (ticks w) in
  exists w', fill_lost_msg id w = (Ret tt, w')
    /\ next_rx_msg_id_ (self w') = id /\ StdMap.sorted (lost_msg_list_ (self w'))
    /\ (forall x, is_u8 x -> StdMap.find x (lost_msg_list_ (self w')) =
          if between (first_lost id (next_rx_msg_id_ (self w))) id x
          then Some (default t (lost_kept id t (lost_msg_list_ (self w)) x))
          else lost_kept id t (lost_msg_list_ (self w)) x)
    /\ events w' = events w /\ waiting_messages_ (self w') = waiting_messages_ (self w)
    /\ next_tx_msg_id_ (self w') = next_tx_msg_id_ (self w)
    /\ env_clock w' = env_clock w /\ env_throws w' = env_throws w
    /\ device_ (self w') = device_ (self w) /\ packet_end_position_ (self w') = packet_end_position_ (self w).
Proof.
  intros Hid Hnext Hs t.
  set (lost1 := StdMap.erase_if (lost_expired id t) (lost_msg_list_ (self w))).
  assert (StdMap.sorted lost1) as Hs1 by by apply StdMap.erase_if_sorted.
  assert (is_u8 (first_lost id (next_rx_msg_id_ (self w)))) as Hfl.
  { unfold first_lost. destruct (_ <? _); [apply u8_range|done]. }
  destruct (mark_lost_spec 256 id t (first_lost id (next_rx_msg_id_ (self w))) lost1)
    as (lost' & E & Hs' & Hf); [done|done|done|pose proof (u8_range (id - first_lost id (next_rx_msg_id_ (self w)))) as [? ?]; lia|].
  destruct w as [[rx tx lost d ls fr wa wr pe] cl th ti ev].
  cbn [self env_clock ticks next_rx_msg_id_ lost_msg_list_ waiting_messages_ next_tx_msg_id_ events] in *.
  unfold first_lost, fill_lost_msg in *. clear Hfl.
  revert E. generalize (mark_lost 256). intros ml E.
  unfold bind at 1, now at 1. cbn [self env_clock env_throws ticks events]. fold t.
  unfold bind at 1, member at 1, gets at 1. cbn [self lost_msg_list_].
  generalize (map fst (filter (fun p : Z * Z => lost_expired id t p.1 p.2 = true) lost)).
  intros expired. fold lost1.
  unfold when. destruct (rx + 100 <? id) eqn:Ec;
    (eexists; split;
      [unfold bind, member, update, modify, gets, on_self, ret;
       cbn [self env_clock env_throws ticks events with_fragmented with_lost with_next_rx
            next_rx_msg_id_ lost_msg_list_ fragmented_messages_]; rewrite ?Ec; cbn [self env_clock env_throws ticks events with_fragmented with_lost with_next_rx
            next_rx_msg_id_ lost_msg_list_ fragmented_messages_]; rewrite E; reflexivity|]);
    cbn; split_and!; try done;
    intros x Hx; rewrite Hf by done; unfold lost_kept, lost1; by rewrite StdMap.erase_if_find.
Qed.

(** ** Repeated messages *)

Lemma check_repeated id flags w :
  has_flag flags Flags.REPEATED = true -> StdMap.find id (lost_msg_list_ (self w)) = None ->
  check_msg_id id flags w = (Ret false, w).
Proof.
  intros Hr Hf. unfold check_msg_id, is_old. rewrite Hr. cbn [orb negb].
  unfold is_lost_message, bind, member, gets. rewrite Hf. reflexivity.
Qed.

Lemma check_lost id flags tp w :
  has_flag flags Flags.REPEATED = true -> StdMap.find id (lost_msg_list_ (self w)) = Some tp ->
  env_clock w (ticks w) - tp < seconds 10 ->
  check_msg_id id flags w =
    (Ret true, (now (on_self (with_lost (StdMap.erase id (lost_msg_list_ (self w)))) w)).2).
Proof.
  intros Hr Hf Ht. unfold check_msg_id, is_old. rewrite Hr. cbn [orb negb].
  unfold is_lost_message, bind, member, gets, update, modify. rewrite Hf.
  cbn [now on_self env_clock ticks snd].
  destruct (Z.ltb_spec (env_clock w (ticks w) - tp) (seconds 10)); [done|lia].
Qed.

(** ** Properties *)

(** C16. When a message skips ids, [fill_lost_msg] returns (its loop ends),
    moves the receive counter to the received id, and records as lost
    exactly the ids from the first lost one up to the received id, counting
    modulo 256. The first lost one is the old counter, or the id minus 100 when
    the id, as a number, is more than 100 above the counter; so at most 100 ids
    are recorded when the id is not below the counter, and all 256 + id -
    counter of them when it is (ids have started again at 0). Recorded ids that
    expired are forgotten, others keep their time. *)
Theorem fill_lost_msg_records id w :
  is_u8 id -> is_u8 (next_rx_msg_id_ (self w)) -> StdMap.sorted (lost_msg_list_ (self w)) ->
  let t := env_clock w (ticks w) in
  exists w', fill_lost_msg id w = (Ret tt, w')
    /\ next_rx_msg_id_ (self w') = id /\ StdMap.sorted (lost_msg_list_ (self w'))
    /\ (forall x, is_u8 x -> StdMap.find x (lost_msg_list_ (self w')) =
          if between (first_lost id (next_rx_msg_id_ (self w))) id x
          then Some (default t (lost_kept id t (lost_msg_list_ (self w)) x))
          else lost_kept id t (lost_msg_list_ (self w)) x)
    /\ u8 (id - first_lost id (next_rx_msg_id_ (self w)))
       = if next_rx_msg_id_ (self w) <=? id then Z.min 100 (id - next_rx_msg_id_ (self w))
         else 256 + id - next_rx_msg_id_ (self w).
Proof.
  intros Hid Hnext Hs t. destruct (fill_lost_msg_ok id w Hid Hnext Hs) as (w' & E & Hn & Hs' & Hf & _).
  exists w'. split_and!; try done. apply first_lost_count; done.
Qed.

(** Exactly once: a message marked REPEATED whose id is on the lost list
    (for less than ten seconds) is delivered, and every later copy of it is
    dropped with no effect at all. *)
Theorem repeated_delivered_once id c data tp w :
  StdMap.sorted (lost_msg_list_ (self w)) -> StdMap.find id (lost_msg_list_ (self w)) = Some tp ->
  env_clock w (ticks w) - tp < seconds 10 ->
  c <> Cmd.REMOVE_FRAGMENT -> c <> Cmd.PING -> env_throws w (Ev_process_message id c data) = false ->
  exists w', internal_process_message id c Flags.REPEATED data w = (Ret tt, w')
    /\ events w' = events w ++ [Ev_process_message id c data]
    /\ internal_process_message id c Flags.REPEATED data w' = (Ret tt, w').
Proof.
  intros Hs Hf Ht Hc1 Hc2 Hth. unfold internal_process_message.
  rewrite (bind_Ret _ _ _ _ _ (check_lost id Flags.REPEATED tp w eq_refl Hf Ht)). cbn [negb].
  rewrite andb_false_r. change (has_flag Flags.REPEATED Flags.COMPRESSED) with false. cbv iota.
  rewrite dispatch_plain by done. eexists. split_and!; [reflexivity|reflexivity|].
  erewrite bind_Ret; [|apply (check_repeated id Flags.REPEATED); [reflexivity|]]; [reflexivity|].
  destruct w as [[]]. cbn. cbn in Hs. rewrite StdMap.erase_find by done. by rewrite Z.eqb_refl.
Qed.

(** A repeated message that is not on the lost list (it was received
    before, or given up) is dropped: nothing is delivered and the object
    does not change. *)
Theorem repeated_dropped id c flags data w :
  has_flag flags Flags.REPEATED = true -> StdMap.find id (lost_msg_list_ (self w)) = None ->
  internal_process_message id c flags data w = (Ret tt, w).
Proof.
  intros Hr Hf. unfold internal_process_message.
  by rewrite (bind_Ret _ _ _ _ _ (check_repeated id flags w Hr Hf)).
Qed.

End lost_proofs.

(** The window test of [fill_lost_msg] never rejects an id when the
    received id is at least 100: the lower bound it computes is then below
    the upper one, so an id outside the last hundred stays on the list until
    it is ten seconds old. *)
Theorem lost_window_inactive id t x tp :
  100 <= id < 256 -> is_u8 x -> lost_expired id t x tp = (tp <? t - seconds 10).
Proof.
  intros Hid Hx. unfold lost_expired, is_u8 in *. rewrite u8_small by (unfold is_u8; lia).
  destruct (Z.ltb_spec (255 + x) (255 + (id - 100))), (Z.ltb_spec (255 + id) (255 + x)); try lia;
    by rewrite ?orb_false_r.
Qed.

(** Below 100 the test rejects the ids that are not among the last hundred. *)
Lemma lost_window_active id t x tp :
  0 <= id < 100 -> is_u8 x ->
  lost_expired id t x tp = (tp <? t - seconds 10) || ((id <? x) && (x <? id + 156)).
Proof.
  intros Hid Hx. unfold lost_expired, is_u8 in *.
  replace (u8 (id - 100)) with (id + 156).
  2:{ unfold u8. apply (Z.mod_unique_pos _ _ (-1)); lia. }
  f_equal. destruct (Z.ltb_spec (255 + x) (255 + (id + 156))), (Z.ltb_spec (255 + id) (255 + x)),
    (Z.ltb_spec id x), (Z.ltb_spec x (id + 156)); try lia; done.
Qed.

(** ** An empty REMOVE_FRAGMENT packet *)

Section remove_fragment.
Context {D B : Type} `{HD : QIODeviceLaws D} `{HBL : QIODeviceLaws B} `{HQ : !QBuffer B} `{HQL : !QBufferLaws B}
  `{HSL : QDataStreamLaws} `{HCL : QtBytesLaws}.

(** A packet of nine bytes, a REMOVE_FRAGMENT message with the expected
    id, a correct checksum and no body, makes [process_bytes] call [front()]
    of an empty queue: parsing the missing fragment id throws, the position
    is then at the end of the only packet, the loop that discards processed
    packets empties the queue, and the next statement uses its front. *)
Theorem empty_remove_fragment_undefined (wr : World D B) :
  is_u8 (next_rx_msg_id_ (self wr)) ->
  rx_empty wr ->
  (protocol_process_bytes (packet_bytes (next_rx_msg_id_ (self wr)) Cmd.REMOVE_FRAGMENT 0 []) wr).1 = Undef.
Proof.
  intros Hi [[Ho Hb] He]. destruct (note_received_props wr) as (Enx & _ & _).
  eapply (process_bytes_throw internal_process_message framed_internal_process_message); try done.
  unfold internal_process_message.
  rewrite (bind_Ret _ _ _ _ _ (check_msg_id_in_order (next_rx_msg_id_ (self wr)) 0 (note_received wr) Enx Hi eq_refl)).
  cbn [negb]. rewrite andb_false_r. change (has_flag 0 Flags.COMPRESSED) with false. cbv iota.
  unfold dispatch_message. change (Cmd.REMOVE_FRAGMENT =? Cmd.REMOVE_FRAGMENT) with true. cbv iota.
  apply bind_Throw. unfold parse. by rewrite get_short.
Qed.

End remove_fragment.

(** ** Concrete instances of the properties *)

Module Lost_Witness.
Import QtRef Stream_Witness.

Definition w_lost : World mem mem := on_self (with_lost [(3, 0)]) w0.

Lemma fill_lost_msg_records_witness :
  exists w', fill_lost_msg 5 w0 = (Ret tt, w') /\ next_rx_msg_id_ (self w') = 5
    /\ lost_msg_list_ (self w') = [(0, 0); (1, 0); (2, 0); (3, 0); (4, 0)].
Proof.
  destruct (fill_lost_msg_records 5 w0) as (w' & E & Hn & _);
    [unfold is_u8; lia | unfold is_u8; simpl; lia | constructor |].
  exists w'. split_and!; [exact E | exact Hn |]. vm_compute in E. injection E as <-. reflexivity.
Defined.

Lemma repeated_delivered_once_witness :
  exists w', internal_process_message 3 16 Flags.REPEATED [x01] w_lost = (Ret tt, w')
    /\ events w' = [Ev_process_message 3 16 [x01]]
    /\ internal_process_message 3 16 Flags.REPEATED [x01] w' = (Ret tt, w').
Proof.
  apply (repeated_delivered_once 3 16 [x01] 0 w_lost); try reflexivity; try discriminate.
  repeat constructor.
Defined.

Lemma repeated_dropped_witness :
  internal_process_message 4 16 Flags.REPEATED [x01] w_lost = (Ret tt, w_lost).
Proof. apply repeated_dropped; reflexivity. Defined.

Lemma lost_window_inactive_witness : lost_expired 150 0 20 0 = false.
Proof. rewrite lost_window_inactive; [reflexivity | lia | unfold is_u8; lia]. Defined.

Lemma empty_remove_fragment_undefined_witness :
  (protocol_process_bytes (packet_bytes 0 Cmd.REMOVE_FRAGMENT 0 []) w0).1 = Undef.
Proof.
  apply (empty_remove_fragment_undefined w0); [unfold is_u8; simpl; lia | repeat split; reflexivity].
Defined.

End Lost_Witness.
