(* ===== verification/ProtocolInvariant.v ===== *)
(** * The invariant of a protocol object

    Counters, maps and stored messages stay well formed, whatever bytes
    arrive, in whatever order messages are sent, timers fire and callbacks
    throw. [keeps m Q] is the Hoare triple used: [m] finishes and runs into
    no undefined behaviour, preserves the invariant, also when it throws, and
    a value it returns satisfies [Q]. *)

From S2P Require Import Prelude StdMap QtInterface MessageItem FragmentedMessage ProtocolState ProtocolSend ProtocolRecv ProtocolFrame ProtocolStream StreamProofs SendProofs ReceiveProofs LostProofs.

(** ** Missing parts of a message under arbitrary fragments

    A peer may announce a message of size 0, so parts may be empty here. *)

Fixpoint parts_le (lo hi : Z) (l : list (Z * Z)) : Prop :=
  match l with
  | [] => True
  | (a, b) :: l' => lo <= a /\ a <= b /\ b <= hi /\ parts_le b hi l'
  end.

Lemma parts_le_weaken lo lo' hi l : lo' <= lo -> parts_le lo hi l -> parts_le lo' hi l.
Proof. destruct l as [|[a b] l]; simpl; intuition lia. Qed.

Lemma remove_parts_le s e lo hi l :
  s <= e -> parts_le lo hi l -> parts_le lo hi (Fragmented_Message.remove_from_part_vect s e l).
Proof.
  revert s lo. induction l as [|[a b] l IH]; intros s lo Hse; [done|].
  simpl. intros (Ha & Hab & Hb & Hl).
  repeat case_cmp; simpl; repeat split; try lia; try done;
    try (apply IH; [lia|done]); try (eapply parts_le_weaken; [|apply IH; [lia|exact Hl]]; lia);
    try (eapply parts_le_weaken; [|exact Hl]; lia).
Qed.

Lemma remove_parts_le_beyond s e lo hi l :
  parts_le lo hi l -> hi < s -> Fragmented_Message.remove_from_part_vect s e l = l.
Proof.
  revert lo. induction l as [|[a b] l IH]; intros lo; [done|]. simpl.
  intros (Ha & Hab & Hb & Hl) Hs. repeat case_cmp; try lia; [done|]. f_equal. by eapply IH.
Qed.

Lemma remove_parts_le_u32 pos len hi l :
  parts_le 0 hi l -> hi < 2147483648 -> is_u32 pos -> 0 <= len <= 2147483648 ->
  parts_le 0 hi (Fragmented_Message.remove_from_part_vect pos (u32 (pos + len)) l).
Proof.
  unfold is_u32. intros Hl Hhi Hp Hlen.
  destruct (Z.lt_ge_cases (pos + len) 4294967296).
  - rewrite u32_small by (unfold is_u32; lia). apply remove_parts_le; [lia|done].
  - by rewrite (remove_parts_le_beyond pos _ 0 hi) by (done || lia).
Qed.

(** ** The invariant *)

Section invariant.
Context {D B : Type} `{DB : QIODevice B}.

Definition lost_ok (l : StdMap.t Z) : Prop := StdMap.sorted l /\ forall x, In x (StdMap.keys l) -> is_u8 x.

Definition frag_ok (k : Z) (m : Fragmented_Message.t D) : Prop :=
  is_u8 k /\ Fragmented_Message.id_ m = k /\ is_u8 (Fragmented_Message.cmd_ m)
  /\ 1 <= Fragmented_Message.max_fragment_size_ m <= HELPZ_MAX_PACKET_DATA_SIZE
  /\ parts_le 0 2147483647 (Fragmented_Message.part_vect_ m).

Definition frags_ok (l : StdMap.t (Fragmented_Message.t D)) : Prop :=
  StdMap.sorted l /\ forall k m, StdMap.find k l = Some m -> frag_ok k m.

Definition has_device (m : Message_Item.t D) : Prop := is_Some (Message_Item.data_device_ m).

Definition waiting_id (m : Message_Item.t D) : Z := value_or_0 (Message_Item.id_ m).

(** A message kept for resending has its id and its device. *)
Definition item_ok (m : Message_Item.t D) : Prop :=
  Message_Item.wf m /\ has_device m /\ is_Some (Message_Item.id_ m).

Definition waiting_ok (l : StdMap.t (Message_Item.t D)) : Prop :=
  StdMap.sorted l /\ Forall item_ok (StdMap.values l) /\ NoDup (map waiting_id (StdMap.values l)).

(** What is handed to the writer is a well-formed message with a device, what
    is delivered has byte-sized id and command. *)
Definition event_ok (e : Event D) : Prop :=
  match e with
  | Ev_write m => Message_Item.wf m /\ has_device m
  | Ev_process_message i c _ | Ev_process_answer_message i c _ => is_u8 i /\ is_u8 c
  | _ => True
  end.

Record inv (w : World D B) : Prop := {
  inv_rx : is_u8 (next_rx_msg_id_ (self w));
  inv_tx : is_u8 (next_tx_msg_id_ (self w));
  inv_lost : lost_ok (lost_msg_list_ (self w));
  inv_frags : frags_ok (fragmented_messages_ (self w));
  inv_waiting : waiting_ok (waiting_messages_ (self w));
  inv_open : dev_is_open (device_ (self w)) = true;
  inv_ends : Forall (fun e => 0 < e) (packet_end_position_ (self w));
  inv_events : Forall event_ok (events w);
}.

Definition outcome_ok {A} (o : outcome A) (Q : A -> Prop) : Prop :=
  match o with Ret a => Q a | Throw => True | _ => False end.

Definition keeps {A} (m : PM D B A) (Q : A -> Prop) : Prop :=
  forall w, inv w -> inv (m w).2 /\ outcome_ok (m w).1 Q.

Definition any {A} (_ : A) : Prop := True.

(** *** Rules *)

Lemma keeps_ret {A} (a : A) (Q : A -> Prop) : Q a -> keeps (ret a) Q.
Proof. intros HQ w Hw. by split. Qed.

Lemma keeps_throw {A} (Q : A -> Prop) : keeps throw Q.
Proof. intros w Hw. by split. Qed.

Lemma keeps_bind {A A'} (m : PM D B A) (k : A -> PM D B A') Q R :
  keeps m Q -> (forall a, Q a -> keeps (k a) R) -> keeps (bind m k) R.
Proof.
  intros Hm Hk w Hw. unfold bind. destruct (Hm w Hw) as [Hi Ha].
  destruct (m w) as [[a| | |] w']; simpl in *; try (by split).
  apply Hk; auto.
Qed.

Lemma keeps_weaken {A} (m : PM D B A) (Q R : A -> Prop) : keeps m Q -> (forall a, Q a -> R a) -> keeps m R.
Proof. intros Hm HQR w Hw. destruct (Hm w Hw) as [? Ha]. split; [done|]. unfold outcome_ok in *. destruct (m w).1; auto. Qed.

Lemma keeps_member {A} (f : Protocol D B -> A) (Q : A -> Prop) :
  (forall w, inv w -> Q (f (self w))) -> keeps (member f) Q.
Proof. intros HQ w Hw. split; [done|]. by apply HQ. Qed.

Lemma keeps_update (f : Protocol D B -> Protocol D B) :
  (forall w, inv w -> inv (on_self f w)) -> keeps (update f) any.
Proof. intros Hf w Hw. split; [by apply Hf|done]. Qed.

Lemma keeps_now : keeps now any.
Proof. intros w []. by split. Qed.

Lemma keeps_emit e : event_ok e -> keeps (emit e) any.
Proof.
  intros He w []. split; [|done]. constructor; try done. simpl. apply Forall_app. by split; [|constructor].
Qed.

Lemma keeps_call_user e : event_ok e -> keeps (call_user e) any.
Proof.
  intros He. apply (keeps_bind _ _ any); [by apply keeps_emit|]. intros _ _.
  intros w Hw. unfold bind, gets. destruct (env_throws w e); by split.
Qed.

Lemma keeps_when c m : (c = true -> keeps m any) -> keeps (when c m) any.
Proof. destruct c; simpl; [auto|]. intros _. by apply keeps_ret. Qed.

Lemma keeps_guarded {A} (m : PM D B A) c Q : keeps m Q -> keeps c any -> keeps (guarded m c) Q.
Proof.
  intros Hm Hc w Hw. unfold guarded. destruct (Hm w Hw) as [Hi Ha].
  destruct (m w) as [[a| | |] w']; simpl in *; try (by split).
  - apply (keeps_bind c _ any); [done| |done]. intros _ _. by apply keeps_ret.
  - apply (keeps_bind c _ any); [done| |done]. intros _ _. apply keeps_throw.
Qed.

Lemma keeps_destroy m : keeps (destroy m) any.
Proof. unfold destroy. destruct (Message_Item.dtor m) as [[]|]; [by apply keeps_emit|by apply keeps_ret]. Qed.

End invariant.

#[export] Hint Resolve keeps_throw keeps_now keeps_destroy : keeps.

(** An assignment to a member: only its own clause of the invariant is left. *)
Ltac keeps_upd :=
  apply keeps_update; intros [[]] []; constructor; simpl in *; try done.

(** Go through a computation; values get the facts of [Q], what cannot be
    solved by the hints is left. *)
Ltac keeps_step :=
  match goal with
  | |- keeps (ret _) _ => apply keeps_ret
  | |- keeps (call_user _) _ => apply keeps_call_user
  | |- keeps (emit _) _ => apply keeps_emit
  | |- keeps (when _ _) _ => apply keeps_when; intros ?
  | |- keeps (guarded _ _) _ => apply keeps_guarded
  | |- keeps (bind (update _) _) _ => eapply (keeps_bind _ _ any); [|intros _ _]
  | |- keeps (bind (when _ _) _) _ => eapply (keeps_bind _ _ any); [|intros _ _]
  | |- keeps (bind (call_user _) _) _ => eapply (keeps_bind _ _ any); [|intros _ _]
  | |- keeps (update _) _ => keeps_upd
  | |- keeps (bind _ _) _ => eapply keeps_bind; [solve [eauto 4 with keeps]|intros ? ?]
  | |- keeps (match ?x with _ => _ end) _ => destruct x eqn:?
  | |- keeps _ _ => solve [eauto 4 with keeps]
  end.
Ltac keeps := cbv zeta; repeat keeps_step; try done.

(** ** Maps *)

Section map_lemmas.
Context {D : Type}.
Implicit Types (fr : StdMap.t (Fragmented_Message.t D)) (ws : StdMap.t (Message_Item.t D)).

Lemma lost_emplace k t l : is_u8 k -> lost_ok l -> lost_ok (StdMap.emplace k t l).1.
Proof.
  intros Hk [Hs Hf]. split; [by apply StdMap.emplace_sorted|]. intros x Hx.
  destruct (StdMap.emplace k t l) as [m' b] eqn:E.
  destruct (StdMap.emplace_keys _ _ _ _ _ E x Hx) as [->|?]; auto.
Qed.

Lemma lost_erase k l : lost_ok l -> lost_ok (StdMap.erase k l).
Proof.
  intros [Hs Hf]. split; [by apply StdMap.erase_sorted|].
  intros x Hx%StdMap.erase_keys_subset. auto.
Qed.

Lemma lost_erase_if p l : lost_ok l -> lost_ok (StdMap.erase_if p l).
Proof.
  intros [Hs Hf]. split; [by apply StdMap.erase_if_sorted|].
  intros x Hx%StdMap.erase_if_keys_subset. auto.
Qed.

Lemma lost_touch k t l : is_u8 k -> lost_ok l -> lost_ok (touch_lost k t l).
Proof.
  intros Hk Hl. unfold touch_lost. pose proof (lost_emplace k t l Hk Hl) as He.
  destruct (StdMap.emplace k t l) as [l' []]; simpl in *; [done|].
  destruct He as [Hs Hf]. split; [by apply StdMap.assign_sorted|]. intros x. by rewrite StdMap.assign_keys; auto.
Qed.

(** 256 rounds are enough to get from any id to any other one. *)
Lemma mark_lost_finishes id t next l : is_u8 id -> is_u8 next -> lost_ok l -> mark_lost 256 id t next l <> None.
Proof.
  intros Hi Hn [Hs _]. destruct (mark_lost_spec 256 id t next l Hi Hn Hs) as (l' & -> & _); [|done].
  pose proof (u8_range (id - next)) as [? ?]. lia.
Qed.

Lemma lost_mark fuel id t next l next' l' :
  is_u8 next -> lost_ok l -> mark_lost fuel id t next l = Some (next', l') -> is_u8 next' /\ lost_ok l'.
Proof.
  revert next l. induction fuel as [|fuel IH]; intros next l Hn Hl; cbn [mark_lost].
  - destruct (id =? next); [|done]. by intros [= <- <-].
  - destruct (id =? next); [by intros [= <- <-]|]. apply IH; [apply u8_range|by apply lost_emplace].
Qed.

Lemma frags_erase k fr : frags_ok fr -> frags_ok (StdMap.erase k fr).
Proof.
  intros [Hs Hf]. split; [by apply StdMap.erase_sorted|]. intros x m.
  rewrite StdMap.erase_find by done. destruct (x =? k); [done|apply Hf].
Qed.

Lemma frags_erase_all ks fr : frags_ok fr -> frags_ok (fold_left (fun m k => StdMap.erase k m) ks fr).
Proof. revert fr. induction ks as [|k ks IH]; simpl; auto using frags_erase. Qed.

Lemma frags_emplace k m fr : frag_ok k m -> frags_ok fr -> frags_ok (StdMap.emplace k m fr).1.
Proof.
  intros Hm [Hs Hf]. split; [by apply StdMap.emplace_sorted|]. intros x m'.
  rewrite StdMap.emplace_find by done. destruct (Z.eqb_spec x k) as [->|]; [|apply Hf].
  destruct (StdMap.find k fr) eqn:E; simpl; intros [= <-]; auto.
Qed.

Lemma frags_assign k m fr : frag_ok k m -> frags_ok fr -> frags_ok (StdMap.assign k m fr).
Proof.
  intros Hm [Hs Hf]. split; [by apply StdMap.assign_sorted|]. intros x m'.
  rewrite StdMap.assign_find. destruct (Z.eqb_spec x k) as [->|]; [|apply Hf].
  destruct (StdMap.find k fr); simpl; [|done]. by intros [= <-].
Qed.

(** Taking entries out of the waiting list. *)
Lemma waiting_sub ws ws' :
  StdMap.sorted ws' -> StdMap.values ws' ⊆+ StdMap.values ws -> waiting_ok ws -> waiting_ok ws'.
Proof.
  intros Hs' Hsub (_ & Hf & Hnd). split_and!; [done| |].
  - rewrite Forall_forall in Hf |- *. intros x Hx. apply Hf. by eapply elem_of_submseteq.
  - apply submseteq_Permutation in Hsub as [k Hk].
    apply (Permutation_map waiting_id) in Hk. rewrite Hk, map_app in Hnd.
    by apply NoDup_app in Hnd as [? _].
Qed.

Lemma waiting_extract p ws r ws' :
  StdMap.extract_first p ws = (r, ws') -> waiting_ok ws ->
  waiting_ok ws' /\ (forall m, r = Some m -> item_ok m /\ p m = true).
Proof.
  intros E Hw. pose proof (StdMap.extract_first_sorted p ws (proj1 Hw)) as Hs. rewrite E in Hs.
  destruct r as [m|].
  - destruct (StdMap.extract_first_Some _ _ _ _ E) as (Hp & Hperm & _). split.
    + apply (waiting_sub ws); [done| |done]. rewrite Hperm. by apply submseteq_cons.
    + intros m' [= <-]. split; [|done]. destruct Hw as (_ & Hf & _).
      rewrite Hperm in Hf. by inversion Hf.
  - destruct (StdMap.extract_first_None _ _ _ E) as [-> _]. by split.
Qed.

Lemma waiting_pop_until t ws : waiting_ok ws ->
  waiting_ok (StdMap.pop_until t ws).2 /\ Forall item_ok (StdMap.pop_until t ws).1.
Proof.
  intros Hw. pose proof (StdMap.pop_until_app t ws) as Ha. split.
  - apply (waiting_sub ws); [|rewrite <- Ha; apply submseteq_inserts_l; done|done].
    apply StdMap.pop_until_sorted, Hw.
  - destruct Hw as (_ & Hf & _). rewrite <- Ha in Hf. by apply Forall_app in Hf as [? _].
Qed.

(** [add_to_waiting]: the entry with the same id goes before the new one
    comes. *)
Lemma waiting_emplace t m ws ws' b :
  StdMap.emplace t m ws = (ws', b) -> item_ok m -> waiting_ok ws ->
  Forall (fun x => (waiting_id x =? waiting_id m) = false) (StdMap.values ws) -> waiting_ok ws'.
Proof.
  intros E Hm (Hs & Hf & Hnd) Hne. pose proof (StdMap.emplace_sorted t m ws Hs) as Hs'. rewrite E in Hs'.
  destruct b.
  - pose proof (StdMap.emplace_values_fresh _ _ _ _ E) as Hp. split_and!; [done|rewrite Hp; by constructor|].
    assert (map waiting_id (StdMap.values ws') ≡ₚ waiting_id m :: map waiting_id (StdMap.values ws)) as ->
      by (change (waiting_id m :: map waiting_id (StdMap.values ws)) with (map waiting_id (m :: StdMap.values ws));
          by apply Permutation_map).
    constructor; [|done]. intros (x & Ex & Hx)%list_elem_of_fmap.
    rewrite Forall_forall in Hne. specialize (Hne x Hx). apply Z.eqb_neq in Hne. congruence.
  - by rewrite (StdMap.emplace_same _ _ _ _ E).
Qed.

End map_lemmas.

#[export] Hint Resolve lost_emplace lost_erase lost_erase_if lost_touch frags_erase frags_erase_all
  frags_emplace frags_assign : keeps.

(** ** Operations *)

Section operations.
Context {D B : Type} `{DB : QIODevice B} `{QIODevice D}.

Lemma keeps_rx : keeps (member next_rx_msg_id_ : PM D B Z) is_u8.
Proof. apply keeps_member. by intros w []. Qed.
Lemma keeps_tx : keeps (member next_tx_msg_id_ : PM D B Z) is_u8.
Proof. apply keeps_member. by intros w []. Qed.
Lemma keeps_lost : keeps (member lost_msg_list_ : PM D B _) lost_ok.
Proof. apply keeps_member. by intros w []. Qed.
Lemma keeps_frags : keeps (member fragmented_messages_ : PM D B _) frags_ok.
Proof. apply keeps_member. by intros w []. Qed.
Lemma keeps_waiting : keeps (member waiting_messages_ : PM D B _) waiting_ok.
Proof. apply keeps_member. by intros w []. Qed.
Lemma keeps_writer : keeps (writer : PM D B _) any.
Proof. by apply keeps_member. Qed.
#[local] Hint Resolve keeps_rx keeps_tx keeps_lost keeps_frags keeps_waiting keeps_writer : keeps.

Definition item_opt (o : option (Message_Item.t D)) : Prop := forall m, o = Some m -> item_ok m.

Lemma keeps_pop f : keeps (pop_waiting_message f : PM D B _) item_opt.
Proof.
  unfold pop_waiting_message. keeps.
  - by apply (waiting_extract _ _ _ _ Heqp).
  - intros m ->. by eapply (waiting_extract _ _ _ _ Heqp).
Qed.

Lemma keeps_destroy_opt m : keeps (destroy_opt m : PM D B unit) any.
Proof. unfold destroy_opt. keeps. Qed.

Lemma keeps_send_message m : (forall x, m = Some x -> Message_Item.wf x) -> keeps (send_message m : PM D B unit) any.
Proof.
  intros Hm. unfold send_message. keeps. split; [by apply Hm|]. by eexists.
Qed.

Lemma keeps_add_timeout_at t x : keeps (add_timeout_at t x : PM D B unit) any.
Proof. unfold add_timeout_at. keeps. Qed.

Lemma keeps_pop_messages : keeps (pop_waiting_messages : PM D B _) (Forall item_ok).
Proof.
  unfold pop_waiting_messages. keeps.
  - destruct (waiting_pop_until (a + milliseconds 20) a0) as [Hw _]; [done|]. by rewrite Heqp in Hw.
  - destruct (waiting_pop_until (a + milliseconds 20) a0) as [_ Hw]; [done|]. by rewrite Heqp in Hw.
Qed.

(** After taking out the message with id [i] no other one has that id. *)
Lemma extract_id_rest i ws r ws' :
  waiting_ok ws -> StdMap.extract_first (fun x => waiting_id x =? i) ws = (r, ws') ->
  Forall (fun x : Message_Item.t D => (waiting_id x =? i) = false) (StdMap.values ws').
Proof.
  intros (_ & _ & Hnd) E. destruct r as [m|].
  - destruct (StdMap.extract_first_Some _ _ _ _ E) as (Hp%Z.eqb_eq & Hperm & _).
    apply (Permutation_map waiting_id) in Hperm. rewrite Hperm in Hnd.
    simpl in Hnd. apply NoDup_cons in Hnd as [Hni _]. apply Forall_forall. intros x Hx.
    apply Z.eqb_neq. intros Ex. apply Hni. rewrite Hp, <- Ex. by apply list_elem_of_fmap_2.
  - by destruct (StdMap.extract_first_None _ _ _ E) as [-> ?].
Qed.

Lemma destroy_opt_self o (w : World D B) :
  exists w', destroy_opt o w = (Ret tt, w') /\ self w' = self w.
Proof.
  unfold destroy_opt, destroy. destruct o as [m|]; [|by eexists].
  destruct (Message_Item.dtor m) as [[f ok]|]; by eexists.
Qed.

Lemma keeps_add_to_waiting t m : item_ok m -> keeps (add_to_waiting t m : PM D B unit) any.
Proof.
  intros Hm w Hw. unfold add_to_waiting.
  destruct (StdMap.extract_first (fun x => waiting_id x =? waiting_id m) (waiting_messages_ (self w)))
    as [r ws'] eqn:E.
  pose proof (extract_id_rest _ _ _ _ (inv_waiting w Hw) E) as Hrest.
  destruct (waiting_extract _ _ _ _ E (inv_waiting w Hw)) as [Hws' _].
  assert (pop_waiting_message (fun x => waiting_id x =? waiting_id m) w
          = (Ret r, on_self (with_waiting ws') w)) as Ep.
  { unfold pop_waiting_message, bind, member, gets. by rewrite E. }
  rewrite (bind_Ret _ _ _ _ _ Ep).
  destruct (keeps_destroy_opt r (on_self (with_waiting ws') w)) as [Hi _].
  { destruct w as [[]], Hw. by constructor. }
  destruct (destroy_opt_self r (on_self (with_waiting ws') w)) as (w2 & Ed & Es).
  rewrite Ed in Hi. simpl in Hi. rewrite (bind_Ret _ _ _ _ _ Ed).
  assert (waiting_messages_ (self w2) = ws') as Ew by (rewrite Es; by destruct w as [[]]).
  assert (member waiting_messages_ w2 = (Ret ws', w2)) as Em by (unfold member, gets; by rewrite Ew).
  rewrite (bind_Ret _ _ _ _ _ Em).
  destruct (StdMap.emplace t m ws') as [ws2 b] eqn:Ee.
  pose proof (waiting_emplace _ _ _ _ _ Ee Hm Hws' Hrest) as Hws2.
  assert (keeps (update (with_waiting ws2) ;;; (if b then ret tt else destroy m) : PM D B unit) any) as Hk.
  { keeps. }
  by apply Hk.
Qed.

End operations.

#[export] Hint Resolve keeps_rx keeps_tx keeps_lost keeps_frags keeps_waiting keeps_writer keeps_pop
  keeps_destroy_opt keeps_send_message keeps_add_timeout_at keeps_pop_messages keeps_add_to_waiting : keeps.

Section senders.
Context {D B : Type} `{DB : QIODevice B} `{QIODevice D} `{QDataStream} `{QtBytes}.

Definition sender_ok (s : Protocol_Sender.t D) : Prop := Message_Item.wf (Protocol_Sender.msg_ s).

Lemma keeps_dtor s : sender_ok s -> keeps (Protocol_Sender.dtor s : PM D B unit) any.
Proof.
  intros Hs. unfold Protocol_Sender.dtor. keeps.
  apply keeps_send_message. intros x [= <-]. by apply Message_Item.with_data_device_wf.
Qed.

Lemma stream_out_ok bs s : sender_ok s -> sender_ok (Protocol_Sender.stream_out bs s).
Proof. intros Hs. by apply Message_Item.with_data_device_wf. Qed.

Lemma keeps_send_answer c a :
  is_u8 c -> (forall x, a = Some x -> is_u8 x) -> keeps (send_answer c a : PM D B _) sender_ok.
Proof. intros Hc Ha. unfold send_answer. keeps. Qed.

Lemma keeps_send c : is_u8 c -> keeps (send c : PM D B _) sender_ok.
Proof. intros Hc. by apply keeps_send_answer. Qed.
#[local] Hint Resolve keeps_dtor stream_out_ok keeps_send_answer keeps_send : keeps.

Lemma keeps_query_sender c bs : is_u8 c -> keeps (query_sender c bs : PM D B _) sender_ok.
Proof.
  intros Hc. unfold query_sender. keeps. apply stream_out_ok. by apply Message_Item.add_flags_wf.
Qed.

Lemma keeps_take_msg_id m : Message_Item.wf m -> keeps (take_msg_id m : PM D B Z) is_u8.
Proof.
  intros [Hi _]. unfold take_msg_id. keeps; [by apply Hi|]. apply u8_range.
Qed.

(** [prepare_packet_to_send] of a well-formed message. *)
Lemma keeps_prepare m :
  Message_Item.wf m -> keeps (prepare_packet_to_send (Some m) : PM D B _) any.
Proof.
  intros Hm. unfold prepare_packet_to_send.
  destruct (Message_Item.data_device_ m) as [dev|]; [|keeps].
  destruct (packet_data m dev) as [[flags data] dev']. cbv zeta.
  eapply (keeps_bind _ _ (fun m' => Message_Item.wf m' /\ has_device m')).
  { assert (has_device (Message_Item.with_data_device (Some dev') m)) as Hd by (by destruct m; eexists).
    keeps; split; eauto with keeps. by destruct m; eexists. }
  intros m' [Hm' Hd']. destruct (packet_compress m' flags data) as [flags' data'].
  eapply keeps_bind; [by apply keeps_take_msg_id|]. intros i Hi. cbv zeta.
  assert (item_ok (Message_Item.with_id (Some i) m')) as Hit.
  { split_and!; [by apply Message_Item.with_id_wf|by destruct m'|destruct m'; by eexists]. }
  keeps. eapply (keeps_bind _ _ any); [|by keeps]. keeps.
Qed.

End senders.

#[export] Hint Resolve keeps_dtor stream_out_ok keeps_send_answer keeps_send keeps_query_sender keeps_take_msg_id
  keeps_prepare : keeps.

Section receiving.
Context {D B : Type} `{DB : QIODevice B} `{QIODevice D} `{HSL : QDataStreamLaws} `{HCL : QtBytesLaws}.

Definition parsed (w : width) (bs : list byte) (r : Z * list byte) : Prop :=
  0 <= r.1 < wbound w /\ zlen r.2 <= zlen bs.

Lemma keeps_parse w bs : keeps (parse w bs : PM D B _) (parsed w bs).
Proof.
  unfold parse. keeps. destruct p as [v rest]. destruct (get_drop _ _ _ _ Heqo) as [-> Hv].
  split; [done|]. simpl. unfold zlen, zdrop. rewrite length_drop. lia.
Qed.
#[local] Hint Resolve keeps_parse : keeps.

Lemma keeps_is_lost_message i : keeps (is_lost_message i : PM D B bool) any.
Proof. unfold is_lost_message. keeps. by apply lost_erase. Qed.

#[local] Opaque mark_lost.
Lemma keeps_fill_lost_msg i : is_u8 i -> keeps (fill_lost_msg i : PM D B unit) any.
Proof.
  intros Hi. unfold fill_lost_msg. keeps; try (by auto with keeps); try apply u8_range.
  all: by match goal with
          | Hm : mark_lost _ _ _ _ _ = Some _, Hn : is_u8 ?n, Hl : lost_ok ?l |- _ =>
              destruct (lost_mark _ _ _ _ _ _ _ Hn Hl Hm)
          | Hm : mark_lost _ _ _ _ _ = None, Hn : is_u8 ?n, Hl : lost_ok ?l |- _ =>
              destruct (mark_lost_finishes _ _ _ _ Hi Hn Hl Hm)
          end.
Qed.
#[local] Hint Resolve keeps_is_lost_message keeps_fill_lost_msg : keeps.

Lemma keeps_check_msg_id i f : is_u8 i -> keeps (check_msg_id i f : PM D B bool) any.
Proof.
  intros Hi. unfold check_msg_id. keeps. apply u8_range.
Qed.
#[local] Hint Resolve keeps_check_msg_id : keeps.

Lemma keeps_call_answer m f data : keeps (call_answer m f data : PM D B unit) any.
Proof.
  intros w Hw. unfold call_answer. destruct (keeps_call_user (Ev_answer_func f data) I w Hw) as [Hi Hu].
  destruct (call_user (Ev_answer_func f data) w) as [[a| | |] w']; simpl in *; try (by split).
  - by apply keeps_destroy.
  - apply (keeps_bind (destroy m) _ any); eauto with keeps.
Qed.

Lemma keeps_deliver i c a data :
  is_u8 i -> is_u8 c -> keeps (deliver_fragmented i c a data : PM D B unit) any.
Proof.
  intros Hi Hc. unfold deliver_fragmented, pop_waiting_answer. keeps. apply keeps_call_answer.
Qed.
#[local] Hint Resolve keeps_call_answer keeps_deliver : keeps.

Lemma grow_fragment_size_range n :
  1 <= n <= HELPZ_MAX_PACKET_DATA_SIZE -> 1 <= grow_fragment_size n <= HELPZ_MAX_PACKET_DATA_SIZE.
Proof.
  unfold grow_fragment_size, HELPZ_MAX_MESSAGE_DATA_SIZE, HELPZ_MAX_PACKET_DATA_SIZE, HELPZ_MAX_UDP_PACKET_SIZE.
  intros Hn. change ((65507 - 17) / 2) with 32745. change (65507 - 17) with 65490 in *.
  pose proof (Z.div_pos n 5 ltac:(lia) ltac:(lia)). pose proof (Z.div_le_upper_bound n 5 n ltac:(lia) ltac:(lia)).
  destruct (Z.ltb_spec n 32745); [|lia]. rewrite u32_small by (unfold is_u32; lia). case_cmp; lia.
Qed.

Lemma shrink_fragment_size_range n :
  1 <= n <= HELPZ_MAX_PACKET_DATA_SIZE -> 128 <= shrink_fragment_size n <= HELPZ_MAX_PACKET_DATA_SIZE.
Proof.
  unfold shrink_fragment_size, HELPZ_MAX_PACKET_DATA_SIZE, HELPZ_MAX_UDP_PACKET_SIZE. intros Hn.
  pose proof (Z.div_le_upper_bound n 2 n ltac:(lia) ltac:(lia)). case_cmp; lia.
Qed.

(** Changes of a fragmented message that keep it well formed. *)
Lemma frag_device k d (m : Fragmented_Message.t D) : frag_ok k m -> frag_ok k (Fragmented_Message.with_data_device d m).
Proof. by destruct m. Qed.

Lemma frag_time k t (m : Fragmented_Message.t D) : frag_ok k m -> frag_ok k (Fragmented_Message.with_last_part_time t m).
Proof. by destruct m. Qed.

Lemma frag_size k n (m : Fragmented_Message.t D) :
  1 <= n <= HELPZ_MAX_PACKET_DATA_SIZE -> frag_ok k m -> frag_ok k (Fragmented_Message.with_max_fragment_size n m).
Proof. intros Hn (? & ? & ? & ? & ?). by destruct m. Qed.

Lemma frag_add k pos data (m : Fragmented_Message.t D) :
  is_u32 pos -> zlen data <= 2147483648 -> frag_ok k m -> frag_ok k (Fragmented_Message.add_data pos data m).
Proof.
  intros Hp Hl (? & ? & ? & ? & Hparts). destruct m; simpl in *. split_and!; simpl; try tauto.
  apply remove_parts_le_u32; [done|done|done|]. split; [apply zlen_nonneg|done].
Qed.

Lemma frag_range k (m : Fragmented_Message.t D) :
  frag_ok k m -> 1 <= Fragmented_Message.max_fragment_size_ m <= HELPZ_MAX_PACKET_DATA_SIZE.
Proof. by intros (? & ? & ? & ? & ?). Qed.

Lemma keeps_process_fragment i c a fs pos rest m :
  is_u8 i -> is_u8 c -> is_u32 pos -> zlen rest <= 2147483648 -> frag_ok i m ->
  keeps (process_fragment i c a fs pos rest m : PM D B unit) any.
Proof.
  intros Hi Hc Hp Hl Hm. unfold process_fragment. cbv zeta.
  set (m1 := match rest with [] => m | _ => Fragmented_Message.add_data pos rest m end).
  assert (frag_ok i m1) as Hm1 by (unfold m1; destruct rest; [done|by apply frag_add]).
  clearbody m1. pose proof (frag_range i m1 Hm1) as Hr. destruct (Fragmented_Message.is_parts_empty m1).
  - keeps.
    + auto using frags_assign, frag_device.
    + by apply frags_erase.
  - keeps; [by apply lost_touch|].
    apply frags_assign; auto using frag_size, frag_time, frag_device.
    apply frag_size; [|by apply frag_time, frag_device]. apply grow_fragment_size_range; by destruct m1.
Qed.

Lemma frag_make i c mfs full t :
  is_u8 i -> is_u8 c -> is_u32 mfs -> 0 <= full < HELPZ_PROTOCOL_MAX_MESSAGE_SIZE ->
  frag_ok i (Fragmented_Message.make i c
    (if (mfs =? 0) || (HELPZ_MAX_PACKET_DATA_SIZE <? mfs) then HELPZ_MAX_MESSAGE_DATA_SIZE else mfs) full t
    : Fragmented_Message.t D).
Proof.
  unfold is_u32, HELPZ_PROTOCOL_MAX_MESSAGE_SIZE. intros Hi Hc Hm Hf. split_and!; simpl; try done; try lia.
  - destruct (Z.eqb_spec mfs 0); simpl; [done|]. destruct (_ <? _) eqn:E; [done|]. lia.
  - destruct (Z.eqb_spec mfs 0); simpl; [done|]. destruct (_ <? _) eqn:E; [done|]. by apply Z.ltb_ge in E.
Qed.

Lemma keeps_process_fragment_message i c a ds :
  is_u8 i -> is_u8 c -> zlen ds <= 2147483648 ->
  keeps (process_fragment_message i c a ds : PM D B unit) any.
Proof.
  intros Hi Hc Hl. unfold process_fragment_message.
  eapply keeps_bind; [apply keeps_parse|]. intros [full ds1] [Hfull Hl1].
  eapply keeps_bind; [apply keeps_parse|]. intros [pos ds2] [Hpos Hl2]. simpl in *.
  eapply (keeps_bind _ _ (fun r => is_u32 r.1 /\ zlen r.2 <= 2147483648)).
  { destruct (full =? pos).
    - eapply keeps_weaken; [apply keeps_parse|]. intros [v ds3] [Hv Hl3]. simpl in *. split; [done|lia].
    - apply keeps_ret. split; [done|]. simpl. lia. }
  intros [mfs ds3] [Hm Hl3]. simpl in *. eapply keeps_bind; [apply keeps_frags|]. intros fr Hfr.
  destruct (Z.leb_spec HELPZ_PROTOCOL_MAX_MESSAGE_SIZE full); [keeps; by apply frags_erase|].
  eapply (keeps_bind _ _ (frag_ok i)).
  { destruct (StdMap.find i fr) as [m|] eqn:E; [apply keeps_ret; by apply Hfr|].
    eapply (keeps_bind _ _ any); [by keeps|]. intros t _. pose proof (frag_make i c mfs full t Hi Hc Hm ltac:(lia)) as Hmk.
    keeps. by apply frags_emplace. }
  intros m Hm'. destruct (dev_open (Fragmented_Message.data_device_ m)) as [dev|]; [|keeps; by apply frags_erase].
  apply keeps_process_fragment; [done..|by apply frag_device].
Qed.

Lemma remove_fragment_u8 : is_u8 Cmd.REMOVE_FRAGMENT.
Proof. done. Qed.
#[local] Hint Resolve remove_fragment_u8 : keeps.

Lemma keeps_process_fragment_query i pos n : keeps (process_fragment_query i pos n : PM D B unit) any.
Proof.
  unfold process_fragment_query, pop_waiting_fragment. cbv zeta.
  eapply keeps_bind; [apply keeps_pop|]. intros o Ho.
  assert (keeps (let* s := send Cmd.REMOVE_FRAGMENT in
    Protocol_Sender.dtor (Protocol_Sender.stream_out (put W8 i) s) : PM D B unit) any) as Hr by keeps.
  destruct o as [m|]; [|exact Hr]. specialize (Ho m eq_refl).
  assert (keeps (add_to_waiting (Message_Item.end_time_ m) m : PM D B unit) any) as Ha by (by apply keeps_add_to_waiting).
  destruct (Message_Item.data_device_ m) as [d|]; [destruct (pos <? dev_size d)|].
  - apply keeps_send_message. intros x [= <-].
    apply Message_Item.with_data_device_wf, Message_Item.set_fragment_size_wf, Ho.
  - destruct (Message_Item.answer_func_ m); (eapply (keeps_bind _ _ any); [done|]); intros _ _; keeps.
  - destruct (Message_Item.answer_func_ m); (eapply (keeps_bind _ _ any); [done|]); intros _ _; keeps.
Qed.
#[local] Hint Resolve keeps_process_fragment_query keeps_process_fragment_message : keeps.

Lemma keeps_dispatch i c f data :
  is_u8 i -> is_u8 c -> zlen data <= 2147483648 -> keeps (dispatch_message i c f data : PM D B unit) any.
Proof.
  intros Hi Hc Hl. unfold dispatch_message. destruct (c =? Cmd.REMOVE_FRAGMENT).
  { eapply keeps_bind; [apply keeps_parse|]. intros [] _. keeps. by apply frags_erase. }
  destruct (has_flag f Flags.FRAGMENT_QUERY).
  { do 3 (eapply keeps_bind; [apply keeps_parse|]; intros [] _). keeps. }
  destruct (has_flag f (Z.lor Flags.FRAGMENT Flags.ANSWER)).
  - eapply (keeps_bind _ _ (fun r => zlen r.2 <= 2147483648)).
    { keeps. match goal with Hp : parsed _ _ _ |- _ => destruct Hp end. simpl in *. lia. }
    intros [a ds] Hds. destruct (has_flag f Flags.FRAGMENT); [by keeps|].
    unfold pop_waiting_answer. destruct a; keeps.
  - destruct (c =? Cmd.PING); [|keeps].
    eapply keeps_bind; [apply keeps_send_answer; [done|by intros ? [= <-]]|]. intros s Hs. keeps.
Qed.

Lemma keeps_internal_process_message i c f data :
  is_u8 i -> is_u8 c -> zlen data <= 2147483648 ->
  keeps (internal_process_message i c f data : PM D B unit) any.
Proof.
  intros Hi Hc Hl. unfold internal_process_message. eapply keeps_bind; [by apply keeps_check_msg_id|]. intros acc _.
  destruct (negb acc); [by keeps|]. destruct (_ && _); [by keeps|].
  destruct (has_flag f Flags.COMPRESSED); [|by apply keeps_dispatch]. cbv zeta.
  pose proof (qUncompress_size data) as Hs.
  destruct (qUncompress data) as [|b l]; [keeps|]. apply keeps_dispatch; [done|done|lia].
Qed.

End receiving.

#[export] Hint Resolve keeps_internal_process_message : keeps.

(** ** Timers *)

Section timers.
Context {D B : Type} `{DB : QIODevice B} `{QIODevice D} `{HSL : QDataStreamLaws} `{HCL : QtBytesLaws}.

Lemma keeps_for_each {A} (f : A -> PM D B unit) l : (forall x, keeps (f x) any) -> keeps (for_each f l) any.
Proof.
  intros Hf. induction l as [|x l IH]; simpl; [by keeps|].
  eapply (keeps_bind _ _ any); [apply Hf|]. by intros _ _.
Qed.

Lemma keeps_requery_fragment t k : keeps (requery_fragment t k : PM D B unit) any.
Proof.
  unfold requery_fragment. eapply keeps_bind; [apply keeps_frags|]. intros fr Hfr.
  destruct (StdMap.find k fr) as [m|] eqn:E; [|by keeps]. destruct (_ && _); [|by keeps].
  pose proof (proj2 Hfr k m E) as Hm. pose proof Hm as (Hk & Hid & Hc & Hr & _). cbv zeta.
  pose proof (shrink_fragment_size_range _ Hr) as Hsh.
  set (m1 := Fragmented_Message.with_last_part_time t _).
  assert (frag_ok k m1) as Hm1 by (apply frag_time, frag_size; [lia|done]).
  assert (is_u8 (Fragmented_Message.cmd_ m1)) as Hc1 by (by destruct m).
  assert (is_u8 (Fragmented_Message.id_ (Fragmented_Message.with_max_fragment_size
    (shrink_fragment_size (Fragmented_Message.max_fragment_size_ m)) m))) as Hi1 by (destruct m; simpl in *; congruence).
  clearbody m1. keeps; [by apply lost_emplace|by apply frags_assign].
Qed.

Lemma keeps_resend_or_timeout t m : item_ok m -> keeps (resend_or_timeout t m : PM D B _) any.
Proof.
  intros (Hwf & _). unfold resend_or_timeout.
  assert (keeps (send_message (Some (Message_Item.set_flags
    (Z.lor (Message_Item.flags (Message_Item.set_fragment_size (Message_Item.fragment_size m / 2) m)) Flags.REPEATED)
    (Message_Item.set_fragment_size (Message_Item.fragment_size m / 2) m))) : PM D B unit) any) as Hs.
  { apply keeps_send_message. intros x [= <-]. apply Message_Item.add_flags_wf; [done|].
    by apply Message_Item.set_fragment_size_wf. }
  keeps.
Qed.

Lemma keeps_resend_all t ms kept : Forall item_ok ms -> keeps (resend_all t ms kept : PM D B unit) any.
Proof.
  revert kept. induction ms as [|m ms IH]; intros kept Hf; cbn [resend_all].
  { apply keeps_for_each, keeps_destroy. }
  inversion Hf as [|? ? Hm Hms]; subst. intros w Hw.
  destruct (keeps_resend_or_timeout t m Hm w Hw) as [Hi Hu].
  destruct (resend_or_timeout t m w) as [[r| | |] w']; simpl in Hi, Hu; try done.
  - by apply IH.
  - apply (keeps_bind (for_each destroy (rev kept ++ m :: ms)) _ any); [apply keeps_for_each, keeps_destroy| |done].
    intros _ _. apply keeps_throw.
Qed.

Lemma keeps_process_wait_list x : keeps (process_wait_list x : PM D B unit) any.
Proof.
  unfold process_wait_list. destruct (x =? Flags.FRAGMENT).
  - keeps. apply keeps_for_each. intros k. apply keeps_requery_fragment.
  - keeps. by apply keeps_resend_all.
Qed.

End timers.

(** ** The receive stream *)

Section stream_keeps.
Context {D B : Type} `{HBL : QIODeviceLaws B} `{HQ : !QBuffer B} `{HQL : !QBufferLaws B} `{HSL : QDataStreamLaws} `{HCL : QtBytesLaws}.
Context (handler : Z -> Z -> Z -> list byte -> PM D B unit).
Context (handler_framed : forall i c f data, framed (handler i c f data)).
Context (Hhandler : forall i c f data, is_u8 i -> is_u8 c -> zlen data <= 2147483648 -> keeps (handler i c f data) any).

Lemma keeps_device : keeps (member device_ : PM D B _) any.
Proof. by apply keeps_member. Qed.
Lemma keeps_ends : keeps (member packet_end_position_ : PM D B _) any.
Proof. by apply keeps_member. Qed.
#[local] Hint Resolve keeps_device keeps_ends : keeps.

Lemma keeps_stream_read w : keeps (stream_read w : PM D B Z) (fun v => 0 <= v < wbound w).
Proof.
  unfold stream_read. eapply keeps_bind; [apply (keeps_member device_ (fun b => dev_is_open b = true)), inv_open|].
  intros b Hb. pose proof (read_open (wbytes w) b) as Hr. destruct (dev_read (wbytes w) b) as [bs b']. simpl in Hr.
  rewrite Hb in Hr. keeps. match goal with |- context [get ?w ?bs] => destruct (get w bs) as [[v rest]|] eqn:Hg end.
  - by destruct (get_drop _ _ _ _ Hg).
  - by destruct w.
Qed.

Lemma keeps_seek p : keeps (seek_device p : PM D B unit) any.
Proof. unfold seek_device. keeps. by rewrite seek_open. Qed.
#[local] Hint Resolve keeps_stream_read keeps_seek : keeps.

Lemma keeps_read_header :
  keeps (read_header : PM D B _) (fun r => let '(_, i, c, _, n) := r in is_u8 i /\ is_u8 c /\ is_u32 n).
Proof. unfold read_header. keeps. Qed.

Lemma keeps_try (m h : PM D B bool) : keeps m any -> keeps h any -> keeps (try_catch m h) any.
Proof.
  intros Hm Hh w Hw. unfold try_catch. destruct (Hm w Hw) as [Hi Hu].
  destruct (m w) as [[a| | |] w']; simpl in *; try (by split). by apply Hh.
Qed.

Lemma keeps_process_one : keeps (process_one handler) any.
Proof.
  unfold process_one. eapply keeps_bind; [apply keeps_device|]. intros b _. cbv zeta.
  eapply keeps_bind; [apply keeps_read_header|]. intros [[[[ck i] c] f] n] (Hi & Hc & Hn).
  set (size := if n =? _ then 0 else n). destruct (Z.ltb_spec HELPZ_PROTOCOL_MAX_MESSAGE_SIZE size); [by keeps|].
  destruct (negb _); [by keeps|]. eapply keeps_bind; [apply keeps_device|]. intros b' _.
  destruct (_ <? size); [by keeps|]. eapply (keeps_bind _ _ any).
  - apply keeps_try; [|by keeps]. eapply (keeps_bind _ _ any); [|by keeps]. apply Hhandler; [done|done|].
    unfold zlen, ztake. rewrite length_take. unfold HELPZ_PROTOCOL_MAX_MESSAGE_SIZE in *. lia.
  - intros ok _. destruct ok; by keeps.
Qed.

(** Reading a header leaves content and queue as they are. *)
Definition reads (n : Z) (w w' : World D B) : Prop :=
  exists b', w' = set_rx b' (packet_end_position_ (self w)) w
    /\ dev_content b' = dev_content (device_ (self w))
    /\ dev_pos b' = dev_pos (device_ (self w)) + n
    /\ dev_is_open b' = dev_is_open (device_ (self w)).

Definition left_over (w : World D B) : Z := dev_size (device_ (self w)) - dev_pos (device_ (self w)).

Lemma reads_trans n k w1 w2 w3 : reads n w1 w2 -> reads k w2 w3 -> reads (n + k) w1 w3.
Proof.
  intros (b1 & -> & C1 & P1 & O1) (b2 & -> & C2 & P2 & O2). rewrite set_rx_device, set_rx_ends in *.
  exists b2. rewrite set_rx_set_rx. split_and!; [done|congruence|lia|congruence].
Qed.

Lemma reads_open n w w' :
  reads n w w' -> dev_is_open (device_ (self w')) = dev_is_open (device_ (self w)).
Proof. intros (b & -> & _ & _ & Ob). by rewrite set_rx_device. Qed.

Lemma reads_left n w w' : reads n w w' -> left_over w' = left_over w - n.
Proof. intros (b & -> & C & Pb & _). unfold left_over, dev_size. rewrite set_rx_device, C. lia. Qed.

Lemma stream_read_rx wd w :
  dev_is_open (device_ (self w)) = true -> wbytes wd <= left_over w ->
  exists v w', stream_read wd w = (Ret v, w') /\ reads (wbytes wd) w w' /\ 0 <= v < wbound wd.
Proof.
  intros Hop Hl. assert (0 <= wbytes wd) as Hw by (by destruct wd).
  unfold stream_read, bind, member, gets, update, modify, left_over in *.
  destruct (read_exact (wbytes wd) (device_ (self w)) Hop (conj Hw Hl)) as [Hlen Hpos].
  pose proof (read_content (wbytes wd) (device_ (self w))) as Hc.
  pose proof (read_open (wbytes wd) (device_ (self w))) as Hro.
  destruct (dev_read (wbytes wd) (device_ (self w))) as [bs b']. simpl in Hc, Hro, Hlen, Hpos.
  destruct (get_enough wd bs) as (v & Eg & Hv); [lia|]. exists v. eexists. rewrite Eg. split; [reflexivity|].
  split; [|done]. exists b'. split_and!; [by destruct w as [[]]|done|done|done].
Qed.

Lemma read_header_rx w :
  dev_is_open (device_ (self w)) = true -> 9 <= left_over w ->
  exists ck i c f n w', read_header w = (Ret (ck, i, c, f, n), w') /\ reads 9 w w' /\ is_u32 n.
Proof.
  intros Ho0 Hl. unfold read_header.
  destruct (stream_read_rx W16 w) as (v1 & w1 & E1 & R1 & _); [done|simpl; lia|]. rewrite (bind_Ret _ _ _ _ _ E1).
  pose proof (reads_left _ _ _ R1) as L1. simpl in L1.
  destruct (stream_read_rx W8 w1) as (v2 & w2 & E2 & R2 & _); [rewrite (reads_open _ _ _ R1); assumption|simpl; lia|]. rewrite (bind_Ret _ _ _ _ _ E2).
  pose proof (reads_left _ _ _ R2) as L2. simpl in L2.
  destruct (stream_read_rx W8 w2) as (v3 & w3 & E3 & R3 & _); [by rewrite (reads_open _ _ _ R2), (reads_open _ _ _ R1)|simpl; lia|]. rewrite (bind_Ret _ _ _ _ _ E3).
  pose proof (reads_left _ _ _ R3) as L3. simpl in L3.
  destruct (stream_read_rx W8 w3) as (v4 & w4 & E4 & R4 & _); [by rewrite (reads_open _ _ _ R3), (reads_open _ _ _ R2), (reads_open _ _ _ R1)|simpl; lia|]. rewrite (bind_Ret _ _ _ _ _ E4).
  pose proof (reads_left _ _ _ R4) as L4. simpl in L4.
  destruct (stream_read_rx W32 w4) as (v5 & w5 & E5 & R5 & Hv); [by rewrite (reads_open _ _ _ R4), (reads_open _ _ _ R3), (reads_open _ _ _ R2), (reads_open _ _ _ R1)|simpl; lia|]. rewrite (bind_Ret _ _ _ _ _ E5).
  exists v1, v2, v3, v4, v5, w5. split_and!; [done| |done].
  exact (reads_trans 5 4 _ _ _ (reads_trans 4 1 _ _ _ (reads_trans 3 1 _ _ _ (reads_trans 2 1 _ _ _ R1 R2) R3) R4) R5).
Qed.

(** Every round of the parser leaves the content and the queue alone; one
    that goes on has moved at least a header further. *)
Definition round (w : World D B) (o : outcome (option bool)) (w' : World D B) : Prop :=
  packet_end_position_ (self w') = packet_end_position_ (self w)
  /\ dev_content (device_ (self w')) = dev_content (device_ (self w))
  /\ (o = Ret None -> dev_pos (device_ (self w)) + 9 <= dev_pos (device_ (self w')))
  /\ o <> Throw.

Lemma round_seek w b' p o :
  dev_content b' = dev_content (device_ (self w)) -> 0 <= p <= dev_size (device_ (self w)) -> o <> Ret None ->
  o <> Throw ->
  round w o (set_rx (dev_seek p b') (packet_end_position_ (self w)) w).
Proof.
  intros C Hp Ho Ht. unfold round. rewrite set_rx_ends, set_rx_device, seek_content.
  - split_and!; [done|done|by intros ?|done].
  - unfold dev_size in *. by rewrite C.
Qed.

Lemma process_one_rx w o w' :
  dev_is_open (device_ (self w)) = true -> 9 <= left_over w -> dev_size (device_ (self w)) < 2147483648 ->
  process_one handler w = (o, w') -> round w o w'.
Proof.
  intros Hop Hl Hsz. unfold process_one. unfold bind at 1, member at 1, gets at 1. cbv zeta.
  destruct (read_header_rx w Hop Hl) as (ck & i & c & f & n & w1 & E & (b' & -> & C & Pb & Ob) & Hn).
  rewrite (bind_Ret _ _ _ _ _ E). set (size := if n =? _ then 0 else n).
  pose proof (dev_pos_nonneg (device_ (self w))) as Hpos. unfold left_over in Hl.
  assert (forall p (r : bool), 0 <= p <= dev_size (device_ (self w)) ->
    (seek_device p ;;; ret (Some r)) (set_rx b' (packet_end_position_ (self w)) w) = (o, w') -> round w o w') as Hseek.
  { intros p r Hp. rewrite (bind_Ret _ _ _ _ _ (seek_set_rx _ _ _ _)). intros [= <- <-]. by apply round_seek. }
  destruct (_ <? size); [apply Hseek; lia|]. destruct (negb _); [apply Hseek; lia|].
  rewrite (bind_Ret _ _ _ _ _ (member_set_rx _ _ _ _)), rx_of_device.
  destruct (Z.ltb_spec (dev_bytesAvailable b') size) as [_|Hav]; [apply Hseek; lia|]. clear Hseek.
  assert (0 <= size) by (unfold size; destruct Hn; destruct (_ =? _); lia).
  unfold dev_bytesAvailable, dev_size in *. rewrite C, Pb in Hav.
  set (body := ztake _ _). unfold bind at 1, try_catch, bind at 1. rewrite handler_framed.
  pose proof (framed_preserves (handler i c f body) w (handler_framed _ _ _ _)) as [Hd He].
  destruct (handler i c f body w) as [[[]| | |] w2]; simpl in Hd, He; cbn [ret]; cbv iota beta.
  1: rewrite (bind_Ret _ _ _ _ _ (seek_set_rx _ _ _ _)).
  all: intros [= <- <-]; unfold round; rewrite set_rx_ends, set_rx_device.
  - rewrite seek_content by (unfold dev_size; rewrite C; lia). split_and!; [done|done| |done].
    intros _. rewrite seek_pos; [lia|by rewrite Ob|lia].
  - split_and!; [done|done|by intros ?|done].
  - split_and!; [done|done|by intros ?|done].
  - split_and!; [done|done|by intros ?|done].
Qed.

(** The parser ends: the bytes left are enough fuel. *)
Lemma process_stream_loop_total fuel w :
  inv w -> dev_size (device_ (self w)) < 2147483648 -> left_over w <= Z.of_nat fuel ->
  exists r w', process_stream_loop handler fuel w = (Ret r, w') /\ inv w'
    /\ packet_end_position_ (self w') = packet_end_position_ (self w)
    /\ dev_content (device_ (self w')) = dev_content (device_ (self w)).
Proof.
  revert w. induction fuel as [|fuel IH]; intros w Hw Hsz Hl; cbn [process_stream_loop];
    unfold bind at 1, member at 1, gets at 1; unfold dev_bytesAvailable, left_over in *;
    (destruct (Z.leb_spec 9 (Z.max 0 (dev_size (device_ (self w)) - dev_pos (device_ (self w))))) as [H9|];
      [|by exists true, w]).
  - simpl in Hl. lia.
  - destruct (keeps_process_one w Hw) as [Hi Ho].
    destruct (process_one handler w) as [o w1] eqn:E.
    destruct (process_one_rx w o w1 (inv_open w Hw) ltac:(unfold left_over; lia) Hsz E) as (Ee & Ec & Hp & Ht). simpl in Hi, Ho.
    destruct o as [[r|]| | |]; simpl in Ho; try done.
    + rewrite (bind_Ret _ _ _ _ _ E). by exists r, w1.
    + rewrite (bind_Ret _ _ _ _ _ E). specialize (Hp eq_refl).
      destruct (IH w1 Hi) as (r & w2 & E2 & Hi2 & Ee2 & Ec2); unfold dev_size, left_over in *; rewrite ?Ec; [done|lia|].
      exists r, w2. split_and!; [done|done|congruence|congruence].
Qed.

Lemma process_stream_total w :
  inv w -> dev_size (device_ (self w)) < 2147483648 ->
  exists r w', process_stream handler w = (Ret r, w') /\ inv w'
    /\ packet_end_position_ (self w') = packet_end_position_ (self w)
    /\ dev_content (device_ (self w')) = dev_content (device_ (self w)).
Proof.
  intros Hw Hsz. unfold process_stream. unfold bind at 1, member at 1, gets at 1.
  apply process_stream_loop_total; [done|done|]. unfold left_over, dev_size, zlen.
  pose proof (dev_pos_nonneg (device_ (self w))). lia.
Qed.

(** What [drop_processed] leaves of the queue. *)
Lemma drop_processed_weak ends pos :
  0 <= pos -> Forall (fun e => 0 < e) ends ->
  let '(p, ends') := drop_processed pos ends in
  Forall (fun e => 0 < e) ends' /\ (length ends' <= length ends)%nat /\ 0 <= p
  /\ match ends' with [] => True | e :: _ => p < e end.
Proof.
  revert pos. induction ends as [|e ends IH]; simpl; intros pos Hp Hf; [by split_and!|].
  inversion Hf; subst. destruct (Z.leb_spec e pos).
  - specialize (IH (pos - e) ltac:(lia) ltac:(done)). destruct (drop_processed (pos - e) ends) as [p ends'].
    intuition lia.
  - split_and!; [done|simpl; lia|lia|done].
Qed.

Lemma inv_set_rx b e (w : World D B) :
  dev_is_open b = true -> Forall (fun x => 0 < x) e -> inv w -> inv (set_rx b e w).
Proof. intros Hb He []. destruct w as [[]]. by constructor. Qed.

(** The retry loop ends: every round takes a packet off the queue. *)
Lemma retry_loop_total fuel w :
  inv w -> dev_size (device_ (self w)) < 2147483648 ->
  (length (packet_end_position_ (self w)) <= fuel)%nat ->
  exists o w', retry_loop handler fuel w = (o, w') /\ inv w' /\ (o = Ret tt \/ o = Undef).
Proof.
  revert w. induction fuel as [|fuel IH]; intros w Hw Hsz Hl; cbn [retry_loop];
    destruct (process_stream_total w Hw Hsz) as (r & w1 & E & Hi & Ee & Ec);
    rewrite (bind_Ret _ _ _ _ _ E); unfold bind at 1, member at 1, gets at 1; rewrite Ee;
    (destruct r; [eexists _, _; split; [reflexivity|]; by split; [|left]|]);
    destruct (packet_end_position_ (self w)) as [|e0 rest] eqn:E0; simpl in Hl; try lia;
    try (eexists _, _; split; [reflexivity|]; by split; [|left]).
  unfold bind at 1, member at 1, gets at 1.
  pose proof (drop_processed_weak (e0 :: rest) (dev_pos (device_ (self w1))) (dev_pos_nonneg _)) as Hd.
  rewrite <- E0 in Hd at 1. specialize (Hd (inv_ends w Hw)).
  destruct (drop_processed (dev_pos (device_ (self w1))) (e0 :: rest)) as [p ends']. destruct Hd as (Hf & Hlen & _).
  rewrite <- (set_rx_id w1). destruct ends' as [|front ends']; cbn [snd].
  - rewrite (bind_Ret _ _ _ _ _ (update_ends_set_rx _ _ _ _)). eexists _, _. split; [reflexivity|].
    split; [apply inv_set_rx; by try apply inv_open|by right].
  - rewrite (bind_Ret _ _ _ _ _ (seek_set_rx _ _ _ _)), (bind_Ret _ _ _ _ _ (update_device_set_rx _ _ _ _)),
      (bind_Ret _ _ _ _ _ (update_ends_set_rx _ _ _ _)).
    inversion Hf as [|? ? Hfr Hf']; subst. apply IH.
    + apply inv_set_rx; [|done|done]. rewrite remove_open, seek_open. by apply inv_open.
    + rewrite set_rx_device. unfold dev_size in *. rewrite remove_content by lia.
      rewrite seek_content by (unfold dev_size; pose proof (zlen_nonneg (dev_content (device_ (self w1)))); lia).
      rewrite Ec. unfold zlen, zdrop in *. rewrite length_drop. lia.
    + rewrite set_rx_ends. simpl in Hlen. lia.
Qed.

Lemma trim_buffer_total (w : World D B) : inv w -> exists w', trim_buffer w = (Ret tt, w') /\ inv w'.
Proof.
  intros Hw. unfold trim_buffer, bind, member, gets.
  pose proof (drop_processed_weak _ (dev_pos (device_ (self w))) (dev_pos_nonneg _) (inv_ends w Hw)) as Hd.
  destruct (drop_processed _ _) as [p ends']. destruct Hd as (Hf & _ & Hp & Hh).
  set (e' := match ends' with [] => [] | _ => _ end).
  assert (Forall (fun x => 0 < x) e') as He.
  { unfold e'. destruct ends' as [|e0 rest]; [constructor|]. inversion Hf; subst.
    destruct (p =? 0); [done|]. constructor; [lia|done]. }
  clearbody e'. destruct (_ =? 0); (eexists; split; [reflexivity|]);
    destruct w as [[]], Hw; constructor; simpl in *; rewrite ?clear_open, ?remove_open; done.
Qed.

Lemma process_bytes_total data w :
  inv w -> dev_size (device_ (self w)) + zlen data < 2147483648 ->
  exists o w', process_bytes handler data w = (o, w') /\ inv w' /\ (o = Ret tt \/ o = Undef).
Proof.
  intros Hw Hsz. destruct (decide (data = [])) as [->|Hne].
  { eexists _, _. split; [reflexivity|]. by split; [|left]. }
  destruct (process_bytes_enter handler data w _ _ Hne eq_refl eq_refl (inv_open w Hw) Hsz) as (b & -> & C & _ & Ob).
  assert (0 < zlen data) as Hpos by (destruct data; [done|unfold zlen; simpl; lia]).
  assert (inv (set_rx b (packet_end_position_ (self w) ++ [zlen data]) (note_received w))) as Hi.
  { apply inv_set_rx.
    - done.
    - apply Forall_app. split; [apply Hw|by constructor].
    - destruct Hw. unfold note_received. destruct w as [[? ? ? ? ? ? ? [wr|] ?]]; by constructor. }
  destruct (retry_loop_total (length (packet_end_position_ (self w) ++ [zlen data])) _ Hi) as (o & w1 & E & Hi1 & Ho).
  - rewrite set_rx_device. unfold dev_size in *. by rewrite C, zlen_app.
  - by rewrite set_rx_ends.
  - unfold bind. rewrite E. destruct Ho as [-> | ->].
    + destruct (trim_buffer_total w1 Hi1) as (w2 & -> & Hi2). eexists _, _. split; [reflexivity|]. by split; [|left].
    + eexists _, _. split; [reflexivity|]. by split; [|right].
Qed.

End stream_keeps.

(** ** Runs of a protocol object

    Everything that can happen to the object: bytes arrive (as many as the
    buffer, a byte array, can hold), a message handed
    to the writer is turned into a packet, a timer fires, the program sends a
    message (as a well-formed sender), resets the counters, or replaces the
    writer. Calls may throw. *)

Section system.
Context {D B : Type} `{QIODevice D} `{HBL : QIODeviceLaws B} `{HQ : !QBuffer B} `{HQL : !QBufferLaws B}
  `{HSL : QDataStreamLaws} `{HCL : QtBytesLaws}.
Implicit Types w : World D B.

Inductive step w : World D B -> Prop :=
| step_receive data o w' :
    dev_size (device_ (self w)) + zlen data < 2147483648 -> protocol_process_bytes data w = (o, w') -> step w w'
| step_prepare m o w' : In (Ev_write m) (events w) -> prepare_packet_to_send (Some m) w = (o, w') -> step w w'
| step_timer data o w' : process_wait_list data w = (o, w') -> step w w'
| step_send s o w' : sender_ok s -> Protocol_Sender.dtor s w = (o, w') -> step w w'
| step_reset o w' : reset_msg_id w = (o, w') -> step w w'
| step_writer wr o w' : set_writer wr w = (o, w') -> step w w'.

(** The constructor leaves the receive buffer open. *)
Lemma init_open : dev_is_open (device_ (init : Protocol D B)) = true.
Proof.
  simpl. destruct (buffer_opens (new_QBuffer : B)) as [b Eb]; [apply new_QBuffer_spec|].
  rewrite Eb. simpl. by destruct (open_content _ _ Eb) as (_ & _ & ?).
Qed.

Lemma init_inv w : self w = init -> events w = [] -> inv w.
Proof.
  intros Hs He. constructor; rewrite ?Hs, ?He; try done.
  - split; [constructor|done].
  - split; [constructor|done].
  - repeat split; constructor.
  - apply init_open.
Qed.

Lemma keeps_inv {A} (m : PM D B A) Q w o w' : keeps m Q -> inv w -> m w = (o, w') -> inv w'.
Proof. intros Hm Hw E. destruct (Hm w Hw) as [Hi _]. by rewrite E in Hi. Qed.

Lemma protocol_process_bytes_total data w :
  inv w -> dev_size (device_ (self w)) + zlen data < 2147483648 ->
  exists o w', protocol_process_bytes data w = (o, w') /\ inv w' /\ (o = Ret tt \/ o = Undef).
Proof.
  apply process_bytes_total; [exact framed_internal_process_message|].
  intros. by apply keeps_internal_process_message.
Qed.

Lemma step_inv w w' : inv w -> step w w' -> inv w'.
Proof.
  intros Hw. inversion 1 as [? ? ? Hsz E|m ? ? Hin E|? ? ? E|? ? ? Hs E|? ? E|? ? ? E]; subst;
    [|eapply keeps_inv; [|exact Hw|exact E]..].
  - destruct (protocol_process_bytes_total data w Hw Hsz) as (o' & w'' & E' & Hi & _). congruence.
  - apply keeps_prepare. pose proof (inv_events w Hw) as He. rewrite Forall_forall in He.
    by apply (He (Ev_write m)), list_elem_of_In.
  - apply keeps_process_wait_list.
  - by apply keeps_dtor.
  - unfold reset_msg_id. keeps.
  - unfold set_writer. keeps.
Qed.

(** C7. Whatever happens to a protocol object after its construction, its
    invariant holds: the receive buffer is open, both counters are bytes, the
    lost list holds bytes in order, fragmented messages are stored under their id with missing parts
    in ascending order and a fragment size between 1 and the largest packet,
    no two waiting messages have the same id, and every message handed to the
    writer is well formed. *)
Theorem reachable_invariant w0 w :
  self w0 = init -> events w0 = [] -> rtc step w0 w -> inv w.
Proof.
  intros Hs He Hr. pose proof (init_inv w0 Hs He) as Hi. clear Hs He. induction Hr; eauto using step_inv.
Qed.

(** C8. [process_bytes] terminates on every input: whatever bytes arrive,
    in whatever reachable state (as long as the buffer can hold them), it
    neither loops nor throws; it returns with the invariant intact, or stops
    at the [front()] of an empty queue that [empty_remove_fragment_undefined]
    shows. *)
Theorem process_bytes_terminates data w :
  inv w -> dev_size (device_ (self w)) + zlen data < 2147483648 ->
  exists o w', protocol_process_bytes data w = (o, w') /\ inv w' /\ (o = Ret tt \/ o = Undef).
Proof. apply protocol_process_bytes_total. Qed.

(** C9. Handling one message is safe: for every id, command, flags and
    body, [internal_process_message] returns, or throws what the user code
    or the parser throws; it never runs into undefined behaviour, its loop
    over skipped ids ends, and the invariant holds afterwards in both
    cases. *)
Theorem handler_defined i c f data w :
  inv w -> is_u8 i -> is_u8 c -> zlen data <= 2147483648 ->
  exists o w', internal_process_message i c f data w = (o, w') /\ inv w' /\ (o = Ret tt \/ o = Throw).
Proof.
  intros Hw Hi Hc Hl. destruct (keeps_internal_process_message i c f data Hi Hc Hl w Hw) as [Hk Ho].
  destruct (internal_process_message i c f data w) as [[[]| | |] w']; try done; eexists _, _; eauto.
Qed.

End system.

(** ** Concrete instance *)

Module Invariant_Witness.
Import QtRef.

Definition w_init : World mem mem := mkWorld init (fun n => Z.of_nat n) (fun _ => false) 0 [].
Definition w_recv : World mem mem := (protocol_process_bytes (packet_bytes 7 16 0 [x01; x02]) w_init).2.

Lemma reachable_invariant_witness : inv w_recv /\ next_rx_msg_id_ (self w_recv) = 8.
Proof.
  split; [|by vm_compute].
  apply (reachable_invariant w_init); [reflexivity | reflexivity |].
  eapply rtc_l; [|apply rtc_refl].
  apply (step_receive _ (packet_bytes 7 16 0 [x01; x02])
    (protocol_process_bytes (packet_bytes 7 16 0 [x01; x02]) w_init).1); [reflexivity|].
  unfold w_recv. by destruct (protocol_process_bytes _ w_init).
Defined.

Lemma process_bytes_terminates_witness :
  exists o w', protocol_process_bytes [x01; x02; x03; x04; x05; x06; x07; x08; x09; x0a] w_init = (o, w')
    /\ inv w' /\ (o = Ret tt \/ o = Undef).
Proof.
  apply (process_bytes_terminates _ w_init); [by apply init_inv | reflexivity].
Defined.

Lemma handler_defined_witness :
  exists o w', internal_process_message 200 2 0 [] w_init = (o, w') /\ inv w' /\ (o = Ret tt \/ o = Throw).
Proof.
  apply (handler_defined 200 2 0 [] w_init); [by apply init_inv | unfold is_u8; lia | unfold is_u8; lia | done].
Defined.

End Invariant_Witness.
