(* ===== verification/OwnershipProofs.v ===== *)
(** * Ownership of messages

    A [Message_Item] is shared by pointer in the source, but has one owner at
    a time: the waiting list, the writer, or a local variable; when the owner
    drops it, its destructor tells [finally_func_]. Here: no operation loses
    a message or tells its [finally_func_] twice, also when callbacks throw.

    [tokens f w] counts where callback [f] is: in the waiting list, with the
    writer, or told. [moves n m q]: [m] starts with [n] more owned by local
    variables, and leaves [q a] of them with its result. *)

From S2P Require Import Prelude StdMap QtInterface MessageItem FragmentedMessage ProtocolState ProtocolSend ProtocolRecv ProtocolFrame ProtocolStream StreamProofs SendProofs ReceiveProofs LostProofs ProtocolInvariant.

Section tokens.
Context {D B : Type}.
Implicit Types (m : Message_Item.t D) (w : World D B).

Fixpoint sum_of {A} (g : A -> Z) (l : list A) : Z :=
  match l with [] => 0 | x :: l' => g x + sum_of g l' end.

Lemma sum_of_app {A} (g : A -> Z) l k : sum_of g (l ++ k) = sum_of g l + sum_of g k.
Proof. induction l; simpl; lia. Qed.

Lemma sum_of_perm {A} (g : A -> Z) l k : l ≡ₚ k -> sum_of g l = sum_of g k.
Proof. induction 1; simpl; lia. Qed.

Lemma sum_of_rev {A} (g : A -> Z) l : sum_of g (rev l) = sum_of g l.
Proof. apply sum_of_perm. symmetry. apply Permutation_rev. Qed.

Variable f : callback.

Definition token m : Z := if decide (Message_Item.finally_func_ m = Some f) then 1 else 0.
Definition token_opt (o : option (Message_Item.t D)) : Z := match o with Some m => token m | None => 0 end.

Definition event_token (e : Event D) : Z :=
  match e with
  | Ev_write m => token m
  | Ev_finally_func g _ => if decide (g = f) then 1 else 0
  | _ => 0
  end.

Definition tokens w : Z :=
  sum_of token (StdMap.values (waiting_messages_ (self w))) + sum_of event_token (events w).

Definition moves {A} (n : Z) (m : PM D B A) (q : A -> Z) : Prop :=
  forall w, match m w with
            | (Ret a, w') => tokens w' + q a = tokens w + n
            | (Throw, w') => tokens w' = tokens w + n
            | _ => True
            end.

Definition none {A} (_ : A) : Z := 0.

Lemma moves_ret {A} (a : A) (q : A -> Z) n : q a = n -> moves n (ret a) q.
Proof. intros <- w. simpl. lia. Qed.

Lemma moves_throw {A} (q : A -> Z) : moves 0 throw q.
Proof. intros w. simpl. lia. Qed.

Lemma moves_undef {A} n (q : A -> Z) : moves n undef q.
Proof. by intros w. Qed.

Lemma moves_unfinished {A} n (q : A -> Z) : moves n (fun w => (Unfinished, w)) q.
Proof. by intros w. Qed.

Lemma moves_bind {A A'} n (m : PM D B A) (k : A -> PM D B A') q r :
  moves n m q -> (forall a, moves (q a) (k a) r) -> moves n (bind m k) r.
Proof.
  intros Hm Hk w. unfold bind. specialize (Hm w). destruct (m w) as [[a| | |] w']; try done.
  specialize (Hk a w'). destruct (k a w') as [[b| | |] w'']; try done; lia.
Qed.

(** What a computation that cannot throw does not touch stays owned. *)
Lemma moves_frame {A} n k (m : PM D B A) q :
  returning m -> moves n m q -> moves (n + k) m (fun a => q a + k).
Proof.
  intros Hr Hm w. specialize (Hm w). destruct (Hr w) as (a & w' & E). rewrite E in Hm |- *. lia.
Qed.

Lemma moves_bind_frame {A A'} n (m : PM D B A) (k : A -> PM D B A') r :
  returning m -> moves 0 m none -> (forall a, moves n (k a) r) -> moves n (bind m k) r.
Proof.
  intros Hr Hm Hk. eapply (moves_bind _ _ _ (fun _ => n)); [|done].
  intros w. specialize (Hm w). destruct (m w) as [[a| | |] w'] eqn:E; try done.
  - unfold none in Hm. lia.
  - destruct (Hr w) as (? & ? & E'). congruence.
Qed.

Lemma moves_member {A} (g : Protocol D B -> A) : moves 0 (member g) none.
Proof. intros w. simpl. done. Qed.

Lemma moves_now : moves 0 now none.
Proof. intros w. done. Qed.

Lemma moves_update (g : Protocol D B -> Protocol D B) :
  (forall p, waiting_messages_ (g p) = waiting_messages_ p) -> moves 0 (update g) none.
Proof.
  intros Hg [p c t k ev]. unfold update, modify, on_self, tokens, none. simpl. rewrite Hg. lia.
Qed.

Lemma moves_emit e : moves (event_token e) (emit e) none.
Proof. intros w. unfold emit, modify, tokens, none. simpl. rewrite sum_of_app. simpl. lia. Qed.

Lemma moves_call_user e : moves (event_token e) (call_user e) none.
Proof.
  eapply moves_bind; [apply moves_emit|]. intros [] w. unfold bind, gets, none.
  destruct (env_throws w e); simpl; lia.
Qed.

Lemma moves_when c (k : PM D B unit) : moves 0 k none -> moves 0 (when c k) none.
Proof. destruct c; [done|]. intros _. by apply moves_ret. Qed.

(** A destructor at the end of a scope runs in both cases. *)
Lemma moves_guarded n k (m c : PM D B unit) :
  moves n m none -> moves k c none -> moves (n + k) (guarded m c) none.
Proof.
  intros Hm Hc w. unfold guarded. specialize (Hm w). destruct (m w) as [[[]| | |] w']; try done; specialize (Hc w');
    unfold bind; destruct (c w') as [[[]| | |] w'']; try done; unfold none in *; simpl; lia.
Qed.

Lemma moves_destroy m : moves (token m) (destroy m) none.
Proof.
  unfold destroy, token, Message_Item.dtor. destruct (Message_Item.finally_func_ m) as [g|].
  - eapply (eq_rect _ (fun n => moves n _ none)); [apply moves_emit|]. simpl.
    destruct (decide (g = f)), (decide (Some g = Some f)); congruence.
  - by apply moves_ret.
Qed.

End tokens.

(** Steps that own nothing are framed; the rest is by hand. *)
Ltac moves_step :=
  match goal with
  | |- moves _ _ (ret _) _ => apply moves_ret; try done
  | |- moves _ _ (bind (member _) _) _ => apply moves_bind_frame; [solve [eauto 3 with framed]|apply moves_member|intros ?]
  | |- moves _ _ (bind now _) _ => apply moves_bind_frame; [solve [eauto 3 with framed]|apply moves_now|intros ?]
  | |- moves _ _ (bind (update _) _) _ =>
      apply moves_bind_frame; [solve [eauto 3 with framed]|apply moves_update; by intros []|intros ?]
  | |- moves _ _ (update _) _ => apply moves_update; by intros []
  | |- moves _ _ (bind writer _) _ => apply moves_bind_frame; [solve [eauto 3 with framed]|apply moves_member|intros ?]
  | |- moves _ _ (match ?x with _ => _ end) _ => destruct x eqn:?
  | |- moves _ _ _ _ => solve [eauto 3 with moves]
  end.
Ltac moves := cbv zeta; repeat moves_step.

#[export] Hint Resolve moves_throw moves_undef moves_unfinished moves_destroy : moves.

Section operations.
Context {D B : Type} `{QIODevice D} `{QDataStream} `{QtBytes}.
Variable f : callback.
Implicit Types (m : Message_Item.t D) (w : World D B).

Lemma moves_pop g : moves f 0 (pop_waiting_message g : PM D B _) (token_opt f).
Proof.
  intros w. unfold pop_waiting_message, bind, member, gets.
  destruct (StdMap.extract_first g (waiting_messages_ (self w))) as [r ws] eqn:E. simpl.
  destruct w as [[rx tx lost d ls fr wa wr pe] c t k ev]. simpl in *. unfold tokens. simpl. destruct r as [m|]; simpl.
  - destruct (StdMap.extract_first_Some _ _ _ _ E) as (_ & Hp & _).
    rewrite (sum_of_perm _ _ _ Hp). simpl. lia.
  - destruct (StdMap.extract_first_None _ _ _ E) as [-> _]. lia.
Qed.

Lemma moves_destroy_opt o : moves f (token_opt f o) (destroy_opt o : PM D B unit) none.
Proof. unfold destroy_opt, token_opt. moves. Qed.

(** A message put in the waiting list is there afterwards, or destroyed. *)
Lemma moves_add_to_waiting t m : moves f (token f m) (add_to_waiting t m : PM D B unit) none.
Proof.
  unfold add_to_waiting. eapply (moves_bind _ _ _ _ (fun r => token_opt f r + token f m)).
  { apply (moves_frame f 0 (token f m)); [apply returning_pop|apply moves_pop]. }
  intros old. eapply (moves_bind _ _ _ _ (fun _ => 0 + token f m)).
  { apply (moves_frame f (token_opt f old) (token f m)); [apply returning_destroy_opt|apply moves_destroy_opt]. }
  intros _ w. unfold bind at 1, member, gets.
  destruct (StdMap.emplace t m (waiting_messages_ (self w))) as [ws' b] eqn:E.
  destruct w as [[rx tx lost d ls fr wa wr pe] c th k ev]. simpl in E.
  destruct b.
  - apply StdMap.emplace_values_fresh in E. unfold bind, update, modify, on_self, tokens, none. simpl.
    rewrite (sum_of_perm _ _ _ E). simpl. lia.
  - apply StdMap.emplace_same in E. subst ws'.
    pose proof (moves_destroy f m (mkWorld (mkProtocol rx tx lost d ls fr wa wr pe) c th k ev)) as Hd. exact Hd.
Qed.

Lemma moves_send_message o : moves f (token_opt f o) (send_message o : PM D B unit) none.
Proof.
  unfold send_message, token_opt. moves. apply (moves_emit f (Ev_write t)).
Qed.

Lemma moves_send_some n m : token f m = n -> moves f n (send_message (Some m) : PM D B unit) none.
Proof. intros <-. apply (moves_send_message (Some m)). Qed.

Lemma moves_add_timeout_at t x : moves f 0 (add_timeout_at t x : PM D B unit) none.
Proof. unfold add_timeout_at. moves. apply (moves_emit f (Ev_add_timeout_at t x)). Qed.

End operations.

#[export] Hint Resolve moves_pop moves_destroy_opt moves_add_to_waiting moves_send_message moves_add_timeout_at : moves.

Section senders.
Context {D B : Type} `{QIODevice D} `{QDataStream} `{QtBytes}.
Variable f : callback.
Implicit Types (m : Message_Item.t D) (w : World D B) (s : Protocol_Sender.t D).

Definition sender_token s : Z := token f (Protocol_Sender.msg_ s).

Lemma token_device d m : token f (Message_Item.with_data_device d m) = token f m.
Proof. by destruct m. Qed.

Lemma token_end_time e m : token f (Message_Item.with_end_time e m) = token f m.
Proof. by destruct m. Qed.

Lemma token_id i m : token f (Message_Item.with_id i m) = token f m.
Proof. by destruct m. Qed.

Lemma token_flags x m : token f (Message_Item.set_flags x m) = token f m.
Proof. by destruct m. Qed.

Lemma token_answer x m : token f (Message_Item.with_answer_func x m) = token f m.
Proof. by destruct m. Qed.

Lemma token_fragment_size n m : token f (Message_Item.set_fragment_size n m) = token f m.
Proof. rewrite Message_Item.set_fragment_size_other. by destruct m. Qed.

Lemma moves_dtor s : moves f (sender_token s) (Protocol_Sender.dtor s : PM D B unit) none.
Proof.
  unfold Protocol_Sender.dtor, sender_token. moves.
  apply moves_send_some, token_device.
Qed.

Lemma moves_send_answer c a : moves f 0 (send_answer c a : PM D B _) sender_token.
Proof. unfold send_answer. moves. Qed.

Lemma moves_send c : moves f 0 (send c : PM D B _) sender_token.
Proof. apply moves_send_answer. Qed.

Lemma stream_out_token bs s : sender_token (Protocol_Sender.stream_out bs s) = sender_token s.
Proof. apply token_device. Qed.

Lemma moves_query_sender c bs : moves f 0 (query_sender c bs : PM D B _) sender_token.
Proof.
  unfold query_sender. eapply moves_bind; [apply moves_send|]. intros s. apply moves_ret.
  rewrite stream_out_token. apply token_flags.
Qed.

Lemma moves_send_remove i :
  moves f 0 (let* s := send Cmd.REMOVE_FRAGMENT in
    Protocol_Sender.dtor (Protocol_Sender.stream_out (put W8 i) s) : PM D B unit) none.
Proof.
  eapply moves_bind; [apply moves_send|]. intros s. rewrite <- (stream_out_token (put W8 i)). apply moves_dtor.
Qed.

Lemma returning_dtor s : returning (Protocol_Sender.dtor s : PM D B unit).
Proof. unfold Protocol_Sender.dtor. returning. Qed.

Lemma returning_send_remove i :
  returning (let* s := send Cmd.REMOVE_FRAGMENT in
    Protocol_Sender.dtor (Protocol_Sender.stream_out (put W8 i) s) : PM D B unit).
Proof. unfold send, send_answer. returning. apply returning_dtor. Qed.

(** ** prepare_packet_to_send *)

Lemma moves_prepare o : moves f (token_opt f o) (prepare_packet_to_send o : PM D B _) none.
Proof.
  unfold prepare_packet_to_send. destruct o as [m|]; [|moves]. simpl token_opt.
  destruct (Message_Item.data_device_ m) as [dev|].
  2:{ eapply moves_bind; [apply moves_destroy|]. intros []. moves. }
  destruct (packet_data m dev) as [[flags data] dev']. cbv zeta.
  eapply (moves_bind _ _ _ _ (token f)).
  { moves; rewrite ?token_end_time, ?token_device; done. }
  intros m'. destruct (packet_compress m' flags data) as [flags' data'].
  eapply moves_bind_frame; [apply returning_take_msg_id|unfold take_msg_id; moves|]. intros i. cbv zeta.
  rewrite <- (token_id (Some i) m'). generalize (Message_Item.with_id (Some i) m'). intros m2.
  moves. eapply (moves_bind _ _ _ _ none); [|intros []; moves].
  moves. eapply moves_bind; [apply moves_add_to_waiting|]. intros []. apply moves_add_timeout_at.
Qed.

End senders.

#[export] Hint Resolve moves_dtor moves_send_answer moves_send moves_query_sender moves_send_remove : moves.
#[export] Hint Resolve returning_dtor returning_send_remove : framed.

(** ** Receiving and timers *)

Section receiving.
Context {D B : Type} `{QIODevice D} `{QDataStream} `{QtBytes}.
Variable f : callback.
Implicit Types (m : Message_Item.t D) (w : World D B).

Lemma moves_parse (wd : width) bs : moves f 0 (parse wd bs : PM D B _) none.
Proof. unfold parse. moves. Qed.

Lemma moves_is_lost_message i : moves f 0 (is_lost_message i : PM D B bool) none.
Proof. unfold is_lost_message. moves. Qed.

#[local] Opaque mark_lost.
Lemma moves_fill_lost_msg i : moves f 0 (fill_lost_msg i : PM D B unit) none.
Proof.
  unfold fill_lost_msg. moves. eapply (moves_bind _ _ _ _ none); [apply moves_when; moves|]. intros []. moves.
Qed.

Lemma moves_check_msg_id i x : moves f 0 (check_msg_id i x : PM D B bool) none.
Proof.
  unfold check_msg_id. moves.
  - eapply (moves_bind _ _ _ _ none); [apply moves_is_lost_message|]. intros b. moves.
  - eapply (moves_bind _ _ _ _ none); [apply moves_when|].
    + eapply moves_bind; [apply moves_call_user|]. intros []. apply moves_fill_lost_msg.
    + intros []. moves. eapply (moves_bind _ _ _ _ none); [apply moves_when; moves|]. intros []. moves.
Qed.

(** An answer callback that throws still leaves the message destroyed. *)
Lemma moves_call_answer m g data : moves f (token f m) (call_answer m g data : PM D B unit) none.
Proof.
  intros w. unfold call_answer. pose proof (moves_call_user f (Ev_answer_func g data) w) as Hc.
  destruct (call_user (Ev_answer_func g data) w) as [[[]| | |] w']; try done; unfold none in *; simpl in Hc.
  - pose proof (moves_destroy f (Message_Item.with_answer_func None m) w') as Hd. rewrite token_answer in Hd.
    destruct (destroy _ w') as [[| | |] w'']; try done; unfold none in *; lia.
  - pose proof (moves_destroy f m w') as Hd. unfold bind.
    destruct (destroy _ w') as [[| | |] w'']; try done; unfold none in *; simpl; lia.
Qed.

Lemma moves_deliver i c a data : moves f 0 (deliver_fragmented i c a data : PM D B unit) none.
Proof.
  unfold deliver_fragmented, pop_waiting_answer. destruct a as [a|]; [|apply moves_call_user].
  eapply moves_bind; [apply moves_pop|]. intros [m|]; simpl; [|apply moves_call_user].
  destruct (Message_Item.answer_func_ m); [apply moves_call_answer|].
  apply (moves_guarded f 0 (token f m)); [apply moves_call_user|apply moves_destroy].
Qed.

Lemma moves_process_fragment i c a fs pos rest fm :
  moves f 0 (process_fragment i c a fs pos rest fm : PM D B unit) none.
Proof.
  unfold process_fragment. cbv zeta. destruct (Fragmented_Message.is_parts_empty _).
  - eapply moves_bind; [apply moves_query_sender|]. intros out. moves.
    apply (moves_guarded f 0 (sender_token f out)); [|apply moves_dtor].
    eapply moves_bind; [apply moves_deliver|]. intros []. moves.
  - moves. eapply moves_bind; [apply moves_query_sender|]. intros out.
    apply moves_bind_frame; [apply returning_add_timeout_at|apply moves_add_timeout_at|]. intros []. apply moves_dtor.
Qed.

Lemma moves_process_fragment_message i c a ds : moves f 0 (process_fragment_message i c a ds : PM D B unit) none.
Proof.
  unfold process_fragment_message.
  eapply moves_bind; [apply moves_parse|]. intros [full ds1]. eapply moves_bind; [apply moves_parse|]. intros [pos ds2].
  eapply (moves_bind _ _ _ _ none).
  { destruct (full =? pos); [apply moves_parse|moves]. }
  intros [mfs ds3]. unfold none at 1. moves.
  eapply (moves_bind _ _ _ _ none).
  { moves. eapply (moves_bind _ _ _ _ none); [destruct (full <? 1000000); moves; apply moves_now|]. intros t. moves. }
  intros fm. unfold none at 1. moves. apply moves_process_fragment.
Qed.

Lemma moves_process_fragment_query i pos n : moves f 0 (process_fragment_query i pos n : PM D B unit) none.
Proof.
  unfold process_fragment_query, pop_waiting_fragment. cbv zeta.
  eapply moves_bind; [apply moves_pop|]. intros [m|]; simpl; [|apply moves_send_remove].
  assert (moves f (token f m) (add_to_waiting (Message_Item.end_time_ m) m ;;;
    (let* s := send Cmd.REMOVE_FRAGMENT in Protocol_Sender.dtor (Protocol_Sender.stream_out (put W8 i) s))
    : PM D B unit) none) as Hk.
  { eapply moves_bind; [apply moves_add_to_waiting|]. intros []. apply moves_send_remove. }
  assert (moves f (token f m) ((let* s := send Cmd.REMOVE_FRAGMENT in
     Protocol_Sender.dtor (Protocol_Sender.stream_out (put W8 i) s)) ;;; destroy m : PM D B unit) none) as Hd.
  { apply moves_bind_frame; [apply returning_send_remove|apply moves_send_remove|]. intros []. apply moves_destroy. }
  destruct (Message_Item.data_device_ m) as [d|]; [destruct (pos <? dev_size d)|].
  - apply moves_send_some. by rewrite token_device, token_fragment_size.
  - by destruct (Message_Item.answer_func_ m).
  - by destruct (Message_Item.answer_func_ m).
Qed.

Lemma moves_dispatch i c x data : moves f 0 (dispatch_message i c x data : PM D B unit) none.
Proof.
  unfold dispatch_message, pop_waiting_answer. destruct (c =? Cmd.REMOVE_FRAGMENT).
  { eapply moves_bind; [apply moves_parse|]. intros []. unfold none at 1. moves. }
  destruct (has_flag x Flags.FRAGMENT_QUERY).
  { do 3 (eapply moves_bind; [apply moves_parse|]; intros []). apply moves_process_fragment_query. }
  destruct (has_flag x (Z.lor Flags.FRAGMENT Flags.ANSWER)).
  - eapply (moves_bind _ _ _ _ none).
    { destruct (has_flag x Flags.ANSWER); [|moves]. eapply moves_bind; [apply moves_parse|]. intros []. moves. }
    intros [a ds]. unfold none at 1. destruct (has_flag x Flags.FRAGMENT); [apply moves_process_fragment_message|].
    destruct a; [|moves]. eapply moves_bind; [apply moves_pop|]. intros [m|]; simpl; [|moves].
    destruct (Message_Item.answer_func_ m); [apply moves_call_answer|apply moves_destroy].
  - destruct (c =? Cmd.PING); [|apply moves_call_user].
    eapply moves_bind; [apply moves_send_answer|]. intros s. apply moves_dtor.
Qed.

Lemma moves_internal_process_message i c x data :
  moves f 0 (internal_process_message i c x data : PM D B unit) none.
Proof.
  unfold internal_process_message. eapply moves_bind; [apply moves_check_msg_id|]. intros acc. unfold none at 1.
  moves; apply moves_dispatch.
Qed.

(** *** Timers *)

Lemma moves_destroy_all l : moves f (sum_of (token f) l) (for_each destroy l : PM D B unit) none.
Proof.
  induction l as [|m l IH]; simpl; [moves|]. eapply (moves_bind _ _ _ _ (fun _ => 0 + sum_of (token f) l)).
  { apply (moves_frame f (token f m)); [apply returning_destroy|apply moves_destroy]. }
  by intros [].
Qed.

Lemma moves_for_each {A} (g : A -> PM D B unit) l : (forall x, moves f 0 (g x) none) -> moves f 0 (for_each g l) none.
Proof.
  intros Hg. induction l as [|x l IH]; simpl; [moves|]. eapply moves_bind; [apply Hg|]. by intros [].
Qed.

Lemma moves_requery_fragment t k : moves f 0 (requery_fragment t k : PM D B unit) none.
Proof.
  unfold requery_fragment. moves. eapply moves_bind; [apply moves_query_sender|]. intros out.
  apply moves_bind_frame; [apply returning_add_timeout_at|apply moves_add_timeout_at|]. intros []. apply moves_dtor.
Qed.

(** On a throwing timeout callback the message is still in the vector. *)
Definition resend_moves t m : Prop :=
  forall w, match resend_or_timeout t m w with
            | (Ret r, w') => tokens f w' + token_opt f r = tokens f w + token f m
            | (Throw, w') => tokens f w' = tokens f w
            | _ => True
            end.

Lemma moves_resend_or_timeout t m : resend_moves t m.
Proof.
  assert (forall w, match (match Message_Item.timeout_func_ m with
        | Some g => call_user (Ev_timeout_func g) ;;; ret (Some m) | None => ret (Some m) end : PM D B _) w with
      | (Ret r, w') => tokens f w' + token_opt f r = tokens f w + token f m
      | (Throw, w') => tokens f w' = tokens f w | _ => True end) as Ht.
  { intros w. destruct (Message_Item.timeout_func_ m) as [g|]; [|done].
    pose proof (moves_call_user f (Ev_timeout_func g) w) as Hc. unfold bind.
    destruct (call_user _ w) as [[[]| | |] w']; try done; unfold none in *; simpl in *; lia. }
  intros w. unfold resend_or_timeout. destruct (Message_Item.data_device_ m); [|apply Ht].
  destruct (t <? Message_Item.end_time_ m); [|apply Ht]. cbv zeta. unfold bind.
  match goal with |- context [send_message (Some ?x) w] =>
    pose proof (moves_send_some f (token f m) x ltac:(by rewrite token_flags, token_fragment_size) w) as Hs;
    destruct (returning_send_message (Some x) w) as ([] & w' & E) end.
  rewrite E in Hs |- *. unfold none in Hs. simpl. lia.
Qed.

Lemma moves_resend_all t ms kept :
  moves f (sum_of (token f) ms + sum_of (token f) kept) (resend_all t ms kept : PM D B unit) none.
Proof.
  revert kept. induction ms as [|m ms IH]; intros kept; cbn [resend_all].
  { rewrite <- (sum_of_rev _ kept). apply moves_destroy_all. }
  intros w. pose proof (moves_resend_or_timeout t m w) as Hr. simpl sum_of.
  destruct (resend_or_timeout t m w) as [[r| | |] w']; try done.
  - pose proof (IH (match r with Some m0 => m0 :: kept | None => kept end) w') as Hi.
    destruct (resend_all _ _ _ w') as [[[]| | |] w'']; try done; unfold none in *; destruct r; simpl in *; lia.
  - pose proof (moves_destroy_all (rev kept ++ m :: ms) w') as Hd. unfold bind.
    destruct (for_each destroy _ w') as [[[]| | |] w'']; try done;
      rewrite sum_of_app, sum_of_rev in Hd; unfold none in *; simpl in *; lia.
Qed.

Lemma moves_pop_messages : moves f 0 (pop_waiting_messages : PM D B _) (sum_of (token f)).
Proof.
  unfold pop_waiting_messages. apply moves_bind_frame; [apply returning_now|apply moves_now|]. intros a w. cbv zeta.
  pose proof (StdMap.pop_until_app (a + milliseconds 20) (waiting_messages_ (self w))) as Ha.
  unfold bind at 1, member, gets.
  destruct (StdMap.pop_until (a + milliseconds 20) (waiting_messages_ (self w))) as [ms ws'].
  destruct w as [[]]. simpl in *. unfold tokens. simpl. rewrite <- Ha, sum_of_app. lia.
Qed.

Lemma moves_process_wait_list x : moves f 0 (process_wait_list x : PM D B unit) none.
Proof.
  unfold process_wait_list. destruct (x =? Flags.FRAGMENT).
  - moves. apply moves_for_each. intros k. apply moves_requery_fragment.
  - eapply moves_bind; [apply moves_pop_messages|]. intros ms. moves.
    rewrite <- (Z.add_0_r (sum_of (token f) ms)). apply (moves_resend_all a ms []).
Qed.

End receiving.

(** ** The receive stream *)

Section stream_moves.
Context {D B : Type} `{QIODevice B, !QBuffer B} `{QDataStream} `{QtBytes}.
Variable f : callback.
Context (handler : Z -> Z -> Z -> list byte -> PM D B unit).
Context (Hhandler : forall i c x data, moves f 0 (handler i c x data) none).

Lemma moves_stream_read (wd : width) : moves f 0 (stream_read wd : PM D B Z) none.
Proof. unfold stream_read. moves. Qed.

Lemma moves_seek p : moves f 0 (seek_device p : PM D B unit) none.
Proof. unfold seek_device. moves. Qed.

Lemma moves_then {A A'} (m : PM D B A) (k : A -> PM D B A') :
  moves f 0 m none -> (forall a, moves f 0 (k a) none) -> moves f 0 (bind m k) none.
Proof. intros Hm Hk. by eapply moves_bind. Qed.

Lemma moves_read_header : moves f 0 (read_header : PM D B _) none.
Proof. unfold read_header. repeat (apply moves_then; [apply moves_stream_read|intros ?]). moves. Qed.

Lemma moves_seek_ret {A} p (a : A) : moves f 0 (seek_device p ;;; ret a : PM D B A) none.
Proof. apply moves_then; [apply moves_seek|]. intros []. moves. Qed.

(** An exception of the handler is caught, but what it did stays. *)
Lemma moves_process_one : moves f 0 (process_one handler) none.
Proof.
  unfold process_one. moves. apply moves_then; [apply moves_read_header|]. intros [[[[ck i] c] x] n]. moves;
    try apply moves_seek_ret. apply moves_then.
  - set (body := ztake _ _). intros w. unfold try_catch, bind. pose proof (Hhandler i c x body w) as Hh.
    destruct (handler i c x body w) as [[[]| | |] w']; try done; unfold none in *; simpl; lia.
  - intros ok. destruct ok; [apply moves_seek_ret|moves].
Qed.

Lemma moves_process_stream_loop fuel : moves f 0 (process_stream_loop handler fuel) none.
Proof.
  induction fuel as [|fuel IH]; cbn [process_stream_loop]; moves.
  apply moves_then; [apply moves_process_one|]. intros [r|]; [moves|done].
Qed.

Lemma moves_retry_loop fuel : moves f 0 (retry_loop handler fuel) none.
Proof.
  induction fuel as [|fuel IH]; cbn [retry_loop];
    (apply moves_then; [unfold process_stream; moves; apply moves_process_stream_loop|]); intros ok; moves.
  apply moves_then; [apply moves_seek|]. intros []. moves.
Qed.

Lemma moves_process_bytes data : moves f 0 (process_bytes handler data) none.
Proof.
  unfold process_bytes. moves. apply moves_then; [moves|]. intros []. moves.
  apply moves_then; [apply moves_seek|]. intros []. moves.
  apply moves_then; [apply moves_seek|]. intros []. moves.
  apply moves_then; [apply moves_retry_loop|]. intros []. unfold trim_buffer. moves.
Qed.

End stream_moves.

(** ** Properties *)

Section properties.
Context {D B : Type} `{QIODevice D} `{HBL : QIODeviceLaws B} `{HQ : !QBuffer B} `{HQL : !QBufferLaws B}
  `{HSL : QDataStreamLaws} `{HCL : QtBytesLaws}.
Implicit Types (w : World D B).

Lemma prepare_owned f m w :
  exists packet w', prepare_packet_to_send (Some m) w = (Ret packet, w') /\ tokens f w' = tokens f w + token f m.
Proof.
  assert (exists packet w', prepare_packet_to_send (Some m) w = (Ret packet, w')) as (packet & w' & E).
  { destruct (Message_Item.data_device_ m) as [dev|] eqn:Ed.
    - destruct (prepare_packet_value m dev w Ed) as (w' & E). by eexists _, _.
    - unfold prepare_packet_to_send. rewrite Ed. unfold bind.
      destruct (returning_destroy m w) as ([] & w' & ->). by eexists _, _. }
  exists packet, w'. split; [done|]. pose proof (moves_prepare f (Some m) w) as Hm. rewrite E in Hm.
  unfold none in Hm. simpl in Hm. lia.
Qed.

Lemma receive_owned f data w w' : protocol_process_bytes data w = (Ret tt, w') -> tokens f w' = tokens f w.
Proof.
  intros E. pose proof (moves_process_bytes f internal_process_message (moves_internal_process_message f) data w) as Hm.
  unfold protocol_process_bytes in E. rewrite E in Hm. unfold none in Hm. lia.
Qed.

Lemma timer_owned f x w : inv w ->
  exists o w', process_wait_list x w = (o, w') /\ (o = Ret tt \/ o = Throw) /\ inv w' /\ tokens f w' = tokens f w.
Proof.
  intros Hw. pose proof (moves_process_wait_list f x w) as Hm.
  destruct (keeps_process_wait_list x w Hw) as [Hi Ho].
  destruct (process_wait_list x w) as [[[]| | |] w']; simpl in Ho, Hi; try done; unfold none in Hm;
    eexists _, _; split_and!; eauto; lia.
Qed.

(** What can happen to a protocol: a message of the user becomes a packet,
    bytes arrive, the timer fires (which may throw what a timeout callback
    throws). The number counts the messages given with the callback [f]. *)
Inductive history (f : callback) : World D B -> Z -> World D B -> Prop :=
| h_done w : history f w 0 w
| h_packet m packet w w1 n w2 :
    Message_Item.wf m -> prepare_packet_to_send (Some m) w = (Ret packet, w1) -> history f w1 n w2 ->
    history f w (token f m + n) w2
| h_bytes data w w1 n w2 :
    dev_size (device_ (self w)) + zlen data < 2147483648 -> protocol_process_bytes data w = (Ret tt, w1) -> history f w1 n w2 ->
    history f w n w2
| h_timer x o w w1 n w2 : process_wait_list x w = (o, w1) -> history f w1 n w2 -> history f w n w2.


End properties.

(** ** Concrete instances of the properties *)

Module Ownership_Witness.
Import QtRef Invariant_Witness.

Definition told : Message_Item.t mem :=
  Message_Item.with_finally_func (Some 1%nat)
    (Message_Item.make 16 None (Some {| m_content := [x01; x02]; m_pos := 2; m_open := true |}) 0).


End Ownership_Witness.
