(* ===== verification/FragmentProofs.v ===== *)
(** * Sending a message in fragments

    One round of the exchange: the receiver asks for the first missing part
    of a message, the sender answers with a fragment, the receiver stores it
    and asks for the next one, or delivers the message. *)

From S2P Require Import Prelude StdMap QtInterface MessageItem FragmentedMessage ProtocolState ProtocolSend ProtocolRecv ProtocolFrame ProtocolStream StreamProofs SendProofs ReceiveProofs LostProofs ProtocolInvariant.

Section fragments.
Context {D B : Type} `{HD : QIODeviceLaws D} `{HO : !DevicesOpen D} `{HSL : QDataStreamLaws} `{HCL : QtBytesLaws}.
Implicit Types (w : World D B) (fm : Fragmented_Message.t D) (m : Message_Item.t D).

(** ** The sender's side *)

(** The bytes of the part that starts at [pos], at most [n] of them. *)
Definition part_of (orig : list byte) (pos n : Z) : list byte := ztake n (zdrop pos orig).

Lemma part_of_len orig pos n : 0 <= pos <= zlen orig -> 0 <= n -> zlen (part_of orig pos n) = Z.min n (zlen orig - pos).
Proof.
  intros Hp Hn. unfold part_of, zlen, ztake, zdrop in *. rewrite length_take, length_drop. lia.
Qed.

Lemma part_of_fragment orig pos n :
  0 <= pos < zlen orig -> 0 < n -> Fragmented_Message.fragment_of orig (pos, part_of orig pos n).
Proof.
  intros Hp Hn. pose proof (part_of_len orig pos n ltac:(lia) ltac:(lia)) as Hl.
  unfold Fragmented_Message.fragment_of. simpl. split_and!; [lia| |lia|].
  - intros E. rewrite E in Hl. unfold zlen in Hl at 1. simpl in Hl. lia.
  - rewrite Hl. unfold part_of, zlen, ztake, zdrop. destruct (Z.le_gt_cases n (zlen orig - pos)).
    + by rewrite Z.min_l by (unfold zlen in *; lia).
    + rewrite !take_ge; [done|rewrite length_drop; unfold zlen in *; lia..].
Qed.

(** The packet of a message positioned at [pos], too large for one packet. *)
Lemma packet_data_fragment m (dev : D) :
  dev_is_open dev = true -> Message_Item.fragment_size m < dev_size dev -> 0 <= Message_Item.fragment_size m ->
  0 <= dev_pos dev < dev_size dev -> dev_size dev < 2147483648 -> Message_Item.answer_id_ m = None ->
  exists dev', packet_data m dev =
    (Z.lor (Message_Item.flags m) Flags.FRAGMENT,
     put W32 (dev_size dev) ++ put W32 (dev_pos dev)
       ++ part_of (dev_content dev) (dev_pos dev) (Message_Item.fragment_size m), dev')
    /\ dev_content dev' = dev_content dev /\ dev_is_open dev' = true.
Proof.
  intros Ho Hfs Hfs0 Hp Hsz Ha. unfold packet_data. rewrite Ha.
  destruct (Z.ltb_spec (Message_Item.fragment_size m) (dev_size dev)); [|lia].
  unfold dev_atEnd, dev_bytesAvailable. destruct (Z.leb_spec (Z.max 0 (dev_size dev - dev_pos dev)) 0); [lia|].
  rewrite !u32_small by (unfold is_u32; lia). unfold add_raw_data_to_packet.
  rewrite u32_small by (unfold is_u32; lia).
  set (n := Z.min (Message_Item.fragment_size m) (dev_size dev - dev_pos dev)).
  pose proof (read_bytes n (dev_seek (dev_pos dev) dev) ltac:(by rewrite seek_open) ltac:(lia)) as Hr.
  rewrite seek_pos, seek_content in Hr by (done || unfold dev_size in *; lia).
  pose proof (read_content n (dev_seek (dev_pos dev) dev)) as Hrc.
  rewrite seek_content in Hrc by (unfold dev_size in *; lia).
  pose proof (read_open n (dev_seek (dev_pos dev) dev)) as Hro. rewrite seek_open, Ho in Hro.
  destruct (dev_read n (dev_seek (dev_pos dev) dev)) as [bs dev']. simpl in Hr, Hrc, Hro.
  assert (zlen bs = n) as Hlen.
  { subst bs. unfold dev_size in *. apply zlen_ztake. rewrite zlen_zdrop by lia. lia. }
  rewrite Hlen, Z.sub_diag, resize_bytes_0, app_nil_r. clear Hlen. subst bs.
  exists dev'. split; [|done]. rewrite app_nil_l, <- app_assoc. do 3 f_equal. unfold part_of, n.
  destruct (Z.le_gt_cases (Message_Item.fragment_size m) (dev_size dev - dev_pos dev)).
  - by rewrite Z.min_l by lia.
  - rewrite Z.min_r by lia. unfold ztake, zdrop, dev_size, zlen in *. rewrite !take_ge; [done|rewrite length_drop; lia..].
Qed.

(** The message the sender hands to the writer when part [pos], [n] is
    asked for. *)
Definition answered m (d : D) (pos n : Z) : Message_Item.t D :=
  Message_Item.with_data_device (Some (dev_seek pos d)) (Message_Item.set_fragment_size n m).

Lemma query_answered i pos n m (d : D) ws' wr w :
  StdMap.extract_first (fun x => waiting_id x =? i) (waiting_messages_ (self w)) = (Some m, ws') ->
  Message_Item.data_device_ m = Some d -> pos < dev_size d -> protocol_writer_ (self w) = Some wr ->
  exists w', process_fragment_query i pos n w = (Ret tt, w')
    /\ events w' = events w ++ [Ev_write (answered m d pos n)]
    /\ self w' = with_waiting ws' (self w).
Proof.
  intros E Hd Hp Hwr. unfold process_fragment_query, pop_waiting_fragment. cbv zeta.
  assert (pop_waiting_message (fun x => waiting_id x =? i) w = (Ret (Some m), on_self (with_waiting ws') w)) as Ep.
  { unfold pop_waiting_message, bind, member, gets. by rewrite E. }
  rewrite (bind_Ret _ _ _ _ _ Ep). rewrite Hd. rewrite (proj2 (Z.ltb_lt _ _) Hp).
  fold (answered m d pos n). unfold send_message.
  assert (Message_Item.data_device_ (answered m d pos n) = Some (dev_seek pos d)) as ->.
  { unfold answered. by destruct (Message_Item.set_fragment_size n m). }
  eexists. split.
  - unfold bind, writer, member, gets. destruct w as [[]]. simpl in *. by rewrite Hwr.
  - by destruct w as [[]].
Qed.

Lemma answered_func m d pos n : Message_Item.answer_func_ (answered m d pos n) = Message_Item.answer_func_ m.
Proof. unfold answered. rewrite Message_Item.set_fragment_size_other. by destruct m. Qed.

Lemma answered_fields m d pos n :
  Message_Item.id_ (answered m d pos n) = Message_Item.id_ m
  /\ Message_Item.answer_id_ (answered m d pos n) = Message_Item.answer_id_ m
  /\ Message_Item.cmd_ (answered m d pos n) = Message_Item.cmd_ m
  /\ Message_Item.flags_ (answered m d pos n) = Message_Item.flags_ m
  /\ Message_Item.fragment_size_ (answered m d pos n) = Z.max 32 (Z.min n HELPZ_MAX_PACKET_DATA_SIZE)
  /\ Message_Item.data_device_ (answered m d pos n) = Some (dev_seek pos d)
  /\ Message_Item.min_compress_size_ (answered m d pos n) = Message_Item.min_compress_size_ m.
Proof.
  unfold answered. pose proof (Message_Item.set_fragment_size_value n m) as Hv.
  rewrite Message_Item.set_fragment_size_other in Hv |- *. rewrite Message_Item.set_fragment_size_value.
  by destruct m.
Qed.

(** The body of the answer, before compression. *)
Definition fragment_body (orig : list byte) (pos n : Z) : list byte :=
  put W32 (zlen orig) ++ put W32 pos ++ part_of orig pos n.

Definition reply_size (n : Z) : Z := Z.max 32 (Z.min n HELPZ_MAX_PACKET_DATA_SIZE).

Lemma answered_packet m (d : D) i pos n w :
  let orig := dev_content d in
  dev_is_open d = true -> Message_Item.id_ m = Some i -> Message_Item.answer_id_ m = None ->
  0 <= pos < zlen orig -> zlen orig < 2147483648 -> reply_size n < zlen orig ->
  exists w' flags body,
    prepare_packet_to_send (Some (answered m d pos n)) w = (Ret (packet_bytes i (Message_Item.cmd_ m) flags body), w')
    /\ packet_compress m (Z.lor (Message_Item.flags_ m) Flags.FRAGMENT) (fragment_body orig pos (reply_size n)) = (flags, body).
Proof.
  intros orig Ho Hi Ha Hp Hsz Hn.
  destruct (answered_fields m d pos n) as (Ei & Ea & Ec & Ef & Es & Ed & Em).
  destruct (prepare_packet_value _ _ w Ed) as (w' & Epr).
  assert (dev_content (dev_seek pos d) = orig) as Co by (apply seek_content; unfold dev_size; fold orig; lia).
  assert (dev_pos (dev_seek pos d) = pos) as Po by (apply seek_pos; [done|lia]).
  destruct (packet_data_fragment (answered m d pos n) (dev_seek pos d)) as (dev' & Epd & _);
    unfold dev_size, Message_Item.fragment_size; rewrite ?Co, ?Po, ?Es; try (unfold reply_size in *; lia);
    [by rewrite seek_open|congruence|].
  unfold expected_packet in Epr. rewrite Epd in Epr. unfold dev_size, Message_Item.fragment_size, Message_Item.flags in Epr.
  rewrite Co, Po, Es, Ef in Epr. fold (reply_size n) in Epr. fold (fragment_body orig pos (reply_size n)) in Epr.
  assert (forall f x, packet_compress (answered m d pos n) f x = packet_compress m f x) as Epc
    by (intros f x; unfold packet_compress, Message_Item.min_compress_size; by rewrite Em).
  rewrite Epc in Epr. destruct (packet_compress _ _ _) as [flags body]. exists w', flags, body. split; [|done].
  rewrite Epr. unfold msg_id_of, Message_Item.cmd. by rewrite Ei, Hi, Ec.
Qed.

(** ** The receiver's side *)

Lemma parse_put wd v rest w : 0 <= v < wbound wd -> parse wd (put wd v ++ rest) w = (Ret (v, rest), w).
Proof. intros Hv. unfold parse. by rewrite get_put. Qed.

(** A query for part [a], [n] of message [i], as handed to the writer. *)
Definition is_query (i c a n : Z) (e : Event D) : Prop :=
  match e with
  | Ev_write q =>
      Message_Item.cmd_ q = c /\ Message_Item.flags_ q = Flags.FRAGMENT_QUERY
      /\ Message_Item.id_ q = None /\ Message_Item.answer_id_ q = None
      /\ Message_Item.fragment_size_ q = HELPZ_MAX_MESSAGE_DATA_SIZE /\ Message_Item.min_compress_size_ q = 512
      /\ exists d, Message_Item.data_device_ q = Some d /\ dev_is_open d = true /\ dev_content d = put W8 i ++ put W32 a ++ put W32 n
  | _ => False
  end.

Lemma query_sent c i a n wr w :
  protocol_writer_ (self w) = Some wr -> has_protocol wr = true ->
  exists s, query_sender c (put W8 i ++ put W32 a ++ put W32 n) w = (Ret s, w)
    /\ forall w2, protocol_writer_ (self w2) = Some wr ->
         exists e w3, Protocol_Sender.dtor s w2 = (Ret tt, w3) /\ self w3 = self w2
           /\ events w3 = events w2 ++ [e] /\ is_query i c a n e /\ ticks w3 = ticks w2 /\ env_clock w3 = env_clock w2.
Proof.
  intros Hwr Hp. unfold query_sender, send, send_answer, bind, writer, member, gets. rewrite Hwr, Hp.
  eexists. split; [reflexivity|]. intros w2 Hw2.
  set (bs := put W8 i ++ put W32 a ++ put W32 n).
  set (d0 := Protocol_Sender.open_device (new_QBuffer : D)).
  assert (dev_content (dev_write bs d0) = bs /\ dev_is_open d0 = true) as [Cd Od].
  { destruct new_QBuffer_spec as (C0 & P0 & O0).
    assert (dev_content d0 = [] /\ dev_pos d0 = 0 /\ dev_is_open d0 = true) as (C & P & O).
    { unfold d0, Protocol_Sender.open_device. rewrite O0. destruct (open_closed _ O0) as [d' Eo].
      rewrite Eo. simpl. destruct (open_content _ _ Eo) as (C & P & O). by rewrite C. }
    split; [|done]. rewrite write_at_end; [by rewrite C|done|]. unfold dev_size. by rewrite C. }
  unfold Protocol_Sender.dtor. simpl. unfold bind, writer, member, gets. rewrite Hw2.
  eexists _, _. split; [reflexivity|]. split_and!; [done|reflexivity| |done|done]. simpl. fold bs d0. split_and!; [done..|].
  eexists. split; [reflexivity|]. rewrite seek_open, write_open, seek_content; [done|]. unfold dev_size. pose proof (zlen_nonneg (dev_content (dev_write bs d0))). lia.
Qed.

(** The two ways a fragment can be taken in. *)
Definition delivered i c orig size w w' : Prop :=
  StdMap.find i (fragmented_messages_ (self w')) = None
  /\ exists q, events w' = events w ++ [Ev_process_message i c orig; q] /\ is_query i c (zlen orig) size q.

(** No other message is being reassembled. *)
Definition only i w : Prop := forall x, In x (StdMap.keys (fragmented_messages_ (self w))) -> x = i.

(** The entry of message [i], touched when the clock was last looked at. *)
Definition stamped i c fm w : Prop :=
  Fragmented_Message.id_ fm = i /\ Fragmented_Message.cmd_ fm = c
  /\ exists n, (n < ticks w)%nat /\ Fragmented_Message.last_part_time_ fm = env_clock w n.

Definition asks_next i c orig parts size w w' : Prop :=
  StdMap.sorted (fragmented_messages_ (self w')) /\
  exists fm', StdMap.find i (fragmented_messages_ (self w')) = Some fm'
    /\ Fragmented_Message.reassembles orig fm' /\ dev_is_open (Fragmented_Message.data_device_ fm') = false
    /\ Fragmented_Message.part_vect_ fm' = parts /\ parts <> []
    /\ Fragmented_Message.max_fragment_size_ fm' = grow_fragment_size size
    /\ stamped i c fm' w' /\ (only i w -> only i w')
    /\ exists t q, events w' = events w ++ [Ev_add_timeout_at t Flags.FRAGMENT; q]
         /\ is_query i c (Fragmented_Message.get_next_part fm').1 (Fragmented_Message.get_next_part fm').2 q.

Lemma process_fragment_complete i c orig pos rest fm wr w :
  rest <> [] -> protocol_writer_ (self w) = Some wr -> has_protocol wr = true ->
  StdMap.sorted (fragmented_messages_ (self w)) ->
  Fragmented_Message.reassembles orig (Fragmented_Message.add_data pos rest fm) ->
  Fragmented_Message.is_parts_empty (Fragmented_Message.add_data pos rest fm) = true ->
  env_throws w (Ev_process_message i c orig) = false ->
  exists w', process_fragment i c None (zlen orig) pos rest fm w = (Ret tt, w')
    /\ delivered i c orig (Fragmented_Message.max_fragment_size_ fm) w w'.
Proof.
  intros Hne Hwr Hpr Hs Hre He Hth. unfold process_fragment. destruct rest as [|r0 rest0]; [done|].
  set (rest := r0 :: rest0) in *. set (fm1 := Fragmented_Message.add_data pos rest fm) in *. cbv zeta. rewrite He.
  destruct (query_sent c i (zlen orig) (Fragmented_Message.max_fragment_size_ fm1) wr w Hwr Hpr) as (s & Eq & Hdtor).
  rewrite (bind_Ret _ _ _ _ _ Eq).
  set (dev := dev_seek 0 (Fragmented_Message.data_device_ fm1)).
  assert (dev_content dev = orig) as Cd.
  { unfold dev. rewrite seek_content; [by apply Fragmented_Message.reassembles_complete|].
    split; [done|]. apply zlen_nonneg. }
  rewrite Cd. unfold bind at 1, update, modify. unfold guarded.
  set (w1 := on_self _ w). assert (env_throws w1 (Ev_process_message i c orig) = false) as Hth1 by done.
  unfold deliver_fragmented. rewrite (bind_Ret _ _ _ _ _ (call_user_ok _ _ Hth1)).
  set (w2 := emitted _ w1).
  set (w3 := on_self (fun p => with_fragmented (StdMap.erase i (fragmented_messages_ p)) p) w2).
  destruct (Hdtor w3) as (q & w4 & Ed & Es & Eev & Hq & _); [by destruct w as [[]]|].
  exists w4. split; [by rewrite (bind_Ret _ _ _ _ _ Ed)|]. split.
  - rewrite Es. destruct w as [[]]. simpl in *. rewrite StdMap.erase_find by (by apply StdMap.assign_sorted).
    by rewrite Z.eqb_refl.
  - exists q. split; [rewrite Eev; simpl; by rewrite <- app_assoc|].
    replace (Fragmented_Message.max_fragment_size_ fm) with (Fragmented_Message.max_fragment_size_ fm1); [done|].
    unfold fm1, Fragmented_Message.add_data. by destruct fm.
Qed.

Lemma process_fragment_more i c orig pos rest fm wr w :
  let fm1 := match rest with [] => fm | _ => Fragmented_Message.add_data pos rest fm end in
  StdMap.sorted (fragmented_messages_ (self w)) -> protocol_writer_ (self w) = Some wr -> has_protocol wr = true ->
  is_Some (StdMap.find i (fragmented_messages_ (self w))) ->
  Fragmented_Message.reassembles orig fm1 -> Fragmented_Message.is_parts_empty fm1 = false ->
  Fragmented_Message.id_ fm = i -> Fragmented_Message.cmd_ fm = c ->
  exists w', process_fragment i c None (zlen orig) pos rest fm w = (Ret tt, w')
    /\ asks_next i c orig (Fragmented_Message.part_vect_ fm1) (Fragmented_Message.max_fragment_size_ fm1) w w'.
Proof.
  intros fm1 Hs Hwr Hpr Hfind Hre He Hid Hcmd. unfold process_fragment. fold fm1. cbv zeta. rewrite He.
  unfold bind at 1, now at 1, bind at 1, update at 1, modify at 1, bind at 1, update at 1, modify at 1.
  set (t := env_clock w (ticks w)). set (fm2 := Fragmented_Message.with_max_fragment_size _ _). set (w1 := on_self _ _).
  destruct (query_sent c i (Fragmented_Message.get_next_part fm2).1 (Fragmented_Message.get_next_part fm2).2 wr w1)
    as (s & Eq & Hdtor); [by destruct w as [[]]|done|].
  rewrite (bind_Ret _ _ _ _ _ Eq).
  assert (protocol_writer_ (self w1) = Some wr) as Hw1 by (by destruct w as [[]]).
  assert (add_timeout_at (t + milliseconds 1505) Flags.FRAGMENT w1
    = (Ret tt, emitted (Ev_add_timeout_at (t + milliseconds 1505) Flags.FRAGMENT) w1)) as Et.
  { unfold add_timeout_at, bind, writer, member, gets. by rewrite Hw1. }
  rewrite (bind_Ret _ _ _ _ _ Et).
  destruct (Hdtor (emitted (Ev_add_timeout_at (t + milliseconds 1505) Flags.FRAGMENT) w1)) as (q & w4 & Ed & Es & Eev & Hq & Etk & Eclk);
    [done|].
  assert (Fragmented_Message.id_ fm1 = i /\ Fragmented_Message.cmd_ fm1 = c) as [Hid1 Hcmd1] by (unfold fm1; destruct fm, rest; done).
  exists w4. split; [done|]. split; [|exists fm2; split_and!].
  - rewrite Es. destruct w as [[]]. by apply StdMap.assign_sorted.
  - rewrite Es. destruct w as [[]]. simpl in *. rewrite StdMap.assign_find, Z.eqb_refl. by destruct Hfind as [? ->].
  - destruct Hre as [Hp Hsz Hb]. unfold fm2. destruct fm1 as [id cmd mf dv lt pv]. simpl in *.
    constructor; simpl; [done| |]; unfold dev_size in *; by rewrite close_content.
  - unfold fm2. destruct fm1. apply close_open.
  - unfold fm2. by destruct fm1.
  - intros E. unfold Fragmented_Message.is_parts_empty in He. by rewrite E in He.
  - unfold fm2. by destruct fm1.
  - unfold fm2. destruct fm1. split_and!; [done|done|]. exists (ticks w). rewrite Etk. split; [simpl; lia|].
    assert (env_clock w4 = env_clock w) as -> by (rewrite Eclk; done). done.
  - intros Ho x. rewrite Es. specialize (Ho x). destruct w as [[]]. simpl in *. by rewrite StdMap.assign_keys.
  - eexists _, q. split; [|exact Hq]. rewrite Eev. simpl. by rewrite <- app_assoc.
Qed.

(** Opening the device does not change what is stored. *)
Lemma reassembles_open orig fm d :
  dev_open (Fragmented_Message.data_device_ fm) = Some d -> Fragmented_Message.reassembles orig fm ->
  Fragmented_Message.reassembles orig (Fragmented_Message.with_data_device d fm).
Proof.
  intros Eo. destruct (open_content _ _ Eo) as (C & _). by apply Fragmented_Message.reassembles_device.
Qed.

Lemma fragment_received i c orig pos rest fm wr w :
  zlen orig < HELPZ_PROTOCOL_MAX_MESSAGE_SIZE -> Fragmented_Message.fragment_of orig (pos, rest) ->
  protocol_writer_ (self w) = Some wr -> has_protocol wr = true ->
  StdMap.sorted (fragmented_messages_ (self w)) ->
  StdMap.find i (fragmented_messages_ (self w)) = Some fm ->
  dev_is_open (Fragmented_Message.data_device_ fm) = false -> Fragmented_Message.reassembles orig fm ->
  Fragmented_Message.id_ fm = i -> Fragmented_Message.cmd_ fm = c ->
  env_throws w (Ev_process_message i c orig) = false ->
  let parts := Fragmented_Message.part_vect_ (Fragmented_Message.add_data pos rest fm) in
  exists w', process_fragment_message i c None (put W32 (zlen orig) ++ put W32 pos ++ rest) w = (Ret tt, w')
    /\ (parts = [] /\ delivered i c orig (Fragmented_Message.max_fragment_size_ fm) w w'
        \/ asks_next i c orig parts (Fragmented_Message.max_fragment_size_ fm) w w').
Proof.
  intros Hsz Hf Hwr Hpr Hs Hfind Hop Hre Hid Hcmd Hth parts. pose proof Hf as (Hp & Hne & Hlen & _). simpl in Hp, Hne, Hlen.
  unfold HELPZ_PROTOCOL_MAX_MESSAGE_SIZE in Hsz. pose proof (zlen_nonneg rest).
  assert (0 < zlen rest) as Hpos by (destruct rest; [done|unfold zlen; simpl; lia]).
  unfold process_fragment_message.
  rewrite (bind_Ret _ _ _ _ _ (parse_put W32 (zlen orig) _ w ltac:(simpl; lia))).
  rewrite (bind_Ret _ _ _ _ _ (parse_put W32 pos _ w ltac:(simpl; lia))).
  destruct (Z.eqb_spec (zlen orig) pos); [lia|]. rewrite bind_ret_l.
  unfold bind at 1, member at 1, gets at 1.
  destruct (Z.leb_spec HELPZ_PROTOCOL_MAX_MESSAGE_SIZE (zlen orig)) as [Hbad|_];
    [unfold HELPZ_PROTOCOL_MAX_MESSAGE_SIZE in Hbad; lia|].
  rewrite Hfind, bind_ret_l. destruct (open_closed _ Hop) as [d Eo]. rewrite Eo.
  assert (Fragmented_Message.part_vect_ (Fragmented_Message.add_data pos rest (Fragmented_Message.with_data_device d fm)) = parts)
    as Hparts by (by destruct fm).
  assert (dev_is_open (Fragmented_Message.data_device_ (Fragmented_Message.with_data_device d fm)) = true) as Hopen
    by (destruct (open_content _ _ Eo) as (_ & _ & ?); by destruct fm).
  pose proof (Fragmented_Message.add_data_reassembles orig pos rest _ Hopen Hf ltac:(lia) (reassembles_open _ _ _ Eo Hre)) as Hre1.
  destruct (Fragmented_Message.is_parts_empty (Fragmented_Message.add_data pos rest (Fragmented_Message.with_data_device d fm))) eqn:Ee.
  - destruct (process_fragment_complete i c orig pos rest _ wr w Hne Hwr Hpr Hs Hre1 Ee Hth) as (w' & E & Hdel).
    exists w'. split; [done|]. left. split; [|by destruct fm]. unfold Fragmented_Message.is_parts_empty in Ee.
    rewrite Hparts in Ee. by destruct parts.
  - pose proof (process_fragment_more i c orig pos rest (Fragmented_Message.with_data_device d fm) wr w) as Hmore.
    cbv zeta in Hmore. destruct rest as [|r0 rest]; [done|].
    destruct Hmore as (w' & E & Hask); [done|done|done|by rewrite Hfind|done|done|by destruct fm|by destruct fm|].
    exists w'. split; [done|]. right. rewrite Hparts in Hask. by destruct fm.
Qed.

(** A fragment that starts at the first missing byte leaves fewer missing. *)
Lemma next_fragment_total orig fm a b l r :
  Fragmented_Message.part_vect_ fm = (a, b) :: l -> Fragmented_Message.reassembles orig fm ->
  zlen orig < 2147483648 -> 0 < r ->
  Fragmented_Message.parts_total (Fragmented_Message.part_vect_ (Fragmented_Message.add_data a (part_of orig a r) fm))
  < Fragmented_Message.parts_total (Fragmented_Message.part_vect_ fm).
Proof.
  intros Epv Hre Hsz Hr. pose proof (Fragmented_Message.re_parts _ _ Hre) as Hparts.
  rewrite Epv in Hparts. pose proof Hparts as (Ha0 & Hab & Hb & _).
  pose proof (part_of_len orig a r ltac:(lia) ltac:(lia)) as Hlen.
  replace (Fragmented_Message.part_vect_ (Fragmented_Message.add_data a (part_of orig a r) fm))
    with (Fragmented_Message.remove_from_part_vect a (a + zlen (part_of orig a r)) ((a, b) :: l)).
  - rewrite Epv. pose proof (Fragmented_Message.remove_first_total a b (a + zlen (part_of orig a r)) 0 _ l ltac:(lia) Hparts). lia.
  - rewrite <- Epv. rewrite <- Epv in Hparts. destruct fm; simpl in *. symmetry.
    eapply Fragmented_Message.remove_u32; [exact Hparts|lia|unfold is_u32; lia|lia].
Qed.

(** ** Property *)

(** One round of a fragmented transfer. The sender [ws] holds message
    [m] (its bytes are [orig]) for resending; the receiver [wr] has a part of
    it and asks for the next missing one, which the sender's answer fits in
    one packet. Then the sender answers the query, the packet it builds for
    the answer has a body which the receiver takes in, and the receiver
    either delivers exactly [orig], once, and forgets the fragments, or still
    holds only original bytes, has strictly fewer bytes missing, and asks for
    its first missing part. So the exchange ends, with the message delivered,
    after at most as many rounds as the message has bytes. *)
Theorem fragment_round i c orig m (d : D) fm ws' ps pr (ws wr : World D B) :
  StdMap.extract_first (fun x => waiting_id x =? i) (waiting_messages_ (self ws)) = (Some m, ws') ->
  Message_Item.id_ m = Some i -> Message_Item.cmd_ m = c -> Message_Item.answer_id_ m = None ->
  Message_Item.data_device_ m = Some d -> dev_is_open d = true -> dev_content d = orig ->
  zlen orig < HELPZ_PROTOCOL_MAX_MESSAGE_SIZE ->
  protocol_writer_ (self ws) = Some ps ->
  protocol_writer_ (self wr) = Some pr -> has_protocol pr = true ->
  StdMap.sorted (fragmented_messages_ (self wr)) -> StdMap.find i (fragmented_messages_ (self wr)) = Some fm ->
  dev_is_open (Fragmented_Message.data_device_ fm) = false -> Fragmented_Message.reassembles orig fm ->
  Fragmented_Message.id_ fm = i -> Fragmented_Message.cmd_ fm = c ->
  Fragmented_Message.is_parts_empty fm = false -> 0 < Fragmented_Message.max_fragment_size_ fm ->
  reply_size (Fragmented_Message.get_next_part fm).2 < zlen orig ->
  env_throws wr (Ev_process_message i c orig) = false ->
  let '(pos, n) := Fragmented_Message.get_next_part fm in
  exists ws1 ws2 flags body wr',
    process_fragment_query i pos n ws = (Ret tt, ws1)
    /\ events ws1 = events ws ++ [Ev_write (answered m d pos n)]
    /\ prepare_packet_to_send (Some (answered m d pos n)) ws1 = (Ret (packet_bytes i c flags body), ws2)
    /\ packet_compress m (Z.lor (Message_Item.flags_ m) Flags.FRAGMENT) (fragment_body orig pos (reply_size n)) = (flags, body)
    /\ process_fragment_message i c None (fragment_body orig pos (reply_size n)) wr = (Ret tt, wr')
    /\ (delivered i c orig (Fragmented_Message.max_fragment_size_ fm) wr wr'
        \/ exists parts, asks_next i c orig parts (Fragmented_Message.max_fragment_size_ fm) wr wr'
             /\ Fragmented_Message.parts_total parts < Fragmented_Message.parts_total (Fragmented_Message.part_vect_ fm)).
Proof.
  intros Ex Hi Hc Ha Hd Hod Co Hsz Hps Hpr Hprot Hs Hfind Hop Hre Hfi Hfc He Hmf Hfit Hth.
  destruct (Fragmented_Message.part_vect_ fm) as [|[a b] l] eqn:Epv.
  { unfold Fragmented_Message.is_parts_empty in He. by rewrite Epv in He. }
  pose proof (Fragmented_Message.re_parts _ _ Hre) as Hparts. unfold HELPZ_PROTOCOL_MAX_MESSAGE_SIZE in Hsz.
  pose proof (Fragmented_Message.next_part_spec fm _ _ _ _ Epv Hparts Hsz) as Enp. rewrite Enp in *. simpl in Hfit.
  set (n := Z.min _ (b - a)) in *. rewrite Epv in Hparts. pose proof Hparts as (Ha0 & Hab & Hb & _).
  destruct (query_answered i a n m d ws' ps ws Ex Hd) as (ws1 & E1 & Hev1 & _); [unfold dev_size; rewrite Co; lia|done|].
  destruct (answered_packet m d i a n ws1 Hod Hi Ha) as (ws2 & flags & body & E2 & Epc); [rewrite Co; lia..|].
  rewrite Co in Epc. rewrite Hc in E2.
  assert (0 < reply_size n) as Hrs by (unfold reply_size; lia).
  destruct (fragment_received i c orig a (part_of orig a (reply_size n)) fm pr wr) as (wr' & E3 & Hcases); try done.
  { apply part_of_fragment; lia. }
  exists ws1, ws2, flags, body, wr'. split_and!; try done.
  destruct Hcases as [[_ Hdel]|Hask]; [by left|]. right. eexists. split; [exact Hask|].
  by rewrite <- Epv; apply (next_fragment_total orig fm a b l).
Qed.

End fragments.

(** ** Concrete instance *)

Module Fragment_Witness.
Import QtRef.

Definition orig : list byte := replicate 40 x07.
Definition dev40 : mem := {| m_content := orig; m_pos := 40; m_open := true |}.
Definition msg40 : Message_Item.t mem :=
  Message_Item.with_id (Some 3) (Message_Item.make 16 None (Some dev40) (milliseconds 3000)).
Definition the_writer : Protocol_Writer := {| title_ := []; last_msg_recv_time_ := 0; has_protocol := true |}.
Definition part : Fragmented_Message.t mem := Fragmented_Message.make 3 16 35 40 0.
Definition proto : Protocol mem mem := with_writer (Some the_writer) init.
Definition w_sender : World mem mem :=
  mkWorld (with_waiting [(5, msg40)] proto) (fun _ => 0) (fun _ => false) 0 [].
Definition w_receiver : World mem mem :=
  mkWorld (with_fragmented [(3, part)] proto) (fun _ => 0) (fun _ => false) 0 [].

Lemma fragment_round_witness :
  exists ws1 ws2 flags body wr',
    process_fragment_query 3 0 35 w_sender = (Ret tt, ws1)
    /\ events ws1 = [Ev_write (answered msg40 dev40 0 35)]
    /\ prepare_packet_to_send (Some (answered msg40 dev40 0 35)) ws1 = (Ret (packet_bytes 3 16 flags body), ws2)
    /\ packet_compress msg40 (Z.lor 0 Flags.FRAGMENT) (fragment_body orig 0 35) = (flags, body)
    /\ process_fragment_message 3 16 None (fragment_body orig 0 35) w_receiver = (Ret tt, wr')
    /\ (delivered 3 16 orig 35 w_receiver wr'
        \/ exists parts, asks_next 3 16 orig parts 35 w_receiver wr' /\ Fragmented_Message.parts_total parts < 40).
Proof.
  assert (Fragmented_Message.reassembles orig part) as Hre.
  { apply (Fragmented_Message.make_reassembles (D:=mem) orig 3 16 35 0). reflexivity. }
  assert (StdMap.sorted (fragmented_messages_ (self w_receiver))) as Hs by repeat constructor.
  exact (fragment_round 3 16 orig msg40 dev40 part [] the_writer the_writer w_sender w_receiver
    eq_refl eq_refl eq_refl eq_refl eq_refl eq_refl eq_refl eq_refl eq_refl eq_refl eq_refl
    Hs eq_refl eq_refl Hre eq_refl eq_refl eq_refl eq_refl eq_refl eq_refl).
Defined.

End Fragment_Witness.
