(* ===== verification/WaitingProofs.v ===== *)
(** * Waiting messages: answers, resending, timeouts

    What happens to a message between [prepare_packet_to_send] and its end:
    its answer comes, it is sent again, or its time is over. *)

From S2P Require Import Prelude StdMap QtInterface MessageItem FragmentedMessage ProtocolState ProtocolSend ProtocolRecv ProtocolFrame ProtocolStream StreamProofs SendProofs ReceiveProofs LostProofs ProtocolInvariant FragmentProofs.

Section waiting.
Context {D B : Type} `{DB : QIODevice B} `{HD : QIODeviceLaws D} `{HSL : QDataStreamLaws} `{HCL : QtBytesLaws}.
Implicit Types (w : World D B) (m : Message_Item.t D).

(** ** Answers *)

Definition awaits (a c : Z) m : bool := (waiting_id m =? a) && (Message_Item.cmd m =? c).

(** The event of a destructor, if there is one. *)
Definition finally_events m : list (Event D) :=
  match Message_Item.dtor m with Some (f, ok) => [Ev_finally_func f ok] | None => [] end.

Definition with_events (evs : list (Event D)) w : World D B :=
  mkWorld (self w) (env_clock w) (env_throws w) (ticks w) (events w ++ evs).

Lemma with_events_nil w : with_events [] w = w.
Proof. destruct w. unfold with_events. simpl. by rewrite app_nil_r. Qed.

Lemma with_events_app e1 e2 w : with_events e2 (with_events e1 w) = with_events (e1 ++ e2) w.
Proof. unfold with_events. simpl. by rewrite app_assoc. Qed.

Lemma destroy_events m w : destroy m w = (Ret tt, with_events (finally_events m) w).
Proof.
  unfold destroy, finally_events. destruct (Message_Item.dtor m) as [[f ok]|]; [done|].
  by rewrite with_events_nil.
Qed.

Lemma pop_answer a c w :
  pop_waiting_answer a c w =
    (Ret (StdMap.extract_first (awaits a c) (waiting_messages_ (self w))).1,
     on_self (with_waiting (StdMap.extract_first (awaits a c) (waiting_messages_ (self w))).2) w).
Proof.
  unfold pop_waiting_answer, pop_waiting_message, bind, member, gets.
  change (fun item : Message_Item.t D => (value_or_0 (Message_Item.id_ item) =? a) && (Message_Item.cmd item =? c))
    with (awaits a c).
  by destruct (StdMap.extract_first _ _).
Qed.

(** An answer packet: flag ANSWER, the id it answers in front of the body. *)
Lemma dispatch_answer i c a body w :
  is_u8 a -> c <> Cmd.REMOVE_FRAGMENT ->
  dispatch_message i c Flags.ANSWER (put W8 a ++ body) w =
    (let* msg := pop_waiting_answer a c in
     match msg with
     | Some m =>
         match Message_Item.answer_func_ m with
         | Some f => call_answer m f body
         | None => destroy m
         end
     | None => ret tt
     end) w.
Proof.
  intros Ha Hc. unfold dispatch_message. destruct (Z.eqb_spec c Cmd.REMOVE_FRAGMENT); [done|].
  change (has_flag Flags.ANSWER Flags.FRAGMENT_QUERY) with false.
  change (has_flag Flags.ANSWER (Z.lor Flags.FRAGMENT Flags.ANSWER)) with true.
  change (has_flag Flags.ANSWER Flags.ANSWER) with true. change (has_flag Flags.ANSWER Flags.FRAGMENT) with false.
  cbv iota. unfold parse. rewrite get_put by done. unfold bind at 1 2, ret at 1 2.
  by rewrite zdrop_app_exact by (by rewrite put_len).
Qed.

(** In a waiting list with one entry per id, taking the awaited message out
    leaves no other one that awaits the answer. *)
Lemma awaits_once a c (ws ws' : StdMap.t (Message_Item.t D)) m :
  NoDup (map waiting_id (StdMap.values ws)) ->
  StdMap.extract_first (awaits a c) ws = (Some m, ws') ->
  StdMap.extract_first (awaits a c) ws' = (None, ws').
Proof.
  intros Hnd E. destruct (StdMap.extract_first_Some _ _ _ _ E) as (Hp & Hperm & _).
  assert (Forall (fun x => awaits a c x = false) (StdMap.values ws')) as Hf.
  { apply (Permutation_map waiting_id) in Hperm. rewrite Hperm in Hnd. simpl in Hnd.
    apply NoDup_cons in Hnd as [Hni _]. apply Forall_forall. intros x Hx.
    unfold awaits in *. apply andb_true_iff in Hp as [Hi%Z.eqb_eq _].
    destruct (Z.eqb_spec (waiting_id x) a) as [Ex|]; [|done].
    contradict Hni. rewrite Hi, <- Ex. by apply list_elem_of_fmap_2. }
  clear -Hf. induction ws' as [|[k v] ws' IH]; [done|]. simpl in *. inversion Hf; subst.
  rewrite H1. by rewrite IH.
Qed.

(** ** Resending *)

Definition repeated m : Message_Item.t D :=
  let m := Message_Item.set_fragment_size (Message_Item.fragment_size m / 2) m in
  Message_Item.set_flags (Z.lor (Message_Item.flags m) Flags.REPEATED) m.

(** What the timer does with one due message at time [t]. *)
Definition is_resent (t : Z) m : bool :=
  match Message_Item.data_device_ m with Some _ => t <? Message_Item.end_time_ m | None => false end.

Definition due_events (t : Z) m : list (Event D) :=
  if is_resent t m then [Ev_write (repeated m)]
  else match Message_Item.timeout_func_ m with Some f => [Ev_timeout_func f] | None => [] end.

Lemma repeated_device m : Message_Item.data_device_ (repeated m) = Message_Item.data_device_ m.
Proof. unfold repeated. rewrite Message_Item.set_fragment_size_other. by destruct m. Qed.

Lemma resend_or_timeout_events t m wr w :
  protocol_writer_ (self w) = Some wr ->
  (forall f, Message_Item.timeout_func_ m = Some f -> env_throws w (Ev_timeout_func f) = false) ->
  resend_or_timeout t m w =
    (Ret (if is_resent t m then None else Some m), with_events (due_events t m) w).
Proof.
  intros Hwr Hth. unfold resend_or_timeout, due_events, is_resent.
  assert ((match Message_Item.timeout_func_ m with
           | Some f => call_user (Ev_timeout_func f) ;;; ret (Some m) | None => ret (Some m) end : PM D B _) w
    = (Ret (Some m), with_events (match Message_Item.timeout_func_ m with
           | Some f => [Ev_timeout_func f] | None => [] end) w)) as Ht.
  { destruct (Message_Item.timeout_func_ m) as [f|] eqn:Ef; [|by rewrite with_events_nil].
    by rewrite (bind_Ret _ _ _ _ _ (call_user_ok _ _ (Hth f eq_refl))). }
  destruct (Message_Item.data_device_ m) as [d|] eqn:Ed; [|exact Ht].
  destruct (t <? Message_Item.end_time_ m); [|exact Ht]. cbv zeta. fold (repeated m).
  assert (send_message (Some (repeated m)) w = (Ret tt, with_events [Ev_write (repeated m)] w)) as Es.
  { unfold send_message. rewrite repeated_device, Ed. unfold bind, writer, member, gets. by rewrite Hwr. }
  by rewrite (bind_Ret _ _ _ _ _ Es).
Qed.

Lemma for_each_destroy ms w :
  for_each destroy ms w = (Ret tt, with_events (concat (map finally_events ms)) w).
Proof.
  revert w. induction ms as [|m ms IH]; intros w; simpl; [by rewrite with_events_nil|].
  rewrite (bind_Ret _ _ _ _ _ (destroy_events m w)), IH. by rewrite with_events_app.
Qed.

Lemma resend_all_events t ms kept wr w :
  protocol_writer_ (self w) = Some wr ->
  (forall m f, In m ms -> Message_Item.timeout_func_ m = Some f -> env_throws w (Ev_timeout_func f) = false) ->
  resend_all t ms kept w =
    (Ret tt, with_events (concat (map (due_events t) ms)
       ++ concat (map finally_events (rev kept ++ filter (fun m => is_resent t m = false) ms))) w).
Proof.
  revert kept w. induction ms as [|m ms IH]; intros kept w Hwr Hth; cbn [resend_all].
  - rewrite for_each_destroy. simpl. by rewrite app_nil_r.
  - rewrite (resend_or_timeout_events t m wr w Hwr) by (intros f; apply Hth; by left).
    rewrite IH; [|done|intros m' f Hin; apply Hth; by right]. rewrite with_events_app. do 2 f_equal.
    cbn [map concat]. rewrite <- app_assoc. do 2 f_equal. rewrite filter_cons.
    case_decide as Er; [rewrite Er; cbn [rev]; by rewrite <- app_assoc|].
    apply not_false_is_true in Er. by rewrite Er.
Qed.

(** ** Properties *)

(** C14. An answer reaches the callback of the message it answers exactly
    once: the callback is called with the body, the message is done
    ([finally_func_] hears success), and the same answer arriving again finds
    no message and changes nothing. *)
Theorem answer_delivered_once i c a body m f ws' w :
  inv w -> is_u8 a -> c <> Cmd.REMOVE_FRAGMENT ->
  StdMap.extract_first (awaits a c) (waiting_messages_ (self w)) = (Some m, ws') ->
  Message_Item.answer_func_ m = Some f -> env_throws w (Ev_answer_func f body) = false ->
  exists w', dispatch_message i c Flags.ANSWER (put W8 a ++ body) w = (Ret tt, w')
    /\ events w' = events w ++ Ev_answer_func f body ::
         match Message_Item.finally_func_ m with Some g => [Ev_finally_func g true] | None => [] end
    /\ waiting_messages_ (self w') = ws'
    /\ dispatch_message i c Flags.ANSWER (put W8 a ++ body) w' = (Ret tt, w').
Proof.
  intros Hinv Ha Hc E Hf Hth. rewrite dispatch_answer by done.
  rewrite (bind_Ret _ _ _ _ _ (pop_answer a c w)), E. cbn [fst snd]. rewrite Hf. unfold call_answer.
  rewrite call_user_ok by done. rewrite destroy_events.
  set (w1 := with_events _ _).
  assert (waiting_messages_ (self w1) = ws') as Ew by (by destruct w as [[]]).
  exists w1. split_and!; [done| |done|].
  - unfold w1. simpl. rewrite <- app_assoc. do 2 f_equal. unfold finally_events. by destruct m as [? ? ? ? ? ? ? ? [] ? ? ? ?].
  - rewrite dispatch_answer by done. rewrite (bind_Ret _ _ _ _ _ (pop_answer a c w1)), Ew.
    destruct Hinv as [_ _ _ _ (_ & _ & Hnd) _ _].
    rewrite (awaits_once _ _ _ _ _ Hnd E). cbn [fst snd]. rewrite <- Ew. by destruct w as [[]].
Qed.

(** C15. The resend timer: exactly the messages due within 20 ms leave the
    waiting list; those whose end time is not reached are handed to the
    writer again, in order of their due time, marked REPEATED and with half
    the fragment size (at least 32); for the others the timeout callback is
    called, and after all of that they are done. *)
Theorem resend_timer x wr w :
  x <> Flags.FRAGMENT -> inv w -> protocol_writer_ (self w) = Some wr ->
  (forall f, env_throws w (Ev_timeout_func f) = false) ->
  let bound := env_clock w (ticks w) + milliseconds 20 in
  let t := env_clock w (S (ticks w)) in
  let due := map snd (filter (fun p : Z * Message_Item.t D => p.1 <= bound) (waiting_messages_ (self w))) in
  exists w', process_wait_list x w = (Ret tt, w')
    /\ waiting_messages_ (self w') = filter (fun p : Z * Message_Item.t D => bound < p.1) (waiting_messages_ (self w))
    /\ events w' = events w ++ concat (map (due_events t) due)
         ++ concat (map finally_events (filter (fun m => is_resent t m = false) due)).
Proof.
  intros Hx Hinv Hwr Hth bound t due. unfold process_wait_list. destruct (Z.eqb_spec x Flags.FRAGMENT); [done|].
  assert (pop_waiting_messages w = (Ret due,
    on_self (with_waiting (filter (fun p : Z * Message_Item.t D => bound < p.1) (waiting_messages_ (self w)))) (now w).2)) as Ep.
  { unfold pop_waiting_messages, bind at 1, now at 1. cbv zeta. unfold bind at 1, member at 1, gets at 1. fold bound.
    cbn [self]. rewrite StdMap.pop_until_split by (destruct Hinv as [_ _ _ _ [? _] _ _]; done). done. }
  rewrite (bind_Ret _ _ _ _ _ Ep). unfold bind at 1, now at 1. cbn [env_clock ticks on_self now snd]. fold t.
  rewrite (resend_all_events t due [] wr) by (first [by destruct w as [[]] | intros; apply Hth]).
  eexists. split; [reflexivity|]. split; by destruct w as [[]].
Qed.

(** The fragment size after a resend, and what else a resend changes. *)
Lemma repeated_fields m :
  Message_Item.fragment_size_ (repeated m)
    = Z.max 32 (Z.min (Message_Item.fragment_size_ m / 2) HELPZ_MAX_PACKET_DATA_SIZE)
  /\ Message_Item.flags_ (repeated m) = Z.lor (Message_Item.flags_ m) Flags.REPEATED
  /\ Message_Item.id_ (repeated m) = Message_Item.id_ m.
Proof.
  unfold repeated. pose proof (Message_Item.set_fragment_size_value (Message_Item.fragment_size m / 2) m) as Hv.
  rewrite Message_Item.set_fragment_size_other in Hv |- *. by destruct m.
Qed.

(** Two messages cannot wait for the same point in time: a message
    whose [time_point] is taken by another one is dropped by
    [add_to_waiting] (its [finally_func_] hears at once, a failure if an
    answer was expected), so neither an answer nor a resend of it will
    happen, though its packet is sent. *)
Theorem same_time_point_dropped t m other w :
  inv w -> item_ok m -> StdMap.find t (waiting_messages_ (self w)) = Some other ->
  Forall (fun x => waiting_id x <> waiting_id m) (StdMap.values (waiting_messages_ (self w))) ->
  add_to_waiting t m w = (Ret tt, with_events (finally_events m) w).
Proof.
  intros Hinv Hm Hf Hid. unfold add_to_waiting.
  assert (StdMap.extract_first (fun x => waiting_id x =? waiting_id m) (waiting_messages_ (self w))
          = (None, waiting_messages_ (self w))) as E.
  { clear -Hid. induction (waiting_messages_ (self w)) as [|[k v] l IH]; [done|]. simpl in *. inversion Hid; subst.
    destruct (Z.eqb_spec (waiting_id v) (waiting_id m)); [done|]. by rewrite IH. }
  assert (pop_waiting_message (fun x => waiting_id x =? waiting_id m) w = (Ret None, w)) as Ep.
  { unfold pop_waiting_message, bind, member, gets. rewrite E. by destruct w as [[]]. }
  rewrite (bind_Ret _ _ _ _ _ Ep). simpl destroy_opt. rewrite bind_ret_l.
  unfold bind at 1, member at 1, gets at 1.
  rewrite (StdMap.emplace_present _ _ _ _ (proj1 (inv_waiting w Hinv)) Hf). unfold bind, update, modify.
  rewrite destroy_events. by destruct w as [[]].
Qed.

End waiting.

(** ** A query for the whole message *)

Section whole_reply.
Context {D B : Type} `{DB : QIODevice B} `{HD : QIODeviceLaws D} `{HO : !DevicesOpen D} `{HSL : QDataStreamLaws} `{HCL : QtBytesLaws}.
Implicit Types (w : World D B) (m : Message_Item.t D).

Lemma internal_old_plain i c data w :
  is_old i 0 (next_rx_msg_id_ (self w)) = true -> c <> Cmd.REMOVE_FRAGMENT -> c <> Cmd.PING ->
  env_throws w (Ev_process_message i c data) = false ->
  exists w', internal_process_message i c 0 data w = (Ret tt, w')
    /\ events w' = events w ++ [Ev_process_message i c data]
    /\ fragmented_messages_ (self w') = fragmented_messages_ (self w).
Proof.
  intros Hold Hc1 Hc2 Hth. unfold internal_process_message, check_msg_id.
  assert (exists b w1, is_lost_message i w = (Ret b, w1) /\ events w1 = events w /\ env_throws w1 = env_throws w
    /\ fragmented_messages_ (self w1) = fragmented_messages_ (self w)) as (b & w1 & E & He & Ht & Hf).
  { unfold is_lost_message, bind, member, gets. destruct (StdMap.find i _); [|by eexists _, _].
    eexists _, _. split; [reflexivity|]. by destruct w as [[]]. }
  unfold bind at 1, bind at 1, member at 1, gets at 1. rewrite Hold. rewrite (bind_Ret _ _ _ _ _ E).
  change (negb (has_flag 0 Flags.REPEATED)) with true. unfold ret at 1.
  replace (negb (if b then true else true)) with false by (by destruct b). cbv iota beta.
  change (has_flag 0 (Z.lor Flags.COMPRESSED Flags.FRAGMENT)) with false. rewrite andb_false_r.
  change (has_flag 0 Flags.COMPRESSED) with false. cbv iota.
  rewrite dispatch_plain; [|done..|by rewrite Ht]. eexists. split; [reflexivity|]. simpl. by rewrite He.
Qed.

(** When the receiver asks for all of a message at once (its fragment
    size has grown beyond the size of the message), the sender answers with
    an ordinary message: the receiver delivers it, but keeps the entry of the
    fragmented message, all of it still missing. The fragment timer will ask
    for it again, and a fragmented answer is then delivered a second time. *)
Theorem whole_reply_keeps_fragments i m (d : D) n (ws wr : World D B) :
  let orig := dev_content d in
  dev_is_open d = true -> Message_Item.wf m -> Message_Item.id_ m = Some i -> Message_Item.answer_id_ m = None -> Message_Item.flags_ m = 0 ->
  zlen orig <= Message_Item.min_compress_size_ m -> zlen orig <= reply_size n ->
  Message_Item.cmd_ m <> Cmd.REMOVE_FRAGMENT -> Message_Item.cmd_ m <> Cmd.PING ->
  is_old i 0 (next_rx_msg_id_ (self wr)) = true ->
  env_throws wr (Ev_process_message i (Message_Item.cmd_ m) orig) = false ->
  exists ws' wr',
    prepare_packet_to_send (Some (answered m d 0 n)) ws = (Ret (packet_bytes i (Message_Item.cmd_ m) 0 orig), ws')
    /\ internal_process_message i (Message_Item.cmd_ m) 0 orig wr = (Ret tt, wr')
    /\ events wr' = events wr ++ [Ev_process_message i (Message_Item.cmd_ m) orig]
    /\ fragmented_messages_ (self wr') = fragmented_messages_ (self wr).
Proof.
  intros orig Hod Hwf Hi Ha Hfl Hmc Hn Hc1 Hc2 Hold Hth.
  destruct (answered_fields m d 0 n) as (Ei & Ea & Ec & Ef & Es & Ed & Em).
  destruct (prepare_packet_value _ _ ws Ed) as (ws' & Epr).
  destruct (internal_old_plain i (Message_Item.cmd_ m) orig wr Hold Hc1 Hc2 Hth) as (wr' & Er & Hev & Hfr).
  exists ws', wr'. split; [|done]. rewrite Epr. do 2 f_equal.
  assert (reply_size n <= HELPZ_MAX_PACKET_DATA_SIZE) as Hrs by (unfold reply_size; apply Z.max_lub; [done|apply Z.le_min_r]).
  assert (zlen orig <= 65490) as Hsz by (change 65490 with HELPZ_MAX_PACKET_DATA_SIZE; lia).
  pose proof (zlen_nonneg orig).
  assert (dev_content (dev_seek 0 d) = orig) as Co by (apply seek_content; unfold dev_size; fold orig; lia).
  destruct (packet_data_whole (answered m d 0 n) (dev_seek 0 d)) as (dev' & Epd);
    [by rewrite seek_open|unfold dev_size, Message_Item.fragment_size; rewrite Co, Es; exact Hn|unfold dev_size; rewrite Co; lia|].
  unfold expected_packet. rewrite Epd, Ea, Ha, Co. unfold Message_Item.flags. rewrite Ef, Hfl.
  unfold packet_compress, Message_Item.min_compress_size. rewrite Em, u32_small by (unfold is_u32; lia).
  destruct (Z.ltb_spec (Message_Item.min_compress_size_ m) (zlen orig)); [lia|].
  unfold msg_id_of, Message_Item.cmd. by rewrite Ei, Hi, Ec.
Qed.

End whole_reply.

(** ** Concrete instances of the properties *)

Module Waiting_Witness.
Import QtRef Fragment_Witness.

Definition asked : Message_Item.t mem :=
  Message_Item.with_finally_func (Some 9%nat) (Message_Item.with_answer_func (Some 7%nat)
    (Message_Item.with_end_time (seconds 10) msg40)).
Definition w_asked : World mem mem :=
  mkWorld (with_waiting [(5, asked)] proto) (fun _ => 0) (fun _ => false) 0 [].

Lemma asked_ok : item_ok asked.
Proof.
  split_and!; [|by eexists|by eexists]. split_and!; try done; intros x; simpl; intros [= <-]; done.
Qed.

Lemma w_asked_inv : inv w_asked.
Proof.
  constructor; try done.
  - split; [constructor|done].
  - split; [constructor|done].
  - split_and!; [repeat constructor|constructor; [apply asked_ok|constructor]|].
    apply NoDup_cons. split; [apply not_elem_of_nil|constructor].
Qed.

Lemma answer_delivered_once_witness :
  exists w', dispatch_message 0 16 Flags.ANSWER (put W8 3 ++ [x01]) w_asked = (Ret tt, w')
    /\ events w' = [Ev_answer_func 7%nat [x01]; Ev_finally_func 9%nat true].
Proof.
  destruct (answer_delivered_once 0 16 3 [x01] asked 7%nat [] w_asked) as (w' & E & Hev & _);
    [apply w_asked_inv | unfold is_u8; lia | discriminate | reflexivity | reflexivity | reflexivity |].
  exists w'. exact (conj E Hev).
Defined.

Lemma resend_timer_witness :
  exists w', process_wait_list 0 w_asked = (Ret tt, w') /\ waiting_messages_ (self w') = []
    /\ events w' = [Ev_write (repeated asked)].
Proof.
  destruct (resend_timer 0 the_writer w_asked) as (w' & E & Hw & Hev);
    [discriminate | apply w_asked_inv | reflexivity | reflexivity |].
  exists w'. exact (conj E (conj Hw Hev)).
Defined.

Lemma same_time_point_dropped_witness :
  let m := Message_Item.with_id (Some 4) asked in
  add_to_waiting 5 m w_asked = (Ret tt, with_events [Ev_finally_func 9%nat false] w_asked).
Proof.
  intros m. apply (same_time_point_dropped 5 m asked w_asked);
    [apply w_asked_inv | | reflexivity | by repeat constructor].
  destruct asked_ok as (Hwf & Hd & _). split_and!; [by apply Message_Item.with_id_wf | done | by eexists].
Defined.

Definition w_old : World mem mem :=
  mkWorld (with_next_rx 4 (with_fragmented [(3, part)] proto)) (fun _ => 0) (fun _ => false) 0 [].

Lemma whole_reply_keeps_fragments_witness :
  exists ws' wr',
    prepare_packet_to_send (Some (answered msg40 dev40 0 40)) w_sender = (Ret (packet_bytes 3 16 0 orig), ws')
    /\ internal_process_message 3 16 0 orig w_old = (Ret tt, wr')
    /\ events wr' = [Ev_process_message 3 16 orig] /\ fragmented_messages_ (self wr') = [(3, part)].
Proof.
  destruct (whole_reply_keeps_fragments 3 msg40 dev40 40 w_sender w_old) as (ws' & wr' & E1 & E2 & E3 & E4);
    try reflexivity; try discriminate.
  - apply Message_Item.with_id_wf; [unfold is_u8; lia|]. apply Message_Item.make_wf; [unfold is_u8; lia | discriminate].
  - exists ws', wr'. exact (conj E1 (conj E2 (conj E3 E4))).
Defined.

End Waiting_Witness.
