(* ===== verification/LossyProofs.v ===== *)
(** * A lossy channel

    Messages over a channel that loses and reorders packets, with senders
    that repeat messages. The specification of the receiver is a small state
    machine, the next id it expects and the ids it has seen; the theorem is
    that [process_bytes] refines it, for ids in a window of ninety-nine and
    within ten seconds, the bounds of the lost list. *)

From S2P Require Import Prelude StdMap QtInterface MessageItem FragmentedMessage ProtocolState ProtocolSend ProtocolRecv ProtocolFrame ProtocolStream StreamProofs SendProofs ReceiveProofs LostProofs.

(** ** The specification *)

(** A packet that arrives: a message sent for the first time, or a repeat. *)
Record arrival := { a_id : Z; a_repeat : bool; a_cmd : Z; a_data : list byte }.

Record receiver := { expected : Z; seen : list Z }.

Definition is_seen (i : Z) (s : receiver) : bool := bool_decide (i ∈ seen s).

(** A first message is always delivered; a repeat when its id is below the
    expected one and has not been seen. *)
Definition accept (a : arrival) (s : receiver) : bool * receiver :=
  let s' := {| expected := Z.max (expected s) (a_id a + 1); seen := a_id a :: seen s |} in
  if a_repeat a then
    if (a_id a <? expected s) && negb (is_seen (a_id a) s) then (true, s') else (false, s)
  else (true, s').

Fixpoint delivered (l : list arrival) (s : receiver) : list arrival :=
  match l with
  | [] => []
  | a :: l => let '(b, s') := accept a s in if b then a :: delivered l s' else delivered l s'
  end.

(** ** What the specification promises *)

(** No first message arrives after a packet with the same id: first messages
    are not duplicated, and a repeat does not overtake the first one. *)
Fixpoint fresh_firsts (l : list arrival) (before : list Z) : Prop :=
  match l with
  | [] => True
  | a :: l => (a_repeat a = false -> a_id a ∉ before) /\ fresh_firsts l (a_id a :: before)
  end.

Lemma delivered_seen l : forall s before,
  fresh_firsts l before -> (forall i, i ∈ seen s -> i ∈ before) ->
  NoDup (map a_id (delivered l s)) /\ (forall i, i ∈ map a_id (delivered l s) -> i ∉ seen s).
Proof.
  induction l as [|a l IH]; intros s before Hf Hs; cbn [delivered].
  { split; [constructor|]. intros i Hi. by apply not_elem_of_nil in Hi. }
  destruct Hf as [Ha Hf]. unfold accept.
  set (s' := {| expected := Z.max (expected s) (a_id a + 1); seen := a_id a :: seen s |}).
  assert (forall i, i ∈ seen s' -> i ∈ a_id a :: before) as Hs'.
  { intros i Hi. apply elem_of_cons in Hi as [->|Hi]; apply elem_of_cons; auto. }
  assert (a_id a ∉ seen s -> NoDup (a_id a :: map a_id (delivered l s'))
    /\ forall i, i ∈ a_id a :: map a_id (delivered l s') -> i ∉ seen s) as Hcons.
  { intros Hn. destruct (IH s' (a_id a :: before) Hf Hs') as [N1 N2]. split.
    - constructor; [|done]. intros Hi. apply (N2 _ Hi). apply elem_of_cons. by left.
    - intros i [->|Hi]%elem_of_cons; [done|]. intros Hx. apply (N2 _ Hi). apply elem_of_cons. by right. }
  destruct (a_repeat a) eqn:Er.
  - destruct ((a_id a <? expected s) && negb (is_seen (a_id a) s)) eqn:Ec.
    + apply andb_true_iff in Ec as [_ Ec]. apply negb_true_iff, bool_decide_eq_false in Ec. by apply Hcons.
    + destruct (IH s (a_id a :: before)) as [N1 N2]; [done| |done].
      intros i Hi. apply elem_of_cons. right. by apply Hs.
  - apply Hcons. intros Hx. by apply Ha, Hs.
Qed.

Lemma delivered_first a l : forall s, In a l -> a_repeat a = false -> In a (delivered l s).
Proof.
  induction l as [|b l IH]; intros s Ha Hf; [done|]. cbn [delivered]. destruct Ha as [->|Ha].
  - unfold accept. rewrite Hf. by left.
  - destruct (accept b s) as [[] s']; [right|]; by apply IH.
Qed.

(** ** The receiver *)

Section lossy.
Context {D B : Type} `{HD : QIODeviceLaws D} `{HBL : QIODeviceLaws B} `{HQ : !QBuffer B} `{HQL : !QBufferLaws B}
  `{HSL : QDataStreamLaws} `{HCL : QtBytesLaws}.
Implicit Types (w : World D B).

Definition flags_of (a : arrival) : Z := if a_repeat a then Flags.REPEATED else 0.

(** The packet arrives in a datagram of its own. *)
Definition receive (a : arrival) : PM D B unit :=
  protocol_process_bytes (packet_bytes (a_id a) (a_cmd a) (flags_of a) (a_data a)).

(** The messages handed to the user. *)
Definition processed (evs : list (Event D)) : list (Z * Z * list byte) :=
  omap (fun e => match e with Ev_process_message i c d => Some (i, c, d) | _ => None end) evs.

Definition as_message (a : arrival) : Z * Z * list byte := (a_id a, a_cmd a, a_data a).

(** Ids [n0] to [n0 + 98], an ordinary command, a body that fits. *)
Definition in_window (n0 : Z) (a : arrival) : Prop :=
  n0 <= a_id a < n0 + 99 /\ is_u8 (a_cmd a) /\ a_cmd a <> Cmd.REMOVE_FRAGMENT /\ a_cmd a <> Cmd.PING
  /\ zlen (a_data a) < 2147483639.

(** The environment: nothing throws, and less than ten seconds pass. *)
Definition calm w : Prop :=
  (forall e, env_throws w e = false) /\ forall j k, env_clock w j - env_clock w k < seconds 10.

(** The object keeps what the specification keeps: the lost list has, of the
    window, the ids below the expected one that were not seen. *)
Definition sim (n0 : Z) (s : receiver) w : Prop :=
  n0 <= expected s <= n0 + 99
  /\ next_rx_msg_id_ (self w) = expected s
  /\ StdMap.sorted (lost_msg_list_ (self w))
  /\ (forall x tp, n0 <= x < n0 + 99 -> StdMap.find x (lost_msg_list_ (self w)) = Some tp -> exists k, tp = env_clock w k)
  /\ (forall x, n0 <= x < n0 + 99 ->
       is_Some (StdMap.find x (lost_msg_list_ (self w))) <-> x < expected s /\ x ∉ seen s)
  /\ (forall x, x ∈ seen s -> x < expected s).

(** What a step keeps: the environment and the receive buffer. *)
Definition same_env w w' : Prop :=
  env_clock w' = env_clock w /\ env_throws w' = env_throws w
  /\ device_ (self w') = device_ (self w) /\ packet_end_position_ (self w') = packet_end_position_ (self w).

Lemma calm_same w w' : calm w -> same_env w w' -> calm w'.
Proof. intros [C1 C2] (E1 & E2 & _). split; [by rewrite E2|by rewrite E1]. Qed.

(** [sim] speaks of two members only. *)
Lemma sim_same n0 s w w' :
  sim n0 s w -> next_rx_msg_id_ (self w') = next_rx_msg_id_ (self w) ->
  lost_msg_list_ (self w') = lost_msg_list_ (self w) -> env_clock w' = env_clock w -> sim n0 s w'.
Proof. unfold sim. intros J E1 E2 E3. by rewrite E1, E2, E3. Qed.

Lemma set_next_rx v w :
  next_rx_msg_id_ (self (on_self (with_next_rx v) w)) = v
  /\ lost_msg_list_ (self (on_self (with_next_rx v) w)) = lost_msg_list_ (self w)
  /\ same_env w (on_self (with_next_rx v) w).
Proof. by destruct w as [[]]. Qed.

(** Taking an id off the lost list. *)
Lemma is_lost_spec n0 s i w :
  sim n0 s w -> calm w -> n0 <= i < n0 + 99 -> i < expected s ->
  exists w', is_lost_message i w = (Ret (negb (is_seen i s)), w')
    /\ sim n0 {| expected := Z.max (expected s) (i + 1); seen := i :: seen s |} w'
    /\ same_env w w' /\ events w' = events w.
Proof.
  intros (He & Hn & Hs & Hk & Hl & Hx) [_ Hc] Hi Hlt.
  assert (Z.max (expected s) (i + 1) = expected s) as -> by lia.
  unfold is_lost_message, bind, member, gets. destruct (StdMap.find i (lost_msg_list_ (self w))) as [tp|] eqn:Ef.
  - assert (i ∉ seen s) as Hns by (apply Hl; [done|by eexists]).
    replace (is_seen i s) with false by (symmetry; by apply bool_decide_eq_false_2).
    destruct (Hk i tp Hi Ef) as [k ->]. unfold update, modify, now. eexists. split.
    { cbn [env_clock ticks on_self]. rewrite (proj2 (Z.ltb_lt _ _) (Hc _ _)). reflexivity. }
    split; [|by destruct w as [[]]]. destruct w as [[]]. unfold sim. cbn in *. split; [done|]. split; [done|].
    split; [by apply StdMap.erase_sorted|]. split; [|split].
    + intros x tp Hw E. rewrite StdMap.erase_find in E by done. destruct (x =? i); [done|]. by eapply Hk.
    + intros x Hw. rewrite StdMap.erase_find by done. destruct (Z.eqb_spec x i) as [->|Hne].
      * split; [intros [? ?]; done|]. intros [_ Hn']. destruct Hn'. apply elem_of_cons. by left.
      * rewrite Hl by done. rewrite not_elem_of_cons. intuition.
    + intros x [->|Hin]%elem_of_cons; [done|by apply Hx].
  - assert (i ∈ seen s) as Hin.
    { destruct (decide (i ∈ seen s)); [done|]. destruct (Hl i Hi) as [_ Hr].
      destruct Hr as [? E]; [done|congruence]. }
    replace (is_seen i s) with true by (symmetry; by apply bool_decide_eq_true_2).
    exists w. split; [done|]. split; [|done]. unfold sim. cbn. split; [done|]. split; [done|].
    split; [done|]. split; [done|]. split.
    + intros x Hw. rewrite Hl by done. rewrite not_elem_of_cons. split; [|tauto].
      intros [? Hns]. split; [done|]. split; [|done]. by intros ->.
    + intros x [->|Hxs]%elem_of_cons; [done|by apply Hx].
Qed.

(** A first message ahead of the expected id: the ids in between are lost. *)
Lemma skip_spec n0 s i w :
  0 <= n0 <= 155 -> sim n0 s w -> calm w -> n0 <= i < n0 + 99 -> expected s < i ->
  exists w', (call_user (Ev_lost_msg_detected i (expected s));;; fill_lost_msg i) w = (Ret tt, w')
    /\ next_rx_msg_id_ (self w') = i
    /\ sim n0 {| expected := i + 1; seen := i :: seen s |} (on_self (with_next_rx (u8 (i + 1))) w')
    /\ same_env w w' /\ processed (events w') = processed (events w).
Proof.
  intros Hn0 (He & Hn & Hs & Hk & Hl & Hx) Hcalm Hi Hlt. pose proof Hcalm as [Ht Hc].
  erewrite bind_Ret by (apply call_user_ok, Ht).
  set (w1 := emitted (Ev_lost_msg_detected i (expected s)) w).
  assert (is_u8 i /\ is_u8 (next_rx_msg_id_ (self w))) as [Hi8 Hn8] by (unfold is_u8; lia).
  destruct (fill_lost_msg_ok i w1 Hi8 Hn8 Hs) as (w' & E & En & Es & Ef & Ev & _ & _ & Ec & Eth & Ed & Ep).
  change (self w1) with (self w) in *. change (env_clock w1) with (env_clock w) in *.
  exists w'. split; [exact E|]. split; [done|]. split; [|split; [by repeat split|]].
  2:{ rewrite Ev. unfold w1, emitted, processed. simpl. rewrite omap_app. simpl. by rewrite app_nil_r. }
  assert (first_lost i (next_rx_msg_id_ (self w)) = expected s) as Efl.
  { unfold first_lost. rewrite Hn. by rewrite (proj2 (Z.ltb_ge _ _)) by lia. }
  rewrite Efl in Ef.
  assert (forall x, n0 <= x < n0 + 99 -> x < i ->
    lost_kept i (env_clock w (ticks w1)) (lost_msg_list_ (self w)) x = StdMap.find x (lost_msg_list_ (self w))) as Hkept.
  { intros x Hw Hxi. unfold lost_kept. destruct (StdMap.find x (lost_msg_list_ (self w))) as [tp|] eqn:E1; [|done].
    destruct (Hk _ _ Hw E1) as [k ->]. replace (lost_expired i _ x _) with false; [done|]. symmetry.
    unfold lost_expired. apply orb_false_iff. split.
    - apply Z.ltb_ge. pose proof (Hc (ticks w1) k). lia.
    - apply andb_false_iff. right. apply Z.ltb_ge. lia. }
  assert (forall x, n0 <= x < n0 + 99 -> between (expected s) i x = (expected s <=? x) && (x <? i)) as Hb.
  { intros x Hw. unfold between, u8. rewrite (Z.mod_small (i - _)) by lia.
    destruct (Z.leb_spec (expected s) x).
    - rewrite Z.mod_small by lia. simpl. apply eq_true_iff_eq. rewrite !Z.ltb_lt. lia.
    - simpl. apply Z.ltb_ge. rewrite <- (Z.mod_add _ 1) by lia. rewrite Z.mod_small by lia. lia. }
  unfold sim. change (env_clock (on_self (with_next_rx (u8 (i + 1))) w')) with (env_clock w').
  destruct (set_next_rx (u8 (i + 1)) w') as (-> & -> & _).
  cbn [expected seen]. split; [lia|]. split; [apply u8_small; unfold is_u8; lia|]. split; [done|]. rewrite Ec. split; [|split].
  - intros x tp Hw E1. assert (is_u8 x) as Hx8 by (unfold is_u8; lia). rewrite Ef in E1 by done.
    unfold lost_kept in E1. destruct (StdMap.find x (lost_msg_list_ (self w))) eqn:E2.
    + destruct (between _ _ _), (lost_expired _ _ _ _); simplify_eq/=; eauto.
    + destruct (between _ _ _); simplify_eq/=. eauto.
  - intros x Hw. assert (is_u8 x) as Hx8 by (unfold is_u8; lia). rewrite Ef, Hb by done.
    rewrite not_elem_of_cons. destruct (Z.leb_spec (expected s) x), (Z.ltb_spec x i); simpl.
    + split; [|by eexists]. intros _. split; [lia|]. split; [lia|]. intros Hin%Hx. lia.
    + split; [|lia]. unfold lost_kept. destruct (StdMap.find x (lost_msg_list_ (self w))) eqn:E2; [|by intros []].
      destruct (Hl x Hw) as [Hl' _]. rewrite E2 in Hl'. destruct Hl' as [? _]; [by eexists|]. lia.
    + rewrite Hkept by done. rewrite Hl by done. intuition lia.
    + lia.
  - intros x [->|Hin]%elem_of_cons; [lia|]. apply Hx in Hin. lia.
Qed.

(** The sequence-number test takes the step of the specification. *)
Lemma check_spec n0 s a w :
  0 <= n0 <= 155 -> sim n0 s w -> calm w -> in_window n0 a ->
  exists w', check_msg_id (a_id a) (flags_of a) w = (Ret (accept a s).1, w')
    /\ sim n0 (accept a s).2 w' /\ same_env w w' /\ processed (events w') = processed (events w).
Proof.
  intros Hn0 Hsim Hcalm (Hi & _). pose proof Hsim as (He & Hn & _ & _ & Hl & _).
  unfold accept, flags_of. destruct (a_repeat a).
  - destruct (StdMap.find (a_id a) (lost_msg_list_ (self w))) as [tp|] eqn:Ef.
    + assert (a_id a < expected s /\ a_id a ∉ seen s) as [Hlt Hns] by (apply Hl; [done|by eexists]).
      destruct (is_lost_spec n0 s (a_id a) w Hsim Hcalm Hi Hlt) as (w' & E & Hs' & Hv & Hev).
      rewrite (proj2 (Z.ltb_lt _ _) Hlt). unfold is_seen in *. rewrite bool_decide_eq_false_2 in * by done. cbn [andb negb].
      exists w'. rewrite Hev. split; [|done]. unfold check_msg_id. erewrite bind_Ret by reflexivity.
      unfold is_old. change (has_flag Flags.REPEATED Flags.REPEATED) with true. cbn [orb negb].
      by erewrite bind_Ret by exact E.
    + exists w. replace ((a_id a <? expected s) && negb (is_seen (a_id a) s)) with false.
      { split; [by apply check_repeated|done]. }
      symmetry. apply andb_false_iff. destruct (Z.ltb_spec (a_id a) (expected s)); [right|by left].
      apply negb_false_iff, bool_decide_eq_true_2. destruct (decide (a_id a ∈ seen s)); [done|].
      destruct (Hl (a_id a) Hi) as [_ [? E]]; [done|congruence].
  - unfold check_msg_id. erewrite bind_Ret by reflexivity. rewrite Hn. unfold is_old.
    change (has_flag 0 Flags.REPEATED) with false. cbn [orb negb fst snd].
    destruct (Z.ltb_spec (a_id a) (expected s)) as [Hlt|Hge]; cbn [andb].
    + rewrite (proj2 (Z.ltb_lt (expected s - a_id a) 100)) by lia.
      destruct (is_lost_spec n0 s (a_id a) w Hsim Hcalm Hi Hlt) as (w' & E & Hs' & Hv & Hev).
      erewrite bind_Ret by exact E. exists w'. rewrite Hev. split; [|done].
      by destruct (is_seen (a_id a) s).
    + rewrite Z.max_r by lia.
      rewrite (proj2 (Z.ltb_ge 100 (expected s - a_id a))) by lia. rewrite orb_false_r.
      destruct (Z.ltb_spec (expected s) (a_id a)) as [Hlt|Heq]; cbn [when].
      * destruct (skip_spec n0 s (a_id a) w Hn0 Hsim Hcalm Hi Hlt) as (w1 & E & En & Hs' & Hv & Hev).
        erewrite bind_Ret by exact E. erewrite bind_Ret by reflexivity. rewrite En, Z.leb_refl. cbn [when].
        erewrite bind_Ret by reflexivity. eexists. split; [reflexivity|]. split; [done|].
        destruct (set_next_rx (u8 (a_id a + 1)) w1) as (_ & _ & Hv'). split; [|done].
        destruct Hv as (? & ? & ? & ?), Hv' as (? & ? & ? & ?). repeat split; congruence.
      * assert (a_id a = expected s) as Ei by lia. erewrite bind_Ret by reflexivity. erewrite bind_Ret by reflexivity.
        rewrite Hn, Ei, Z.leb_refl. cbn [when]. erewrite bind_Ret by reflexivity. eexists. split; [reflexivity|].
        destruct (set_next_rx (u8 (expected s + 1)) w) as (E1 & E2 & Hv'). split; [|by split].
        destruct Hsim as (_ & _ & Hs & Hk & _ & Hx). unfold sim. rewrite E1, E2. cbn [expected seen].
        split; [lia|]. split; [apply u8_small; unfold is_u8; lia|]. split; [done|]. split; [done|]. split.
        -- intros x Hw. rewrite Hl by done. rewrite not_elem_of_cons. intuition lia.
        -- intros x [->|Hin]%elem_of_cons; [lia|]. apply Hx in Hin. lia.
Qed.

(** ** One packet *)

Lemma processed_app evs evs' : processed (evs ++ evs') = processed evs ++ processed evs'.
Proof. apply omap_app. Qed.

Lemma internal_spec n0 s a w :
  0 <= n0 <= 155 -> sim n0 s w -> calm w -> in_window n0 a ->
  exists w', internal_process_message (a_id a) (a_cmd a) (flags_of a) (a_data a) w = (Ret tt, w')
    /\ sim n0 (accept a s).2 w' /\ same_env w w'
    /\ processed (events w') = processed (events w) ++ (if (accept a s).1 then [as_message a] else []).
Proof.
  intros Hn0 Hsim Hcalm Ha. destruct (check_spec n0 s a w Hn0 Hsim Hcalm Ha) as (w1 & E & Hs1 & Hv & Hev).
  destruct Ha as (_ & _ & Hc1 & Hc2 & _). unfold internal_process_message. erewrite bind_Ret by exact E.
  destruct (accept a s).1; cbn [negb].
  - replace ((zlen (a_data a) =? 0) && has_flag (flags_of a) (Z.lor Flags.COMPRESSED Flags.FRAGMENT)) with false.
    2:{ symmetry. apply andb_false_iff. right. unfold flags_of. by destruct (a_repeat a). }
    replace (has_flag (flags_of a) Flags.COMPRESSED) with false by (unfold flags_of; by destruct (a_repeat a)).
    rewrite dispatch_plain; try done; try (unfold flags_of; by destruct (a_repeat a)).
    2:{ apply (calm_same w w1 Hcalm Hv). }
    eexists. split; [done|]. split; [by eapply sim_same|]. split; [done|].
    unfold emitted, emit, modify. cbn [events snd]. rewrite processed_app, Hev. done.
  - exists w1. split; [done|]. rewrite app_nil_r. done.
Qed.

Lemma note_received_same w :
  same_env w (note_received w) /\ events (note_received w) = events w
  /\ next_rx_msg_id_ (self (note_received w)) = next_rx_msg_id_ (self w)
  /\ lost_msg_list_ (self (note_received w)) = lost_msg_list_ (self w).
Proof. unfold note_received. by destruct w as [[? ? ? ? ? ? ? [|] ?] ? ? ? ?]. Qed.

Lemma set_rx_same b e w :
  env_clock (set_rx b e w) = env_clock w /\ env_throws (set_rx b e w) = env_throws w
  /\ events (set_rx b e w) = events w
  /\ next_rx_msg_id_ (self (set_rx b e w)) = next_rx_msg_id_ (self w)
  /\ lost_msg_list_ (self (set_rx b e w)) = lost_msg_list_ (self w).
Proof. by destruct w as [[]]. Qed.

Lemma receive_spec n0 s a w :
  0 <= n0 <= 155 -> sim n0 s w -> calm w -> rx_empty w -> in_window n0 a ->
  exists w', receive a w = (Ret tt, w')
    /\ sim n0 (accept a s).2 w' /\ calm w' /\ rx_empty w'
    /\ processed (events w') = processed (events w) ++ (if (accept a s).1 then [as_message a] else []).
Proof.
  intros Hn0 Hsim Hcalm [Hb He] Ha. destruct (note_received_same w) as (Nv & Nev & Nrx & Nlost).
  destruct (internal_spec n0 s a (note_received w)) as (w1 & E & Hs1 & Hv & Hev);
    [done|by apply (sim_same _ _ w); try done; apply Nv|by eapply calm_same|done|].
  destruct Ha as (Hi & Hc & _ & _ & Hl).
  destruct (receive_packet (a_id a) (a_cmd a) (flags_of a) (a_data a) w w1) as (b & Er & Cb); try done.
  { unfold is_u8. lia. }
  { unfold flags_of. by destruct (a_repeat a). }
  destruct (set_rx_same b [] w1) as (S1 & S2 & S3 & S4 & S5). eexists. split; [exact Er|].
  split; [by eapply sim_same|]. split.
  { destruct Hv as (V1 & V2 & _), Nv as (V3 & V4 & _), Hcalm as [C1 C2]. split.
    - intros ev. by rewrite S2, V2, V4.
    - intros j k. by rewrite S1, V1, V3. }
  split; [unfold rx_empty; by rewrite set_rx_device, set_rx_ends|]. by rewrite S3, Hev, Nev.
Qed.

(** ** Many packets *)

Definition receive_all (l : list arrival) : PM D B unit := for_each receive l.

Lemma receive_all_spec n0 l : forall s w,
  0 <= n0 <= 155 -> sim n0 s w -> calm w -> rx_empty w -> Forall (in_window n0) l ->
  exists w', receive_all l w = (Ret tt, w')
    /\ processed (events w') = processed (events w) ++ map as_message (delivered l s).
Proof.
  induction l as [|a l IH]; intros s w Hn0 Hs Hc Hr Hl.
  { exists w. cbn. by rewrite app_nil_r. }
  inversion Hl; subst. destruct (receive_spec n0 s a w) as (w1 & E & Hs1 & Hc1 & Hr1 & Hev); [done..|].
  destruct (IH (accept a s).2 w1) as (w2 & E2 & Hev2); [done..|].
  exists w2. unfold receive_all. cbn [for_each]. erewrite bind_Ret by exact E. split; [exact E2|].
  rewrite Hev2, Hev, <- app_assoc. f_equal. cbn [delivered].
  destruct (accept a s) as [[] s']; reflexivity.
Qed.

(** C5. Messages over a lossy channel. Let the receiver expect an id of at most
    155 with nothing recorded as lost or buffered, and let packets arrive whose
    ids lie in the window of 99 from that id on (so that the counter does not
    wrap), within ten seconds, each in a datagram of its own, not compressed,
    with a user command: in any order, any of them lost, first messages and
    repeats of them. Then [process_bytes] hands to the user exactly the
    messages of the specification [delivered], in that order: every first
    message that arrives, and a repeat if a later id has arrived before it and
    its own has not. Under the further condition that no first message arrives
    after another packet with its id, no message is delivered twice. *)
Theorem lossy_channel_refines n0 l w :
  0 <= n0 <= 155 -> next_rx_msg_id_ (self w) = n0 -> lost_msg_list_ (self w) = [] ->
  calm w -> rx_empty w -> Forall (in_window n0) l ->
  exists w', receive_all l w = (Ret tt, w')
    /\ processed (events w') = processed (events w) ++ map as_message (delivered l {| expected := n0; seen := [] |})
    /\ (forall a, In a l -> a_repeat a = false -> In a (delivered l {| expected := n0; seen := [] |}))
    /\ (fresh_firsts l [] -> NoDup (map a_id (delivered l {| expected := n0; seen := [] |}))).
Proof.
  intros Hn0 Hn Hlost Hc Hr Hl. set (s0 := {| expected := n0; seen := [] |}).
  assert (sim n0 s0 w) as Hs.
  { unfold sim. rewrite Hn, Hlost. cbn. split; [lia|]. split; [done|]. split; [constructor|]. split; [done|].
    split; [|by intros x Hx%not_elem_of_nil]. intros x Hw. split; [by intros []|lia]. }
  destruct (receive_all_spec n0 l s0 w Hn0 Hs Hc Hr Hl) as (w' & E & Hev). exists w'.
  split; [done|]. split; [done|]. split.
  - intros a. apply delivered_first.
  - intros Hf. by apply (delivered_seen l s0 [] Hf).
Qed.

(** ** Repeats the receiver cannot place *)

(** A message that was lost and is the last one sent is never delivered by
    repeating it: until another message arrives the receiver drops every
    repeat, whatever the time. *)
Lemma last_message_repeats_dropped l w :
  lost_msg_list_ (self w) = [] ->
  Forall (fun a => a_repeat a = true) l ->
  for_each (fun a => internal_process_message (a_id a) (a_cmd a) (flags_of a) (a_data a)) l w = (Ret tt, w).
Proof.
  intros Hl. induction 1 as [|a l Ha _ IH]; [done|]. cbn [for_each]. unfold flags_of at 1. rewrite Ha.
  unfold internal_process_message at 1. erewrite bind_Ret; [exact IH|].
  erewrite bind_Ret by (apply check_repeated; [done|by rewrite Hl]). reflexivity.
Qed.

End lossy.

(** At a distance of exactly one hundred a late message is neither old nor far
    behind: it is delivered, and its id stays on the lost list, so a repeat of
    it is delivered too. *)
Module Lossy_Witness.
Import QtRef Stream_Witness.

Definition first (i : Z) : arrival := {| a_id := i; a_repeat := false; a_cmd := 16; a_data := [x0a] |}.
Definition again (i : Z) : arrival := {| a_id := i; a_repeat := true; a_cmd := 16; a_data := [x0a] |}.

Lemma distance_hundred_twice :
  processed (events (receive_all [first 99; first 0; again 0; first 1; again 1] w0).2)
  = [(99, 16, [x0a]); (0, 16, [x0a]); (0, 16, [x0a]); (1, 16, [x0a])].
Proof. vm_compute. reflexivity. Qed.

(** The condition is needed: a repeat that overtakes the first message is
    delivered, and so is the first message. *)
Lemma overtaken_first_twice :
  processed (events (receive_all [first 3; again 1; first 1] w0).2)
  = [(3, 16, [x0a]); (1, 16, [x0a]); (1, 16, [x0a])].
Proof. vm_compute. reflexivity. Qed.

Lemma lossy_channel_refines_witness :
  exists w', receive_all [first 0; again 1; first 3; again 1; again 1; first 2; again 2] w0 = (Ret tt, w')
    /\ processed (events w') = [(0, 16, [x0a]); (3, 16, [x0a]); (1, 16, [x0a]); (2, 16, [x0a])].
Proof.
  destruct (lossy_channel_refines 0 [first 0; again 1; first 3; again 1; again 1; first 2; again 2] w0)
    as (w' & E & Hev & _).
  - lia.
  - reflexivity.
  - reflexivity.
  - split; [reflexivity|]. intros j k. reflexivity.
  - repeat split; reflexivity.
  - repeat constructor; unfold is_u8; cbn; try lia; try discriminate; reflexivity.
  - exists w'. split; [exact E|]. rewrite Hev. vm_compute. reflexivity.
Defined.

End Lossy_Witness.
