(* ===== verification/TransferProofs.v ===== *)
(** * A whole fragmented transfer

    Two protocol objects that exchange packets: the sender's message is too
    large for one packet, the receiver asks for its parts one after the other.
    Every packet is what [prepare_packet_to_send] makes of the message that
    one side has handed to its writer, and goes through [process_bytes] of the
    other side. *)

From S2P Require Import Prelude StdMap QtInterface MessageItem FragmentedMessage ProtocolState ProtocolSend ProtocolRecv ProtocolFrame ProtocolStream StreamProofs SendProofs ReceiveProofs LostProofs ProtocolInvariant FragmentProofs LossyProofs.

(** ** What a computation leaves alone *)

Section leaves.
Context {D B X : Type} (obs : World D B -> X).

(** [m] does not change what is observed of the world. *)
Definition leaves {A} (m : PM D B A) : Prop := forall w, obs (m w).2 = obs w.

Lemma leaves_ret {A} (a : A) : leaves (ret a).
Proof. done. Qed.

Lemma leaves_throw {A} : leaves (throw : PM D B A).
Proof. done. Qed.

Lemma leaves_bind {A A'} (m : PM D B A) (k : A -> PM D B A') :
  leaves m -> (forall a, leaves (k a)) -> leaves (bind m k).
Proof.
  intros Hm Hk w. unfold bind. pose proof (Hm w) as E. destruct (m w) as [[a| | |] w']; simpl in *; [|done..].
  by rewrite (Hk a w').
Qed.

Lemma leaves_guarded {A} (m : PM D B A) c : leaves m -> leaves c -> leaves (guarded m c).
Proof.
  intros Hm Hc w. unfold guarded. pose proof (Hm w) as E. destruct (m w) as [[a| | |] w']; simpl in *; try done;
    rewrite leaves_bind; done.
Qed.

Lemma leaves_member {A} (f : Protocol D B -> A) : leaves (member f).
Proof. done. Qed.

End leaves.

Ltac leaves_step :=
  match goal with
  | |- leaves _ (bind _ _) => apply leaves_bind; [|intros ?]
  | |- leaves _ (guarded _ _) => apply leaves_guarded
  | |- leaves _ (ret _) => apply leaves_ret
  | |- leaves _ throw => apply leaves_throw
  | |- leaves _ (member _) => apply leaves_member
  | |- leaves _ writer => apply leaves_member
  | |- leaves _ (match ?x with _ => _ end) => destruct x
  | |- leaves _ (let '_ := ?x in _) => destruct x
  | |- leaves _ _ => assumption || solve [auto]
  end.
Ltac leaves := intros; cbv zeta; repeat leaves_step.

Section observe.
Context {D B : Type} `{QIODevice D} `{QDataStream} `{QtBytes}.
Implicit Types (w : World D B).

(** *** Receiving a fragment *)

(** The counters, the writer and the environment. *)
Definition surface w : Z * Z * option Protocol_Writer * (nat -> Z) * (Event D -> bool) :=
  (next_rx_msg_id_ (self w), next_tx_msg_id_ (self w), protocol_writer_ (self w), env_clock w, env_throws w).

Lemma surface_now : leaves surface (now : PM D B Z).
Proof. done. Qed.
Lemma surface_emit e : leaves surface (emit e : PM D B unit).
Proof. done. Qed.
Lemma surface_frags f : leaves surface (update (fun p => with_fragmented (f p) p) : PM D B unit).
Proof. by intros [[]]. Qed.
Lemma surface_frags' v : leaves surface (update (with_fragmented v) : PM D B unit).
Proof. by intros [[]]. Qed.
Lemma surface_lost f : leaves surface (update (fun p => with_lost (f p) p) : PM D B unit).
Proof. by intros [[]]. Qed.
Lemma surface_lost' v : leaves surface (update (with_lost v) : PM D B unit).
Proof. by intros [[]]. Qed.
Lemma surface_waiting v : leaves surface (update (with_waiting v) : PM D B unit).
Proof. by intros [[]]. Qed.
#[local] Hint Resolve surface_now surface_emit surface_frags surface_frags' surface_lost surface_lost' surface_waiting : core.

Lemma surface_call_user e : leaves surface (call_user e : PM D B unit).
Proof. unfold call_user. leaves. Qed.
Lemma surface_destroy m : leaves surface (destroy m : PM D B unit).
Proof. unfold destroy. leaves. Qed.
#[local] Hint Resolve surface_call_user surface_destroy : core.

Lemma surface_send_message m : leaves surface (send_message m : PM D B unit).
Proof. unfold send_message. leaves. Qed.
Lemma surface_add_timeout_at t x : leaves surface (add_timeout_at t x : PM D B unit).
Proof. unfold add_timeout_at. leaves. Qed.
#[local] Hint Resolve surface_send_message surface_add_timeout_at : core.

Lemma surface_dtor s : leaves surface (Protocol_Sender.dtor s : PM D B unit).
Proof. unfold Protocol_Sender.dtor. leaves. Qed.
Lemma surface_query_sender c bs : leaves surface (query_sender c bs : PM D B _).
Proof. unfold query_sender, send, send_answer. leaves. Qed.
Lemma surface_call_answer m f bs : leaves surface (call_answer m f bs : PM D B unit).
Proof.
  intros w. unfold call_answer. pose proof (surface_call_user (Ev_answer_func f bs) w) as E.
  destruct (call_user (Ev_answer_func f bs) w) as [[] w']; simpl in *; try done.
  - by rewrite surface_destroy.
  - rewrite leaves_bind; [done|apply surface_destroy|leaves].
Qed.
Lemma surface_pop f : leaves surface (pop_waiting_message f : PM D B _).
Proof. unfold pop_waiting_message. leaves. Qed.
#[local] Hint Resolve surface_dtor surface_query_sender surface_call_answer surface_pop : core.

Lemma surface_deliver i c a bs : leaves surface (deliver_fragmented i c a bs : PM D B unit).
Proof. unfold deliver_fragmented, pop_waiting_answer. leaves. Qed.
#[local] Hint Resolve surface_deliver : core.

Lemma surface_parse wd bs : leaves surface (parse wd bs : PM D B _).
Proof. unfold parse. leaves. Qed.
#[local] Hint Resolve surface_parse : core.

Lemma surface_process_fragment i c a fs pos rest fm : leaves surface (process_fragment i c a fs pos rest fm : PM D B unit).
Proof. unfold process_fragment. leaves. Qed.
#[local] Hint Resolve surface_process_fragment : core.

Lemma surface_process_fragment_message i c a bs : leaves surface (process_fragment_message i c a bs : PM D B unit).
Proof. unfold process_fragment_message. leaves. Qed.

Lemma surface_fragment_query i pos n : leaves surface (process_fragment_query i pos n : PM D B unit).
Proof.
  unfold process_fragment_query, pop_waiting_fragment, send, send_answer, add_to_waiting, destroy_opt. leaves.
Qed.

(** *** Preparing a packet *)

(** Everything but the transmit counter, the waiting list and the times; of
    the events those that hand a message to the user. *)
Definition core w :=
  (next_rx_msg_id_ (self w), lost_msg_list_ (self w), device_ (self w), fragmented_messages_ (self w),
   protocol_writer_ (self w), packet_end_position_ (self w), env_clock w, env_throws w, processed (events w)).

Lemma processed_snoc evs (e : Event D) :
  match e with Ev_process_message _ _ _ => False | _ => True end -> processed (evs ++ [e]) = processed evs.
Proof. intros He. unfold processed. rewrite omap_app. destruct e; simpl; rewrite ?app_nil_r; done. Qed.

Lemma core_now : leaves core (now : PM D B Z).
Proof. done. Qed.
Lemma core_emit e : match e with Ev_process_message _ _ _ => False | _ => True end -> leaves core (emit e : PM D B unit).
Proof. intros He w. unfold core, emit, modify. simpl. by rewrite processed_snoc. Qed.
Lemma core_waiting v : leaves core (update (with_waiting v) : PM D B unit).
Proof. by intros [[]]. Qed.
Lemma core_last_send v : leaves core (update (with_last_send v) : PM D B unit).
Proof. by intros [[]]. Qed.
Lemma core_next_tx v : leaves core (update (with_next_tx v) : PM D B unit).
Proof. by intros [[]]. Qed.
Lemma core_destroy m : leaves core (destroy m : PM D B unit).
Proof. unfold destroy. destruct (Message_Item.dtor m) as [[]|]; [by apply core_emit|apply leaves_ret]. Qed.
#[local] Hint Resolve core_now core_waiting core_last_send core_next_tx core_destroy : core.
Lemma core_add_to_waiting t m : leaves core (add_to_waiting t m : PM D B unit).
Proof. unfold add_to_waiting, pop_waiting_message, destroy_opt. leaves. Qed.
Lemma core_add_timeout_at t x : leaves core (add_timeout_at t x : PM D B unit).
Proof. unfold add_timeout_at. leaves. by apply core_emit. Qed.
Lemma core_take_msg_id m : leaves core (take_msg_id m : PM D B Z).
Proof. unfold take_msg_id. leaves. Qed.
#[local] Hint Resolve core_add_to_waiting core_add_timeout_at core_take_msg_id : core.

Lemma core_prepare m : leaves core (prepare_packet_to_send m : PM D B _).
Proof. unfold prepare_packet_to_send. leaves. Qed.

End observe.

Section prepare.
Context {D B : Type} `{HD : QIODeviceLaws D} `{HO : !DevicesOpen D} `{HBL : QIODeviceLaws B} `{HQ : !QBuffer B} `{HQL : !QBufferLaws B}
  `{HSL : QDataStreamLaws} `{HCL : QtBytesLaws}.
Implicit Types (w : World D B) (m : Message_Item.t D).

(** Less than ten seconds pass between two looks at the clock. *)
Definition steady w : Prop := forall n, env_clock w (S n) < env_clock w n + seconds 10.

Definition next_tx_after m (tx : Z) : Z := match Message_Item.id_ m with Some _ => tx | None => u8 (tx + 1) end.

(** A message larger than its fragment size is the only one waiting
    afterwards, with its id. *)
Lemma prepare_large m (dev dev' : D) flags data w :
  Message_Item.data_device_ m = Some dev -> packet_data m dev = (flags, data, dev') ->
  Message_Item.fragment_size_ m < dev_size dev -> waiting_messages_ (self w) = [] -> steady w ->
  exists tp e w', prepare_packet_to_send (Some m) w = (Ret (expected_packet m dev w), w')
    /\ core w' = core w /\ next_tx_msg_id_ (self w') = next_tx_after m (next_tx_msg_id_ (self w))
    /\ waiting_messages_ (self w')
       = [(tp, Message_Item.with_id (Some (msg_id_of m w)) (Message_Item.with_end_time e (Message_Item.with_data_device (Some dev') m)))].
Proof.
  intros Hdev Hpd Hfs Hw Hst.
  destruct (prepare_packet_value m dev w Hdev) as (w' & E). pose proof (core_prepare (Some m) w) as Hc.
  rewrite E in Hc.
  enough (exists tp e, next_tx_msg_id_ (self w') = next_tx_after m (next_tx_msg_id_ (self w)) /\ waiting_messages_ (self w')
    = [(tp, Message_Item.with_id (Some (msg_id_of m w)) (Message_Item.with_end_time e (Message_Item.with_data_device (Some dev') m)))])
    as (tp & e & Htx & Hwt) by (by exists tp, e, w').
  unfold prepare_packet_to_send in E. rewrite Hdev, Hpd in E.
  assert (forall x, Message_Item.fragment_size (Message_Item.with_data_device (Some dev') x) = Message_Item.fragment_size_ x)
    as Efs by (by intros []).
  rewrite Efs, (proj2 (Z.ltb_lt _ _) Hfs) in E. unfold bind at 1, now at 1, bind at 1, ret at 1 in E.
  set (msg := Message_Item.with_end_time _ _) in E. destruct (packet_compress msg flags data) as [fl bd].
  assert (Message_Item.id_ msg = Message_Item.id_ m) as Eid by (unfold msg; by destruct m).
  assert (Message_Item.end_time_ msg = env_clock w (ticks w) + seconds 10) as Een by (unfold msg; by destruct m).
  pose proof (Hst (ticks w)) as Ht.
  destruct w as [[rx tx l dv t f ws wr en] ec et tk ev]. simpl in *. subst ws.
  assert (forall x, Message_Item.end_time_ (Message_Item.with_id x msg) = ec tk + seconds 10) as Ee
    by (intros x; rewrite <- Een; by destruct msg).
  unfold take_msg_id, msg_id_of, next_tx_after in *. rewrite Eid in E.
  destruct (Message_Item.id_ m) as [i|]; unfold bind, now, update, modify, ret, member, gets in E; simpl in E;
    rewrite Ee, (proj2 (Z.ltb_lt _ _) Ht) in E;
    unfold add_to_waiting, pop_waiting_message, add_timeout_at, writer, bind, member, gets, update, modify, ret, emit in E;
    simpl in E; destruct wr; simpl in E; injection E as _ <-; simpl; by eexists _, _.
Qed.

(** The next transmit id when a message that fits in a packet is prepared. *)
Lemma prepare_small_tx m (dev : D) w :
  Message_Item.data_device_ m = Some dev -> Message_Item.id_ m = None -> dev_size dev <= Message_Item.fragment_size_ m ->
  next_tx_msg_id_ (self (prepare_packet_to_send (Some m) w).2) = u8 (next_tx_msg_id_ (self w) + 1).
Proof.
  intros Hdev Hid Hfs. unfold prepare_packet_to_send. rewrite Hdev.
  destruct (packet_data m dev) as [[flags data] dev'].
  assert (Message_Item.fragment_size (Message_Item.with_data_device (Some dev') m) = Message_Item.fragment_size_ m)
    as -> by (by destruct m).
  destruct (Z.ltb_spec (Message_Item.fragment_size_ m) (dev_size dev)); [lia|]. rewrite bind_ret_l.
  set (msg := Message_Item.with_data_device _ m). destruct (packet_compress msg flags data) as [fl bd].
  assert (Message_Item.id_ msg = None) as Eid by (unfold msg; by destruct m).
  set (tx := next_tx_msg_id_ (self w)).
  assert (take_msg_id msg w = (Ret tx, on_self (with_next_tx (u8 (tx + 1))) w)) as Et
    by (unfold take_msg_id; rewrite Eid; reflexivity).
  rewrite (bind_Ret _ _ _ _ _ Et). cbv zeta.
  set (obs := fun v => next_tx_msg_id_ (self v : Protocol D B)).
  match goal with |- next_tx_msg_id_ (self (?k ?x).2) = _ => assert (leaves obs k) as Hk; [|etransitivity; [exact (Hk x)|by destruct w as [[]]]] end.
  assert (leaves obs now) as L1 by done.
  assert (forall v, leaves obs (update (with_last_send v))) as L2 by (by intros v [[]]).
  assert (forall v, leaves obs (update (with_waiting v))) as L3 by (by intros v [[]]).
  assert (forall e, leaves obs (emit e)) as L4 by done.
  assert (forall x, leaves obs (destroy x)) as L5 by (intros x; unfold destroy; leaves).
  unfold add_to_waiting, pop_waiting_message, destroy_opt, add_timeout_at. leaves.
Qed.

(** ** Queries *)

Definition query_body (i a n : Z) : list byte := put W8 i ++ put W32 a ++ put W32 n.

Lemma query_body_len i a n : zlen (query_body i a n) = 9.
Proof. unfold query_body. by rewrite !zlen_app, !put_len. Qed.

(** The packet of a query. *)
Lemma query_packet i c a n q w :
  is_query i c a n (Ev_write q) ->
  exists w', prepare_packet_to_send (Some q) w
      = (Ret (packet_bytes (next_tx_msg_id_ (self w)) c Flags.FRAGMENT_QUERY (query_body i a n)), w')
    /\ core w' = core w /\ next_tx_msg_id_ (self w') = u8 (next_tx_msg_id_ (self w) + 1).
Proof.
  intros (Hc & Hf & Hid & Ha & Hfs & Hmc & d & Hd & Od & Cd). fold (query_body i a n) in Cd.
  pose proof (query_body_len i a n) as Hl. assert (dev_size d = 9) as Hsz by (unfold dev_size; by rewrite Cd).
  change HELPZ_MAX_MESSAGE_DATA_SIZE with 32745 in Hfs.
  destruct (prepare_packet_value q d w Hd) as (w' & E). exists w'.
  pose proof (core_prepare (Some q) w) as Hcore. pose proof (prepare_small_tx q d w Hd Hid ltac:(lia)) as Htx.
  rewrite E in Hcore, Htx. split; [|done]. rewrite E. do 2 f_equal.
  destruct (packet_data_whole q d) as (d' & Ep); [done|unfold Message_Item.fragment_size; lia|lia|]. rewrite Ha in Ep.
  unfold expected_packet, packet_compress, Message_Item.min_compress_size, msg_id_of, Message_Item.cmd.
  rewrite Ep, Cd, Hl, Hmc. simpl. unfold Message_Item.flags. by rewrite Hf, Hid, Hc.
Qed.

(** *** Ids the sender expects *)

(** Ids may be skipped: the user code told of it does not throw. *)
Definition quiet w : Prop :=
  (forall a b, env_throws w (Ev_lost_msg_detected a b) = false) /\ is_u8 (next_rx_msg_id_ (self w)) /\ StdMap.sorted (lost_msg_list_ (self w)).

(** A message with id [k] is taken in. *)
Definition follows k w : Prop := next_rx_msg_id_ (self w) = k \/ quiet w.

(** What the test of an id leaves alone. *)
Definition standing w := (waiting_messages_ (self w), protocol_writer_ (self w), env_clock w, env_throws w).

Lemma standing_check k flags : leaves standing (check_msg_id k flags : PM D B bool).
Proof.
  assert (leaves standing (now : PM D B Z)) as L1 by done.
  assert (forall v, leaves standing (update (with_lost v) : PM D B unit)) as L2 by (by intros v [[]]).
  assert (forall v, leaves standing (update (with_next_rx v) : PM D B unit)) as L3 by (by intros v [[]]).
  assert (forall e, leaves standing (emit e : PM D B unit)) as L4 by done.
  assert (forall f, leaves standing (update (fun p => with_fragmented (f p) p) : PM D B unit)) as L5 by (by intros f [[]]).
  assert (leaves standing (fun w => (Unfinished, w) : outcome unit * World D B)) as L6 by done.
  assert (forall f : World D B -> bool, leaves standing (gets f)) as L7 by done.
  unfold check_msg_id, is_lost_message, fill_lost_msg, call_user, when. leaves.
Qed.

(** The id after the sequence-number test. *)
Lemma check_quiet k flags w :
  quiet w -> is_u8 k -> has_flag flags Flags.REPEATED = false ->
  exists w1, check_msg_id k flags w = (Ret true, w1) /\ quiet w1.
Proof.
  intros (Ht & Hn & Hs) Hk Hr. unfold check_msg_id, bind at 1, member at 1, gets at 1. unfold is_old. rewrite Hr. cbn [orb].
  set (n := next_rx_msg_id_ (self w)) in *. destruct ((k <? n) && (n - k <? 100)) eqn:Eold.
  - unfold is_lost_message. destruct (StdMap.find k (lost_msg_list_ (self w))) as [tp|] eqn:Ef;
      unfold bind, member, gets, update, modify, now, ret; rewrite Ef; simpl.
    + destruct (env_clock w (ticks w) - tp <? seconds 10); (eexists; split; [reflexivity|]);
        destruct w as [[]]; simpl in *; (split_and!; [done|done|by apply StdMap.erase_sorted]).
    + eexists. split; [reflexivity|]. by split_and!.
  - unfold when. destruct ((n <? k) || (100 <? n - k)) eqn:Eskip.
    + rewrite bind_assoc, (bind_Ret _ _ _ _ _ (call_user_ok _ _ (Ht k n))).
      destruct (fill_lost_msg_ok k (emitted (Ev_lost_msg_detected k n) w)) as (w' & E & En & Es & _ & _ & _ & _ & _ & Eth & _);
        [done|done|done|].
      rewrite (bind_Ret _ _ _ _ _ E). unfold bind, member, gets. rewrite En, Z.leb_refl. eexists. split; [reflexivity|].
      destruct w' as [[]]. simpl in *. split_and!; [by rewrite Eth|apply u8_range|done].
    + rewrite bind_ret_l. unfold bind, member, gets. fold n. destruct (n + 1 <=? k + 1); (eexists; split; [reflexivity|]); [|by split_and!].
      destruct w as [[]]. simpl in *. split_and!; [done|apply u8_range|done].
Qed.

Lemma check_follows k flags w :
  follows k w -> is_u8 k -> has_flag flags Flags.REPEATED = false ->
  exists w1, check_msg_id k flags w = (Ret true, w1) /\ follows (u8 (k + 1)) w1 /\ (quiet w -> quiet w1).
Proof.
  intros Hf Hk Hr. destruct (decide (next_rx_msg_id_ (self w) = k)) as [Hn|Hn].
  - eexists. split; [by apply check_msg_id_in_order|]. split; [left; by destruct w as [[]]|].
    intros (Q1 & Q2 & Q3). destruct w as [[]]. split_and!; simpl in *; [done|apply u8_range|done].
  - destruct Hf as [?|Hq]; [done|]. destruct (check_quiet k flags w Hq Hk Hr) as (w1 & E & Hq1). exists w1.
    split; [done|]. split; [by right|done].
Qed.

(** A query arrives: the waiting message goes to the writer again, set to the
    part asked for. *)
Lemma query_taken k i c a n tp m (d : D) w :
  follows k w -> is_u8 k -> is_u8 i -> c <> Cmd.REMOVE_FRAGMENT ->
  waiting_messages_ (self w) = [(tp, m)] -> Message_Item.id_ m = Some i -> Message_Item.data_device_ m = Some d ->
  0 <= a < dev_size d -> dev_size d < 2147483648 -> 0 <= n < 4294967296 -> is_Some (protocol_writer_ (self w)) ->
  exists w', internal_process_message k c Flags.FRAGMENT_QUERY (query_body i a n) w = (Ret tt, w')
    /\ waiting_messages_ (self w') = [] /\ follows (u8 (k + 1)) w' /\ (quiet w -> quiet w')
    /\ protocol_writer_ (self w') = protocol_writer_ (self w) /\ env_clock w' = env_clock w
    /\ last (events w') = Some (Ev_write (answered m d a n)).
Proof.
  intros Hrx Hk Hi Hc Hw Hid Hd Ha Hsz Hn [wr Hwr]. unfold internal_process_message.
  destruct (check_follows k Flags.FRAGMENT_QUERY w Hrx Hk eq_refl) as (w1 & Ech & Hfo & Hqu).
  pose proof (standing_check k Flags.FRAGMENT_QUERY w) as Hst. rewrite Ech in Hst. unfold standing in Hst. injection Hst as S1 S2 S3 S4.
  rewrite (bind_Ret _ _ _ _ _ Ech). cbn [negb].
  rewrite query_body_len. change (has_flag Flags.FRAGMENT_QUERY Flags.COMPRESSED) with false. cbn [Z.eqb andb]. cbv iota.
  unfold dispatch_message. destruct (Z.eqb_spec c Cmd.REMOVE_FRAGMENT); [done|].
  change (has_flag Flags.FRAGMENT_QUERY Flags.FRAGMENT_QUERY) with true. cbv iota. unfold query_body.
  rewrite (bind_Ret _ _ _ _ _ (parse_put W8 i _ w1 Hi)).
  rewrite (bind_Ret _ _ _ _ _ (parse_put W32 a _ w1 ltac:(simpl; lia))).
  pose proof (parse_put W32 n [] w1 Hn) as Ep. rewrite app_nil_r in Ep. rewrite (bind_Ret _ _ _ _ _ Ep).
  destruct (query_answered i a n m d [] wr w1) as (w' & E & Ev & Es); [|done|lia|congruence|].
  { rewrite S1, Hw. simpl. unfold waiting_id. rewrite Hid. simpl. by rewrite Z.eqb_refl. }
  exists w'. split; [exact E|].
  pose proof (surface_fragment_query i a n w1) as Hsf. rewrite E in Hsf. unfold surface in Hsf. simpl in Hsf. injection Hsf as F1 F2 F3 F4 F5.
  assert (quiet w1 -> quiet w') as Hq'.
  { intros (Q1 & Q2 & Q3). unfold quiet. rewrite F1, F5. split_and!; [done|done|]. rewrite Es. destruct w1 as [[]]. exact Q3. }
  split_and!.
  - rewrite Es. by destruct w1 as [[]].
  - destruct Hfo as [Hfo|Hfo]; [left; congruence|right; auto].
  - auto.
  - congruence.
  - congruence.
  - rewrite Ev. by rewrite last_snoc.
Qed.

(** ** Fragments *)

(** An id just below the expected one is looked up among the lost and passes. *)
Lemma check_recent i flags w :
  next_rx_msg_id_ (self w) = i + 1 -> has_flag flags Flags.REPEATED = false ->
  exists l n, check_msg_id i flags w
    = (Ret true, mkWorld (with_lost l (self w)) (env_clock w) (env_throws w) n (events w)).
Proof.
  intros Hrx Hr. unfold check_msg_id, member, gets, bind at 1. rewrite Hrx. unfold is_old. rewrite Hr.
  destruct (Z.ltb_spec i (i + 1)); [|lia]. destruct (Z.ltb_spec (i + 1 - i) 100); [|lia]. simpl.
  destruct w as [[rx tx l dv t f ws wr en] ec et tk ev]. unfold is_lost_message, bind, member, gets. simpl.
  destruct (StdMap.find i l) as [x|]; simpl.
  - destruct (_ <? _); by eexists _, _.
  - by exists l, tk.
Qed.

(** The body of a fragment packet, compressed or not, reaches the reassembly. *)
Lemma fragment_dispatched m i c data w w1 :
  is_u32 (Message_Item.min_compress_size_ m) -> 0 < zlen data < 2147483648 -> c <> Cmd.REMOVE_FRAGMENT ->
  let '(flags, body) := packet_compress m Flags.FRAGMENT data in
  check_msg_id i flags w = (Ret true, w1) ->
  internal_process_message i c flags body w = process_fragment_message i c None data w1.
Proof.
  intros [Hmc _] Hlen Hc. unfold packet_compress, Message_Item.min_compress_size.
  assert (data <> []) as Hne by (intros ->; change (zlen (@nil byte)) with 0 in Hlen; lia).
  assert (forall flags, flags = 32 \/ flags = 160 ->
    dispatch_message i c flags data w1 = process_fragment_message i c None data w1) as Hdisp.
  { intros flags Hf. unfold dispatch_message. destruct (Z.eqb_spec c Cmd.REMOVE_FRAGMENT); [done|].
    by destruct Hf as [-> | ->]. }
  destruct (_ <? _); intros Ech; unfold internal_process_message; rewrite (bind_Ret _ _ _ _ _ Ech); cbn [negb].
  - pose proof (qCompress_nonempty data Hne) as Hq.
    destruct (Z.eqb_spec (zlen (qCompress data)) 0) as [E|_]; [by apply zlen_0_inv in E|]. cbn [andb].
    change (has_flag (Z.lor Flags.FRAGMENT Flags.COMPRESSED) Flags.COMPRESSED) with true. cbv iota zeta.
    rewrite qUncompress_qCompress by (done || lia). rewrite <- (Hdisp 160) by (by right). by destruct data.
  - destruct (Z.eqb_spec (zlen data) 0); [lia|]. cbn [andb].
    change (has_flag Flags.FRAGMENT Flags.COMPRESSED) with false. cbv iota. apply Hdisp. by left.
Qed.

End prepare.

(** ** Two objects that exchange packets *)

Section exchange.
Context {D B : Type} `{HD : QIODeviceLaws D} `{HO : !DevicesOpen D} `{HBL : QIODeviceLaws B} `{HQ : !QBuffer B} `{HQL : !QBufferLaws B}
  `{HSL : QDataStreamLaws} `{HCL : QtBytesLaws}.
(** Compression does not blow a packet up to the limit of a byte array. *)
Context (Hcomp : forall bs, zlen bs < 65536 -> zlen (qCompress bs) < 2000000000).
Implicit Types (w ws wr : World D B) (m : Message_Item.t D).

(** The message one side has handed to its writer last becomes a packet,
    which the other side receives. *)
Definition transmit (from to : World D B) : option (World D B * World D B) :=
  match last (events from) with
  | Some (Ev_write m) =>
      match prepare_packet_to_send (Some m) from with
      | (Ret packet, from') =>
          match protocol_process_bytes packet to with
          | (Ret tt, to') => Some (from', to')
          | _ => None
          end
      | _ => None
      end
  | _ => None
  end.

(** The receiver's query, then the sender's answer. *)
Definition round (s : World D B * World D B) : option (World D B * World D B) :=
  match transmit s.2 s.1 with
  | Some (wr, ws) => transmit ws wr
  | None => None
  end.

Fixpoint rounds (n : nat) (s : World D B * World D B) : option (World D B * World D B) :=
  match n with O => Some s | S n => match round s with Some s' => rounds n s' | None => None end end.

(** *** The two sides during a transfer *)

Definition ready_writer w : Prop := exists p, protocol_writer_ (self w) = Some p /\ has_protocol p = true.

(** [m] is the message being sent: its bytes are [orig]. *)
Record original i c cb orig m (d : D) : Prop := {
  or_id : Message_Item.id_ m = Some i;
  or_cmd : Message_Item.cmd_ m = c;
  or_answer : Message_Item.answer_id_ m = None;
  or_flags : Message_Item.flags_ m = 0;
  or_compress : is_u32 (Message_Item.min_compress_size_ m);
  or_device : Message_Item.data_device_ m = Some d;
  or_open : dev_is_open d = true;
  or_content : dev_content d = orig;
  or_callback : Message_Item.answer_func_ m = cb;
}.

(** The sender waits with the message; it takes the id [k] in next. *)
Definition sends i c cb orig k w : Prop :=
  ready_writer w /\ rx_empty w /\ steady w /\ follows k w
  /\ exists tp m d, waiting_messages_ (self w) = [(tp, m)] /\ original i c cb orig m d.

(** The receiver has a part of the message and has asked for the next one,
    of at most [F] bytes; [k] is the id of its next message. *)
Definition receives i c orig (F k total : Z) w : Prop :=
  ready_writer w /\ rx_empty w /\ next_rx_msg_id_ (self w) = i + 1 /\ next_tx_msg_id_ (self w) = k
  /\ env_throws w (Ev_process_message i c orig) = false /\ StdMap.sorted (fragmented_messages_ (self w))
  /\ exists fm q, StdMap.find i (fragmented_messages_ (self w)) = Some fm
       /\ dev_is_open (Fragmented_Message.data_device_ fm) = false /\ Fragmented_Message.reassembles orig fm
       /\ Fragmented_Message.part_vect_ fm <> [] /\ Fragmented_Message.parts_total (Fragmented_Message.part_vect_ fm) = total
       /\ 0 < Fragmented_Message.max_fragment_size_ fm <= F /\ stamped i c fm w
       /\ last (events w) = Some (Ev_write q)
       /\ is_query i c (Fragmented_Message.get_next_part fm).1 (Fragmented_Message.get_next_part fm).2 (Ev_write q).

(** The receiver after delivery has asked for what is behind the end, the sign
    that it has all. *)
Definition finished i c (orig : list byte) k w : Prop :=
  ready_writer w /\ next_tx_msg_id_ (self w) = k
  /\ exists n q, 0 <= n < 65536 /\ last (events w) = Some (Ev_write q) /\ is_query i c (zlen orig) n (Ev_write q).

Definition complete i c orig wr wr' : Prop :=
  StdMap.find i (fragmented_messages_ (self wr')) = None
  /\ processed (events wr') = processed (events wr) ++ [(i, c, orig)].

Lemma grow_bound n F : 0 < n <= F -> HELPZ_MAX_MESSAGE_DATA_SIZE <= F < 65536 -> 0 < grow_fragment_size n <= F.
Proof.
  change HELPZ_MAX_MESSAGE_DATA_SIZE with 32745. unfold grow_fragment_size. change HELPZ_MAX_MESSAGE_DATA_SIZE with 32745.
  intros Hn HF. destruct (Z.ltb_spec n 32745); [|lia].
  assert (0 <= n / 5 <= n) by (split; [apply Z.div_pos; lia|apply Z.div_le_upper_bound; lia]).
  rewrite u32_small by (unfold is_u32; lia). destruct (_ <? _) eqn:E; breflect; lia.
Qed.

Lemma last_snoc_event (l : list (Event D)) e : last (l ++ [e]) = Some e.
Proof. by rewrite last_snoc. Qed.

(** The receiver's query reaches the sender, which answers. *)
Lemma query_round i c cb orig F k total ws wr :
  is_u8 i -> is_u8 k -> is_u8 c -> c <> Cmd.REMOVE_FRAGMENT -> F < 65536 ->
  zlen orig < HELPZ_PROTOCOL_MAX_MESSAGE_SIZE -> sends i c cb orig k ws -> receives i c orig F k total wr ->
  exists ws' wr' m d fm, transmit wr ws = Some (wr', ws')
    /\ core wr' = core wr /\ next_tx_msg_id_ (self wr') = u8 (k + 1)
    /\ ready_writer ws' /\ rx_empty ws' /\ steady ws' /\ follows (u8 (k + 1)) ws' /\ (quiet ws -> quiet ws')
    /\ waiting_messages_ (self ws') = [] /\ original i c cb orig m d
    /\ StdMap.find i (fragmented_messages_ (self wr)) = Some fm
    /\ last (events ws') = Some (Ev_write (answered m d (Fragmented_Message.get_next_part fm).1 (Fragmented_Message.get_next_part fm).2)).
Proof.
  intros Hi Hk Hc Hcr HF Hsz ((p & Hp & Hpr) & Hrx & Hst & Hnx & tp & m & d & Hw & Hor)
    (_ & _ & _ & Htx & _ & _ & fm & q & Hf & _ & Hre & Hpv & _ & Hmf & _ & Hl & Hq).
  unfold HELPZ_PROTOCOL_MAX_MESSAGE_SIZE in Hsz.
  destruct (Fragmented_Message.part_vect_ fm) as [|[a b] l] eqn:Epv; [done|].
  pose proof (Fragmented_Message.re_parts _ _ Hre) as Hparts.
  pose proof (Fragmented_Message.next_part_spec fm _ _ _ _ Epv Hparts Hsz) as Enp.
  rewrite Epv in Hparts. pose proof Hparts as (Ha0 & Hab & Hb & _). rewrite Enp in *. simpl in Hq.
  set (n := Z.min _ _) in *. assert (0 < n < 65536) as Hn by lia.
  destruct (query_packet i c a n q wr Hq) as (wr' & Ep & Ec & Et). rewrite Htx in Ep, Et.
  assert (dev_size d = zlen orig) as Hds by (unfold dev_size; by rewrite (or_content _ _ _ _ _ _ Hor)).
  assert (exists w1, note_received ws = w1 /\ follows k w1 /\ (quiet ws -> quiet w1) /\ waiting_messages_ (self w1) = [(tp, m)]
    /\ (exists p', protocol_writer_ (self w1) = Some p' /\ has_protocol p' = true) /\ env_clock w1 = env_clock ws)
    as (w1 & Enr & N1 & N1q & N2 & (p' & N3 & N4) & N5).
  { eexists. split; [reflexivity|]. unfold note_received. rewrite Hp. destruct ws as [[]]. simpl in *.
    split; [done|]. split; [done|]. split; [done|]. split; [|done]. eexists. split; [reflexivity|]. by destruct p. }
  destruct (query_taken k i c a n tp m d w1) as (w2 & E2 & Ew2 & Ef2 & Eq2 & Ep2 & Ec2 & Ev); try done;
    [apply Hor|apply Hor|lia..|].
  destruct (receive_packet k c Flags.FRAGMENT_QUERY (query_body i a n) ws w2) as (bf & Er & Cb); try done;
    [by rewrite query_body_len|by rewrite Enr|].
  eexists (set_rx bf [] w2), wr', m, d, fm. rewrite Enp. split.
  { unfold transmit. rewrite Hl, Ep, Er. done. }
  split; [done|]. split; [done|]. cbn [fst snd].
  split_and!.
  - exists p'. split; [|done]. destruct w2 as [[]]. simpl in *. congruence.
  - unfold rx_empty. by rewrite set_rx_device, set_rx_ends.
  - intros x. change (env_clock (set_rx bf [] w2)) with (env_clock w2). rewrite Ec2, N5. apply Hst.
  - destruct w2 as [[]]. exact Ef2.
  - intros Hqw. specialize (Eq2 (N1q Hqw)). destruct w2 as [[]]. exact Eq2.
  - destruct w2 as [[]]. exact Ew2.
  - done.
  - done.
  - exact Ev.
Qed.

(** The state in which the handler runs on a packet. *)
Lemma note_received_ready w :
  ready_writer w ->
  ready_writer (note_received w) /\ next_rx_msg_id_ (self (note_received w)) = next_rx_msg_id_ (self w)
  /\ next_tx_msg_id_ (self (note_received w)) = next_tx_msg_id_ (self w)
  /\ fragmented_messages_ (self (note_received w)) = fragmented_messages_ (self w)
  /\ events (note_received w) = events w /\ env_throws (note_received w) = env_throws w.
Proof.
  intros (p & Hp & Hpr). unfold note_received. rewrite Hp. destruct w as [[]]. simpl in *. split; [|done].
  eexists. split; [reflexivity|]. by destruct p.
Qed.

Lemma ready_surface w w' : surface w' = surface w -> ready_writer w -> ready_writer w'.
Proof. unfold surface, ready_writer. intros E. injection E as _ _ -> _ _. done. Qed.

(** The receiver takes a fragment in that starts at its first missing byte. *)
Lemma fragment_taken i c orig F k total r fm m w :
  is_u8 i -> c <> Cmd.REMOVE_FRAGMENT -> HELPZ_MAX_MESSAGE_DATA_SIZE <= F < 65536 -> 0 < r < 65500 ->
  zlen orig < HELPZ_PROTOCOL_MAX_MESSAGE_SIZE -> is_u32 (Message_Item.min_compress_size_ m) ->
  ready_writer w -> next_rx_msg_id_ (self w) = i + 1 -> next_tx_msg_id_ (self w) = k ->
  env_throws w (Ev_process_message i c orig) = false -> StdMap.sorted (fragmented_messages_ (self w)) ->
  StdMap.find i (fragmented_messages_ (self w)) = Some fm ->
  dev_is_open (Fragmented_Message.data_device_ fm) = false -> Fragmented_Message.reassembles orig fm ->
  Fragmented_Message.part_vect_ fm <> [] -> Fragmented_Message.parts_total (Fragmented_Message.part_vect_ fm) = total ->
  0 < Fragmented_Message.max_fragment_size_ fm <= F ->
  Fragmented_Message.id_ fm = i -> Fragmented_Message.cmd_ fm = c ->
  let '(flags, body) := packet_compress m Flags.FRAGMENT (fragment_body orig (Fragmented_Message.get_next_part fm).1 r) in
  exists w', internal_process_message i c flags body w = (Ret tt, w')
    /\ forall b, buffer_empty b ->
       (complete i c orig w (set_rx b [] w') /\ finished i c orig k (set_rx b [] w'))
       \/ exists total', total' < total /\ receives i c orig F k total' (set_rx b [] w')
            /\ processed (events w') = processed (events w)
            /\ env_clock w' = env_clock w /\ (only i w -> only i w').
Proof.
  intros Hi Hc HF Hr Hsz Hmc (p & Hp & Hpr) Hrx Htx Hth Hs Hf Hop Hre Hpv Htot Hmf Hid Hcmd.
  unfold HELPZ_PROTOCOL_MAX_MESSAGE_SIZE in Hsz.
  destruct (Fragmented_Message.part_vect_ fm) as [|[a b] l] eqn:Epv; [done|].
  pose proof (Fragmented_Message.re_parts _ _ Hre) as Hparts.
  pose proof (Fragmented_Message.next_part_spec fm _ _ _ _ Epv Hparts Hsz) as Enp. rewrite Enp. cbn [fst].
  rewrite Epv in Hparts. pose proof Hparts as (Ha0 & Hab & Hb & _).
  assert (0 < zlen (fragment_body orig a r) < 65536) as Hlen.
  { unfold fragment_body. rewrite !zlen_app, !put_len. cbn [wbytes].
    pose proof (part_of_len orig a r ltac:(lia) ltac:(lia)). lia. }
  assert (forall flags, flags = 32 \/ flags = 160 -> has_flag flags Flags.REPEATED = false) as Hrep
    by (by intros flags [-> | ->]).
  assert (0 < zlen (fragment_body orig a r) < 2147483648) as Hlen2 by lia.
  pose proof (fun w1 => fragment_dispatched m i c (fragment_body orig a r) w w1 Hmc Hlen2 Hc) as Hdisp.
  assert (forall fl bd, packet_compress m Flags.FRAGMENT (fragment_body orig a r) = (fl, bd) -> fl = 32 \/ fl = 160) as Hfl.
  { unfold packet_compress. intros fl bd. destruct (_ <? _); intros [= <- <-]; [by right|by left]. }
  destruct (packet_compress m Flags.FRAGMENT (fragment_body orig a r)) as [flags body]. specialize (Hfl _ _ eq_refl).
  destruct (check_recent i flags w Hrx (Hrep _ Hfl)) as (lst & n & Ech).
  set (w1 := mkWorld _ _ _ _ _) in Ech. specialize (Hdisp w1 Ech).
  destruct (fragment_received i c orig a (part_of orig a r) fm p w1) as (w2 & E2 & Hcases); try done;
    try (by unfold w1; destruct w as [[]]); [by apply part_of_fragment; lia|].
  pose proof (surface_process_fragment_message i c None (fragment_body orig a r) w1) as Hsf.
  unfold fragment_body in Hsf at 1. rewrite E2 in Hsf. cbn [snd] in Hsf.
  assert (surface w1 = surface w) as Hs1 by (unfold w1; by destruct w as [[]]).
  exists w2. split; [rewrite Hdisp; exact E2|]. intros bf Cb.
  destruct Hcases as [[_ (Hnone & q & Hev & Hq)]|(Hsort & fm' & Hf' & Hre' & Hop' & Hpv' & Hne' & Hsize & Hstm & Honly & t & q & Hev & Hq)].
  - left. rewrite Hs1 in Hsf. unfold surface in Hsf. injection Hsf as S1 S2 S3 S4 S5. destruct q as [q| | | | | | |]; try done. split; [split|split_and!].
    + by destruct w2 as [[]].
    + change (events (set_rx bf [] w2)) with (events w2). rewrite Hev. change (events w1) with (events w).
      unfold processed. rewrite omap_app. by f_equal.
    + exists p. split; [|done]. destruct w2 as [[]]. simpl in *. congruence.
    + destruct w2 as [[]]. simpl in *. congruence.
    + exists (Fragmented_Message.max_fragment_size_ fm), q. split; [lia|]. split; [|done].
      change (events (set_rx bf [] w2)) with (events w2). rewrite Hev. by rewrite last_app.
  - right. exists (Fragmented_Message.parts_total (Fragmented_Message.part_vect_ fm')). split.
    { rewrite Hpv', <- Htot, <- Epv. apply (next_fragment_total orig fm a b l r); [done|done|lia|lia]. }
    destruct q as [q| | | | | | |]; try done.
    assert (processed (events w2) = processed (events w)) as Hpe.
    { rewrite Hev. change (events w1) with (events w). unfold processed. rewrite omap_app. simpl. by rewrite app_nil_r. }
    rewrite Hs1 in Hsf. unfold surface in Hsf. injection Hsf as S1 S2 S3 S4 S5.
    split; [|split_and!; [exact Hpe|exact S4|intros Ho; apply Honly; intros x Hx; apply Ho; unfold w1 in Hx; by destruct w as [[]]]].
    assert (forall b, surface (set_rx b [] w2) = surface w2) as Hss by (intros x; by destruct w2 as [[]]).
    split_and!.
    + exists p. split; [|done]. destruct w2 as [[]]. simpl in *. congruence.
    + unfold rx_empty. by rewrite set_rx_device, set_rx_ends.
    + destruct w2 as [[]]. simpl in *. congruence.
    + destruct w2 as [[]]. simpl in *. congruence.
    + change (env_throws (set_rx bf [] w2)) with (env_throws w2). by rewrite S5.
    + destruct w2 as [[]]. exact Hsort.
    + exists fm', q. split; [destruct w2 as [[]]; exact Hf'|]. split_and!; try done.
      * by rewrite Hpv'.
      * rewrite Hsize. by apply (grow_bound _ F).
      * rewrite Hsize. by apply (grow_bound _ F).
      * change (events (set_rx bf [] w2)) with (events w2). rewrite Hev.
        by rewrite last_app.
Qed.

(** The packet the sender makes of an answer, and the message it keeps. *)
Lemma answer_sent i c cb orig m (d : D) pos n ws :
  original i c cb orig m d -> waiting_messages_ (self ws) = [] -> steady ws ->
  0 <= pos < zlen orig -> zlen orig < 2147483648 -> reply_size n < zlen orig ->
  exists flags body ws' tp m' d',
    prepare_packet_to_send (Some (answered m d pos n)) ws = (Ret (packet_bytes i c flags body), ws')
    /\ packet_compress m Flags.FRAGMENT (fragment_body orig pos (reply_size n)) = (flags, body)
    /\ core ws' = core ws /\ waiting_messages_ (self ws') = [(tp, m')] /\ original i c cb orig m' d'.
Proof.
  intros [Oi Oc Oa Of Om Od Oop Oo Ocb] Hw Hst Hp Hsz Hn.
  destruct (answered_packet m d i pos n ws Oop Oi Oa) as (w1 & flags & body & E1 & Epc); [rewrite Oo; lia..|].
  rewrite Oc in E1. rewrite Of, Oo in Epc. change (Z.lor 0 Flags.FRAGMENT) with Flags.FRAGMENT in Epc.
  destruct (answered_fields m d pos n) as (Ei & Ea & Ec & Ef & Es & Ed & Em). pose proof (answered_func m d pos n) as Efn.
  assert (dev_content (dev_seek pos d) = orig) as Co.
  { rewrite seek_content; [done|]. unfold dev_size. rewrite Oo. lia. }
  assert (dev_pos (dev_seek pos d) = pos) as Po by (apply seek_pos; [done|lia]).
  assert (dev_size (dev_seek pos d) = zlen orig) as So by (unfold dev_size; by rewrite Co).
  destruct (packet_data_fragment (answered m d pos n) (dev_seek pos d)) as (d' & Epd & Cd & Od');
    unfold Message_Item.fragment_size; rewrite ?So, ?Po, ?Es, ?seek_open; try (unfold reply_size in *; lia); try congruence.
  destruct (prepare_large (answered m d pos n) (dev_seek pos d) d' _ _ ws Ed Epd) as (tp & e & w2 & E2 & Hc2 & _ & Hw2);
    [rewrite Es, So; unfold reply_size in Hn; lia|done|done|].
  rewrite E1 in E2. injection E2 as _ <-. eexists flags, body, w1, tp, _, d'. split; [done|]. split; [done|].
  split; [done|]. split; [exact Hw2|]. unfold msg_id_of. rewrite Ei, Oi. cbn [default].
  destruct (answered m d pos n) eqn:Eans. simpl in *. constructor; simpl; congruence.
Qed.

(** The sender after its packet is made. *)
Lemma sends_prepared i c cb orig k tp m (d : D) ws ws' :
  core ws' = core ws -> ready_writer ws -> rx_empty ws -> steady ws -> follows k ws ->
  waiting_messages_ (self ws') = [(tp, m)] -> original i c cb orig m d ->
  sends i c cb orig k ws' /\ (quiet ws -> quiet ws').
Proof.
  unfold core. intros [= D1 D2 D3 D4 D5 D6 D7 D8 D9] Hrw Hrx Hst Hnx Hw Hor.
  assert (quiet ws -> quiet ws') as Hqt by (intros (Q1 & Q2 & Q3); unfold quiet; by rewrite D1, D2, D8).
  split; [|done]. split_and!.
  - unfold ready_writer. by rewrite D5.
  - unfold rx_empty. by rewrite D3, D6.
  - unfold steady. by rewrite D7.
  - destruct Hnx as [Hnx|Hnx]; [left; congruence|right; auto].
  - by exists tp, m, d.
Qed.

(** One round: the sender still waits with the message, and the receiver has
    delivered it or has fewer bytes missing. *)
Lemma round_progress i c cb orig F k total ws wr :
  is_u8 i -> is_u8 k -> is_u8 c -> c <> Cmd.REMOVE_FRAGMENT ->
  HELPZ_MAX_MESSAGE_DATA_SIZE <= F <= HELPZ_MAX_PACKET_DATA_SIZE -> F < zlen orig < HELPZ_PROTOCOL_MAX_MESSAGE_SIZE ->
  sends i c cb orig k ws -> receives i c orig F k total wr ->
  exists ws' wr', round (ws, wr) = Some (ws', wr') /\ sends i c cb orig (u8 (k + 1)) ws' /\ (quiet ws -> quiet ws')
    /\ (complete i c orig wr wr' /\ finished i c orig (u8 (k + 1)) wr'
        \/ exists total', total' < total /\ receives i c orig F (u8 (k + 1)) total' wr'
             /\ processed (events wr') = processed (events wr)
             /\ env_clock wr' = env_clock wr /\ (only i wr -> only i wr')).
Proof.
  intros Hi Hk Hc Hcr HF Hsz Hsend Hrecv.
  change HELPZ_MAX_MESSAGE_DATA_SIZE with 32745 in HF. change HELPZ_MAX_PACKET_DATA_SIZE with 65490 in HF.
  destruct (query_round i c cb orig F k total ws wr) as (ws1 & wr1 & m & d & fm & Et & Hcore & Htx & Hrw & Hrx & Hst & Hnx & Hqt & Hw & Hor & Hfm & Hl);
    try done; [lia|lia|].
  destruct Hrecv as (Hrw2 & [Hb He] & Hnr & _ & Hth & Hs & fm' & q & Hf & Hop & Hre & Hpv & Htot & Hmf & (Hfi & Hfc & _) & _).
  assert (fm' = fm) as -> by congruence.
  unfold HELPZ_PROTOCOL_MAX_MESSAGE_SIZE in Hsz.
  destruct (Fragmented_Message.part_vect_ fm) as [|[a b] l] eqn:Epv; [done|].
  pose proof (Fragmented_Message.re_parts _ _ Hre) as Hparts.
  pose proof (Fragmented_Message.next_part_spec fm _ _ _ _ Epv Hparts ltac:(lia)) as Enp.
  rewrite Epv in Hparts. pose proof Hparts as (Ha0 & Hab & Hbb & _).
  set (n := Z.min (Fragmented_Message.max_fragment_size_ fm) (b - a)) in *. rewrite Enp in Hl. cbn [fst snd] in Hl.
  assert (0 < reply_size n <= F) as Hrs.
  { unfold reply_size. change HELPZ_MAX_PACKET_DATA_SIZE with 65490. lia. }
  destruct (answer_sent i c cb orig m d a n ws1) as (flags & body & ws2 & tp & m' & d' & Ep & Epc & Hc2 & Hw2 & Hor2); try done; try lia.
  unfold core in Hcore. injection Hcore as C1 C2 C3 C4 C5 C6 C7 C8 C9.
  assert (ready_writer wr1) as Hrw1 by (unfold ready_writer; by rewrite C5).
  destruct (note_received_ready wr1 Hrw1) as (N1 & N2 & N3 & N4 & N5 & N6).
  pose proof (fragment_taken i c orig F (u8 (k + 1)) total (reply_size n) fm m (note_received wr1)) as Hft.
  rewrite Epv, Enp in Hft. cbn [fst] in Hft. rewrite Epc in Hft.
  rewrite N2, N3, N4, N5, N6, C1, C4, C8, Htx in Hft.
  destruct Hft as (w2 & E2 & Hcases); try done; try apply Hor;
    [change HELPZ_MAX_MESSAGE_DATA_SIZE with 32745; lia|lia|unfold HELPZ_PROTOCOL_MAX_MESSAGE_SIZE; lia|].
  assert (zlen (fragment_body orig a (reply_size n)) < 65536) as Hfb.
  { unfold fragment_body. rewrite !zlen_app, !put_len. cbn [wbytes].
    pose proof (part_of_len orig a (reply_size n) ltac:(lia) ltac:(lia)). lia. }
  destruct (receive_packet i c flags body wr1 w2) as (bf & Er & Cb); try done.
  { unfold packet_compress in Epc. destruct (_ <? _); injection Epc as <- <-; done. }
  { unfold packet_compress in Epc. specialize (Hcomp _ Hfb). destruct (_ <? _); injection Epc as <- <-; lia. }
  { unfold rx_empty. by rewrite C3, C6. }
  exists ws2, (set_rx bf [] w2). split.
  { unfold round. cbn [fst snd]. rewrite Et. unfold transmit. by rewrite Hl, Ep, Er. }
  destruct (sends_prepared i c cb orig (u8 (k + 1)) tp m' d' ws1 ws2) as [Hsend2 Hqt2]; try done.
  split; [done|]. split; [auto|].
  destruct (Hcases bf Cb) as [[[Hnone Hpr] Hfin]|(total' & Hlt & Hrec & Hpr & Hclk & Hon)].
  - left. split; [|done]. split; [done|]. rewrite Hpr, N5, C9. done.
  - right. exists total'. split; [done|]. split; [done|]. change (events (set_rx bf [] w2)) with (events w2).
    split; [by rewrite Hpr, C9|]. split.
    + change (env_clock w2 = env_clock wr). rewrite Hclk. unfold note_received. destruct (protocol_writer_ _); exact C7.
    + intros Ho x Hx. apply Hon; [|by destruct w2 as [[]]]. intros y. rewrite N4, C4. apply Ho.
Qed.

Lemma rounds_complete i c cb orig F : forall (total : nat) k ws wr,
  is_u8 i -> is_u8 k -> is_u8 c -> c <> Cmd.REMOVE_FRAGMENT ->
  HELPZ_MAX_MESSAGE_DATA_SIZE <= F <= HELPZ_MAX_PACKET_DATA_SIZE -> F < zlen orig < HELPZ_PROTOCOL_MAX_MESSAGE_SIZE ->
  sends i c cb orig k ws -> forall t, t <= Z.of_nat total -> receives i c orig F k t wr ->
  exists n ws' wr', (n <= total)%nat /\ rounds n (ws, wr) = Some (ws', wr') /\ complete i c orig wr wr'.
Proof.
  induction total as [|total IH]; intros k ws wr Hi Hk Hc Hcr HF Hsz Hsend t Ht Hrecv.
  - exfalso. destruct Hrecv as (_ & _ & _ & _ & _ & _ & fm & _ & _ & _ & Hre & Hpv & Htot & _).
    pose proof (Fragmented_Message.re_parts _ _ Hre) as Hparts.
    destruct (Fragmented_Message.part_vect_ fm) as [|[a b] l]; [done|]. destruct Hparts as (? & ? & ? & Hl).
    pose proof (Fragmented_Message.parts_total_nonneg _ _ _ Hl). simpl in Htot. lia.
  - destruct (round_progress i c cb orig F k t ws wr) as (ws1 & wr1 & E & Hs1 & _ & [[Hdone _]|(t' & Hlt & Hr1 & Hp1 & _)]); try done.
    + exists 1%nat, ws1, wr1. split; [lia|]. split; [|done]. cbn [rounds]. by rewrite E.
    + destruct (IH (u8 (k + 1)) ws1 wr1) with (t := t') as (n & ws2 & wr2 & Hn & Er & [Hnone Hpr]); try done; [apply u8_range|lia|].
      exists (S n), ws2, wr2. split; [lia|]. split; [cbn [rounds]; by rewrite E|]. split; [done|]. by rewrite Hpr, Hp1.
Qed.

(** *** The first packet *)

(** It has the size of the message and the sender's fragment size only. *)
Definition first_body (orig : list byte) (fs : Z) : list byte :=
  put W32 (zlen orig) ++ put W32 (zlen orig) ++ put W32 fs.

Lemma packet_data_first m (d : D) :
  Message_Item.answer_id_ m = None -> Message_Item.flags_ m = 0 -> Message_Item.fragment_size_ m < dev_size d ->
  dev_pos d = dev_size d -> dev_size d < 2147483648 ->
  packet_data m d = (Flags.FRAGMENT, first_body (dev_content d) (Message_Item.fragment_size_ m), d).
Proof.
  intros Ha Hf Hfs Hp Hsz. pose proof (zlen_nonneg (dev_content d)) as Hnn. fold (dev_size d) in Hnn.
  unfold packet_data, Message_Item.fragment_size, Message_Item.flags. rewrite Ha, Hf.
  destruct (Z.ltb_spec (Message_Item.fragment_size_ m) (dev_size d)); [|lia].
  unfold dev_atEnd, dev_bytesAvailable. rewrite Hp, Z.sub_diag. simpl.
  rewrite u32_small by (unfold is_u32; lia). unfold first_body. fold (dev_size d). by rewrite <- app_assoc.
Qed.

(** The receiver makes an entry for the message and asks for its beginning. *)
Lemma first_taken i c orig fs w :
  is_u8 i -> 32 <= fs <= HELPZ_MAX_PACKET_DATA_SIZE -> 0 < zlen orig < HELPZ_PROTOCOL_MAX_MESSAGE_SIZE ->
  ready_writer w -> StdMap.sorted (fragmented_messages_ (self w)) -> StdMap.find i (fragmented_messages_ (self w)) = None ->
  exists w', process_fragment_message i c None (first_body orig fs) w = (Ret tt, w')
    /\ asks_next i c orig [(0, zlen orig)] fs w w'.
Proof.
  change HELPZ_MAX_PACKET_DATA_SIZE with 65490.
  intros Hi Hfs Hsz (p & Hp & Hpr) Hs Hf. unfold HELPZ_PROTOCOL_MAX_MESSAGE_SIZE in Hsz.
  unfold process_fragment_message, first_body.
  rewrite (bind_Ret _ _ _ _ _ (parse_put W32 (zlen orig) _ w ltac:(simpl; lia))).
  rewrite (bind_Ret _ _ _ _ _ (parse_put W32 (zlen orig) _ w ltac:(simpl; lia))).
  rewrite Z.eqb_refl. pose proof (parse_put W32 fs [] w ltac:(simpl; lia)) as Ep. rewrite app_nil_r in Ep.
  rewrite (bind_Ret _ _ _ _ _ Ep). unfold bind at 1, member at 1, gets at 1.
  destruct (Z.leb_spec HELPZ_PROTOCOL_MAX_MESSAGE_SIZE (zlen orig)) as [Hbad|_];
    [unfold HELPZ_PROTOCOL_MAX_MESSAGE_SIZE in Hbad; lia|].
  rewrite Hf. change HELPZ_MAX_PACKET_DATA_SIZE with 65490. destruct (Z.eqb_spec fs 0); [lia|].
  destruct (Z.ltb_spec 65490 fs); [lia|]. cbn [orb].
  assert (exists t w0, (if zlen orig <? 1000000 then ret 0 else now) w = (Ret t, w0) /\ self w0 = self w /\ events w0 = events w)
    as (t & w0 & Et & Es & Eev) by (destruct (_ <? _); by eexists _, _).
  rewrite bind_assoc, (bind_Ret _ _ _ _ _ Et). set (fm := Fragmented_Message.make i c fs (zlen orig) t).
  set (w1 := on_self (with_fragmented (StdMap.emplace i fm (fragmented_messages_ (self w))).1) w0).
  match goal with |- context [bind ?a ?k w0] => assert (a w0 = (Ret fm, w1)) as E1 by reflexivity; rewrite (bind_Ret _ _ _ _ _ E1) end.
  assert (dev_is_open (Fragmented_Message.data_device_ fm) = false) as Hop.
  { unfold fm, Fragmented_Message.make. simpl. destruct (_ <? _);
      [apply new_QBuffer_spec|apply (new_QFile_spec (t `div` 1000000) i)]. }
  destruct (open_closed _ Hop) as [dv Eo]. rewrite Eo.
  pose proof (Fragmented_Message.make_reassembles (D := D) orig i c fs t ltac:(lia)) as Hre. fold fm in Hre.
  assert (fragmented_messages_ (self w1) = (StdMap.emplace i fm (fragmented_messages_ (self w))).1) as Efr
    by (unfold w1; by destruct w0 as [[]]).
  destruct (process_fragment_more i c orig (zlen orig) [] (Fragmented_Message.with_data_device dv fm) p w1) as (w2 & E2 & Hask).
  - rewrite Efr. by apply StdMap.emplace_sorted.
  - unfold w1. destruct w0 as [[]], w as [[]]. simpl in *. congruence.
  - done.
  - rewrite Efr, StdMap.emplace_find, Z.eqb_refl by done. by rewrite Hf.
  - exact (reassembles_open orig fm dv Eo Hre).
  - done.
  - done.
  - done.
  - exists w2. split; [exact E2|]. destruct Hask as (Hso & fm' & H1' & H2' & H3' & H4' & H5' & H6' & H7' & Ho & tt' & q & Hev & Hq).
    split; [done|]. exists fm'. split_and!; try done.
    { intros Hon. apply Ho. intros x. rewrite Efr. intros Hx.
      destruct (StdMap.emplace_keys _ _ _ _ _ (surjective_pairing _) x Hx) as [->|Hx']; [done|by apply Hon]. }
    exists tt', q. split; [|done].
    rewrite Hev. unfold w1. simpl. by rewrite Eev.
Qed.

(** The first packet brings both sides into the state of a transfer. *)
Lemma transfer_starts m (d : D) ws wr :
  let i := next_tx_msg_id_ (self ws) in
  let c := Message_Item.cmd_ m in
  let orig := dev_content d in
  let fs := Message_Item.fragment_size_ m in
  let F := Z.max fs HELPZ_MAX_MESSAGE_DATA_SIZE in
  let k := next_rx_msg_id_ (self ws) in
  last (events ws) = Some (Ev_write m) -> Message_Item.wf m -> Message_Item.id_ m = None ->
  Message_Item.answer_id_ m = None -> Message_Item.flags_ m = 0 -> c <> Cmd.REMOVE_FRAGMENT ->
  Message_Item.data_device_ m = Some d -> dev_is_open d = true -> dev_pos d = dev_size d ->
  F < zlen orig < HELPZ_PROTOCOL_MAX_MESSAGE_SIZE -> 0 <= i < 255 ->
  waiting_messages_ (self ws) = [] -> ready_writer ws -> rx_empty ws -> steady ws ->
  next_rx_msg_id_ (self wr) = i -> next_tx_msg_id_ (self wr) = k -> ready_writer wr -> rx_empty wr ->
  StdMap.sorted (fragmented_messages_ (self wr)) -> StdMap.find i (fragmented_messages_ (self wr)) = None ->
  env_throws wr (Ev_process_message i c orig) = false ->
  exists ws' wr', transmit ws wr = Some (ws', wr') /\ sends i c (Message_Item.answer_func_ m) orig k ws'
    /\ receives i c orig F k (zlen orig) wr' /\ processed (events wr') = processed (events wr)
    /\ core ws' = core ws /\ env_clock wr' = env_clock wr /\ (only i wr -> only i wr').
Proof.
  intros i c orig fs F k Hl (_ & _ & Hwc & _ & Hwf & Hwm) Hid Ha Hfl Hc Hd Hod Hpos Hsz Hi Hw Hrw Hrx Hst Hnr Htx Hrw2 Hrx2 Hs Hf Hth.
  fold c in Hwc. fold fs in Hwf. change HELPZ_MAX_PACKET_DATA_SIZE with 65490 in Hwf.
  assert (F = Z.max fs 32745) as EF by done.
  assert (dev_size d = zlen orig) as Hds by done. unfold HELPZ_PROTOCOL_MAX_MESSAGE_SIZE in Hsz.
  pose proof (packet_data_first m d Ha Hfl ltac:(lia) Hpos ltac:(lia)) as Epd. fold orig fs in Epd.
  destruct (prepare_large m d d _ _ ws Hd Epd ltac:(lia) Hw Hst) as (tp & e & ws1 & Ep & Hcore & _ & Hw1).
  unfold expected_packet in Ep. rewrite Epd in Ep.
  assert (zlen (first_body orig fs) = 12) as Hfb by (unfold first_body; by rewrite !zlen_app, !put_len).
  destruct (note_received_ready wr Hrw2) as (N1 & N2 & N3 & N4 & N5 & N6).
  set (w1 := on_self (with_next_rx (u8 (i + 1))) (note_received wr)).
  pose proof (fragment_dispatched m i c (first_body orig fs) (note_received wr) w1 Hwm ltac:(lia) Hc) as Hdisp.
  assert (forall fl bd, packet_compress m Flags.FRAGMENT (first_body orig fs) = (fl, bd) ->
    (fl = 32 \/ fl = 160) /\ zlen bd < 2147483639) as Hpc.
  { unfold packet_compress. intros fl bd. pose proof (Hcomp (first_body orig fs) ltac:(lia)).
    destruct (_ <? _); intros [= <- <-]; (split; [|lia]); [by right|by left]. }
  destruct (packet_compress m Flags.FRAGMENT (first_body orig fs)) as [flags body].
  destruct (Hpc _ _ eq_refl) as [Hflags Hbody]. clear Hpc.
  unfold msg_id_of in Ep, Hw1. rewrite Hid in Ep, Hw1. cbn [default] in Ep, Hw1.
  unfold Message_Item.cmd in Ep. fold i c in Ep. fold i in Hw1.
  assert (check_msg_id i flags (note_received wr) = (Ret true, w1)) as Ech.
  { apply check_msg_id_in_order; [by rewrite N2|unfold is_u8; lia|by destruct Hflags as [-> | ->]]. }
  specialize (Hdisp Ech).
  assert (ready_writer w1) as Hrw1 by (destruct N1 as (p & ? & ?); exists p; unfold w1; by destruct (note_received wr) as [[]]).
  assert (fragmented_messages_ (self w1) = fragmented_messages_ (self wr)) as Efr
    by (rewrite <- N4; unfold w1; by destruct (note_received wr) as [[]]).
  destruct (first_taken i c orig fs w1) as (w2 & E2 & Hsort & fm' & Hf' & Hre' & Hop' & Hpv' & _ & Hsize & Hstm & Honly & t & q & Hev & Hq);
    [unfold is_u8; lia|change HELPZ_MAX_PACKET_DATA_SIZE with 65490; lia|unfold HELPZ_PROTOCOL_MAX_MESSAGE_SIZE; lia|done|by rewrite Efr..|].
  destruct (receive_packet i c flags body wr w2) as (bf & Er & Cb);
    [unfold is_u8; lia|done|by destruct Hflags as [-> | ->]|done|done|by rewrite Hdisp|].
  pose proof (surface_process_fragment_message i c None (first_body orig fs) w1) as Hsf. rewrite E2 in Hsf. cbn [snd] in Hsf.
  exists ws1, (set_rx bf [] w2). split; [unfold transmit; by rewrite Hl, Ep, Er|].
  split; [|split; [|split; [|split_and!; [exact Hcore| |]]]].
  - eapply (sends_prepared i c (Message_Item.answer_func_ m) orig k tp _ d ws ws1); try done; [by left|]. destruct m. simpl in *. constructor; simpl; done.
  - assert (next_rx_msg_id_ (self w1) = i + 1 /\ next_tx_msg_id_ (self w1) = k /\ env_throws w1 = env_throws wr) as (W1 & W2 & W3).
    { unfold w1. rewrite <- N6, <- Htx, <- N3. destruct (note_received wr) as [[]]. simpl.
      rewrite u8_small by (unfold is_u8; lia). done. }
    unfold surface in Hsf. injection Hsf as S1 S2 S3 _ S5. destruct q as [q| | | | | | |]; try done.
    split_and!.
    + destruct Hrw1 as (p & Hp1 & Hp2). exists p. split; [|done]. destruct w2 as [[]]. simpl in *. congruence.
    + unfold rx_empty. by rewrite set_rx_device, set_rx_ends.
    + destruct w2 as [[]]. simpl in *. congruence.
    + destruct w2 as [[]]. simpl in *. congruence.
    + destruct w2 as [[]]. simpl in S5 |- *. change (env_throws w1 (Ev_process_message i c orig) = false) || rewrite S5. by rewrite <- Hth, <- W3.
    + destruct w2 as [[]]. exact Hsort.
    + pose proof (grow_bound fs F ltac:(lia) ltac:(change HELPZ_MAX_MESSAGE_DATA_SIZE with 32745; lia)) as Hg.
      exists fm', q. split; [destruct w2 as [[]]; exact Hf'|]. rewrite Hpv', Hsize. split_and!; try done; [simpl; lia|lia|lia|].
      change (events (set_rx bf [] w2)) with (events w2). rewrite Hev. by rewrite last_app.
  - change (events (set_rx bf [] w2)) with (events w2). rewrite Hev.
    change (events w1) with (events (note_received wr)). rewrite N5. unfold processed. rewrite omap_app.
    destruct q; try done. simpl. by rewrite app_nil_r.
  - unfold surface in Hsf. injection Hsf as _ _ _ S4 _. change (env_clock w2 = env_clock wr). rewrite S4.
    change (env_clock (note_received wr) = env_clock wr). unfold note_received. by destruct (protocol_writer_ (self wr)).
  - intros Ho x Hx. apply Honly; [|by destruct w2 as [[]]]. intros y. rewrite Efr. apply Ho.
Qed.

(** ** Property *)

(** A message too large for one packet arrives. The sender has just handed
    it to its writer, nothing else waits there, and both sides agree on the
    ids they expect. The first packet announces the message; then, as long as
    the receiver asks and the sender answers, every packet through
    [prepare_packet_to_send] and [process_bytes], the transfer ends: after at
    most as many rounds as the message has bytes the receiver has handed
    exactly the bytes sent to the user, once, with the message's id and
    command, has handed over nothing else, and has forgotten the fragments.
    The message is larger than any fragment the receiver may ask for, and its
    id is not the one after which ids start again. *)
Theorem transfer_completes m (d : D) ws wr :
  let i := next_tx_msg_id_ (self ws) in
  let c := Message_Item.cmd_ m in
  let orig := dev_content d in
  last (events ws) = Some (Ev_write m) -> Message_Item.wf m -> Message_Item.id_ m = None ->
  Message_Item.answer_id_ m = None -> Message_Item.flags_ m = 0 -> c <> Cmd.REMOVE_FRAGMENT ->
  Message_Item.data_device_ m = Some d -> dev_is_open d = true -> dev_pos d = dev_size d ->
  Z.max (Message_Item.fragment_size_ m) HELPZ_MAX_MESSAGE_DATA_SIZE < zlen orig < HELPZ_PROTOCOL_MAX_MESSAGE_SIZE ->
  0 <= i < 255 -> is_u8 (next_rx_msg_id_ (self ws)) ->
  waiting_messages_ (self ws) = [] -> ready_writer ws -> rx_empty ws -> steady ws ->
  next_rx_msg_id_ (self wr) = i -> next_tx_msg_id_ (self wr) = next_rx_msg_id_ (self ws) ->
  ready_writer wr -> rx_empty wr ->
  StdMap.sorted (fragmented_messages_ (self wr)) -> StdMap.find i (fragmented_messages_ (self wr)) = None ->
  env_throws wr (Ev_process_message i c orig) = false ->
  exists n s1 ws' wr',
    transmit ws wr = Some s1 /\ rounds n s1 = Some (ws', wr') /\ Z.of_nat n <= zlen orig
    /\ processed (events wr') = processed (events wr) ++ [(i, c, orig)]
    /\ StdMap.find i (fragmented_messages_ (self wr')) = None.
Proof.
  intros i c orig Hl Hwf Hid Ha Hfl Hc Hd Hod Hpos Hsz Hi Hk Hw Hrw Hrx Hst Hnr Htx Hrw2 Hrx2 Hs Hf Hth.
  destruct (transfer_starts m d ws wr) as (ws1 & wr1 & Et & Hsend & Hrecv & Hpe & _); try done.
  destruct Hwf as (_ & _ & Hwc & _ & Hwf & _).
  destruct (rounds_complete i c (Message_Item.answer_func_ m) orig (Z.max (Message_Item.fragment_size_ m) HELPZ_MAX_MESSAGE_DATA_SIZE) (Z.to_nat (zlen orig))
    (next_rx_msg_id_ (self ws)) ws1 wr1) with (t := zlen orig)
    as (n & ws2 & wr2 & Hn & Er & Hnone & Hpr); try done; [unfold is_u8; lia| |lia|].
  { change HELPZ_MAX_MESSAGE_DATA_SIZE with 32745. change HELPZ_MAX_PACKET_DATA_SIZE with 65490 in *. lia. }
  exists n, (ws1, wr1), ws2, wr2. split_and!; try done; [lia|]. by rewrite Hpr, Hpe.
Qed.

End exchange.

(** ** Witness *)

Module Transfer_Witness.
Import QtRef Fragment_Witness.

Definition large : list byte := replicate (Z.to_nat 32800) x07.
Definition large_dev : mem := {| m_content := large; m_pos := 32800; m_open := true |}.
Definition large_msg : Message_Item.t mem := Message_Item.make 16 None (Some large_dev) (milliseconds 3000).
Definition from : World mem mem := mkWorld proto (fun _ => 0) (fun _ => false) 0 [Ev_write large_msg].
Definition to : World mem mem := mkWorld proto (fun _ => 0) (fun _ => false) 0 [].

Lemma transfer_completes_witness :
  exists n s1 ws' wr',
    transmit from to = Some s1 /\ rounds n s1 = Some (ws', wr') /\ Z.of_nat n <= 32800
    /\ processed (events wr') = [(0, 16, large)] /\ StdMap.find 0 (fragmented_messages_ (self wr')) = None.
Proof.
  assert (zlen large = 32800) as Hlen by (vm_compute; reflexivity).
  assert (ready_writer from) as Hf by (exists the_writer; split; reflexivity).
  assert (ready_writer to) as Ht by (exists the_writer; split; reflexivity).
  assert (rx_empty from) as Hrf by (repeat split; reflexivity).
  assert (rx_empty to) as Hrt by (repeat split; reflexivity).
  assert (steady from) as Hst by (intros k; reflexivity).
  assert (Message_Item.wf large_msg) as Hwf by (apply Message_Item.make_wf; [split; reflexivity || discriminate|discriminate]).
  assert (forall bs : list byte, zlen bs < 65536 -> zlen (qCompress bs) < 2000000000) as Hcomp
    by (intros bs Hb; change (qCompress bs) with bs; lia).
  assert (Z.max (Message_Item.fragment_size_ large_msg) HELPZ_MAX_MESSAGE_DATA_SIZE < zlen large < HELPZ_PROTOCOL_MAX_MESSAGE_SIZE)
    as Hsz by (rewrite Hlen; split; reflexivity).
  destruct (transfer_completes Hcomp large_msg large_dev from to eq_refl Hwf eq_refl eq_refl eq_refl ltac:(discriminate) eq_refl eq_refl
    (eq_sym Hlen) Hsz ltac:(split; [discriminate|reflexivity]) ltac:(split; [discriminate|reflexivity]) eq_refl Hf Hrf Hst
    eq_refl eq_refl Ht Hrt ltac:(constructor) eq_refl eq_refl) as (n & s1 & ws' & wr' & E1 & E2 & E3 & E4 & E5).
  exists n, s1, ws', wr'. split_and!; [exact E1|exact E2| |exact E4|exact E5].
  change (Z.of_nat n <= zlen large) in E3. rewrite Hlen in E3. exact E3.
Defined.

End Transfer_Witness.
