(* ===== verification/TransferLoss.v ===== *)
(** * A fragmented transfer over a lossy line

    The receiver's queries and the sender's answers may be lost. What brings
    the transfer to its end then is the receiver's timer: 1.5 seconds after
    the last part [process_wait_list] asks again, for a part half as large.
    The exchange of [TransferProofs] is repeated here with a fate for each
    attempt. *)

From S2P Require Import Prelude StdMap QtInterface MessageItem FragmentedMessage ProtocolState ProtocolSend ProtocolRecv ProtocolFrame ProtocolStream StreamProofs SendProofs ReceiveProofs LostProofs ProtocolInvariant FragmentProofs LossyProofs TransferProofs.

(** ** Time goes on *)

Section advance.
Context {D B : Type} `{QIODevice D} `{QDataStream} `{QtBytes}.

(** [m] looks at the clock any number of times. *)
Definition advances {A} (m : PM D B A) : Prop := forall w, (ticks w <= ticks (m w).2)%nat.

Lemma advances_ret {A} (a : A) : advances (ret a).
Proof. intros w. simpl. lia. Qed.
Lemma advances_bind {A A'} (m : PM D B A) (k : A -> PM D B A') :
  advances m -> (forall a, advances (k a)) -> advances (bind m k).
Proof.
  intros Hm Hk w. unfold bind. pose proof (Hm w) as E. destruct (m w) as [[a| | |] w']; simpl in *; [|done..].
  specialize (Hk a w'). lia.
Qed.
Lemma advances_now : advances now.
Proof. intros w. simpl. lia. Qed.
Lemma advances_emit e : advances (emit e).
Proof. intros w. simpl. lia. Qed.
Lemma advances_update f : advances (update f).
Proof. intros w. simpl. lia. Qed.
Lemma advances_member {A} (f : Protocol D B -> A) : advances (member f).
Proof. intros w. simpl. lia. Qed.

End advance.

Ltac advances_step :=
  match goal with
  | |- advances (bind _ _) => apply advances_bind; [|intros ?]
  | |- advances (ret _) => apply advances_ret
  | |- advances now => apply advances_now
  | |- advances (emit _) => apply advances_emit
  | |- advances (update _) => apply advances_update
  | |- advances (member _) => apply advances_member
  | |- advances writer => apply advances_member
  | |- advances (match ?x with _ => _ end) => destruct x
  end.
Ltac advances := intros; cbv zeta; repeat advances_step.

Section loss.
Context {D B : Type} `{HD : QIODeviceLaws D} `{HO : !DevicesOpen D} `{HBL : QIODeviceLaws B} `{HQ : !QBuffer B} `{HQL : !QBufferLaws B}
  `{HSL : QDataStreamLaws} `{HCL : QtBytesLaws}.
(** Compression does not blow a packet up to the limit of a byte array. *)
Context (Hcomp : forall bs, zlen bs < 65536 -> zlen (qCompress bs) < 2000000000).
Implicit Types (w ws wr : World D B) (m : Message_Item.t D).

Lemma prepare_advances m : advances (prepare_packet_to_send (Some m) : PM D B _).
Proof.
  unfold prepare_packet_to_send, take_msg_id, add_to_waiting, pop_waiting_message, destroy_opt, destroy, add_timeout_at.
  advances.
Qed.

(** ** The exchange *)

(** What happens to a query and its answer; [n] looks at the clock pass
    until the receiver's timer fires. *)
Inductive fate :=
| Through
| Query_lost (n : nat)
| Answer_lost (n : nat).

Definition pass (n : nat) w : World D B :=
  mkWorld (self w) (env_clock w) (env_throws w) (ticks w + n) (events w).

(** A packet is made and lost. *)
Definition lose (from : World D B) : option (World D B) :=
  match last (events from) with
  | Some (Ev_write m) =>
      match prepare_packet_to_send (Some m) from with
      | (Ret _, from') => Some from'
      | _ => None
      end
  | _ => None
  end.

(** The fragment timer. *)
Definition expire (n : nat) w : option (World D B) :=
  match process_wait_list Flags.FRAGMENT (pass n w) with
  | (Ret tt, w') => Some w'
  | _ => None
  end.

(** Sender and receiver after one attempt. *)
Definition attempt (f : fate) (s : World D B * World D B) : option (World D B * World D B) :=
  match f with
  | Through => round s
  | Query_lost n =>
      match lose s.2 with
      | Some wr => match expire n wr with Some wr => Some (s.1, wr) | None => None end
      | None => None
      end
  | Answer_lost n =>
      match transmit s.2 s.1 with
      | Some (wr, ws) =>
          match lose ws, expire n wr with
          | Some ws, Some wr => Some (ws, wr)
          | _, _ => None
          end
      | None => None
      end
  end.

Fixpoint attempts (fs : list fate) (s : World D B * World D B) : option (World D B * World D B) :=
  match fs with
  | [] => Some s
  | f :: fs => match attempt f s with Some s' => attempts fs s' | None => None end
  end.

(** How many get through. *)
Fixpoint through (fs : list fate) : Z :=
  match fs with [] => 0 | Through :: fs => 1 + through fs | _ :: fs => through fs end.

(** The timer does not fire before 1.5 seconds have passed. *)
Definition late (clock : nat -> Z) (f : fate) : Prop :=
  match f with
  | Through => True
  | Query_lost n | Answer_lost n => forall k, clock k + milliseconds 1500 <= clock (k + n)%nat
  end.

Definition monotone (clock : nat -> Z) : Prop := forall k, clock k <= clock (S k).

Lemma monotone_le clock a b : monotone clock -> (a <= b)%nat -> clock a <= clock b.
Proof. intros Hm. induction 1 as [|b _ IH]; [done|]. specialize (Hm b). lia. Qed.

(** ** The receiver asks again *)

Lemma shrink_bound n F : 0 < n <= F -> HELPZ_MAX_MESSAGE_DATA_SIZE <= F -> 0 < shrink_fragment_size n <= F.
Proof.
  change HELPZ_MAX_MESSAGE_DATA_SIZE with 32745. unfold shrink_fragment_size. intros Hn HF.
  assert (n / 2 <= n) by (apply Z.div_le_upper_bound; lia). destruct (Z.ltb_spec (n / 2) 128); lia.
Qed.

Lemma only_one i fm w :
  StdMap.sorted (fragmented_messages_ (self w)) -> StdMap.find i (fragmented_messages_ (self w)) = Some fm -> only i w ->
  fragmented_messages_ (self w) = [(i, fm)].
Proof.
  unfold only. intros Hs Hf Ho. destruct (fragmented_messages_ (self w)) as [|[a x] l]; [done|].
  assert (a = i) as -> by (apply Ho; by left). simpl in Hf. rewrite Z.eqb_refl in Hf. injection Hf as ->.
  destruct l as [|[b y] l]; [done|]. assert (b = i) as -> by (apply Ho; simpl; auto).
  apply StdMap.sorted_cons_inv in Hs as [_ Hall]. apply Forall_cons in Hall as [Hlt _]. simpl in Hlt. lia.
Qed.

(** One look of the timer at the message, 1.5 seconds after its last part. *)
Lemma requery_asks i c orig t fm p w :
  fragmented_messages_ (self w) = [(i, fm)] -> Fragmented_Message.part_vect_ fm <> [] ->
  milliseconds 1500 <= t - Fragmented_Message.last_part_time_ fm ->
  Fragmented_Message.id_ fm = i -> Fragmented_Message.cmd_ fm = c -> Fragmented_Message.reassembles orig fm ->
  protocol_writer_ (self w) = Some p -> has_protocol p = true ->
  let fm' := Fragmented_Message.with_last_part_time t
               (Fragmented_Message.with_max_fragment_size (shrink_fragment_size (Fragmented_Message.max_fragment_size_ fm)) fm) in
  exists w' x q, requery_fragment t i w = (Ret tt, w')
    /\ self w' = with_fragmented [(i, fm')] (with_lost (StdMap.emplace i t (lost_msg_list_ (self w))).1 (self w))
    /\ ticks w' = ticks w /\ env_clock w' = env_clock w /\ env_throws w' = env_throws w
    /\ events w' = events w ++ [Ev_add_timeout_at x Flags.FRAGMENT; q]
    /\ is_query i c (Fragmented_Message.get_next_part fm').1 (Fragmented_Message.get_next_part fm').2 q.
Proof.
  intros Hfr Hpv Ht Hid Hcmd Hre Hp Hpr fm'. unfold requery_fragment, bind at 1, member at 1, gets at 1.
  rewrite Hfr. cbn [StdMap.find]. rewrite Z.eqb_refl.
  assert (Fragmented_Message.is_parts_empty fm = false) as He
    by (unfold Fragmented_Message.is_parts_empty; by destruct (Fragmented_Message.part_vect_ fm)).
  rewrite He, (proj2 (Z.leb_le _ _) Ht). cbn [negb andb]. cbv zeta. fold fm'.
  assert (forall x, Fragmented_Message.id_ (Fragmented_Message.with_max_fragment_size x fm) = i) as Ei by (intros x; by destruct fm).
  assert (Fragmented_Message.id_ fm' = i /\ Fragmented_Message.cmd_ fm' = c) as [Ei' Ec'] by (unfold fm'; by destruct fm).
  rewrite Ei, Ei', Ec'. unfold bind at 1, update at 1, modify at 1, bind at 1, update at 1, modify at 1.
  set (w1 := on_self _ (on_self _ w)).
  assert (protocol_writer_ (self w1) = Some p) as Hp1 by (unfold w1; by destruct w as [[]]).
  destruct (query_sent c i (Fragmented_Message.get_next_part fm').1 (Fragmented_Message.get_next_part fm').2 p w1 Hp1 Hpr)
    as (s & Eq & Hdtor).
  rewrite (bind_Ret _ _ _ _ _ Eq).
  set (ev := (Ev_add_timeout_at (t + milliseconds 1505) Flags.FRAGMENT : Event D)).
  assert (add_timeout_at (t + milliseconds 1505) Flags.FRAGMENT w1 = (Ret tt, emitted ev w1)) as Et
    by (unfold add_timeout_at, bind, writer, member, gets; by rewrite Hp1).
  rewrite (bind_Ret _ _ _ _ _ Et).
  destruct (Hdtor (emitted ev w1)) as (q & w4 & Ed & Es & Eev & Hq & Etk & Eclk); [done|].
  eexists w4, _, q. split; [exact Ed|]. pose proof (surface_dtor s (emitted ev w1)) as Hsf. rewrite Ed in Hsf.
  unfold surface in Hsf. injection Hsf as _ _ _ _ S5. split_and!; try done.
  - rewrite Es. unfold w1. destruct w as [[]]. simpl. by rewrite Z.eqb_refl.
  - rewrite Eev. simpl. by rewrite <- app_assoc.
Qed.

(** The timer of a receiver whose last exchange failed. *)
Lemma timer_asks i c orig F k total k' n wr w1 :
  HELPZ_MAX_MESSAGE_DATA_SIZE <= F -> receives i c orig F k total wr -> only i wr ->
  monotone (env_clock wr) -> (forall j, env_clock wr j + milliseconds 1500 <= env_clock wr (j + n)%nat) ->
  core w1 = core wr -> next_tx_msg_id_ (self w1) = k' -> (ticks wr <= ticks w1)%nat ->
  exists wr', expire n w1 = Some wr' /\ receives i c orig F k' total wr' /\ only i wr'
    /\ env_clock wr' = env_clock wr /\ processed (events wr') = processed (events wr).
Proof.
  intros HF ((p & Hp & Hpr) & [Hb He] & Hnr & _ & Hth & Hs & fm & q0 & Hf & Hop & Hre & Hpv & Htot & Hmf & (Hid & Hcmd & j & Hj & Hlt) & _)
    Ho Hmono Hlate Hcore Htx Htk.
  unfold core in Hcore. injection Hcore as C1 C2 C3 C4 C5 C6 C7 C8 C9.
  pose proof (only_one i fm wr Hs Hf Ho) as Hfr. set (t := env_clock wr (ticks w1 + n)%nat).
  assert (milliseconds 1500 <= t - Fragmented_Message.last_part_time_ fm) as Ht.
  { rewrite Hlt. pose proof (Hlate (ticks w1)). pose proof (monotone_le _ j (ticks w1) Hmono ltac:(lia)). unfold t. lia. }
  set (w2 := mkWorld (self w1) (env_clock w1) (env_throws w1) (S (ticks w1 + n)) (events w1)).
  destruct (requery_asks i c orig t fm p w2) as (w3 & x & q & E & Es & Etk & Eclk & Eth & Eev & Hq); try done;
    [simpl; congruence..|].
  destruct q as [q| | | | | | |]; try done.
  set (fm' := Fragmented_Message.with_last_part_time _ _) in *.
  pose proof (shrink_bound _ _ Hmf HF) as Hsb.
  assert (processed (events w3) = processed (events wr)) as Hpe.
  { rewrite Eev. unfold w2. simpl. unfold processed in *. rewrite omap_app. simpl. by rewrite app_nil_r. }
  exists w3. split.
  { unfold expire, process_wait_list. cbn [Z.eqb]. rewrite Z.eqb_refl.
    unfold bind at 1, now at 1, bind at 1, member at 1, gets at 1. simpl self. rewrite C4, Hfr. cbn [StdMap.keys map fst for_each].
    unfold pass. simpl. rewrite C7. fold t. rewrite <- C7. fold w2. by rewrite (bind_Ret _ _ _ _ _ E). }
  split; [|split_and!; [|by rewrite Eclk|exact Hpe]].
  - unfold receives, ready_writer, rx_empty. rewrite Es, Eth. unfold w2. simpl self.
    destruct w1 as [[] ? ? ? ?]. simpl in *. split_and!; try congruence; try (by eexists); [by exists p; split; [congruence|]|repeat constructor|].
    exists fm', q. rewrite Z.eqb_refl. unfold fm' in *. destruct fm as [fi fc fs fd fl fp]. simpl in *.
    split_and!; try done; try lia; try apply Hq.
    + destruct Hre as [R1 R2 R3]. by constructor.
    + split_and!; [done|done|]. exists (ticks + n)%nat. simpl. rewrite Etk, Eclk. simpl. split; [lia|]. by rewrite C7.
    + rewrite Eev. by rewrite last_app.
  - intros y. rewrite Es. destruct w1 as [[]]. simpl. intros [->|[]]; done.
Qed.

(** ** One attempt *)

(** The two sides of a transfer of which something may have been lost. *)
Definition engaged i c cb orig F k total (clock : nat -> Z) ws wr : Prop :=
  sends i c cb orig k ws /\ quiet ws /\ receives i c orig F k total wr /\ only i wr /\ env_clock wr = clock.

Lemma sends_quiet i c cb orig k k' ws : quiet ws -> sends i c cb orig k ws -> sends i c cb orig k' ws.
Proof. intros Hq (H1' & H2' & H3' & _ & H4'). split_and!; try done. by right. Qed.

(** The receiver's query is made, and lost. *)
Lemma query_lost i c orig F k total wr :
  receives i c orig F k total wr ->
  exists wr1, lose wr = Some wr1 /\ core wr1 = core wr /\ next_tx_msg_id_ (self wr1) = u8 (k + 1) /\ (ticks wr <= ticks wr1)%nat.
Proof.
  intros (_ & _ & _ & Htx & _ & _ & fm & q & _ & _ & _ & _ & _ & _ & _ & Hl & Hq).
  destruct (query_packet i c _ _ q wr Hq) as (wr1 & Ep & Ec & Et). exists wr1. split_and!; [|done|congruence|].
  - unfold lose. by rewrite Hl, Ep.
  - pose proof (prepare_advances q wr) as Ha. by rewrite Ep in Ha.
Qed.

Lemma transmit_ticks (from to from' to' : World D B) : transmit from to = Some (from', to') -> (ticks from <= ticks from')%nat.
Proof.
  unfold transmit. destruct (last (events from)) as [[m| | | | | | |]|]; try done.
  pose proof (prepare_advances m from) as Ha. destruct (prepare_packet_to_send (Some m) from) as [[packet| | |] w']; try done.
  destruct (protocol_process_bytes packet to) as [[[]| | |] ?]; try done. by intros [= <- <-].
Qed.

(** The sender's answer is made, and lost. *)
Lemma answer_lost i c cb orig F k total ws wr :
  is_u8 i -> is_u8 k -> is_u8 c -> c <> Cmd.REMOVE_FRAGMENT ->
  HELPZ_MAX_MESSAGE_DATA_SIZE <= F <= HELPZ_MAX_PACKET_DATA_SIZE -> F < zlen orig < HELPZ_PROTOCOL_MAX_MESSAGE_SIZE ->
  sends i c cb orig k ws -> quiet ws -> receives i c orig F k total wr ->
  exists wr1 ws1 ws2, transmit wr ws = Some (wr1, ws1) /\ lose ws1 = Some ws2
    /\ sends i c cb orig (u8 (k + 1)) ws2 /\ quiet ws2
    /\ core wr1 = core wr /\ next_tx_msg_id_ (self wr1) = u8 (k + 1) /\ (ticks wr <= ticks wr1)%nat.
Proof.
  intros Hi Hk Hc Hcr HF Hsz Hsend Hq Hrecv.
  change HELPZ_MAX_MESSAGE_DATA_SIZE with 32745 in HF. change HELPZ_MAX_PACKET_DATA_SIZE with 65490 in HF.
  destruct (query_round i c cb orig F k total ws wr) as (ws1 & wr1 & m & d & fm & Et & Hcore & Htx & Hrw & Hrx & Hst & Hnx & Hqt & Hw & Hor & Hfm & Hl);
    try done; [lia|lia|].
  destruct Hrecv as (_ & _ & _ & _ & _ & _ & fm' & q & Hf & _ & Hre & Hpv & _ & Hmf & _).
  assert (fm' = fm) as -> by congruence. unfold HELPZ_PROTOCOL_MAX_MESSAGE_SIZE in Hsz.
  destruct (Fragmented_Message.part_vect_ fm) as [|[a b] l] eqn:Epv; [done|].
  pose proof (Fragmented_Message.re_parts _ _ Hre) as Hparts.
  pose proof (Fragmented_Message.next_part_spec fm _ _ _ _ Epv Hparts ltac:(lia)) as Enp.
  rewrite Epv in Hparts. pose proof Hparts as (Ha0 & Hab & Hbb & _).
  set (n := Z.min (Fragmented_Message.max_fragment_size_ fm) (b - a)) in *. rewrite Enp in Hl. cbn [fst snd] in Hl.
  assert (0 < reply_size n <= F) as Hrs by (unfold reply_size; change HELPZ_MAX_PACKET_DATA_SIZE with 65490; lia).
  destruct (answer_sent i c cb orig m d a n ws1) as (flags & body & ws2 & tp & m' & d' & Ep & Epc & Hc2 & Hw2 & Hor2); try done; try lia.
  destruct (sends_prepared i c cb orig (u8 (k + 1)) tp m' d' ws1 ws2) as [Hsend2 Hqt2]; try done.
  exists wr1, ws1, ws2. split_and!; try done; [by unfold lose; rewrite Hl, Ep|auto|by eapply transmit_ticks].
Qed.

Lemma attempt_progress i c cb orig F k total clock f ws wr :
  is_u8 i -> is_u8 k -> is_u8 c -> c <> Cmd.REMOVE_FRAGMENT ->
  HELPZ_MAX_MESSAGE_DATA_SIZE <= F <= HELPZ_MAX_PACKET_DATA_SIZE -> F < zlen orig < HELPZ_PROTOCOL_MAX_MESSAGE_SIZE ->
  monotone clock -> late clock f -> engaged i c cb orig F k total clock ws wr ->
  exists ws' wr', attempt f (ws, wr) = Some (ws', wr')
    /\ (complete i c orig wr wr' /\ sends i c cb orig (u8 (k + 1)) ws' /\ finished i c orig (u8 (k + 1)) wr'
        \/ exists total', total' <= total - through [f] /\ engaged i c cb orig F (u8 (k + 1)) total' clock ws' wr'
             /\ processed (events wr') = processed (events wr)).
Proof.
  intros Hi Hk Hc Hcr HF Hsz Hmono Hlate (Hsend & Hq & Hrecv & Ho & <-). destruct f as [|n|n]; simpl in Hlate; simpl.
  - destruct (round_progress Hcomp i c cb orig F k total ws wr) as (ws' & wr' & E & Hs' & Hq' & [[Hdone Hfin]|(t' & Hlt & Hr' & Hp' & Hc' & Ho')]);
      try done; exists ws', wr'; (split; [done|]); [by left|right].
    exists t'. split; [lia|]. split; [|done]. split_and!; auto.
  - destruct (query_lost i c orig F k total wr Hrecv) as (wr1 & El & Hcore & Htx & Htk).
    destruct (timer_asks i c orig F k total (u8 (k + 1)) n wr wr1) as (wr' & Ex & Hr' & Ho' & Hc' & Hp'); try done; [lia|].
    exists ws, wr'. rewrite El, Ex. split; [done|]. right. exists total. split; [lia|]. split; [|done].
    split_and!; try done. by apply (sends_quiet i c cb orig k).
  - destruct (answer_lost i c cb orig F k total ws wr) as (wr1 & ws1 & ws2 & Et & El & Hs2 & Hq2 & Hcore & Htx & Htk); try done.
    destruct (timer_asks i c orig F k total (u8 (k + 1)) n wr wr1) as (wr' & Ex & Hr' & Ho' & Hc' & Hp'); try done; [lia|].
    exists ws2, wr'. rewrite Et, El, Ex. split; [done|]. right. exists total. split; [lia|]. split; [|done]. by split_and!.
Qed.

(** Every schedule on which enough gets through brings the message over. *)
Lemma attempts_complete i c cb orig F clock : forall (fs : list fate) k total ws wr,
  is_u8 i -> is_u8 k -> is_u8 c -> c <> Cmd.REMOVE_FRAGMENT ->
  HELPZ_MAX_MESSAGE_DATA_SIZE <= F <= HELPZ_MAX_PACKET_DATA_SIZE -> F < zlen orig < HELPZ_PROTOCOL_MAX_MESSAGE_SIZE ->
  monotone clock -> Forall (late clock) fs -> total <= through fs -> engaged i c cb orig F k total clock ws wr ->
  exists pre ws' wr', pre `prefix_of` fs /\ attempts pre (ws, wr) = Some (ws', wr') /\ complete i c orig wr wr'
    /\ exists k', is_u8 k' /\ sends i c cb orig k' ws' /\ finished i c orig k' wr'.
Proof.
  induction fs as [|f fs IH]; intros k total ws wr Hi Hk Hc Hcr HF Hsz Hmono Hlate Ht Hen.
  - exfalso. destruct Hen as (_ & _ & (_ & _ & _ & _ & _ & _ & fm & _ & _ & _ & Hre & Hpv & Htot & _) & _).
    pose proof (Fragmented_Message.re_parts _ _ Hre) as Hparts.
    destruct (Fragmented_Message.part_vect_ fm) as [|[a b] l]; [done|]. destruct Hparts as (? & ? & ? & Hl).
    pose proof (Fragmented_Message.parts_total_nonneg _ _ _ Hl). simpl in Htot, Ht. lia.
  - apply Forall_cons in Hlate as [Hf Hlate].
    destruct (attempt_progress i c cb orig F k total clock f ws wr) as (ws1 & wr1 & E & [(Hdone & Hs1 & Hf1)|(t' & Hle & Hen1 & Hp1)]); try done.
    + exists [f], ws1, wr1. split; [by exists fs|]. split; [simpl; by rewrite E|]. split; [done|]. exists (u8 (k + 1)). split; [apply u8_range|done].
    + destruct (IH (u8 (k + 1)) t' ws1 wr1) as (pre & ws2 & wr2 & Hpre & E2 & [Hn Hp2] & Hend); try done; [apply u8_range| |].
      { destruct f; simpl in Ht, Hle; lia. }
      exists (f :: pre), ws2, wr2. split; [by apply prefix_cons|]. split; [simpl; by rewrite E|]. split; [|done]. split; [done|].
      by rewrite Hp2, Hp1.
Qed.

(** ** The sender is told *)

(** A query behind the end of a message that waits for no answer: it is
    destroyed, after a [REMOVE_FRAGMENT]. *)
Lemma query_behind_end i pos n m (d : D) p w :
  waiting_messages_ (self w) = [(p, m)] -> Message_Item.id_ m = Some i -> Message_Item.data_device_ m = Some d ->
  Message_Item.answer_func_ m = None -> dev_size d <= pos -> ready_writer w ->
  exists w', process_fragment_query i pos n w = (Ret tt, w') /\ waiting_messages_ (self w') = [].
Proof.
  intros Hw Hid Hd Hf Hpos (wp & Hp & Hpr). unfold process_fragment_query, pop_waiting_fragment. cbv zeta.
  assert (pop_waiting_message (fun x => value_or_0 (Message_Item.id_ x) =? i) w = (Ret (Some m), on_self (with_waiting []) w)) as Ep.
  { unfold pop_waiting_message, bind, member, gets. rewrite Hw. simpl. rewrite Hid. simpl. by rewrite Z.eqb_refl. }
  rewrite (bind_Ret _ _ _ _ _ Ep), Hd, Hf. destruct (Z.ltb_spec pos (dev_size d)); [lia|].
  unfold send, send_answer, Protocol_Sender.dtor, destroy, bind, writer, member, gets.
  assert (protocol_writer_ (self (on_self (with_waiting []) w)) = Some wp) as -> by (by destruct w as [[]]). rewrite Hpr. simpl.
  destruct w as [[]]. simpl in *. rewrite Hp. simpl. destruct (Message_Item.dtor m) as [[]|]; (eexists; split; [reflexivity|]); done.
Qed.

(** The receiver's last query reaches the sender, which forgets the message. *)
Lemma sender_released i c orig k ws wr :
  is_u8 i -> is_u8 k -> is_u8 c -> c <> Cmd.REMOVE_FRAGMENT -> zlen orig < HELPZ_PROTOCOL_MAX_MESSAGE_SIZE ->
  sends i c None orig k ws -> finished i c orig k wr ->
  exists wr' ws', transmit wr ws = Some (wr', ws') /\ waiting_messages_ (self ws') = [].
Proof.
  intros Hi Hk Hc Hcr Hsz (Hrw & Hrx & _ & Hnx & tp & m & d & Hw & Hor) (_ & Htx & n & q & Hn & Hl & Hq).
  unfold HELPZ_PROTOCOL_MAX_MESSAGE_SIZE in Hsz. pose proof (zlen_nonneg orig) as Hnn.
  destruct (query_packet i c (zlen orig) n q wr Hq) as (wr' & Ep & _ & _). rewrite Htx in Ep.
  destruct (note_received_ready ws Hrw) as (N1 & N2 & _ & _ & _ & N6).
  assert (follows k (note_received ws) /\ waiting_messages_ (self (note_received ws)) = [(tp, m)]) as [Hnx' Hw'].
  { unfold note_received. destruct (protocol_writer_ (self ws)); destruct ws as [[]]; done. }
  destruct (check_follows k Flags.FRAGMENT_QUERY _ Hnx' Hk eq_refl) as (w1 & Ech & _ & _).
  pose proof (standing_check k Flags.FRAGMENT_QUERY (note_received ws)) as Hst. rewrite Ech in Hst.
  unfold standing in Hst. injection Hst as S1 S2 _ _.
  destruct (query_behind_end i (zlen orig) n m d tp w1) as (w2 & E2 & Hw2);
    [congruence|apply Hor|apply Hor|apply Hor|unfold dev_size; rewrite (or_content _ _ _ _ _ _ Hor); lia|unfold ready_writer; by rewrite S2|].
  assert (internal_process_message k c Flags.FRAGMENT_QUERY (query_body i (zlen orig) n) (note_received ws) = (Ret tt, w2)) as E3.
  { unfold internal_process_message. rewrite (bind_Ret _ _ _ _ _ Ech). cbn [negb]. rewrite query_body_len.
    change (has_flag Flags.FRAGMENT_QUERY Flags.COMPRESSED) with false. cbn [Z.eqb andb]. cbv iota.
    unfold dispatch_message. destruct (Z.eqb_spec c Cmd.REMOVE_FRAGMENT); [done|].
    change (has_flag Flags.FRAGMENT_QUERY Flags.FRAGMENT_QUERY) with true. cbv iota. unfold query_body.
    rewrite (bind_Ret _ _ _ _ _ (parse_put W8 i _ w1 Hi)), (bind_Ret _ _ _ _ _ (parse_put W32 (zlen orig) _ w1 ltac:(simpl; lia))).
    pose proof (parse_put W32 n [] w1 ltac:(simpl; lia)) as Ep2. rewrite app_nil_r in Ep2. by rewrite (bind_Ret _ _ _ _ _ Ep2). }
  destruct (receive_packet k c Flags.FRAGMENT_QUERY (query_body i (zlen orig) n) ws w2) as (bf & Er & _); try done;
    [by rewrite query_body_len|].
  exists wr', (set_rx bf [] w2). split; [unfold transmit; by rewrite Hl, Ep, Er|]. destruct w2 as [[]]. exact Hw2.
Qed.

(** ** Property *)

(** C6. A message too large for any fragment the receiver may ask for (more
    than 32745 bytes and more than its own fragment size) arrives although
    queries and answers are lost. The sender has just handed it to its writer, nothing
    else waits there and nothing else is being reassembled; its first packet
    gets through. Then the receiver's queries and the sender's answers, every
    packet made by [prepare_packet_to_send] and taken in by [process_bytes],
    get through or are lost in any order; after each loss the receiver's timer
    fires, at least 1.5 seconds after the receiver last looked at the clock,
    and [process_wait_list] asks again. On every such schedule on which at
    least as many exchanges get through as the message has bytes, the transfer
    ends: the receiver has handed exactly the bytes sent to the user, once,
    with the message's id and command, has handed over nothing else, and has
    forgotten the fragments; and when its last query gets through, the sender
    has forgotten a message that waits for no answer. The id of the
    message is below 255, the ids of both sides agree at the start, and the
    sender's own timer, ten seconds after its last answer, does not fire in
    between. (A smaller message can be answered whole, and the receiver then
    keeps the fragments: [whole_reply_keeps_fragments].) *)
Theorem lossy_transfer_completes m (d : D) ws wr (fs : list fate) :
  let i := next_tx_msg_id_ (self ws) in
  let c := Message_Item.cmd_ m in
  let orig := dev_content d in
  last (events ws) = Some (Ev_write m) -> Message_Item.wf m -> Message_Item.id_ m = None ->
  Message_Item.answer_id_ m = None -> Message_Item.flags_ m = 0 -> c <> Cmd.REMOVE_FRAGMENT ->
  Message_Item.data_device_ m = Some d -> dev_is_open d = true -> dev_pos d = dev_size d ->
  Z.max (Message_Item.fragment_size_ m) HELPZ_MAX_MESSAGE_DATA_SIZE < zlen orig < HELPZ_PROTOCOL_MAX_MESSAGE_SIZE ->
  0 <= i < 255 -> waiting_messages_ (self ws) = [] -> ready_writer ws -> rx_empty ws -> steady ws -> quiet ws ->
  next_rx_msg_id_ (self wr) = i -> next_tx_msg_id_ (self wr) = next_rx_msg_id_ (self ws) ->
  ready_writer wr -> rx_empty wr -> fragmented_messages_ (self wr) = [] ->
  env_throws wr (Ev_process_message i c orig) = false ->
  monotone (env_clock wr) -> Forall (late (env_clock wr)) fs -> zlen orig <= through fs ->
  exists pre s1 ws' wr', pre `prefix_of` fs
    /\ transmit ws wr = Some s1 /\ attempts pre s1 = Some (ws', wr')
    /\ processed (events wr') = processed (events wr) ++ [(i, c, orig)]
    /\ StdMap.find i (fragmented_messages_ (self wr')) = None
    /\ (Message_Item.answer_func_ m = None ->
        exists wr'' ws'', transmit wr' ws' = Some (wr'', ws'') /\ waiting_messages_ (self ws'') = []).
Proof.
  intros i c orig Hl Hwf Hid Ha Hfl Hc Hd Hod Hpos Hsz Hi Hw Hrw Hrx Hst Hq Hnr Htx Hrw2 Hrx2 Hfr Hth Hmono Hlate Hfs.
  assert (only i wr) as Ho by (intros x; by rewrite Hfr).
  destruct (transfer_starts Hcomp m d ws wr) as (ws1 & wr1 & Et & Hsend & Hrecv & Hpe & Hcore & Hclk & Ho1); try done;
    [rewrite Hfr; constructor|by rewrite Hfr|].
  unfold core in Hcore. injection Hcore as C1 C2 _ _ _ _ _ C8 _.
  destruct Hwf as (_ & _ & Hwc & _ & Hwf & _). pose proof Hq as (Q1 & Q2 & Q3).
  destruct (attempts_complete i c (Message_Item.answer_func_ m) orig (Z.max (Message_Item.fragment_size_ m) HELPZ_MAX_MESSAGE_DATA_SIZE) (env_clock wr) fs
    (next_rx_msg_id_ (self ws)) (zlen orig) ws1 wr1) as (pre & ws2 & wr2 & Hpre & E & [Hnone Hpr] & Hend);
    try done; [unfold is_u8; lia| | |].
  { change HELPZ_MAX_MESSAGE_DATA_SIZE with 32745. change HELPZ_MAX_PACKET_DATA_SIZE with 65490 in *. lia. }
  { split_and!; auto. unfold quiet. by rewrite C1, C2, C8. }
  exists pre, (ws1, wr1), ws2, wr2. split_and!; try done; [by rewrite Hpr, Hpe|].
  intros Hfn. destruct Hend as (k' & Hk' & Hs2 & Hf2). rewrite Hfn in Hs2.
  apply (sender_released i c orig k'); try done; [unfold is_u8; lia|]. by destruct Hsz.
Qed.

End loss.

(** ** Witness *)

Module TransferLoss_Witness.
Import QtRef Fragment_Witness Transfer_Witness.

(** A fifth of a second between two looks at the clock. *)
Definition slow (k : nat) : Z := milliseconds 200 * Z.of_nat k.
Definition source : World mem mem := mkWorld proto slow (fun _ => false) 0 [Ev_write large_msg].
Definition sink : World mem mem := mkWorld proto slow (fun _ => false) 0 [].
Definition schedule : list fate := [Answer_lost 8; Query_lost 8; Through; Query_lost 9] ++ replicate (Z.to_nat 32800) Through.

Lemma through_app fs fs' : through (fs ++ fs') = through fs + through fs'.
Proof. induction fs as [|[] fs IH]; cbn [app through]; rewrite ?IH; lia. Qed.

Lemma through_replicate n : through (replicate n Through) = Z.of_nat n.
Proof. induction n as [|n IH]; [done|]. cbn [replicate through]. rewrite IH. lia. Qed.

Lemma slow_late n : (8 <= n)%nat -> forall k, slow k + milliseconds 1500 <= slow (k + n)%nat.
Proof. intros Hn k. unfold slow, milliseconds. lia. Qed.

Lemma schedule_late : Forall (late (env_clock sink)) schedule.
Proof.
  change (env_clock sink) with slow. unfold schedule. apply (proj2 (Forall_app _ _ _)).
  split; [|by apply Forall_replicate]. rewrite !Forall_cons.
  split; [exact (slow_late 8 ltac:(lia))|split; [exact (slow_late 8 ltac:(lia))|split; [exact I|split; [exact (slow_late 9 ltac:(lia))|constructor]]]].
Qed.

Lemma schedule_through : through schedule = 32801.
Proof. unfold schedule. rewrite through_app, through_replicate, Z2Nat.id by lia. reflexivity. Qed.

Lemma lossy_transfer_completes_witness :
  exists pre s1 ws' wr', pre `prefix_of` schedule
    /\ transmit source sink = Some s1 /\ attempts pre s1 = Some (ws', wr')
    /\ processed (events wr') = [(0, 16, large)] /\ StdMap.find 0 (fragmented_messages_ (self wr')) = None
    /\ exists wr'' ws'', transmit wr' ws' = Some (wr'', ws'') /\ waiting_messages_ (self ws'') = [].
Proof.
  assert (zlen large = 32800) as Hlen by (vm_compute; reflexivity).
  assert (ready_writer source) as Hf by (exists the_writer; split; reflexivity).
  assert (ready_writer sink) as Ht by (exists the_writer; split; reflexivity).
  assert (rx_empty source) as Hrf by (repeat split; reflexivity).
  assert (rx_empty sink) as Hrt by (repeat split; reflexivity).
  assert (steady source) as Hst by (intros k; change (env_clock source) with slow; unfold slow, milliseconds, seconds; lia).
  assert (quiet source) as Hq by (split; [reflexivity|split; [split; [discriminate|reflexivity]|constructor]]).
  assert (Message_Item.wf large_msg) as Hwf by (apply Message_Item.make_wf; [split; reflexivity || discriminate|discriminate]).
  assert (forall bs : list byte, zlen bs < 65536 -> zlen (qCompress bs) < 2000000000) as Hcomp
    by (intros bs Hb; change (qCompress bs) with bs; lia).
  assert (Z.max (Message_Item.fragment_size_ large_msg) HELPZ_MAX_MESSAGE_DATA_SIZE < zlen large < HELPZ_PROTOCOL_MAX_MESSAGE_SIZE)
    as Hsz by (rewrite Hlen; split; reflexivity).
  assert (monotone (env_clock sink)) as Hm by (intros k; change (slow k <= slow (S k)); unfold slow, milliseconds; lia).
  assert (zlen large <= through schedule) as Hth by (rewrite Hlen, schedule_through; discriminate).
  destruct (lossy_transfer_completes Hcomp large_msg large_dev source sink schedule eq_refl Hwf eq_refl eq_refl eq_refl ltac:(discriminate)
    eq_refl eq_refl (eq_sym Hlen) Hsz ltac:(split; [discriminate|reflexivity]) eq_refl Hf Hrf Hst Hq eq_refl eq_refl Ht Hrt eq_refl eq_refl
    Hm schedule_late Hth) as (pre & s1 & ws' & wr' & E1 & E2 & E3 & E4 & E5 & E6).
  exists pre, s1, ws', wr'. split; [exact E1|]. split; [exact E2|]. split; [exact E3|]. split; [exact E4|]. split; [exact E5|].
  exact (E6 eq_refl).
Defined.

End TransferLoss_Witness.
