(* ===== verification/PacketBounds.v ===== *)
(** * The size of a packet

    [net_defs.h] derives the largest fragment from the largest UDP payload;
    this is what the packets of [prepare_packet_to_send] really take. *)

From S2P Require Import Prelude StdMap QtInterface MessageItem FragmentedMessage ProtocolState ProtocolSend ProtocolRecv ProtocolFrame ProtocolStream StreamProofs SendProofs.

Section bounds.
Context {D B : Type} `{HD : QIODeviceLaws D} `{HSL : QDataStreamLaws} `{HCL : QtBytesLaws}.
Implicit Types (w : World D B) (m : Message_Item.t D).

(** The byte of an answer id. *)
Definition answer_size m : Z := match Message_Item.answer_id_ m with Some _ => 1 | None => 0 end.

Lemma add_raw_len data pos max (dev : D) :
  0 <= max ->
  zlen data <= zlen (add_raw_data_to_packet data pos max dev).1 <= zlen data + max.
Proof.
  intros Hm. unfold add_raw_data_to_packet.
  pose proof (u32_range (dev_size dev - pos)) as [Hu _].
  set (n := Z.min max (u32 (dev_size dev - pos))). assert (0 <= n <= max) as Hn by lia.
  destruct (read_resize_len n (dev_seek pos dev) ltac:(lia)) as [_ Hr].
  destruct (dev_read n (dev_seek pos dev)) as [bs dev']. cbn [fst] in *. rewrite zlen_app. lia.
Qed.

Lemma packet_data_len m dev :
  Message_Item.wf m ->
  zlen (packet_data m dev).1.2 <= answer_size m + Message_Item.fragment_size m
    + (if Message_Item.fragment_size m <? dev_size dev then 8 else 0).
Proof.
  intros (_ & _ & _ & _ & [Hfs _] & _). unfold packet_data, answer_size.
  change (Message_Item.fragment_size m) with (Message_Item.fragment_size_ m).
  set (fs := Message_Item.fragment_size_ m) in *.
  assert (forall (n : width) v, zlen (put n v) = wbytes n) as Hp by apply put_len.
  destruct (Message_Item.answer_id_ m) as [a|]; (destruct (Z.ltb_spec fs (dev_size dev));
    [destruct (dev_atEnd dev); [cbn [fst snd]; rewrite ?zlen_app, ?Hp, ?zlen_nil; simpl; lia|]|]);
  match goal with |- context [add_raw_data_to_packet ?d ?p ?n ?v] =>
    pose proof (add_raw_len d p n v ltac:(lia)) as [_ Hl];
    destruct (add_raw_data_to_packet d p n v) as [bs dev'] end;
  cbn [fst snd] in *; rewrite ?zlen_app, ?Hp, ?zlen_nil in Hl; simpl in Hl; lia.
Qed.

(** C18. The size of a packet. A body that is not compressed makes a packet of
    nine bytes more, and such a packet fits the largest UDP payload, with one
    exception: a fragment of an answer with the largest fragment size is one
    byte too long. A compressed packet is nine bytes longer than what
    [qCompress] returns. *)
Theorem packet_size_bounds m dev w :
  Message_Item.wf m -> Message_Item.data_device_ m = Some dev ->
  zlen (qCompress (packet_data m dev).1.2) < 4294967295 ->
  exists packet w', prepare_packet_to_send (Some m) w = (Ret packet, w')
    /\ zlen packet = 9 + (if Message_Item.min_compress_size m <? zlen (packet_data m dev).1.2
                          then zlen (qCompress (packet_data m dev).1.2) else zlen (packet_data m dev).1.2)
    /\ (zlen (packet_data m dev).1.2 <= Message_Item.min_compress_size m ->
        zlen packet <= HELPZ_MAX_UDP_PACKET_SIZE + 1
        /\ (HELPZ_MAX_UDP_PACKET_SIZE < zlen packet ->
            Message_Item.answer_id_ m <> None
            /\ Message_Item.fragment_size m = HELPZ_MAX_PACKET_DATA_SIZE
            /\ Message_Item.fragment_size m < dev_size dev)).
Proof.
  intros Hwf Hdev Hcl. destruct (prepare_packet_value m dev w Hdev) as (w' & E).
  exists (expected_packet m dev w), w'. split; [done|].
  pose proof (packet_data_len m dev Hwf) as Hlen. destruct Hwf as (_ & _ & _ & _ & [_ Hfs] & _).
  change (Message_Item.fragment_size m) with (Message_Item.fragment_size_ m) in *.
  unfold HELPZ_MAX_PACKET_DATA_SIZE, HELPZ_MAX_UDP_PACKET_SIZE in *.
  unfold expected_packet. destruct (packet_data m dev) as [[flags data] dev'] eqn:Ed. cbn [fst snd] in *.
  pose proof (zlen_nonneg data) as Hnn.
  assert (0 <= answer_size m <= 1 /\ (answer_size m = 1 -> Message_Item.answer_id_ m <> None)) as [Ha Ha1].
  { unfold answer_size. by destruct (Message_Item.answer_id_ m). }
  assert (zlen data < 65500) as Hz by (destruct (_ <? _); lia).
  unfold packet_compress. rewrite u32_small by (unfold is_u32; lia).
  destruct (Z.ltb_spec (Message_Item.min_compress_size m) (zlen data)).
  - rewrite packet_len by lia. split; [done|]. lia.
  - rewrite packet_len by lia. split; [done|]. intros _.
    destruct (Z.ltb_spec (Message_Item.fragment_size_ m) (dev_size dev)); [|lia].
    split; [lia|]. intros Hbig. split; [apply Ha1; lia|lia].
Qed.

(** The exception is real. *)
Lemma answer_fragment_too_long m dev a w :
  Message_Item.wf m -> Message_Item.data_device_ m = Some dev -> Message_Item.answer_id_ m = Some a ->
  Message_Item.fragment_size m = HELPZ_MAX_PACKET_DATA_SIZE -> 65499 <= Message_Item.min_compress_size m ->
  dev_pos dev = 0 -> 65490 < dev_size dev < 2147483648 ->
  exists packet w', prepare_packet_to_send (Some m) w = (Ret packet, w')
    /\ zlen packet = HELPZ_MAX_UDP_PACKET_SIZE + 1.
Proof.
  intros Hwf Hdev Ha Hfs Hmc Hpos Hsz. destruct (prepare_packet_value m dev w Hdev) as (w' & E).
  exists (expected_packet m dev w), w'. split; [done|].
  assert (zlen (packet_data m dev).1.2 = 65499) as Hlen.
  { unfold packet_data. rewrite Ha, Hfs.
    change HELPZ_MAX_PACKET_DATA_SIZE with 65490. rewrite (proj2 (Z.ltb_lt 65490 _)) by lia.
    unfold dev_atEnd, dev_bytesAvailable. rewrite Hpos, (proj2 (Z.leb_gt _ 0)) by lia.
    unfold add_raw_data_to_packet. change (u32 0) with 0. rewrite Z.sub_0_r, (u32_small (dev_size dev)) by (unfold is_u32; lia).
    rewrite Z.min_l by lia.
    destruct (read_resize_len 65490 (dev_seek 0 dev) ltac:(lia)) as [_ Hr].
    destruct (dev_read 65490 (dev_seek 0 dev)) as [bs dev']. cbn [fst snd] in *.
    rewrite zlen_app, Hr, !zlen_app, !put_len. done. }
  unfold expected_packet. destruct (packet_data m dev) as [[flags data] dev']. cbn [fst snd] in Hlen.
  unfold packet_compress. rewrite Hlen. change (u32 65499) with 65499.
  rewrite (proj2 (Z.ltb_ge (Message_Item.min_compress_size m) 65499)) by lia.
  rewrite packet_len by lia. rewrite Hlen. done.
Qed.

End bounds.

Module Bounds_Witness.
Import QtRef Stream_Witness.

Definition dev2 : mem := {| m_content := [x01; x02]; m_pos := 2; m_open := true |}.
Definition msg2 : Message_Item.t mem := Message_Item.make 16 (Some 5) (Some dev2) (milliseconds 3000).

Lemma packet_size_bounds_witness :
  exists packet w', prepare_packet_to_send (Some msg2) w0 = (Ret packet, w') /\ zlen packet = 12.
Proof.
  destruct (packet_size_bounds msg2 dev2 w0) as (packet & w' & E & Hl & _).
  - apply Message_Item.make_wf; [split; [discriminate|reflexivity]|].
    intros x Hx. injection Hx as <-. split; [discriminate|reflexivity].
  - reflexivity.
  - reflexivity.
  - exists packet, w'. split; [exact E|]. rewrite Hl. vm_compute. reflexivity.
Defined.

End Bounds_Witness.
