(* ===== verification/ProtocolTimer.v ===== *)
(** * Net::Protocol_Timer

    [src/Network/net_protocol_timer.h] and [.cpp]: a thread that waits for
    the earliest time point of a map and reports the items that are due. The
    thread and the callers of [add] and [stop] share the map and two flags
    under a mutex, so the model is a step relation: a thread step runs from
    one point where the mutex is free to the next, and calls of [add] and
    [stop] happen between them, in any order. *)

From S2P Require Import Prelude StdMap.

Module Protocol_Timer.

Section timer.
(** An endpoint. *)
Context {E : Type}.

Record Item := mkItem { endpoint_ : E; data_ : Z }.

(** Where the thread is: at the loop condition, in [cond_.wait] ([None]) or
    [cond_.wait_until] (with the time point passed), calling the emitter for
    the items in its local queue, or finished. *)
Inductive point :=
| At_loop
| In_wait (until : option Z)
| Emitting (clients : list Item)
| Finished.

Record t := mk {
  break_flag_ : bool;
  new_timeout_flag_ : bool;
  items_ : StdMap.t Item;
  thread_ : point;
  emitted : list Item;  (** calls of [on_protocol_timeout], in order *)
}.

Definition init : t :=
  {| break_flag_ := false; new_timeout_flag_ := false; items_ := []; thread_ := At_loop; emitted := [] |}.

Definition stop (s : t) : t :=
  {| break_flag_ := true; new_timeout_flag_ := new_timeout_flag_ s; items_ := items_ s;
     thread_ := thread_ s; emitted := emitted s |}.

Definition add (time_point : Z) (item : Item) (s : t) : t :=
  {| break_flag_ := break_flag_ s; new_timeout_flag_ := true;
     items_ := (StdMap.emplace time_point item (items_ s)).1;
     thread_ := thread_ s; emitted := emitted s |}.

(** [join] returns when the thread function has. *)
Definition joined (s : t) : bool := match thread_ s with Finished => true | _ => false end.

Definition pred_func (s : t) : bool := break_flag_ s || new_timeout_flag_ s.

Definition at_point (p : point) (s : t) : t :=
  {| break_flag_ := break_flag_ s; new_timeout_flag_ := new_timeout_flag_ s; items_ := items_ s;
     thread_ := p; emitted := emitted s |}.

(** From the return of the wait to [lock.unlock()], or to the [break]. *)
Definition after_wait (timeout : bool) (now : Z) (s : t) : t :=
  if break_flag_ s then at_point Finished s
  else
    let '(clients, items) :=
      if timeout then StdMap.pop_until (now + milliseconds 10) (items_ s) else ([], items_ s) in
    {| break_flag_ := break_flag_ s; new_timeout_flag_ := false; items_ := items;
       thread_ := Emitting clients; emitted := emitted s |}.

(** One step of [run] at time [now]; [None] when the thread is blocked. *)
Definition run_step (now : Z) (s : t) : option t :=
  match thread_ s with
  | At_loop =>
      Some (if break_flag_ s then at_point Finished s
            else at_point (In_wait (match items_ s with [] => None | (tp, _) :: _ => Some tp end)) s)
  | In_wait None => if pred_func s then Some (after_wait false now s) else None
  | In_wait (Some tp) =>
      if pred_func s then Some (after_wait false now s)
      else if tp <=? now then Some (after_wait true now s)
      else None
  | Emitting [] => Some (at_point At_loop s)
  | Emitting (c :: clients) =>
      Some {| break_flag_ := break_flag_ s; new_timeout_flag_ := new_timeout_flag_ s; items_ := items_ s;
              thread_ := Emitting clients; emitted := emitted s ++ [c] |}
  | Finished => None
  end.

(** The thread alone at a fixed time, until it blocks; the fuel bounds the
    number of steps. *)
Fixpoint run (fuel : nat) (now : Z) (s : t) : t :=
  match fuel with
  | O => s
  | S fuel => match run_step now s with Some s' => run fuel now s' | None => s end
  end.

(** ** Behaviour of the object

    The ghost list [accepted] holds the items [add] has put into the map,
    with their time points. *)

Inductive step : Z -> t * list (Z * Item) -> t * list (Z * Item) -> Prop :=
| step_run now s s' acc : run_step now s = Some s' -> step now (s, acc) (s', acc)
| step_add now tp item s acc :
    step now (s, acc)
      (add tp item s, if (StdMap.emplace tp item (items_ s)).2 then acc ++ [(tp, item)] else acc)
| step_stop now s acc : step now (s, acc) (stop s, acc).

Definition queue (s : t) : list Item := match thread_ s with Emitting cs => cs | _ => [] end.

(** Everything accepted is in the map, in the queue or reported, once. *)
Definition accounted (s : t) (acc : list (Z * Item)) : Prop :=
  StdMap.sorted (items_ s) /\ emitted s ++ queue s ++ StdMap.values (items_ s) ≡ₚ map snd acc.

Lemma after_wait_accounted timeout now s acc :
  queue s = [] -> accounted s acc -> accounted (after_wait timeout now s) acc.
Proof.
  unfold accounted, after_wait. intros Hq [Hs Hp]. rewrite Hq in Hp.
  destruct (break_flag_ s); [done|].
  destruct timeout; [|done]. pose proof (StdMap.pop_until_app (now + milliseconds 10) (items_ s)) as Ha.
  pose proof (StdMap.pop_until_sorted (now + milliseconds 10) (items_ s) Hs) as Hs'.
  destruct (StdMap.pop_until _ _) as [cs rest]. simpl in *. split; [done|]. rewrite <- Hp, <- Ha. done.
Qed.

Lemma step_accounted now s acc s' acc' : accounted s acc -> step now (s, acc) (s', acc') -> accounted s' acc'.
Proof.
  intros Ha. inversion 1 as [? ? ? ? Hr|? tp item ? ?|? ? ?]; subst.
  - unfold run_step in Hr. destruct (thread_ s) as [| [tp|] |[|c cs]|] eqn:Et;
      assert (queue s = match thread_ s with Emitting cs => cs | _ => [] end) as Hq by done; rewrite Et in Hq.
    + simplify_eq. unfold accounted in *. destruct (break_flag_ s); simpl; by rewrite Hq in Ha.
    + destruct (pred_func s); [simplify_eq; by apply after_wait_accounted|].
      destruct (tp <=? now); simplify_eq. by apply after_wait_accounted.
    + destruct (pred_func s); simplify_eq. by apply after_wait_accounted.
    + simplify_eq. unfold accounted in *. simpl. by rewrite Hq in Ha.
    + simplify_eq. unfold accounted in *. simpl in *. rewrite Hq in Ha. by rewrite <- app_assoc.
    + done.
  - destruct Ha as [Hs Hp]. split; [by apply StdMap.emplace_sorted|]. unfold add, queue in *. simpl.
    destruct (StdMap.emplace tp item (items_ s)) as [m' []] eqn:Ee; simpl.
    + rewrite (StdMap.emplace_values_fresh _ _ _ _ Ee), map_app, <- Hp. simpl. solve_Permutation.
    + by rewrite (StdMap.emplace_same _ _ _ _ Ee).
  - done.
Qed.

(** ** No lost wake-up

    When the thread waits and no flag is set, it waits for the first item. *)

Definition first_time (m : StdMap.t Item) : option Z := match m with [] => None | (tp, _) :: _ => Some tp end.

Definition wait_ok (s : t) : Prop :=
  match thread_ s with
  | In_wait u => new_timeout_flag_ s = true \/ u = first_time (items_ s)
  | _ => True
  end.

Lemma after_wait_ok timeout now s : wait_ok (after_wait timeout now s).
Proof.
  unfold wait_ok, after_wait. destruct (break_flag_ s); [done|].
  by destruct timeout; [destruct (StdMap.pop_until _ _)|].
Qed.

Lemma step_wait_ok now s acc s' acc' : wait_ok s -> step now (s, acc) (s', acc') -> wait_ok s'.
Proof.
  intros Hw. inversion 1 as [? ? ? ? Hr|? tp item ? ?|? ? ?]; subst.
  - unfold run_step in Hr. destruct (thread_ s) as [| [tp|] |[|c cs]|] eqn:Et.
    + simplify_eq. unfold wait_ok. destruct (break_flag_ s); [done|]. by right.
    + destruct (pred_func s); [simplify_eq; apply after_wait_ok|].
      destruct (tp <=? now); simplify_eq. apply after_wait_ok.
    + destruct (pred_func s); simplify_eq. apply after_wait_ok.
    + by simplify_eq.
    + by simplify_eq.
    + done.
  - unfold wait_ok in *. simpl. destruct (thread_ s); try done. by left.
  - done.
Qed.

(** ** The thread alone *)

Lemma run_S fuel now s s' : run_step now s = Some s' -> run (S fuel) now s = run fuel now s'.
Proof. intros E1. simpl. by rewrite E1. Qed.

Lemma run_blocked fuel now s : run_step now s = None -> run fuel now s = s.
Proof. intros E1. destruct fuel; simpl; [done|]. by rewrite E1. Qed.

Lemma run_emit cs fuel now b n items em :
  run (length cs + fuel) now (mk b n items (Emitting cs) em) = run fuel now (mk b n items (Emitting []) (em ++ cs)).
Proof.
  revert em. induction cs as [|c cs IH]; intros em; simpl; [by rewrite app_nil_r|].
  rewrite IH. by rewrite <- app_assoc.
Qed.

(** What is due when the thread looks at time [now]: nothing before the
    first time point; from then on everything within the next 10 ms. *)
Definition is_due (now : Z) (m : StdMap.t Item) : bool :=
  match first_time m with Some tp => tp <=? now | None => false end.

Definition due (now : Z) (m : StdMap.t Item) : list Item * StdMap.t Item :=
  if is_due now m then StdMap.pop_until (now + milliseconds 10) m else ([], m).

Lemma pop_until_first bound (m : StdMap.t Item) tp :
  first_time (StdMap.pop_until bound m).2 = Some tp -> bound < tp.
Proof.
  induction m as [|[k v] m IH]; simpl; [done|]. destruct (Z.ltb_spec bound k); simpl.
  - intros [= <-]. done.
  - destruct (StdMap.pop_until bound m). exact IH.
Qed.

Lemma pop_until_len bound (m : StdMap.t Item) : (length (StdMap.pop_until bound m).1 <= length m)%nat.
Proof.
  induction m as [|[k v] m IH]; simpl; [done|]. destruct (bound <? k); simpl; [lia|].
  destruct (StdMap.pop_until bound m). simpl in *. lia.
Qed.

(** Waiting for the first item with no flag set: the due items are reported
    and the thread waits again. *)
Lemma run_from_wait fuel now items em :
  (length items + 4 <= fuel)%nat ->
  run fuel now (mk false false items (In_wait (first_time items)) em) =
    mk false false (due now items).2 (In_wait (first_time (due now items).2)) (em ++ (due now items).1).
Proof.
  intros Hf. unfold due, is_due. destruct (first_time items) as [tp|] eqn:Eft.
  2:{ rewrite run_blocked by done. simpl. by rewrite Eft, app_nil_r. }
  destruct (Z.leb_spec tp now) as [Hle|Hgt].
  2:{ rewrite run_blocked; [simpl; by rewrite Eft, app_nil_r|]. unfold run_step. simpl.
      by destruct (Z.leb_spec tp now); [lia|]. }
  pose proof (pop_until_len (now + milliseconds 10) items) as Hl.
  pose proof (pop_until_first (now + milliseconds 10) items) as Hfirst.
  destruct (StdMap.pop_until (now + milliseconds 10) items) as [cs rest] eqn:Ep. cbn [fst snd] in *.
  destruct fuel as [|fuel]; [lia|].
  rewrite (run_S _ _ _ (mk false false rest (Emitting cs) em)).
  2:{ unfold run_step. simpl. rewrite (proj2 (Z.leb_le tp now) Hle). unfold after_wait. simpl. by rewrite Ep. }
  replace fuel with (length cs + (fuel - length cs))%nat by lia. rewrite run_emit.
  destruct (fuel - length cs)%nat as [|[|f]] eqn:Ef; try lia.
  rewrite (run_S _ _ _ (mk false false rest At_loop (em ++ cs))) by done.
  rewrite (run_S _ _ _ (mk false false rest (In_wait (first_time rest)) (em ++ cs))) by done.
  apply run_blocked. unfold run_step. simpl. destruct (first_time rest) as [tp'|] eqn:Er; [|done].
  specialize (Hfirst tp' eq_refl). destruct (Z.leb_spec tp' now); [|done]. unfold milliseconds in *. lia.
Qed.

(** From the loop condition, whatever the flag. *)
Lemma run_from_loop fuel now n items em :
  (length items + 8 <= fuel)%nat ->
  run fuel now (mk false n items At_loop em) =
    mk false false (due now items).2 (In_wait (first_time (due now items).2)) (em ++ (due now items).1).
Proof.
  intros Hf. destruct fuel as [|fuel]; [lia|].
  rewrite (run_S _ _ _ (mk false n items (In_wait (first_time items)) em)) by done.
  destruct n; [|apply run_from_wait; lia].
  destruct fuel as [|[|[|fuel]]]; try lia.
  rewrite (run_S _ _ _ (mk false false items (Emitting []) em))
    by (unfold run_step; simpl; by destruct (first_time items)).
  rewrite (run_S _ _ _ (mk false false items At_loop em)) by done.
  rewrite (run_S _ _ _ (mk false false items (In_wait (first_time items)) em)) by done.
  apply run_from_wait. lia.
Qed.

Lemma run_to_wait fuel now s :
  wait_ok s -> break_flag_ s = false -> thread_ s <> Finished ->
  (length (queue s) + length (items_ s) + 12 <= fuel)%nat ->
  run fuel now s =
    mk false false (due now (items_ s)).2 (In_wait (first_time (due now (items_ s)).2))
      (emitted s ++ queue s ++ (due now (items_ s)).1).
Proof.
  destruct s as [b n items th em]. unfold wait_ok, queue. simpl. intros Hw -> Hth Hf.
  destruct th as [|u|cs|]; try done; simpl in *.
  - by rewrite run_from_loop by lia.
  - destruct n.
    + destruct fuel as [|[|fuel]]; try lia.
      rewrite (run_S _ _ _ (mk false false items (Emitting []) em)) by (unfold run_step; by destruct u).
      rewrite (run_S _ _ _ (mk false false items At_loop em)) by done.
      by rewrite run_from_loop by lia.
    + destruct Hw as [|Hu]; [done|]. subst u. by rewrite run_from_wait by lia.
  - replace fuel with (length cs + (S (fuel - length cs - 1)))%nat by lia. rewrite run_emit.
    rewrite (run_S _ _ _ (mk false n items At_loop (em ++ cs))) by done.
    rewrite run_from_loop by lia. by rewrite <- app_assoc.
Qed.

(** Steps the thread needs to finish once [stop] was called. *)
Definition to_finish (s : t) : nat :=
  match thread_ s with
  | Finished => 0
  | At_loop | In_wait _ => 1
  | Emitting cs => length cs + 2
  end.

(** ** Properties *)

(** C19. No timeout is lost and none is reported twice: in every run, with
    [add] and [stop] called at any points between the steps of the thread,
    the items reported, the items in the thread's queue and the items in the
    map are together exactly the items [add] accepted; and the thread, when
    it waits with no flag set, waits for the earliest item. *)
Theorem timer_accounts_for_all s acc :
  rtc (fun x y => exists now, step now x y) (init, []) (s, acc) -> accounted s acc /\ wait_ok s.
Proof.
  intros Hr.
  assert (forall x y, rtc (fun x y => exists now, step now x y) x y ->
    accounted x.1 x.2 /\ wait_ok x.1 -> accounted y.1 y.2 /\ wait_ok y.1) as Hgen.
  { induction 1 as [|[s1 a1] [s2 a2] z [now Hs] _ IH]; intros [Ha Hw]; [done|]. apply IH.
    split; [by eapply step_accounted|by eapply step_wait_ok]. }
  apply (Hgen _ _ Hr). split; [|done]. split; [constructor|done].
Qed.

(** C20. Timeouts come: left alone at time [now], the thread reports what is
    in its queue and, as soon as the earliest item is due, every item with a
    time point up to 10 ms later, in order; no other item is reported, and
    the thread then waits again for the earliest of the rest. *)
Theorem timer_reports_due now s fuel :
  wait_ok s -> break_flag_ s = false -> thread_ s <> Finished ->
  (length (queue s) + length (items_ s) + 12 <= fuel)%nat ->
  let s' := run fuel now s in
  emitted s' = emitted s ++ queue s ++ (due now (items_ s)).1
  /\ items_ s' = (due now (items_ s)).2
  /\ run_step now s' = None /\ wait_ok s'
  /\ (StdMap.sorted (items_ s) -> is_due now (items_ s) = true ->
      (due now (items_ s)).1
        = map snd (filter (fun p : Z * Item => p.1 <= now + milliseconds 10) (items_ s))).
Proof.
  intros Hw Hb Hth Hf s'. subst s'. rewrite run_to_wait by done. simpl. split_and!; [done|done| |by right|].
  - unfold run_step. simpl. unfold due, is_due. destruct (first_time (items_ s)) as [tp|] eqn:Eft; simpl; [|by rewrite Eft].
    destruct (Z.leb_spec tp now); simpl.
    + pose proof (pop_until_first (now + milliseconds 10) (items_ s)) as Hfirst.
      destruct (first_time (StdMap.pop_until (now + milliseconds 10) (items_ s)).2) as [tp'|]; [|done].
      specialize (Hfirst tp' eq_refl). destruct (Z.leb_spec tp' now); [|done]. unfold milliseconds in *. lia.
    + rewrite Eft. by destruct (Z.leb_spec tp now); [lia|].
  - intros Hs Hd. unfold due. rewrite Hd. by rewrite StdMap.pop_until_split.
Qed.

(** [stop] ends the thread: after it, at any time, the thread finishes
    within a number of steps given by its queue, whose items it still
    reports, without ever blocking; so the destructor's [join] returns. *)
Theorem timer_stops now s :
  joined (run (to_finish s) now (stop s)) = true
  /\ emitted (run (to_finish s) now (stop s)) = emitted s ++ queue s.
Proof.
  destruct s as [b n items th em]. unfold stop, to_finish, queue. simpl. destruct th as [|u|cs|]; simpl.
  - by rewrite app_nil_r.
  - unfold run_step. simpl. destruct u; simpl; by rewrite app_nil_r.
  - rewrite run_emit. done.
  - by rewrite app_nil_r.
Qed.

(** Only one of two items with the same time point is kept: [add] of a
    time point that is already in the map changes nothing but the flag, so
    of two endpoints that ask for the same time only the first is told. *)
Theorem same_time_reported_once now tp (a b : Item) :
  tp <= now -> emitted (run 14 now (add tp b (add tp a init))) = [a].
Proof.
  intros Hle. unfold add, init. simpl items_. simpl StdMap.emplace. rewrite Z.ltb_irrefl, Z.eqb_refl. simpl fst.
  rewrite run_to_wait; [|done|done|done|simpl; lia]. simpl. unfold due, is_due. simpl.
  rewrite (proj2 (Z.leb_le tp now) Hle). simpl. destruct (Z.ltb_spec (now + milliseconds 10) tp); [|done].
  unfold milliseconds in *. lia.
Qed.

End timer.
End Protocol_Timer.

(** ** Concrete instances of the properties *)

Module Protocol_Timer_Witness.
Import Protocol_Timer.

Definition item1 : @Item nat := mkItem 1%nat 0.
Definition item2 : @Item nat := mkItem 2%nat 0.
Definition two : @t nat := add (milliseconds 30) item2 (add (milliseconds 5) item1 init).

Lemma timer_accounts_for_all_witness :
  accounted two [(milliseconds 5, item1); (milliseconds 30, item2)] /\ wait_ok two.
Proof.
  apply timer_accounts_for_all. eapply rtc_l; [|eapply rtc_l; [|apply rtc_refl]].
  - exists 0. apply (step_add 0 (milliseconds 5) item1).
  - exists 0. apply (step_add 0 (milliseconds 30) item2).
Defined.

Lemma timer_reports_due_witness :
  emitted (run 20 (milliseconds 6) two) = [item1]
  /\ items_ (run 20 (milliseconds 6) two) = [(milliseconds 30, item2)].
Proof.
  destruct (timer_reports_due (milliseconds 6) two 20) as (He & Hi & _);
    [exact I | reflexivity | discriminate | simpl; lia |].
  exact (conj He Hi).
Defined.

Lemma same_time_reported_once_witness : emitted (run 14 7 (add 5 item2 (add 5 item1 init))) = [item1].
Proof. apply same_time_reported_once. lia. Defined.

End Protocol_Timer_Witness.
