(* ===== verification/QtString.v ===== *)
(** * QString

    A string is the list of its 16-bit code units. Concatenation, [size],
    [isEmpty], [at] are the list operations; here are literals, [count],
    [QStringList::join], [QString::number] of an unsigned integer, and
    [QString::arg], which is an interface: only its documented behaviour is
    used. *)

From S2P Require Import Prelude.
From Stdlib Require Ascii String.
Export Ascii.AsciiSyntax String.StringSyntax.
Delimit Scope char_scope with char.
Delimit Scope string_scope with string.

Bind Scope string_scope with String.string.
Bind Scope char_scope with Ascii.ascii.

Abbreviation qstring := (list Z).

(** A string literal of the source. *)
Definition str (s : String.string) : qstring :=
  map (fun a => Z.of_nat (Ascii.nat_of_ascii a)) (String.list_ascii_of_string s).

(** A character literal. *)
Definition chr (a : Ascii.ascii) : Z := Z.of_nat (Ascii.nat_of_ascii a).

Definition ch_question : Z := Eval vm_compute in chr "?"%char.
Definition ch_percent : Z := Eval vm_compute in chr "%"%char.
Definition ch_comma : Z := Eval vm_compute in chr ","%char.
Definition ch_open : Z := Eval vm_compute in chr "("%char.
Definition ch_close : Z := Eval vm_compute in chr ")"%char.
Definition ch_space : Z := Eval vm_compute in chr " "%char.
Definition ch_dot : Z := Eval vm_compute in chr "."%char.
Definition ch_equal : Z := Eval vm_compute in chr "="%char.
Definition ch_semicolon : Z := Eval vm_compute in chr ";"%char.

Definition isEmpty (s : qstring) : bool := match s with [] => true | _ => false end.

(** [s.count(ch)] *)
Fixpoint count (c : Z) (s : qstring) : Z :=
  match s with [] => 0 | x :: s' => (if x =? c then 1 else 0) + count c s' end.

(** [list.join(sep)] *)
Fixpoint join (sep : qstring) (l : list qstring) : qstring :=
  match l with
  | [] => []
  | [x] => x
  | x :: l' => x ++ sep ++ join sep l'
  end.

(** Decimal digits of an unsigned integer, most significant first. *)
Fixpoint digits (fuel : nat) (n : Z) : qstring :=
  match fuel with
  | O => []
  | S fuel => if n <? 10 then [48 + n] else digits fuel (n / 10) ++ [48 + n mod 10]
  end.

(** [QString::number] of an unsigned 32-bit integer, which has at most ten
    digits. *)
Definition number (n : Z) : qstring := digits 10 n.

(** ** QString::arg

    A format string is a sequence of literal text without ['%'] and of place
    markers. [arg a] replaces the markers with the lowest number. *)

Inductive piece := Text (s : qstring) | Marker (n : Z).

Definition render_piece (p : piece) : qstring :=
  match p with Text s => s | Marker n => ch_percent :: [48 + n] end.
Definition render (l : list piece) : qstring := concat (map render_piece l).

Definition marker_of (p : piece) : list Z := match p with Marker n => [n] | Text _ => [] end.
Definition markers (l : list piece) : list Z := concat (map marker_of l).

Definition fill (n : Z) (a : qstring) (p : piece) : piece :=
  match p with Marker k => if k =? n then Text a else p | Text _ => p end.

Definition no_char (c : Z) (s : qstring) : Prop := ~ In c s.

(** Markers are one digit, 1 to 9, not followed by another digit; text has no
    ['%']. *)
Definition not_digit_first (s : qstring) : bool :=
  match s with [] => true | c :: _ => negb ((48 <=? c) && (c <=? 57)) end.

Fixpoint format_ok (l : list piece) : Prop :=
  match l with
  | [] => True
  | Text s :: l' => no_char ch_percent s /\ format_ok l'
  | Marker n :: l' => 1 <= n <= 9 /\ not_digit_first (render l') = true /\ format_ok l'
  end.

Class QStringArg := { arg : qstring -> qstring -> qstring }.

Class QStringArgLaws `{QStringArg} :=
  arg_lowest : forall l n a, format_ok l -> In n (markers l) -> (forall k, In k (markers l) -> n <= k) ->
    arg a (render l) = render (map (fill n a) l).

(** ** Lemmas *)

Lemma count_app c s k : count c (s ++ k) = count c s + count c k.
Proof. induction s as [|x s IH]; simpl; [done|]. rewrite IH. lia. Qed.

Lemma count_nonneg c s : 0 <= count c s.
Proof. induction s as [|x s IH]; simpl; [done|]. destruct (x =? c); lia. Qed.

Lemma count_none c s : no_char c s -> count c s = 0.
Proof.
  unfold no_char. induction s as [|x s IH]; simpl; intros Hn; [done|].
  destruct (Z.eqb_spec x c); [tauto|]. rewrite IH by tauto. done.
Qed.

Lemma count_join c sep l :
  count c (join sep l) = fold_right Z.add 0 (map (count c) l) + count c sep * Z.max 0 (Z.of_nat (length l) - 1).
Proof.
  induction l as [|x l IH]; [simpl; lia|]. destruct l as [|y l]; [simpl; lia|].
  change (join sep (x :: y :: l)) with (x ++ sep ++ join sep (y :: l)). rewrite !count_app, IH.
  cbn [map fold_right length]. rewrite !Z.max_r by lia.
  replace (Z.of_nat (S (S (length l))) - 1) with (Z.of_nat (S (length l)) - 1 + 1) by lia. ring.
Qed.

Lemma no_char_app c s k : no_char c (s ++ k) <-> no_char c s /\ no_char c k.
Proof. unfold no_char. rewrite in_app_iff. tauto. Qed.

Lemma no_char_join c sep l : no_char c sep -> Forall (no_char c) l -> no_char c (join sep l).
Proof.
  intros Hs. induction 1 as [|x l Hx Hl IH]; [intros []|]. destruct l as [|y l]; [exact Hx|].
  change (join sep (x :: y :: l)) with (x ++ sep ++ join sep (y :: l)). by rewrite !no_char_app.
Qed.

#[export] Instance no_char_dec c s : Decision (no_char c s).
Proof.
  unfold no_char. destruct (in_dec Z.eq_dec c s) as [Hi|Hn].
  - right. intros Hn. by apply Hn.
  - by left.
Defined.

Lemma number_single n : 0 <= n < 10 -> number n = [48 + n].
Proof. intros Hn. unfold number. simpl. by destruct (Z.ltb_spec n 10); [|lia]. Qed.

(** ** An executable [arg] *)

Module QtStringRef.

Definition is_digit (c : Z) : bool := (48 <=? c) && (c <=? 57).

(** The lowest marker number of a string, one-digit markers. *)
Fixpoint lowest (s : qstring) : option Z :=
  match s with
  | [] => None
  | c :: s' =>
      let rest := lowest s' in
      if c =? ch_percent then
        match s' with
        | d :: _ =>
            if (49 <=? d) && (d <=? 57) then
              match rest with Some k => Some (Z.min (d - 48) k) | None => Some (d - 48) end
            else rest
        | [] => rest
        end
      else rest
  end.

Fixpoint replace_marker (n : Z) (a s : qstring) : qstring :=
  match s with
  | [] => []
  | c :: s' =>
      match s' with
      | d :: s'' => if (c =? ch_percent) && (d =? 48 + n) then a ++ replace_marker n a s'' else c :: replace_marker n a s'
      | [] => [c]
      end
  end.

#[export] Instance arg_ref : QStringArg := {
  arg a s := match lowest s with Some n => replace_marker n a s | None => s end;
}.

Lemma lowest_other c s : c <> ch_percent -> lowest (c :: s) = lowest s.
Proof. intros Hc. simpl. by destruct (Z.eqb_spec c ch_percent). Qed.

Lemma lowest_text s r : no_char ch_percent s -> lowest (s ++ r) = lowest r.
Proof.
  unfold no_char. induction s as [|c s IH]; intros Hn; [done|]. simpl app. simpl in Hn.
  rewrite lowest_other by (intros ->; tauto). apply IH. tauto.
Qed.

Lemma lowest_marker k r :
  1 <= k <= 9 ->
  lowest (ch_percent :: (48 + k) :: r) = match lowest r with Some x => Some (Z.min k x) | None => Some k end.
Proof.
  intros Hk. assert (48 + k <> ch_percent) as Hne by (unfold ch_percent; lia).
  cbn [lowest]. rewrite Z.eqb_refl. destruct (Z.eqb_spec (48 + k) ch_percent); [done|].
  replace ((49 <=? 48 + k) && (48 + k <=? 57)) with true by (symmetry; apply andb_true_iff; rewrite !Z.leb_le; lia).
  replace (48 + k - 48) with k by lia. by destruct (lowest r).
Qed.

Lemma replace_other n a c s : c <> ch_percent -> replace_marker n a (c :: s) = c :: replace_marker n a s.
Proof. intros Hc. destruct s as [|d s]; [done|]. simpl. by destruct (Z.eqb_spec c ch_percent). Qed.

Lemma replace_text n a s r : no_char ch_percent s -> replace_marker n a (s ++ r) = s ++ replace_marker n a r.
Proof.
  unfold no_char. induction s as [|c s IH]; intros Hn; [done|]. simpl app. simpl in Hn.
  rewrite replace_other by (intros ->; tauto). rewrite IH by tauto. done.
Qed.

Lemma replace_markers n a k r :
  1 <= k <= 9 ->
  replace_marker n a (ch_percent :: (48 + k) :: r) =
    (if k =? n then a else [ch_percent; 48 + k]) ++ replace_marker n a r.
Proof.
  intros Hk. cbn [replace_marker]. rewrite Z.eqb_refl. simpl andb.
  destruct (Z.eqb_spec (48 + k) (48 + n)), (Z.eqb_spec k n); try lia; [done|].
  simpl app. apply (f_equal (cons ch_percent)), (replace_other n a (48 + k) r). unfold ch_percent. lia.
Qed.

Lemma render_cons p l : render (p :: l) = render_piece p ++ render l.
Proof. done. Qed.

Lemma lowest_render l :
  format_ok l ->
  match lowest (render l) with
  | Some n => In n (markers l) /\ forall k, In k (markers l) -> n <= k
  | None => markers l = []
  end.
Proof.
  induction l as [|p l IH]; [done|]. destruct p as [s|k]; rewrite render_cons; simpl render_piece.
  - intros [Hs Hl]. rewrite lowest_text by done. exact (IH Hl).
  - intros (Hk & _ & Hl). specialize (IH Hl). simpl app. rewrite lowest_marker by done.
    change (markers (Marker k :: l)) with (k :: markers l).
    destruct (lowest (render l)) as [x|].
    + destruct IH as [Hin Hmin]. split.
      * destruct (Z.min_spec k x) as [[_ ->]|[_ ->]]; [by left|by right].
      * intros j [->|Hj]; [lia|]. specialize (Hmin j Hj). lia.
    + rewrite IH. split; [by left|]. intros j [->|[]]. lia.
Qed.

Lemma replace_render n a l : format_ok l -> replace_marker n a (render l) = render (map (fill n a) l).
Proof.
  induction l as [|p l IH]; [done|]. destruct p as [s|k]; rewrite render_cons; simpl render_piece.
  - intros [Hs Hl]. by rewrite replace_text, IH by done.
  - intros (Hk & _ & Hl). simpl app. rewrite replace_markers by done. rewrite IH by done.
    cbn [map fill]. rewrite render_cons. by destruct (k =? n).
Qed.

#[export] Instance arg_ref_laws : QStringArgLaws.
Proof.
  intros l n a Hf Hin Hmin. unfold arg, arg_ref. pose proof (lowest_render l Hf) as Hl.
  destruct (lowest (render l)) as [x|].
  - destruct Hl as [Hx Hxmin]. specialize (Hmin x Hx). specialize (Hxmin n Hin).
    replace x with n by lia. by apply replace_render.
  - rewrite Hl in Hin. done.
Qed.

End QtStringRef.
