(* ===== verification/DbQuery.v ===== *)
(** * DB::Table and the queries of DB::Base

    [src/DBMeta/db_table.h], [.cpp] and the functions of
    [src/Database/db_base.cpp] that build SQL text. An empty string is "no
    query". [escapeIdentifier] of the driver is a parameter. *)

From S2P Require Import Prelude QtString.

(** ** Table *)

Module Table.

Record t := mk { name_ : qstring; short_name_ : qstring; field_names_ : list qstring }.

(** [operator !] *)
Definition is_null (tb : t) : bool :=
  isEmpty (name_ tb) || match field_names_ tb with [] => true | _ => false end.

Definition set_name (name : qstring) (tb : t) : t := mk name (short_name_ tb) (field_names_ tb).
Definition set_short_name (short_name : qstring) (tb : t) : t := mk (name_ tb) short_name (field_names_ tb).
Definition set_field_names (field_names : list qstring) (tb : t) : t := mk (name_ tb) (short_name_ tb) field_names.

(** [db_table_name] of a class whose [table_name()] is [table_name]. *)
Definition db_table_name (table_name db_name : qstring) : qstring :=
  if isEmpty db_name then table_name else db_name ++ [ch_dot] ++ table_name.

End Table.

(** ** Place holders

    Both functions fill a string with ['?'] and then write the punctuation
    into it through a pointer; a write outside the string is undefined. *)

Definition filled (n : Z) : qstring := replicate (Z.to_nat n) ch_question.

Definition write_at (i c : Z) (s : qstring) : outcome qstring :=
  if (0 <=? i) && (i <? zlen s) then Ret (<[Z.to_nat i := c]> s) else Undef.

Definition and_then {A B} (o : outcome A) (k : A -> outcome B) : outcome B :=
  match o with Ret a => k a | Throw => Throw | Undef => Undef | Unfinished => Unfinished end.

(** The loop of [get_q_array]; [i] is [data - q_str.data()]. *)
Fixpoint q_array_loop (fuel : nat) (fields_count i curr_row : Z) (s : qstring) : outcome qstring :=
  if i <? zlen s then
    match fuel with
    | O => Unfinished
    | S fuel =>
        let step i curr_row s :=
          and_then (write_at i (if curr_row =? 0 then ch_open else ch_comma) s)
            (fun s => q_array_loop fuel fields_count (i + 2) (curr_row + 1) s) in
        if fields_count <=? curr_row then
          and_then (write_at i ch_close s)
            (fun s =>
               if i + 1 =? zlen s then Ret s
               else and_then (write_at (i + 1) ch_comma s) (fun s => step (i + 2) 0 s))
        else step i curr_row s
    end
  else Ret s.

(** Every round moves at least one character on. *)
Definition get_q_array (fields_count row_count : Z) : outcome qstring :=
  let s := filled ((fields_count * 2 + 2) * row_count - 1) in
  q_array_loop (length s) fields_count 0 0 s.

(** The loop of [insert_query] over [q_str]. *)
Fixpoint q_commas (fuel : nat) (i q_size data : Z) (s : qstring) : outcome qstring :=
  if i <? q_size then
    match fuel with
    | O => Unfinished
    | S fuel =>
        if negb (i mod 2 =? 0)
        then and_then (write_at data ch_comma s) (fun s => q_commas fuel (i + 2) q_size (data + 2) s)
        else q_commas fuel (i + 2) q_size data s
    end
  else Ret s.

Definition q_list (fields : Z) : outcome qstring :=
  let q_size := fields + (fields - 1) in
  q_commas (Z.to_nat q_size) 1 q_size 1 (filled q_size).

(** ** Queries *)

Section queries.
Context `{QStringArg} (escapeIdentifier : qstring -> qstring).
Implicit Types (table : Table.t) (field_ids : list Z).

Definition selected field_ids (i : Z) : bool :=
  match field_ids with [] => true | _ => existsb (Z.eqb i) field_ids end.

(** The fields with their positions. *)
Fixpoint escape_from (prefix : qstring) field_ids (i : Z) (names : list qstring) : list qstring :=
  match names with
  | [] => []
  | n :: names' =>
      (if selected field_ids i
       then [escapeIdentifier (if isEmpty prefix then n else prefix ++ n)] else [])
        ++ escape_from prefix field_ids (i + 1) names'
  end.

Definition escape_fields table field_ids (use_short_name : bool) : list qstring :=
  let table_short_name :=
    if use_short_name && negb (isEmpty (Table.short_name_ table))
    then Table.short_name_ table ++ [ch_dot] else [] in
  escape_from table_short_name field_ids 0 (Table.field_names_ table).

Definition create_table_query table (types : list qstring) : qstring :=
  if Table.is_null table || negb (zlen (Table.field_names_ table) =? zlen types) then []
  else
    let columns_info := zip_with (fun n t => n ++ [ch_space] ++ t) (Table.field_names_ table) types in
    arg (join [ch_comma] columns_info) (arg (Table.name_ table) (str "create table if not exists %1 (%2)")).

Definition select_query table (suffix : qstring) field_ids : qstring :=
  if Table.is_null table then []
  else
    let table_name :=
      if isEmpty (Table.short_name_ table) then Table.name_ table
      else Table.name_ table ++ [ch_space] ++ Table.short_name_ table in
    arg suffix (arg table_name (arg (join [ch_comma] (escape_fields table field_ids true))
      (str "SELECT %1 FROM %2 %3;"))).

Definition insert_query table (values_size : Z) (suffix : qstring) field_ids (method : qstring) : outcome qstring :=
  let escapedFields := escape_fields table field_ids false in
  if Table.is_null table || (zlen escapedFields =? 0)
     || negb (count ch_question suffix + zlen escapedFields =? values_size)
  then Ret []
  else
    and_then (q_list (zlen escapedFields)) (fun q_str =>
      let sql := arg q_str (arg (join [ch_comma] escapedFields) (arg (Table.name_ table)
                   (method ++ str " INTO %1(%2) VALUES(%3)"))) in
      let sql := if isEmpty suffix then sql else sql ++ [ch_space] ++ suffix in
      Ret (sql ++ [ch_semicolon])).

Definition update_query table (values_size : Z) (where_ : qstring) field_ids : qstring :=
  let escapedFields := escape_fields table field_ids false in
  if Table.is_null table || (zlen escapedFields =? 0)
     || negb (count ch_question where_ + zlen escapedFields =? values_size)
  then []
  else
    let params := map (fun f => f ++ str "=?") escapedFields in
    let sql := arg (join [ch_comma] params) (arg (Table.name_ table) (str "UPDATE %1 SET %2")) in
    if isEmpty where_ then sql else sql ++ str " WHERE " ++ where_.

Definition del_query (table_name where_ : qstring) : qstring :=
  if isEmpty table_name then []
  else
    let sql := str "DELETE FROM " ++ table_name in
    if isEmpty where_ then sql else sql ++ str " WHERE " ++ where_.

Definition truncate_query (table_name : qstring) : qstring :=
  str "TRUNCATE TABLE " ++ table_name ++ [ch_semicolon].

Definition row_count_query (table_name where_ : qstring) : qstring :=
  let sql := str "SELECT COUNT(*) FROM " ++ table_name in
  if isEmpty where_ then sql else sql ++ str " WHERE " ++ where_.

End queries.
