(* ===== verification/DbQueryProofs.v ===== *)
(** * Correctness of the SQL texts of DB::Base *)

From S2P Require Import Prelude QtString DbQuery.

(** ** Writing into a filled string *)

Lemma filled_cons n : 0 < n -> filled n = ch_question :: filled (n - 1).
Proof.
  intros Hn. unfold filled. replace (Z.to_nat n) with (S (Z.to_nat (n - 1))) by lia. done.
Qed.

Lemma zlen_filled n : 0 <= n -> zlen (filled n) = n.
Proof. intros Hn. unfold filled, zlen. rewrite length_replicate. lia. Qed.

Lemma write_at_app i c (done rest : qstring) x :
  i = zlen done -> write_at i c (done ++ x :: rest) = Ret (done ++ c :: rest).
Proof.
  intros ->. unfold write_at. pose proof (zlen_nonneg done). rewrite zlen_app.
  destruct (Z.leb_spec 0 (zlen done)); [|lia].
  destruct (Z.ltb_spec (zlen done) (zlen done + zlen (x :: rest))).
  - simpl andb. cbv iota. f_equal. unfold zlen. rewrite Nat2Z.id.
    by rewrite insert_app_r_alt, Nat.sub_diag by done.
  - unfold zlen in *. simpl in *. lia.
Qed.

(** ** get_q_array *)

(** The text of [n] more place holders after the first one. *)
Fixpoint commas (n : nat) : qstring := match n with O => [] | S n => ch_comma :: ch_question :: commas n end.

Lemma join_questions n : join [ch_comma] (replicate (S n) [ch_question]) = ch_question :: commas n.
Proof.
  induction n as [|n IH]; [done|].
  change (join [ch_comma] (replicate (S (S n)) [ch_question]))
    with ([ch_question] ++ [ch_comma] ++ join [ch_comma] (replicate (S n) [ch_question])).
  by rewrite IH.
Qed.

Ltac lists := rewrite <- ?app_assoc; simpl; rewrite <- ?app_assoc; done.

Lemma in_range_app (done rest : qstring) x i : i = zlen done -> (i <? zlen (done ++ x :: rest)) = true.
Proof.
  intros ->. apply Z.ltb_lt. rewrite zlen_app. unfold zlen. simpl. lia.
Qed.

(** The rest of a row. *)
Lemma q_array_row d done k fuel f c i s :
  1 <= c -> c + Z.of_nat d = f -> 0 <= k -> i = zlen done -> s = done ++ filled (2 * Z.of_nat d + k) ->
  q_array_loop (d + fuel) f i c s =
  q_array_loop fuel f (i + 2 * Z.of_nat d) f (done ++ commas d ++ filled k).
Proof.
  revert done c i s. induction d as [|d IH]; intros done c i s Hc Hf Hk -> ->.
  - simpl. replace f with c by lia. f_equal. lia.
  - cbn [q_array_loop Nat.add commas].
    rewrite (filled_cons (2 * Z.of_nat (S d) + k)), (filled_cons (2 * Z.of_nat (S d) + k - 1)) by lia.
    replace (2 * Z.of_nat (S d) + k - 1 - 1) with (2 * Z.of_nat d + k) by lia.
    rewrite in_range_app by done.
    destruct (Z.leb_spec f c); [lia|]. destruct (Z.eqb_spec c 0); [lia|].
    rewrite write_at_app by done. cbn [and_then].
    rewrite (IH (done ++ [ch_comma; ch_question])); [|lia|lia|done|by rewrite zlen_app|lists].
    f_equal; [lia|lists].
Qed.

(** A whole row after another one. *)
Fixpoint more_rows (n : nat) (f : nat) : qstring :=
  match n with
  | O => []
  | S n => ch_comma :: ch_open :: ch_question :: commas f ++ ch_close :: more_rows n f
  end.

Lemma q_array_rows r done fuel f i s :
  (r * S f + 1 <= fuel)%nat -> i = zlen done -> s = done ++ filled ((2 * Z.of_nat (S f) + 2) * Z.of_nat r + 1) ->
  q_array_loop fuel (Z.of_nat (S f)) i (Z.of_nat (S f)) s = Ret (done ++ ch_close :: more_rows r f).
Proof.
  revert done fuel i s. induction r as [|r IH]; intros done fuel i s Hfuel -> ->; (destruct fuel as [|fuel]; [lia|]);
    cbn [q_array_loop]; pose proof (zlen_nonneg done).
  - rewrite Z.mul_0_r. change (filled (0 + 1)) with [ch_question].
    rewrite in_range_app, Z.leb_refl, write_at_app by done. cbn [and_then].
    rewrite zlen_app. change (zlen [ch_close]) with 1. by rewrite Z.eqb_refl.
  - replace ((2 * Z.of_nat (S f) + 2) * Z.of_nat (S r) + 1)
      with (4 + (2 * Z.of_nat f + ((2 * Z.of_nat (S f) + 2) * Z.of_nat r + 1))) by lia.
    set (k := (2 * Z.of_nat (S f) + 2) * Z.of_nat r + 1). assert (0 <= k) by lia.
    set (more := 2 * Z.of_nat f + k).
    assert (filled (4 + more) = [ch_question; ch_question; ch_question; ch_question] ++ filled more) as ->.
    { rewrite (filled_cons (4 + more)), (filled_cons (4 + more - 1)), (filled_cons (4 + more - 1 - 1)),
        (filled_cons (4 + more - 1 - 1 - 1)) by lia.
      by replace (4 + more - 1 - 1 - 1 - 1) with more by lia. }
    simpl app. rewrite in_range_app, Z.leb_refl, write_at_app by done. cbn [and_then].
    destruct (Z.eqb_spec (zlen done + 1) (zlen (done ++ ch_close :: ch_question :: ch_question :: ch_question :: filled more)))
      as [Hbad|_]; [rewrite zlen_app in Hbad; unfold zlen in Hbad; simpl in Hbad; lia|].
    replace (done ++ ch_close :: ch_question :: ch_question :: ch_question :: filled more)
      with ((done ++ [ch_close]) ++ ch_question :: ch_question :: ch_question :: filled more) by lists.
    rewrite write_at_app by (by rewrite zlen_app). cbn [and_then].
    replace ((done ++ [ch_close]) ++ ch_comma :: ch_question :: ch_question :: filled more)
      with ((done ++ [ch_close; ch_comma]) ++ ch_question :: ch_question :: filled more) by lists.
    rewrite write_at_app by (by rewrite zlen_app). cbn [and_then Z.eqb].
    replace fuel with (f + (fuel - f))%nat by lia.
    rewrite (q_array_row f (done ++ [ch_close; ch_comma; ch_open; ch_question]) k);
      [|lia|lia|done|rewrite zlen_app; change (zlen [ch_close; ch_comma; ch_open; ch_question]) with 4; lia|unfold more; lists].
    rewrite (IH (done ++ [ch_close; ch_comma; ch_open; ch_question] ++ commas f)); [lists|lia| |unfold k; lists].
    rewrite !zlen_app. change (zlen [ch_close; ch_comma; ch_open; ch_question]) with 4.
    assert (zlen (commas f) = 2 * Z.of_nat f) as ->; [|lia].
    clear. induction f as [|f IH]; [done|]. unfold zlen in *. simpl. lia.
Qed.

(** One row of place holders, and the text [get_q_array] should build. *)
Definition row_text (f : Z) : qstring :=
  [ch_open] ++ join [ch_comma] (replicate (Z.to_nat f) [ch_question]) ++ [ch_close].
Definition q_array_text (f r : Z) : qstring := join [ch_comma] (replicate (Z.to_nat r) (row_text f)).

Lemma join_rows n f :
  join [ch_comma] (replicate (S n) (ch_open :: ch_question :: commas f ++ [ch_close]))
  = ch_open :: ch_question :: commas f ++ ch_close :: more_rows n f.
Proof.
  induction n as [|n IH]; [done|].
  change (join [ch_comma] (replicate (S (S n)) (ch_open :: ch_question :: commas f ++ [ch_close])))
    with ((ch_open :: ch_question :: commas f ++ [ch_close]) ++ [ch_comma]
          ++ join [ch_comma] (replicate (S n) (ch_open :: ch_question :: commas f ++ [ch_close]))).
  rewrite IH. cbn [more_rows]. lists.
Qed.

(** [get_q_array] builds, for at least one field and one row, exactly
    the rows of place holders [(?,...,?)] joined by commas; it never writes
    outside its string. *)
Theorem get_q_array_rows fields_count row_count :
  1 <= fields_count -> 1 <= row_count ->
  get_q_array fields_count row_count = Ret (q_array_text fields_count row_count).
Proof.
  intros Hf Hr. unfold get_q_array, q_array_text, row_text.
  set (f := Z.to_nat (fields_count - 1)). set (r := Z.to_nat (row_count - 1)).
  replace fields_count with (Z.of_nat (S f)) by lia. replace row_count with (Z.of_nat (S r)) by lia.
  rewrite !Nat2Z.id, join_questions. simpl app. rewrite join_rows.
  set (k := (2 * Z.of_nat (S f) + 2) * Z.of_nat r + 1). assert (0 <= k) by lia.
  replace ((Z.of_nat (S f) * 2 + 2) * Z.of_nat (S r) - 1) with (2 + (2 * Z.of_nat f + k)) by lia.
  assert (length (filled (2 + (2 * Z.of_nat f + k))) = S (f + (f + 2 + (2 * f + 4) * r)))%nat as ->.
  { unfold filled. rewrite length_replicate. apply Nat2Z.inj. rewrite Z2Nat.id by lia. unfold k. lia. }
  rewrite (filled_cons (2 + (2 * Z.of_nat f + k))), (filled_cons (2 + (2 * Z.of_nat f + k) - 1)) by lia.
  replace (2 + (2 * Z.of_nat f + k) - 1 - 1) with (2 * Z.of_nat f + k) by lia. cbn [q_array_loop].
  pose proof (in_range_app [] (ch_question :: filled (2 * Z.of_nat f + k)) ch_question 0 eq_refl) as Hin. simpl app in Hin.
  rewrite Hin. destruct (Z.leb_spec (Z.of_nat (S f)) 0); [lia|].
  pose proof (write_at_app 0 ch_open [] (ch_question :: filled (2 * Z.of_nat f + k)) ch_question eq_refl) as Hw.
  simpl app in Hw. cbn [Z.eqb]. rewrite Hw. cbn [and_then].
  rewrite (q_array_row f [ch_open; ch_question] k); [|lia|lia|done|done|done].
  rewrite (q_array_rows r ([ch_open; ch_question] ++ commas f)); [lists|lia| |unfold k; lists].
  rewrite zlen_app. change (zlen [ch_open; ch_question]) with 2.
  assert (zlen (commas f) = 2 * Z.of_nat f) as ->; [|lia].
  clear. induction f as [|f IH]; [done|]. unfold zlen in *. simpl. lia.
Qed.

(** ** insert_query *)

Lemma q_commas_ok d done fuel i q_size s :
  (d <= fuel)%nat -> i mod 2 = 1 -> i = zlen done -> q_size = i + 2 * Z.of_nat d -> s = done ++ filled (2 * Z.of_nat d) ->
  q_commas fuel i q_size i s = Ret (done ++ commas d).
Proof.
  revert done fuel i s. induction d as [|d IH]; intros done fuel i s Hfuel Hodd Hi -> ->.
  - assert ((i <? i + 2 * Z.of_nat 0) = false) as Hlt by (apply Z.ltb_ge; lia).
    destruct fuel; cbn [q_commas]; by rewrite Hlt.
  - destruct fuel as [|fuel]; [lia|]. cbn [q_commas commas].
    destruct (Z.ltb_spec i (i + 2 * Z.of_nat (S d))); [|lia]. rewrite Hodd. cbn [Z.eqb negb].
    rewrite (filled_cons (2 * Z.of_nat (S d))), (filled_cons (2 * Z.of_nat (S d) - 1)) by lia.
    rewrite write_at_app by done. cbn [and_then].
    rewrite (IH (done ++ [ch_comma; ch_question])); [lists|lia| | | |].
    + rewrite Z.add_mod, Hodd by lia. done.
    + rewrite zlen_app. change (zlen [ch_comma; ch_question]) with 2. lia.
    + lia.
    + replace (2 * Z.of_nat (S d) - 1 - 1) with (2 * Z.of_nat d) by lia. lists.
Qed.

Lemma q_list_ok k : 1 <= k -> q_list k = Ret (join [ch_comma] (replicate (Z.to_nat k) [ch_question])).
Proof.
  intros Hk. unfold q_list. set (d := Z.to_nat (k - 1)). replace k with (Z.of_nat (S d)) by lia.
  rewrite Nat2Z.id, join_questions.
  rewrite (q_commas_ok d [ch_question]); [done|lia|done|done|lia|].
  replace (Z.of_nat (S d) + (Z.of_nat (S d) - 1)) with (2 * Z.of_nat d + 1) by lia.
  rewrite (filled_cons (2 * Z.of_nat d + 1)) by lia. by replace (2 * Z.of_nat d + 1 - 1) with (2 * Z.of_nat d) by lia.
Qed.

Section query_proofs.
Context `{HA : QStringArgLaws} (escapeIdentifier : qstring -> qstring).

(** Texts without ['%'] and ['?']. *)
Definition plain (s : qstring) : Prop := no_char ch_percent s /\ no_char ch_question s.

Lemma not_digit_app t r : t <> [] -> not_digit_first t = true -> not_digit_first (t ++ r) = true.
Proof. by destruct t. Qed.

Ltac format_ok :=
  cbn [format_ok]; unfold render; simpl; rewrite ?app_nil_r;
  split_and!; first [done | lia | by apply not_digit_app].

(** The three replacements of a format with three markers. *)
Lemma arg3 t0 t1 t2 t3 a b c :
  no_char ch_percent t0 -> no_char ch_percent t1 -> no_char ch_percent t2 -> no_char ch_percent t3 ->
  not_digit_first t1 = true -> not_digit_first t2 = true -> not_digit_first t3 = true ->
  t1 <> [] -> t2 <> [] -> no_char ch_percent a -> no_char ch_percent b ->
  arg c (arg b (arg a (render [Text t0; Marker 1; Text t1; Marker 2; Text t2; Marker 3; Text t3])))
  = t0 ++ a ++ t1 ++ b ++ t2 ++ c ++ t3.
Proof.
  intros H0 H1 H2 H3 D1 D2 D3 N1 N2 Ha Hb.
  rewrite (arg_lowest _ 1); [|format_ok|by left|simpl; intros k [<-|[<-|[<-|[]]]]; lia].
  cbn [map fill Z.eqb Pos.eqb].
  rewrite (arg_lowest _ 2); [|format_ok|by left|simpl; intros k [<-|[<-|[]]]; lia].
  cbn [map fill Z.eqb Pos.eqb].
  rewrite (arg_lowest _ 3); [|format_ok|by left|simpl; intros k [<-|[]]; lia].
  cbn [map fill Z.eqb Pos.eqb]. unfold render. simpl. by rewrite app_nil_r.
Qed.

Lemma arg2 t0 t1 t2 a b :
  no_char ch_percent t0 -> no_char ch_percent t1 -> no_char ch_percent t2 ->
  not_digit_first t1 = true -> not_digit_first t2 = true -> t1 <> [] -> no_char ch_percent a ->
  arg b (arg a (render [Text t0; Marker 1; Text t1; Marker 2; Text t2])) = t0 ++ a ++ t1 ++ b ++ t2.
Proof.
  intros H0 H1 H2 D1 D2 N1 Ha.
  rewrite (arg_lowest _ 1); [|format_ok|by left|simpl; intros k [<-|[<-|[]]]; lia].
  cbn [map fill Z.eqb Pos.eqb].
  rewrite (arg_lowest _ 2); [|format_ok|by left|simpl; intros k [<-|[]]; lia].
  cbn [map fill Z.eqb Pos.eqb]. unfold render. simpl. by rewrite app_nil_r.
Qed.

(** The text of an INSERT with all its parts in place. *)
Definition insert_text (method name : qstring) (fields : list qstring) (suffix : qstring) : qstring :=
  method ++ str " INTO " ++ name ++ str "(" ++ join [ch_comma] fields ++ str ") VALUES("
    ++ join [ch_comma] (replicate (length fields) [ch_question]) ++ str ")"
    ++ (if isEmpty suffix then [] else [ch_space] ++ suffix) ++ [ch_semicolon].

Lemma count_questions n : count ch_question (join [ch_comma] (replicate n [ch_question])) = Z.of_nat n.
Proof.
  rewrite count_join. replace (count ch_question [ch_comma]) with 0 by done. rewrite Z.mul_0_l, Z.add_0_r.
  induction n as [|n IH]; [done|]. simpl replicate. cbn [map fold_right]. rewrite IH.
  change (count ch_question [ch_question]) with 1. lia.
Qed.

Lemma insert_text_count method name fields suffix :
  plain method -> plain name -> Forall plain fields ->
  count ch_question (insert_text method name fields suffix) = count ch_question suffix + zlen fields.
Proof.
  intros [_ Hm] [_ Hn] Hf. unfold insert_text. rewrite !count_app.
  rewrite (count_none _ method), (count_none _ name) by done.
  rewrite (count_none _ (join [ch_comma] fields)).
  2:{ apply no_char_join; [by intros [|[]]|]. eapply Forall_impl; [exact Hf|]. by intros x [_ ?]. }
  rewrite count_questions.
  assert (count ch_question (if isEmpty suffix then [] else [ch_space] ++ suffix) = count ch_question suffix) as ->
    by (by destruct suffix).
  change (count ch_question (str " INTO ")) with 0. change (count ch_question (str "(")) with 0.
  change (count ch_question (str ") VALUES(")) with 0. change (count ch_question (str ")")) with 0.
  change (count ch_question [ch_semicolon]) with 0. unfold zlen. lia.
Qed.

Lemma insert_query_text table n suffix ids method :
  let fields := escape_fields escapeIdentifier table ids false in
  Table.is_null table = false -> fields <> [] -> count ch_question suffix + zlen fields = n ->
  plain method -> plain (Table.name_ table) -> Forall plain fields ->
  insert_query escapeIdentifier table n suffix ids method = Ret (insert_text method (Table.name_ table) fields suffix).
Proof.
  intros fields Hnull Hne Hn [Hm _] [Hname _] Hf. unfold insert_query. fold fields. rewrite Hnull.
  assert (1 <= zlen fields) as Hlen by (destruct fields; [done|unfold zlen; simpl; lia]).
  destruct (Z.eqb_spec (zlen fields) 0); [lia|]. rewrite Hn, Z.eqb_refl. cbn [orb negb].
  rewrite q_list_ok by done. cbn [and_then]. f_equal.
  assert (method ++ str " INTO %1(%2) VALUES(%3)"
    = render [Text (method ++ str " INTO "); Marker 1; Text (str "("); Marker 2; Text (str ") VALUES("); Marker 3; Text (str ")")]) as ->.
  { unfold render. cbn [map concat render_piece]. rewrite <- app_assoc. reflexivity. }
  rewrite arg3; try done.
  - unfold insert_text. replace (Z.to_nat (zlen fields)) with (length fields) by (unfold zlen; lia).
    destruct suffix; cbn [isEmpty]; rewrite <- ?app_assoc; reflexivity.
  - apply no_char_app. split; [done|]. by apply (bool_decide_unpack _).
  - by apply (bool_decide_unpack _).
  - by apply (bool_decide_unpack _).
  - by apply (bool_decide_unpack _).
  - apply no_char_join; [by intros [|[]]|]. eapply Forall_impl; [exact Hf|]. by intros x [? _].
Qed.

(** The text of an UPDATE. *)
Definition update_text (name : qstring) (fields : list qstring) (where_ : qstring) : qstring :=
  str "UPDATE " ++ name ++ str " SET " ++ join [ch_comma] (map (fun f => f ++ str "=?") fields)
    ++ (if isEmpty where_ then [] else str " WHERE " ++ where_).

Lemma update_text_count name fields where_ :
  plain name -> Forall plain fields ->
  count ch_question (update_text name fields where_) = count ch_question where_ + zlen fields.
Proof.
  intros [_ Hn] Hf. unfold update_text. rewrite !count_app, (count_none _ name) by done.
  change (count ch_question (str "UPDATE ")) with 0. change (count ch_question (str " SET ")) with 0.
  assert (count ch_question (if isEmpty where_ then [] else str " WHERE " ++ where_) = count ch_question where_) as ->
    by (by destruct where_).
  rewrite count_join. change (count ch_question [ch_comma]) with 0. rewrite Z.mul_0_l, Z.add_0_r.
  assert (fold_right Z.add 0 (map (count ch_question) (map (fun f => f ++ str "=?") fields)) = zlen fields) as ->; [|lia].
  induction Hf as [|x l [_ Hx] _ IH]; [done|]. cbn [map fold_right]. rewrite IH, count_app, (count_none _ x) by done.
  change (count ch_question (str "=?")) with 1. unfold zlen. simpl. lia.
Qed.

Lemma update_query_text table n where_ ids :
  let fields := escape_fields escapeIdentifier table ids false in
  Table.is_null table = false -> fields <> [] -> count ch_question where_ + zlen fields = n ->
  plain (Table.name_ table) ->
  update_query escapeIdentifier table n where_ ids = update_text (Table.name_ table) fields where_.
Proof.
  intros fields Hnull Hne Hn [Hname _]. unfold update_query. fold fields. rewrite Hnull.
  destruct (Z.eqb_spec (zlen fields) 0) as [E|_]; [by apply zlen_0_inv in E|]. rewrite Hn, Z.eqb_refl. cbn [orb negb].
  change (str "UPDATE %1 SET %2") with (render [Text (str "UPDATE "); Marker 1; Text (str " SET "); Marker 2; Text []]).
  rewrite arg2; try done.
  - unfold update_text. destruct where_; cbn [isEmpty]; rewrite <- ?app_assoc, ?app_nil_r; reflexivity.
  - by apply (bool_decide_unpack _).
  - by apply (bool_decide_unpack _).
  - intros [].
Qed.

(** Which fields a query names: with no ids all of them, else those at the
    given positions, in the order of the table. *)
Lemma escape_fields_all table short :
  escape_fields escapeIdentifier table [] short
  = map (fun n => escapeIdentifier
      ((if short && negb (isEmpty (Table.short_name_ table)) then Table.short_name_ table ++ [ch_dot] else []) ++ n))
      (Table.field_names_ table).
Proof.
  unfold escape_fields.
  generalize (if short && negb (isEmpty (Table.short_name_ table)) then Table.short_name_ table ++ [ch_dot] else []).
  intros prefix. generalize 0.
  induction (Table.field_names_ table) as [|n l IH]; intros i; [done|]. simpl. rewrite IH. by destruct prefix.
Qed.

(** ** Properties *)

(** A prepared INSERT (or REPLACE) fits its values: when the number of
    values is the number of fields plus the place holders of the suffix, and
    names contain neither ['%'] nor ['?'], [insert_query] gives the complete
    statement, and it has exactly one place holder per value, whatever the
    suffix contains. *)
Theorem insert_query_placeholders table n suffix ids method :
  let fields := escape_fields escapeIdentifier table ids false in
  Table.is_null table = false -> fields <> [] -> count ch_question suffix + zlen fields = n ->
  plain method -> plain (Table.name_ table) -> Forall plain fields ->
  exists sql, insert_query escapeIdentifier table n suffix ids method = Ret sql
    /\ sql = insert_text method (Table.name_ table) fields suffix /\ count ch_question sql = n.
Proof.
  intros fields Hnull Hne Hn Hm Hname Hf. eexists. split_and!; [by apply insert_query_text|reflexivity|].
  by rewrite insert_text_count.
Qed.

(** The same for UPDATE with its condition. *)
Theorem update_query_placeholders table n where_ ids :
  let fields := escape_fields escapeIdentifier table ids false in
  Table.is_null table = false -> fields <> [] -> count ch_question where_ + zlen fields = n ->
  plain (Table.name_ table) -> Forall plain fields ->
  let sql := update_query escapeIdentifier table n where_ ids in
  sql = update_text (Table.name_ table) fields where_ /\ count ch_question sql = n.
Proof.
  intros fields Hnull Hne Hn Hname Hf sql. subst sql. rewrite update_query_text by done.
  split; [done|]. by rewrite update_text_count.
Qed.

(** With any other number of values there is no statement. *)
Lemma insert_query_mismatch table n suffix ids method :
  count ch_question suffix + zlen (escape_fields escapeIdentifier table ids false) <> n ->
  insert_query escapeIdentifier table n suffix ids method = Ret [].
Proof.
  intros Hn. unfold insert_query. rewrite (proj2 (Z.eqb_neq _ _) Hn). cbn [negb]. by rewrite orb_true_r.
Qed.

End query_proofs.

(** ** Concrete instances of the properties *)

Module Query_Witness.
Import QtStringRef.

Definition quote (s : qstring) : qstring := str "`" ++ s ++ str "`".
Definition device : Table.t := Table.mk (str "device") (str "d") [str "id"; str "name"].

Lemma get_q_array_rows_witness : get_q_array 2 3 = Ret (str "(?,?),(?,?),(?,?)").
Proof. rewrite get_q_array_rows; [reflexivity | lia | lia]. Defined.

Lemma insert_query_placeholders_witness :
  exists sql, insert_query quote device 3 (str "ON DUPLICATE KEY UPDATE name=?") [] (str "INSERT") = Ret sql
    /\ sql = str "INSERT INTO device(`id`,`name`) VALUES(?,?) ON DUPLICATE KEY UPDATE name=?;"
    /\ count ch_question sql = 3.
Proof.
  apply (insert_query_placeholders quote device 3 (str "ON DUPLICATE KEY UPDATE name=?") [] (str "INSERT"));
    try reflexivity; try discriminate.
  - split; by apply (bool_decide_unpack _).
  - split; by apply (bool_decide_unpack _).
  - repeat constructor; by apply (bool_decide_unpack _).
Defined.

Lemma update_query_placeholders_witness :
  update_query quote device 2 (str "id=?") [1] = str "UPDATE device SET `name`=? WHERE id=?"
  /\ count ch_question (update_query quote device 2 (str "id=?") [1]) = 2.
Proof.
  apply (update_query_placeholders quote device 2 (str "id=?") [1]); try reflexivity; try discriminate.
  - split; by apply (bool_decide_unpack _).
  - repeat constructor; by apply (bool_decide_unpack _).
Defined.

End Query_Witness.
