(* ===== verification/DbBase.v ===== *)
(** * DB::Connection_Info and DB::Base

    [src/Database/db_connection_info.cpp] and [src/Database/db_base.cpp]: the
    connection of a [Base] object and [exec], which every query goes through.
    QtSql is outside: the outcome of the n-th [QSqlDatabase::open()] is
    [env_open n], of the n-th [QSqlQuery::exec()] is [env_exec n] (the result
    of the statement, or none when it failed). Qt's table of named
    connections is [registry]: a name that is present is valid, its flag says
    whether it is open. Log output is left out. *)

From S2P Require Import Prelude QtString DbQuery.

Module Connection_Info.

Record t := mk {
  port_ : Z;
  driver_name_ : qstring;
  connect_options_ : qstring;
  host_ : qstring;
  db_name_ : qstring;
  login_ : qstring;
  password_ : qstring;
  prefix_ : qstring;
}.

(** The default constructor. *)
Definition default_info : t :=
  {| port_ := -1; driver_name_ := []; connect_options_ := []; host_ := []; db_name_ := [];
     login_ := []; password_ := []; prefix_ := [] |}.

(** The constructor with every parameter; [driver_name] has the default
    ["QMYSQL"] and [connect_options] none. *)
Definition make (db_name login password host : qstring) (port : Z) (prefix driver_name connect_options : qstring) : t :=
  {| port_ := port; driver_name_ := driver_name; connect_options_ := connect_options; host_ := host;
     db_name_ := db_name; login_ := login; password_ := password; prefix_ := prefix |}.

Definition set_port v i := make (db_name_ i) (login_ i) (password_ i) (host_ i) v (prefix_ i) (driver_name_ i) (connect_options_ i).
Definition set_driver_name v i := make (db_name_ i) (login_ i) (password_ i) (host_ i) (port_ i) (prefix_ i) v (connect_options_ i).
Definition set_connect_options v i := make (db_name_ i) (login_ i) (password_ i) (host_ i) (port_ i) (prefix_ i) (driver_name_ i) v.
Definition set_host v i := make (db_name_ i) (login_ i) (password_ i) v (port_ i) (prefix_ i) (driver_name_ i) (connect_options_ i).
Definition set_db_name v i := make v (login_ i) (password_ i) (host_ i) (port_ i) (prefix_ i) (driver_name_ i) (connect_options_ i).
Definition set_login v i := make (db_name_ i) v (password_ i) (host_ i) (port_ i) (prefix_ i) (driver_name_ i) (connect_options_ i).
Definition set_password v i := make (db_name_ i) (login_ i) v (host_ i) (port_ i) (prefix_ i) (driver_name_ i) (connect_options_ i).
Definition set_prefix v i := make (db_name_ i) (login_ i) (password_ i) (host_ i) (port_ i) v (driver_name_ i) (connect_options_ i).

(** The static members: [Connection_Info::common_] and
    [Table::common_prefix_]. *)
Record statics := mkStatics { common_ : t; common_prefix_ : qstring }.

Definition initial : statics := mkStatics default_info [].
Definition set_common (info : t) (s : statics) : statics := mkStatics info (prefix_ info).

(** The parameters [to_db] sets on the new database object. Options and port
    are set only when there are some. *)
Record settings := mkSettings {
  s_driver : qstring;
  s_options : option qstring;
  s_port : option Z;
  s_host : qstring;
  s_user : qstring;
  s_password : qstring;
  s_database : qstring;
}.

Definition to_db (i : t) : settings :=
  {| s_driver := driver_name_ i;
     s_options := if isEmpty (connect_options_ i) then None else Some (connect_options_ i);
     s_port := if 0 <? port_ i then Some (port_ i) else None;
     s_host := host_ i; s_user := login_ i; s_password := password_ i; s_database := db_name_ i |}.

(** The constructor from a database object with these settings: an unset
    port reads as -1, unset options as the empty string. *)
Definition from_db (s : settings) (prefix : qstring) : t :=
  {| port_ := default (-1) (s_port s); driver_name_ := s_driver s; connect_options_ := default [] (s_options s);
     host_ := s_host s; db_name_ := s_database s; login_ := s_user s; password_ := s_password s; prefix_ := prefix |}.

(** A database object that is not valid. *)
Definition no_settings : settings :=
  {| s_driver := []; s_options := None; s_port := None; s_host := []; s_user := []; s_password := []; s_database := [] |}.

Lemma from_to_db i : 0 < port_ i \/ port_ i = -1 -> from_db (to_db i) (prefix_ i) = i.
Proof.
  destruct i as [p d o h n l pw pr]. unfold from_db, to_db. simpl. intros Hp.
  assert (default (-1) (if 0 <? p then Some p else None) = p) as -> by (destruct (Z.ltb_spec 0 p); simpl; lia).
  assert (default [] (if isEmpty o then None else Some o) = o) as -> by (by destruct o).
  done.
Qed.

End Connection_Info.

Section base.
(** Bound values and results of statements. *)
Context {Val Res : Type} `{QStringArg} (escapeIdentifier : qstring -> qstring).

Inductive DbEvent :=
| Ev_open (name : qstring) (ok : bool)
| Ev_exec (sql : qstring) (values : list Val) (ok : bool)
| Ev_close (name : qstring)
| Ev_remove (name : qstring).

Record Base := mkBase {
  silent_ : bool;
  connection_name_ : qstring;
  info_ : Connection_Info.t;
}.

Record DbWorld := mkDbWorld {
  base : Base;
  registry : list (qstring * bool);
  env_open : nat -> bool;
  env_exec : nat -> option Res;
  n_open : nat;
  n_exec : nat;
  db_events : list DbEvent;
}.

Abbreviation DM := (M DbWorld).

Definition with_base (b : Base) (w : DbWorld) : DbWorld :=
  mkDbWorld b (registry w) (env_open w) (env_exec w) (n_open w) (n_exec w) (db_events w).
Definition with_registry (r : list (qstring * bool)) (w : DbWorld) : DbWorld :=
  mkDbWorld (base w) r (env_open w) (env_exec w) (n_open w) (n_exec w) (db_events w).
Definition log (e : DbEvent) : DM unit :=
  modify (fun w => mkDbWorld (base w) (registry w) (env_open w) (env_exec w) (n_open w) (n_exec w) (db_events w ++ [e])).

(** *** Qt's table of connections *)

Fixpoint reg_find (name : qstring) (r : list (qstring * bool)) : option bool :=
  match r with [] => None | (n, o) :: r' => if decide (n = name) then Some o else reg_find name r' end.
Definition reg_remove (name : qstring) (r : list (qstring * bool)) : list (qstring * bool) :=
  filter (fun p => p.1 <> name) r.
Definition reg_set (name : qstring) (o : bool) (r : list (qstring * bool)) : list (qstring * bool) :=
  (name, o) :: reg_remove name r.

(** *** Connection *)

Definition connection_name : DM qstring := gets (fun w => connection_name_ (base w)).

(** [database()]: [None] is an invalid database object, else whether it is open. *)
Definition database : DM (option bool) :=
  gets (fun w => if isEmpty (connection_name_ (base w)) then None
                 else reg_find (connection_name_ (base w)) (registry w)).

Definition is_open : DM bool := let* d := database in ret (default false d).

Definition db_close (name : qstring) : DM unit :=
  log (Ev_close name) ;;; modify (fun w => with_registry (reg_set name false (registry w)) w).

Definition remove_database (name : qstring) : DM unit :=
  log (Ev_remove name) ;;; modify (fun w => with_registry (reg_remove name (registry w)) w).

Definition close : DM unit :=
  let* name := connection_name in
  if isEmpty name then ret tt
  else
    let* d := database in
    (match d with Some true => db_close name | _ => ret tt end) ;;;
    remove_database name.

(** [create_connection(QSqlDatabase db)] for the registered connection
    [name]. *)
Definition create_connection_db (name : qstring) : DM bool :=
  let* o := gets (fun w => reg_find name (registry w)) in
  (match o with Some true => db_close name | _ => ret tt end) ;;;
  let* ok := gets (fun w => env_open w (n_open w)) in
  modify (fun w => mkDbWorld (base w) (registry w) (env_open w) (env_exec w) (S (n_open w)) (n_exec w) (db_events w)) ;;;
  log (Ev_open name ok) ;;;
  if negb ok then ret false
  else
    modify (fun w => with_registry (reg_set name true (registry w)) w) ;;;
    modify (fun w => with_base (mkBase (silent_ (base w)) name (info_ (base w))) w) ;;;
    ret true.

Definition create_connection : DM bool :=
  let* name := connection_name in
  let* d := database in
  (match d with
   | Some _ => ret tt
   | None => modify (fun w => with_registry (reg_set name false (registry w)) w)
   end) ;;;
  create_connection_db name.

Definition set_silent (sailent : bool) : DM unit :=
  modify (fun w => with_base (mkBase sailent (connection_name_ (base w)) (info_ (base w))) w).

Definition set_connection_info (info : Connection_Info.t) : DM unit :=
  close ;;;
  modify (fun w => with_base (mkBase (silent_ (base w)) (connection_name_ (base w)) info) w).

(** [gen_thread_based_name]: a name of the thread's id and a random number. *)
Definition gen_thread_based_name (thread_id random : Z) : qstring :=
  arg (number random) (arg (digits 20 thread_id) (str "hz_db_%1_%2")).

(** The constructors; [generated] is the name made for an empty one. *)
Definition make_base (info : Connection_Info.t) (name generated : qstring) : Base :=
  mkBase false (if isEmpty name then generated else name) info.
Definition make_base_db (db : Connection_Info.settings) (connectionName prefix generated : qstring) : Base :=
  make_base (Connection_Info.from_db db prefix) connectionName generated.

(** [set_connection_name]: [settings_of] are the parameters of the database
    object registered under a name; an invalid object has none set. *)
Definition set_connection_name (settings_of : qstring -> Connection_Info.settings) (name prefix generated : qstring) : DM unit :=
  close ;;;
  modify (fun w => with_base (mkBase (silent_ (base w)) name (info_ (base w))) w) ;;;
  let* d := database in
  let info := Connection_Info.from_db (match d with Some _ => settings_of name | None => Connection_Info.no_settings end) prefix in
  modify (fun w => with_base (mkBase (silent_ (base w)) (if isEmpty name then generated else name) info) w).

(** The destructor. *)
Definition base_dtor : DM unit :=
  let* name := connection_name in
  if isEmpty name then ret tt
  else
    let* o := gets (fun w => reg_find name (registry w)) in
    (match o with Some _ => remove_database name | None => ret tt end) ;;;
    let* o := gets (fun w => reg_find name (registry w)) in
    match o with Some _ => close | None => ret tt end.

(** *** exec *)

(** One [query.exec()]. *)
Definition query_exec (sql : qstring) (values : list Val) : DM (option Res) :=
  let* r := gets (fun w => env_exec w (n_exec w)) in
  modify (fun w => mkDbWorld (base w) (registry w) (env_open w) (env_exec w) (n_open w) (S (n_exec w)) (db_events w)) ;;;
  log (Ev_exec sql values (match r with Some _ => true | None => false end)) ;;;
  ret r.

(** The do-while loop; [attempts_count] rounds are left. *)
Fixpoint exec_loop (attempts_count : nat) (sql : qstring) (values : list Val) : DM (option Res) :=
  match attempts_count with
  | O => ret None
  | S n =>
      let* o := is_open in
      let* usable := (if o then ret true else create_connection) in
      if negb usable then exec_loop n sql values
      else
        let* r := query_exec sql values in
        match r with
        | Some res => ret (Some res)
        | None => close ;;; exec_loop n sql values
        end
  end.

(** The result is an active query, or [None] for [QSqlQuery()]. *)
Definition exec (sql : qstring) (values : list Val) : DM (option Res) :=
  if isEmpty sql then ret None else exec_loop 3 sql values.

Definition isActive (q : option Res) : bool := match q with Some _ => true | None => false end.

(** *** The operations on tables *)

Definition create_table (table : Table.t) (types : list qstring) : DM bool :=
  if Table.is_null table || negb (zlen (Table.field_names_ table) =? zlen types) then ret false
  else let* q := exec (create_table_query table types) [] in ret (isActive q).

Definition select (table : Table.t) (suffix : qstring) (values : list Val) (field_ids : list Z) : DM (option Res) :=
  let sql := select_query escapeIdentifier table suffix field_ids in
  if isEmpty sql then ret None else exec sql values.

Definition insert (table : Table.t) (values : list Val) (suffix : qstring) (field_ids : list Z) (method : qstring) : DM bool :=
  match insert_query escapeIdentifier table (zlen values) suffix field_ids method with
  | Ret sql => if isEmpty sql then ret false else let* q := exec sql values in ret (isActive q)
  | _ => undef
  end.

Definition replace (table : Table.t) (values : list Val) (field_ids : list Z) : DM bool :=
  insert table values [] field_ids (str "REPLACE").

Definition update (table : Table.t) (values : list Val) (where_ : qstring) (field_ids : list Z) : DM (option Res) :=
  exec (update_query escapeIdentifier table (zlen values) where_ field_ids) values.

Definition del (table_name where_ : qstring) (values : list Val) : DM (option Res) :=
  let sql := del_query table_name where_ in
  if isEmpty sql then ret None else exec sql values.

Definition truncate (table_name : qstring) : DM (option Res) := exec (truncate_query table_name) [].

(** [first_uint]: the first value of the first row, if there is a row. *)
Definition row_count (first_uint : Res -> option Z) (table_name where_ : qstring) (values : list Val) : DM Z :=
  if isEmpty table_name then ret 0
  else
    let* q := exec (row_count_query table_name where_) values in
    ret (match q with Some r => default 0 (first_uint r) | None => 0 end).

End base.
