(* ===== verification/DbBaseProofs.v ===== *)
(** * Correctness of DB::Base::exec *)

From S2P Require Import Prelude QtString DbQuery DbQueryProofs DbBase.

Section exec_proofs.
Context {Val Res : Type} `{QStringArg} (escapeIdentifier : qstring -> qstring).
Implicit Types (w : @DbWorld Val Res).

(** What [exec] may do with [n] attempts on connection [name]: open the
    connection if it is not open, run the statement, and on failure close the
    connection and try again. [attempts o n tr ok]: starting with the
    connection open or not ([o]), the calls [tr] are made, and [ok] says
    whether the last one is a statement that succeeded. *)
Inductive attempts (name sql : qstring) (values : list Val) : bool -> nat -> list DbEvent -> bool -> Prop :=
| att_none o : attempts name sql values o 0 [] false
| att_no_connection n tr ok :
    attempts name sql values false n tr ok ->
    attempts name sql values false (S n) (Ev_open name false :: tr) ok
| att_failed o n tr ok :
    attempts name sql values false n tr ok ->
    attempts name sql values o (S n)
      ((if o then [] else [Ev_open name true])
         ++ Ev_exec sql values false :: Ev_close name :: Ev_remove name :: tr) ok
| att_done o n :
    attempts name sql values o (S n)
      ((if o then [] else [Ev_open name true]) ++ [Ev_exec sql values true]) true.

Definition opened (name : qstring) w : bool := default false (reg_find name (registry w)).

Lemma reg_find_remove name r : reg_find name (reg_remove name r) = None.
Proof.
  unfold reg_remove. induction r as [|[n o] r IH]; [done|]. rewrite filter_cons. simpl.
  case_decide as Hd; [|done]. simpl. by rewrite decide_False.
Qed.

Lemma reg_find_set name o r : reg_find name (reg_set name o r) = Some o.
Proof. simpl. by rewrite decide_True. Qed.

Definition logged (tr : list DbEvent) w w' : Prop := db_events w' = db_events w ++ tr.

Lemma is_open_opened name w :
  connection_name_ (base w) = name -> name <> [] -> is_open w = (Ret (opened name w), w).
Proof.
  intros <- Hn. unfold is_open, database, bind, gets, opened. by destruct (connection_name_ (base w)).
Qed.

Lemma create_connection_spec name w :
  connection_name_ (base w) = name -> name <> [] -> opened name w = false ->
  exists w', create_connection w = (Ret (env_open w (n_open w)), w')
    /\ connection_name_ (base w') = name /\ opened name w' = env_open w (n_open w)
    /\ logged [Ev_open name (env_open w (n_open w))] w w'.
Proof.
  intros <- Hn Ho. unfold create_connection, connection_name, database, bind, gets.
  assert (isEmpty (connection_name_ (base w)) = false) as He by (by destruct (connection_name_ (base w))).
  rewrite He. unfold opened in *. destruct w as [b r eo ee no ne ev]. simpl in *.
  destruct (reg_find (connection_name_ b) r) as [[]|] eqn:Ef; simpl in Ho; [done| |];
    unfold create_connection_db, bind, gets, log, modify, with_registry, with_base; simpl;
    rewrite ?Ef, ?decide_True by done; simpl; destruct (eo no) eqn:Eo; simpl;
    (eexists; split; [reflexivity|]); simpl; rewrite ?Ef, ?decide_True by done; by split_and!.
Qed.

Lemma query_exec_spec name sql values w :
  exists w', query_exec sql values w = (Ret (env_exec w (n_exec w)), w')
    /\ connection_name_ (base w') = connection_name_ (base w) /\ opened name w' = opened name w
    /\ logged [Ev_exec sql values (match env_exec w (n_exec w) with Some _ => true | None => false end)] w w'.
Proof. eexists. split; [reflexivity|]. by split_and!. Qed.

Lemma close_spec name w :
  connection_name_ (base w) = name -> name <> [] -> opened name w = true ->
  exists w', close w = (Ret tt, w') /\ connection_name_ (base w') = name /\ opened name w' = false
    /\ logged [Ev_close name; Ev_remove name] w w'.
Proof.
  intros <- Hn Ho. unfold close, connection_name, database, bind, gets.
  assert (isEmpty (connection_name_ (base w)) = false) as He by (by destruct (connection_name_ (base w))).
  rewrite !He. unfold opened in *. destruct (reg_find (connection_name_ (base w)) (registry w)) as [[]|]; try done.
  eexists. split; [reflexivity|]. simpl. rewrite reg_find_remove. split_and!; [done|done|].
  unfold logged. simpl. by rewrite <- app_assoc.
Qed.

Lemma logged_trans tr1 tr2 w1 w2 w3 : logged tr1 w1 w2 -> logged tr2 w2 w3 -> logged (tr1 ++ tr2) w1 w3.
Proof. unfold logged. intros H1 ->. rewrite H1. by rewrite app_assoc. Qed.

Lemma exec_loop_attempts name sql values n w :
  connection_name_ (base w) = name -> name <> [] ->
  exists r w' tr, exec_loop n sql values w = (Ret r, w') /\ logged tr w w'
    /\ attempts name sql values (opened name w) n tr (isActive r)
    /\ connection_name_ (base w') = name /\ (isActive r = true -> opened name w' = true).
Proof.
  revert w. induction n as [|n IH]; intros w Hname Hn; cbn [exec_loop].
  { exists None, w, []. split_and!; [done|unfold logged; by rewrite app_nil_r|constructor|done|done]. }
  rewrite (bind_Ret _ _ _ _ _ (is_open_opened name w Hname Hn)).
  assert (exists w1, ((if opened name w then ret true else create_connection) : M _ bool) w
      = (Ret (if opened name w then true else env_open w (n_open w)), w1)
    /\ connection_name_ (base w1) = name /\ opened name w1 = (if opened name w then true else env_open w (n_open w))
    /\ logged (if opened name w then [] else [Ev_open name (env_open w (n_open w))]) w w1)
    as (w1 & E1 & Hn1 & Ho1 & Hl1).
  { destruct (opened name w) eqn:Eo.
    - exists w. unfold logged. by rewrite app_nil_r.
    - destruct (create_connection_spec name w Hname Hn Eo) as (w1 & ? & ? & ? & ?). by exists w1. }
  rewrite (bind_Ret _ _ _ _ _ E1).
  destruct (if opened name w then true else env_open w (n_open w)) eqn:Eu; cbn [negb].
  - destruct (query_exec_spec name sql values w1) as (w2 & E2 & Hn2 & Ho2 & Hl2).
    rewrite (bind_Ret _ _ _ _ _ E2). rewrite Hn1 in Hn2. rewrite Ho1 in Ho2.
    assert (logged (if opened name w then [] else [Ev_open name true]) w w1) as Hl1'.
    { destruct (opened name w); [done|]. by rewrite Eu in Hl1. }
    destruct (env_exec w1 (n_exec w1)) as [res|] eqn:Er.
    + exists (Some res), w2. eexists. split_and!; [done|exact (logged_trans _ _ _ _ _ Hl1' Hl2)|constructor|done|done].
    + destruct (close_spec name w2 Hn2 Hn Ho2) as (w3 & E3 & Hn3 & Ho3 & Hl3). rewrite (bind_Ret _ _ _ _ _ E3).
      destruct (IH w3 Hn3 Hn) as (r & w4 & tr & E4 & Hl4 & Ha & Hn4 & Ho4). rewrite Ho3 in Ha.
      exists r, w4. eexists. split_and!; [done| |by apply att_failed|done|done].
      exact (logged_trans _ _ _ _ _ Hl1' (logged_trans _ _ _ _ _ Hl2 (logged_trans _ _ _ _ _ Hl3 Hl4))).
  - destruct (opened name w) eqn:Eo; [done|]. rewrite Eu in Hl1.
    destruct (IH w1 Hn1 Hn) as (r & w2 & tr & E2 & Hl2 & Ha & Hn2 & Ho2). rewrite Ho1 in Ha.
    exists r, w2. eexists. split_and!; [done|exact (logged_trans _ _ _ _ _ Hl1 Hl2)|by apply att_no_connection|done|done].
Qed.

(** Consequences: at most [n] statements are run, and only the last one can
    have succeeded. *)
Definition is_exec (e : @DbEvent Val) : bool := match e with Ev_exec _ _ _ => true | _ => false end.
Definition exec_failed (e : @DbEvent Val) : Prop := match e with Ev_exec _ _ true => False | _ => True end.

Lemma attempts_bound name sql values o n tr ok :
  attempts name sql values o n tr ok ->
  (length (filter (fun e => is_exec e = true) tr) <= n)%nat
  /\ if ok then exists pre, tr = pre ++ [Ev_exec sql values true] /\ Forall exec_failed pre
     else Forall exec_failed tr.
Proof.
  induction 1 as [o|n tr ok _ [Hn Hok]|o n tr ok _ [Hn Hok]|o n].
  - by split.
  - rewrite filter_cons. simpl. split; [lia|]. destruct ok.
    + destruct Hok as (pre & -> & Hf). exists (Ev_open name false :: pre). split; [done|by constructor].
    + by constructor.
  - assert (filter (fun e => is_exec e = true) ((if o then [] else [Ev_open name true])
       ++ Ev_exec sql values false :: Ev_close name :: Ev_remove name :: tr)
      = Ev_exec sql values false :: filter (fun e => is_exec e = true) tr) as -> by (by destruct o).
    split; [simpl; lia|]. assert (Forall exec_failed (if o then [] else [Ev_open name true])) as Hpre
      by (destruct o; repeat constructor).
    destruct ok.
    + destruct Hok as (pre & -> & Hf).
      exists ((if o then [] else [Ev_open name true]) ++ Ev_exec sql values false :: Ev_close name :: Ev_remove name :: pre).
      split; [by rewrite <- app_assoc|]. apply Forall_app. split; [done|]. by repeat constructor.
    + apply Forall_app. split; [done|]. by repeat constructor.
  - split.
    + destruct o; simpl; lia.
    + exists (if o then [] else [Ev_open name true]). split; [done|]. destruct o; repeat constructor.
Qed.

(** C28. [exec] of a statement always returns after at most three attempts.
    Every attempt runs on an open connection: one that is not open is opened
    first, and a failed statement closes and removes the connection before
    the next attempt; a failed opening uses an attempt up. The first statement
    that succeeds is the last one run and its query is returned, with the
    connection open; if none does, the result is an inactive query. *)
Theorem exec_attempts sql values w :
  sql <> [] -> connection_name_ (base w) <> [] ->
  exists r w' tr, exec sql values w = (Ret r, w') /\ db_events w' = db_events w ++ tr
    /\ attempts (connection_name_ (base w)) sql values (opened (connection_name_ (base w)) w) 3 tr (isActive r)
    /\ (length (filter (fun e => is_exec e = true) tr) <= 3)%nat
    /\ (isActive r = true -> opened (connection_name_ (base w)) w' = true).
Proof.
  intros Hsql Hn. unfold exec. assert (isEmpty sql = false) as -> by (by destruct sql).
  destruct (exec_loop_attempts _ sql values 3 w eq_refl Hn) as (r & w' & tr & E & Hl & Ha & _ & Ho).
  exists r, w', tr. split_and!; [done|done|done|by eapply attempts_bound|done].
Qed.

(** ** Statements that succeed *)

(** The connection is open. *)
Definition ready w : Prop := connection_name_ (base w) <> [] /\ opened (connection_name_ (base w)) w = true.

(** The next statements succeed with these Ress. *)
Fixpoint answers w (n : nat) (rs : list Res) : Prop :=
  match rs with [] => True | r :: rs => env_exec w n = Some r /\ answers w (S n) rs end.

(** The world after statements were run. *)
Definition after (evs : list (qstring * list Val)) w : @DbWorld Val Res :=
  mkDbWorld (base w) (registry w) (env_open w) (env_exec w) (n_open w) (length evs + n_exec w)
    (db_events w ++ map (fun p => Ev_exec p.1 p.2 true) evs).

Lemma after_after evs evs' w : after evs' (after evs w) = after (evs ++ evs') w.
Proof.
  unfold after. simpl. rewrite <- app_assoc, map_app, length_app.
  replace (length evs' + (length evs + n_exec w))%nat with (length evs + length evs' + n_exec w)%nat by lia. done.
Qed.

Lemma exec_succeeds sql values r w :
  sql <> [] -> ready w -> env_exec w (n_exec w) = Some r ->
  exec sql values w = (Ret (Some r), after [(sql, values)] w).
Proof.
  intros Hs [Hn Ho] He. unfold exec. assert (isEmpty sql = false) as -> by (by destruct sql).
  cbn [exec_loop]. erewrite bind_Ret by (by apply is_open_opened). rewrite Ho. cbn iota.
  erewrite bind_Ret by reflexivity. cbn [negb].
  unfold query_exec. rewrite bind_assoc. erewrite bind_Ret by reflexivity. rewrite He.
  rewrite bind_assoc. erewrite bind_Ret by reflexivity. rewrite bind_assoc. erewrite bind_Ret by reflexivity. done.
Qed.

Lemma ready_after evs w : ready w -> ready (after evs w).
Proof. done. Qed.

Lemma answers_after evs w n rs : answers w n rs -> answers (after evs w) n rs.
Proof. revert n. induction rs as [|r rs IH]; intros n; [done|]. intros [? ?]. split; [done|by apply IH]. Qed.

(** The text of a SELECT, which is one statement. *)
Definition select_text (tb : Table.t) (suffix : qstring) (fields : list qstring) : qstring :=
  str "SELECT " ++ join [ch_comma] fields ++ str " FROM "
    ++ (if isEmpty (Table.short_name_ tb) then Table.name_ tb else Table.name_ tb ++ [ch_space] ++ Table.short_name_ tb)
    ++ str " " ++ suffix ++ str ";".

Lemma select_succeeds `{!QStringArgLaws} tb suffix ids r w :
  Table.is_null tb = false -> no_char ch_percent (Table.name_ tb ++ Table.short_name_ tb) ->
  Forall plain (escape_fields escapeIdentifier tb ids true) ->
  ready w -> env_exec w (n_exec w) = Some r ->
  select escapeIdentifier tb suffix [] ids w
  = (Ret (Some r), after [(select_text tb suffix (escape_fields escapeIdentifier tb ids true), [])] w).
Proof.
  intros Hnull Hn Hf Hr He. unfold select. apply no_char_app in Hn as [Hn Hsn].
  assert (select_query escapeIdentifier tb suffix ids
          = select_text tb suffix (escape_fields escapeIdentifier tb ids true)) as Eq.
  { unfold select_query. rewrite Hnull.
    change (str "SELECT %1 FROM %2 %3;") with (render [Text (str "SELECT "); Marker 1; Text (str " FROM "); Marker 2;
      Text (str " "); Marker 3; Text (str ";")]).
    rewrite arg3; try done; try (by apply (bool_decide_unpack _)).
    - apply no_char_join; [by intros [|[]]|]. eapply Forall_impl; [exact Hf|]. by intros x [? _].
    - destruct (isEmpty _); [done|]. apply no_char_app. split; [done|]. apply no_char_app.
      split; [by apply (bool_decide_unpack _)|done]. }
  rewrite Eq. change (isEmpty (select_text tb suffix _)) with false. cbv iota. by apply exec_succeeds.
Qed.

(** ** Connection names *)

Lemma reg_find_remove_other name name' r : name <> name' -> reg_find name (reg_remove name' r) = reg_find name r.
Proof.
  intros Hn. unfold reg_remove. induction r as [|[n o] r IH]; [done|]. rewrite filter_cons. simpl.
  case_decide as Hd; simpl.
  - by rewrite IH.
  - destruct (decide (n = name)) as [->|]; [|done]. simpl in Hd. destruct Hd. done.
Qed.

Lemma reg_find_set_other name name' o r : name <> name' -> reg_find name (reg_set name' o r) = reg_find name r.
Proof. intros Hn. simpl. rewrite decide_False by done. by apply reg_find_remove_other. Qed.

Lemma close_registry name w :
  connection_name_ (base w) = name -> name <> [] ->
  exists w', close w = (Ret tt, w') /\ base w' = base w /\ reg_find name (registry w') = None
    /\ (forall n, n <> name -> reg_find n (registry w') = reg_find n (registry w)).
Proof.
  intros <- Hn. unfold close, connection_name, database, remove_database, db_close, log, bind, gets, modify.
  assert (isEmpty (connection_name_ (base w)) = false) as He by (by destruct (connection_name_ (base w))).
  destruct w as [b r eo ee no ne ev]. simpl in *. rewrite He. simpl. rewrite He.
  destruct (reg_find (connection_name_ b) r) as [[]|] eqn:Ef; simpl; (eexists; split; [reflexivity|]); simpl;
    (split; [done|]); (split; [apply reg_find_remove|]); intros n Hne.
  - rewrite reg_find_remove_other by done. by apply reg_find_set_other.
  - by apply reg_find_remove_other.
  - by apply reg_find_remove_other.
Qed.

(** Taking over a connection registered under another name: the old one is
    gone, the new one keeps its state, its parameters become those of the
    object, so that the connection can be made again when it is lost. *)
Lemma set_connection_name_takes_over settings_of name prefix generated o w :
  connection_name_ (base w) <> [] -> name <> [] -> name <> connection_name_ (base w) ->
  reg_find name (registry w) = Some o ->
  exists w', set_connection_name settings_of name prefix generated w = (Ret tt, w')
    /\ connection_name_ (base w') = name /\ info_ (base w') = Connection_Info.from_db (settings_of name) prefix
    /\ database w' = (Ret (Some o), w') /\ reg_find (connection_name_ (base w)) (registry w') = None.
Proof.
  intros Hold Hn Hne Hr. destruct (close_registry _ w eq_refl Hold) as (w1 & Ec & Eb & Eg & Eo).
  assert (isEmpty name = false) as Ee by (by destruct name).
  unfold set_connection_name. rewrite (bind_Ret _ _ _ _ _ Ec). unfold bind, modify, database, gets. cbn -[isEmpty].
  rewrite Ee, (Eo _ Hne), Hr. eexists. split; [reflexivity|]. simpl. rewrite ?Ee, ?(Eo _ Hne), ?Hr. done.
Qed.

(** Naming the connection the object already has closes and removes it before
    its parameters are read: they are lost, the object cannot connect again. *)
Lemma set_same_name_forgets settings_of prefix generated w :
  connection_name_ (base w) <> [] ->
  exists w', set_connection_name settings_of (connection_name_ (base w)) prefix generated w = (Ret tt, w')
    /\ info_ (base w') = Connection_Info.from_db Connection_Info.no_settings prefix
    /\ reg_find (connection_name_ (base w)) (registry w') = None.
Proof.
  intros Hold. destruct (close_registry _ w eq_refl Hold) as (w1 & Ec & Eb & Eg & Eo).
  assert (isEmpty (connection_name_ (base w)) = false) as Ee by (by destruct (connection_name_ (base w))).
  unfold set_connection_name. rewrite (bind_Ret _ _ _ _ _ Ec). unfold bind, modify, database, gets. cbn -[isEmpty].
  rewrite Ee, Eg. eexists. split; [reflexivity|]. done.
Qed.

End exec_proofs.

(** ** Concrete instance *)

Module Base_Witness.

Definition w_db : @DbWorld Z Z :=
  mkDbWorld (mkBase false (str "main") Connection_Info.default_info) []
    (fun n => (1 <=? Z.of_nat n)) (fun n => if (1 <=? Z.of_nat n) then Some 7 else None) 0 0 [].

(** The first opening fails, the first statement fails, the second attempt
    of the statement succeeds. *)
Lemma exec_attempts_witness :
  exists w' tr, exec (str "SELECT 1") [] w_db = (Ret (Some 7), w') /\ db_events w' = tr
    /\ attempts (str "main") (str "SELECT 1") [] false 3 tr true.
Proof.
  destruct (exec_attempts (str "SELECT 1") [] w_db) as (r & w' & tr & E & Hev & Ha & _); [discriminate | discriminate |].
  assert (r = Some 7) as -> by (vm_compute in E; congruence).
  exists w', tr. split; [exact E|]. split; [exact Hev|exact Ha].
Defined.

End Base_Witness.
