(* ===== verification/DbDelete.v ===== *)
(** * DB::Delete_Row_Helper

    [src/Database/db_delete_row.h] and [.cpp]: deleting a row together with
    the rows of other tables that refer to it, described by a tree of
    [Delete_Row_Info]. *)

From S2P Require Import Prelude QtString DbQuery DbBase.

Inductive Delete_Row_Info := mkInfo {
  set_null_ : bool;
  field_i_ : Z;
  pk_i_ : Z;
  table_ : Table.t;
  childs_ : list Delete_Row_Info;
}.

Definition info_table_name (i : Delete_Row_Info) : qstring := Table.name_ (table_ i).

(** [table_.field_names().at(k)], or an empty name out of range. *)
Definition name_at (k : Z) (table : Table.t) : qstring :=
  if (k <? 0) || (zlen (Table.field_names_ table) <=? k) then []
  else default [] (zget (Table.field_names_ table) k).

Definition info_field_name (i : Delete_Row_Info) : qstring := name_at (field_i_ i) (table_ i).
Definition info_pk_name (i : Delete_Row_Info) : qstring := name_at (pk_i_ i) (table_ i).

Section delete.
Context {Val Res : Type} `{QStringArg} (escapeIdentifier : qstring -> qstring).
(** A null QVariant. *)
Context (null : Val).
(** [id_] and [fill_where_func_] of the helper. *)
Context (id_ : qstring) (fill_where_func_ : option (Delete_Row_Info -> qstring -> qstring)).

Abbreviation DM := (M (@DbWorld Val Res)).

Definition fill_where (i : Delete_Row_Info) (where_ : qstring) : qstring :=
  match fill_where_func_ with Some f => f i where_ | None => where_ end.

(** [obj_->update({name, {}, {field}}, {QVariant()}, where)] *)
Definition set_null_rows (i : Delete_Row_Info) (where_ : qstring) : DM bool :=
  let* q := update escapeIdentifier (Table.mk (info_table_name i) [] [info_field_name i]) [null] where_ [] in
  ret (isActive q).

Definition delete_rows (i : Delete_Row_Info) (where_ : qstring) : DM bool :=
  let* q := del (info_table_name i) where_ [] in ret (isActive q).

(** The condition for the rows of [del] that refer to rows of [del_parent]. *)
Definition nested_where (del_parent del : Delete_Row_Info) : qstring :=
  if set_null_ del && bool_decide (info_table_name del = info_table_name del_parent)
  then info_pk_name del_parent ++ [ch_equal] ++ id_
  else
    info_field_name del ++
    arg id_ (arg (info_field_name del_parent) (arg (info_table_name del_parent) (arg (info_pk_name del_parent)
      (str " IN(SELECT %1 FROM %2 WHERE %3 = %4)")))).

(** [if (!exec_ok_) throw del;] *)
Definition check (m : DM bool) : DM unit := let* ok := m in if ok then ret tt else throw.

(** The body of the loop of [del_impl] for one child, after the recursion. *)
Definition del_child (del_parent del : Delete_Row_Info) : DM unit :=
  let where_ := fill_where del (nested_where del_parent del) in
  check (if set_null_ del then set_null_rows del where_ else delete_rows del where_).

Fixpoint del_impl (del_parent : Delete_Row_Info) : DM unit :=
  (fix loop (childs : list Delete_Row_Info) : DM unit :=
     match childs with
     | [] => ret tt
     | del :: rest => del_impl del ;;; del_child del_parent del ;;; loop rest
     end) (childs_ del_parent).

(** The loop of [del] over the children of the row itself. *)
Definition del_direct (del : Delete_Row_Info) : DM unit :=
  let where_ := fill_where del (info_field_name del ++ [ch_equal] ++ id_) in
  check (if set_null_ del then set_null_rows del where_
         else del_impl del ;;; delete_rows del where_).

Fixpoint del_directs (childs : list Delete_Row_Info) : DM unit :=
  match childs with [] => ret tt | del :: rest => del_direct del ;;; del_directs rest end.

Definition del_body (row_info : Delete_Row_Info) : DM bool :=
  del_directs (childs_ row_info) ;;;
  let where_ := fill_where row_info (info_pk_name row_info ++ [ch_equal] ++ id_) in
  check (delete_rows row_info where_) ;;;
  ret true.

Definition delete_row (row_info : Delete_Row_Info) : DM bool := try_catch (del_body row_info) (ret false).

(** ** Specification: the statements, in order *)

Definition null_statement (i : Delete_Row_Info) (where_ : qstring) : qstring * list Val :=
  (update_query escapeIdentifier (Table.mk (info_table_name i) [] [info_field_name i]) 1 where_ [], [null]).
Definition delete_statement (i : Delete_Row_Info) (where_ : qstring) : qstring * list Val :=
  (del_query (info_table_name i) where_, []).

Definition nested_statement (del_parent del : Delete_Row_Info) : qstring * list Val :=
  let where_ := fill_where del (nested_where del_parent del) in
  if set_null_ del then null_statement del where_ else delete_statement del where_.

(** Everything below [i], deepest first. *)
Fixpoint nested_plan (i : Delete_Row_Info) : list (qstring * list Val) :=
  (fix loop (childs : list Delete_Row_Info) : list (qstring * list Val) :=
     match childs with
     | [] => []
     | d :: rest => nested_plan d ++ nested_statement i d :: loop rest
     end) (childs_ i).

Definition direct_plan (d : Delete_Row_Info) : list (qstring * list Val) :=
  let where_ := fill_where d (info_field_name d ++ [ch_equal] ++ id_) in
  if set_null_ d then [null_statement d where_] else nested_plan d ++ [delete_statement d where_].

Definition plan (row_info : Delete_Row_Info) : list (qstring * list Val) :=
  concat (map direct_plan (childs_ row_info))
    ++ [delete_statement row_info (fill_where row_info (info_pk_name row_info ++ [ch_equal] ++ id_))].

(** Run statements until one fails. *)
Fixpoint run_plan (l : list (qstring * list Val)) : DM unit :=
  match l with
  | [] => ret tt
  | (sql, values) :: l' => (let* q := exec sql values in if isActive q then ret tt else throw) ;;; run_plan l'
  end.

(** ** Proofs *)

Definition same {A} (m1 m2 : DM A) : Prop := forall w, m1 w = m2 w.

Lemma same_bind {A A'} (m1 m2 : DM A) (k1 k2 : A -> DM A') :
  same m1 m2 -> (forall a, same (k1 a) (k2 a)) -> same (bind m1 k1) (bind m2 k2).
Proof. intros Hm Hk w. unfold bind. rewrite Hm. destruct (m2 w) as [[]]; try done. apply Hk. Qed.

Lemma same_trans {A} (m1 m2 m3 : DM A) : same m1 m2 -> same m2 m3 -> same m1 m3.
Proof. intros H1 H2 w. by rewrite H1. Qed.

Lemma run_plan_app l k : same (run_plan (l ++ k)) (run_plan l ;;; run_plan k).
Proof.
  induction l as [|[sql values] l IH]; [done|]. intros w. symmetry. simpl. rewrite bind_assoc.
  apply same_bind; [done|]. intros [] w'. symmetry. apply IH.
Qed.

Lemma run_one sql values : same (run_plan [(sql, values)]) (check (let* q := exec sql values in ret (isActive q))).
Proof.
  intros w. simpl. unfold check, bind. destruct (exec sql values w) as [[q| | |] w']; try done.
  by destruct q.
Qed.

Lemma exec_empty values (w : @DbWorld Val Res) : exec [] values w = (Ret None, w).
Proof. done. Qed.

(** A statement without text is not run and counts as failed; [del] tests
    for it before [exec], which would do the same. *)
Lemma delete_rows_exec i where_ :
  same (delete_rows i where_) (let* q := exec (del_query (info_table_name i) where_) [] in ret (isActive q)).
Proof.
  intros w. unfold delete_rows, del. destruct (del_query (info_table_name i) where_) as [|c s]; done.
Qed.

Lemma statement_run (b : bool) i where_ :
  same (run_plan [if b then null_statement i where_ else delete_statement i where_])
       (check (if b then set_null_rows i where_ else delete_rows i where_)).
Proof.
  destruct b.
  - apply run_one.
  - eapply same_trans; [apply run_one|]. intros w. unfold check. apply same_bind; [|done].
    intros w'. by rewrite delete_rows_exec.
Qed.

Lemma del_child_run p d : same (run_plan [nested_statement p d]) (del_child p d).
Proof. apply statement_run. Qed.

Fixpoint info_size (i : Delete_Row_Info) : nat :=
  S (fold_right (fun d n => info_size d + n)%nat O (childs_ i)).

Lemma del_impl_run n i : (info_size i <= n)%nat -> same (del_impl i) (run_plan (nested_plan i)).
Proof.
  revert i. induction n as [|n IH]; intros i Hn; [destruct i; simpl in Hn; lia|].
  destruct i as [sn fi pi tb cs]. cbn [info_size childs_] in Hn.
  assert (forall p l, (fold_right (fun d n => info_size d + n)%nat O l <= n)%nat ->
    same ((fix loop (childs : list Delete_Row_Info) : DM unit :=
       match childs with [] => ret tt | del :: rest => del_impl del ;;; del_child p del ;;; loop rest end) l)
      (run_plan ((fix loop (childs : list Delete_Row_Info) : list (qstring * list Val) :=
       match childs with [] => [] | d :: rest => nested_plan d ++ nested_statement p d :: loop rest end) l))) as Hloop.
  { intros p. induction l as [|d l IHl]; intros Hl; [done|]. cbn [fold_right] in Hl. intros w. rewrite run_plan_app.
    apply same_bind; [apply IH; lia|]. intros [] w1.
    etrans; [|symmetry; apply (run_plan_app [nested_statement p d])]. apply same_bind.
    - intros w2. by rewrite del_child_run.
    - intros []. apply IHl. lia. }
  apply Hloop. cbn [childs_]. lia.
Qed.

Lemma del_direct_run d : same (del_direct d) (run_plan (direct_plan d)).
Proof.
  unfold del_direct, direct_plan. cbv zeta. set (wh := fill_where d _). destruct (set_null_ d).
  - intros w. by rewrite (statement_run true d wh w).
  - intros w. rewrite run_plan_app. unfold check. rewrite bind_assoc.
    apply same_bind; [by eapply del_impl_run|]. intros [] w'. by rewrite (statement_run false d wh w').
Qed.

Lemma del_directs_run l : same (del_directs l) (run_plan (concat (map direct_plan l))).
Proof.
  induction l as [|d l IH]; [done|]. intros w. simpl. rewrite run_plan_app.
  apply same_bind; [apply del_direct_run|]. by intros [].
Qed.

(** C30. Deleting a row is running its plan: the statements for everything
    that refers to it, for each child first what is below it and then the
    child itself, and last the row; it stops at the first statement that
    fails, and returns true exactly when all of them have succeeded. *)
Theorem delete_row_runs_plan row_info :
  same (delete_row row_info) (try_catch (run_plan (plan row_info) ;;; ret true) (ret false)).
Proof.
  intros w. unfold delete_row, try_catch.
  assert (del_body row_info w = (run_plan (plan row_info) ;;; ret true) w) as ->; [|done].
  unfold del_body, plan. cbv zeta.
  set (wh := fill_where row_info (info_pk_name row_info ++ [ch_equal] ++ id_)).
  assert ((run_plan (concat (map direct_plan (childs_ row_info)) ++ [delete_statement row_info wh]) ;;; ret true) w
    = ((run_plan (concat (map direct_plan (childs_ row_info))) ;;; run_plan [delete_statement row_info wh]) ;;; ret true) w) as ->.
  { apply same_bind; [apply run_plan_app|done]. }
  rewrite bind_assoc. apply same_bind; [apply del_directs_run|]. intros [].
  apply same_bind; [|done]. intros w'. by rewrite (statement_run false row_info wh w').
Qed.

End delete.

(** ** The condition below the second level *)

Module Delete_Witness.
Import QtStringRef.

(** Table [b] refers to [a], [c] to [b], [d] to [c]; column [x_id] of a table
    refers to the key [id] of table [x]. *)
Definition info (name parent : String.string) (childs : list Delete_Row_Info) : Delete_Row_Info :=
  mkInfo false 1 0 (Table.mk (str name) [] [str "id"; str parent]) childs.
Definition chain : Delete_Row_Info := info "a" "none" [info "b" "a_id" [info "c" "b_id" [info "d" "c_id" []]]].

(** The cascade compares the wrong column from the third level on: for
    a chain of tables [a] <- [b] <- [c] <- [d], the rows of [d] that are
    deleted with row 7 of [a] are those whose [c] row has [b_id] = 7, that
    is, which refer to row 7 of table [b], not those below row 7 of [a]. *)
Theorem third_level_condition :
  map fst (plan (fun s => s) (0 : Z) (str "7") None chain) =
    [ str "DELETE FROM d WHERE c_id IN(SELECT id FROM c WHERE b_id = 7)";
      str "DELETE FROM c WHERE b_id IN(SELECT id FROM b WHERE a_id = 7)";
      str "DELETE FROM b WHERE a_id=7";
      str "DELETE FROM a WHERE id=7" ].
Proof. reflexivity. Qed.

End Delete_Witness.
