(* ===== verification/DbThread.v ===== *)
(** * DB::Thread

    [src/Database/db_thread.h] and [.cpp]: worker threads that take tasks
    from a queue guarded by a mutex. A step of a worker runs from one point
    where the mutex is free to the next; [add_task] and [stop] happen between
    steps. A task is known by a number; running it is an event, and an
    exception it throws ends in its future ([packaged_task]) or in the
    worker's [catch (...)], so it does not change the worker. *)

From S2P Require Import Prelude QtString DbQuery DbBase.

Module Db_Thread.

Abbreviation task := nat.

Inductive point := At_loop | In_wait | Running (t : task) | Finished.

Record t := mk {
  break_flag_ : bool;
  data_queue_ : list task;
  thread_list_ : list point;
  started : list task;   (** tasks taken from the queue, in order *)
  executed : list task;  (** tasks that have run *)
}.

(** [Thread(info, thread_count, priority)]: all workers start at the loop. *)
Definition init (thread_count : nat) : t := mk false [] (replicate thread_count At_loop) [] [].

(** [Thread(db, priority)]: one worker, with the connection given. *)
Definition init_shared : t := init 1.

(** [open_and_run]: the name of the connection a worker makes for itself. *)
Definition worker_connection_name (thread_id : qstring) : qstring := str "pending_queries_" ++ thread_id.
Definition worker_base (info : Connection_Info.t) (thread_id : qstring) : Base :=
  make_base info (worker_connection_name thread_id) [].

Definition stop (s : t) : t := mk true (data_queue_ s) (thread_list_ s) (started s) (executed s).

Definition add_task (x : task) (s : t) : t :=
  mk (break_flag_ s) (data_queue_ s ++ [x]) (thread_list_ s) (started s) (executed s).

(** [add] and [add_query]: a task for the function given. *)
Definition add_query (x : task) (s : t) : t := add_task x s.

(** [add_pending_query]: a task is added only for a statement with text. *)
Definition add_pending_query (sql : qstring) (x : task) (s : t) : t :=
  if isEmpty sql then s else add_task x s.

(** One step of [run] in worker [i]; [None] when it is blocked or gone. *)
Definition run_step (i : nat) (s : t) : option t :=
  match thread_list_ s !! i with
  | Some At_loop =>
      Some (mk (break_flag_ s) (data_queue_ s)
              (<[i := if break_flag_ s then Finished else In_wait]> (thread_list_ s)) (started s) (executed s))
  | Some In_wait =>
      if break_flag_ s then
        Some (mk true (data_queue_ s) (<[i := Finished]> (thread_list_ s)) (started s) (executed s))
      else
        match data_queue_ s with
        | [] => None
        | x :: q => Some (mk false q (<[i := Running x]> (thread_list_ s)) (started s ++ [x]) (executed s))
        end
  | Some (Running x) =>
      Some (mk (break_flag_ s) (data_queue_ s) (<[i := At_loop]> (thread_list_ s)) (started s) (executed s ++ [x]))
  | _ => None
  end.

(** Steps of the object; the ghost list holds the tasks added. *)
Inductive step : t * list task -> t * list task -> Prop :=
| step_run i s s' added : run_step i s = Some s' -> step (s, added) (s', added)
| step_add x s added : step (s, added) (add_task x s, added ++ [x])
| step_stop s added : step (s, added) (stop s, added).

Definition task_of (p : point) : list task := match p with Running x => [x] | _ => [] end.
Definition running (s : t) : list task := concat (map task_of (thread_list_ s)).

Record inv (s : t) (added : list task) : Prop := {
  inv_fifo : started s ++ data_queue_ s = added;
  inv_once : executed s ++ running s ≡ₚ started s;
}.

Lemma running_insert i p (l : list point) q :
  l !! i = Some q -> concat (map task_of (<[i := p]> l)) ++ task_of q ≡ₚ concat (map task_of l) ++ task_of p.
Proof.
  revert i. induction l as [|x l IH]; intros [|i] E; simpl in *; try done.
  - simplify_eq. solve_Permutation.
  - rewrite <- !app_assoc, (IH i E). done.
Qed.

Lemma thread_step_inv s added s' added' : inv s added -> step (s, added) (s', added') -> inv s' added'.
Proof.
  intros [Hf Ho]. inversion 1 as [i ? ? ? Hr|x ? ?|? ?]; subst.
  - unfold run_step in Hr. destruct (thread_list_ s !! i) as [p|] eqn:Ei; [|done].
    destruct p as [| |x|]; try done.
    + simplify_eq. constructor; [done|]. unfold running in *. simpl. rewrite <- Ho.
      pose proof (running_insert i (if break_flag_ s then Finished else In_wait) _ _ Ei) as Hp.
      assert (task_of (if break_flag_ s then Finished else In_wait) = []) as E0 by (by destruct (break_flag_ s)).
      rewrite E0 in Hp. simpl in Hp. rewrite !app_nil_r in Hp. by rewrite Hp.
    + destruct (break_flag_ s).
      * simplify_eq. constructor; [done|]. unfold running in *. simpl. rewrite <- Ho.
        pose proof (running_insert i Finished _ _ Ei) as Hp. simpl in Hp. rewrite !app_nil_r in Hp. by rewrite Hp.
      * destruct (data_queue_ s) as [|x q] eqn:Eq; [done|]. simplify_eq. constructor; simpl.
        -- rewrite <- app_assoc. done.
        -- unfold running in *. simpl. pose proof (running_insert i (Running x) _ _ Ei) as Hp. simpl in Hp.
           rewrite app_nil_r in Hp. rewrite Hp, app_assoc, Ho. done.
    + simplify_eq. constructor; [done|]. unfold running in *. simpl. rewrite <- Ho.
      pose proof (running_insert i At_loop _ _ Ei) as Hp. simpl in Hp. rewrite app_nil_r in Hp.
      rewrite <- Hp. solve_Permutation.
  - constructor; simpl; [|done]. rewrite app_assoc. done.
  - by constructor.
Qed.

#[export] Instance point_dec : EqDecision point.
Proof. solve_decision. Defined.

Lemma reachable_inv n s added : rtc step (init n, []) (s, added) -> inv s added.
Proof.
  intros Hr.
  assert (forall x y, rtc step x y -> inv x.1 x.2 -> inv y.1 y.2) as Hgen.
  { induction 1 as [|[s1 a1] [s2 a2] z Hs _ IH]; intros Hi; [done|]. apply IH. by eapply thread_step_inv. }
  apply (Hgen _ _ Hr). constructor; [done|]. unfold running. simpl.
  assert (concat (map task_of (replicate n At_loop)) = []) as ->; [|done].
  clear. induction n as [|n IH]; [done|exact IH].
Qed.

(** ** Properties *)

(** C31. The queue is first in, first out, and every task runs at most once:
    with any number of workers and any interleaving of workers, [add] and
    [stop], the tasks taken by workers followed by those still queued are the
    added ones in the order of their addition, and the tasks taken are
    exactly those that have run and those that are running. *)
Theorem tasks_run_once_in_order n s added :
  rtc step (init n, []) (s, added) ->
  started s ++ data_queue_ s = added /\ executed s ++ running s ≡ₚ started s.
Proof. intros Hr. by destruct (reachable_inv _ _ _ Hr). Qed.

(** Steps a worker needs to end once [stop] was called. *)
Definition to_finish (p : point) : nat := match p with Finished => 0 | At_loop | In_wait => 1 | Running _ => 2 end.
Definition left_to_finish (s : t) : nat := list_sum (map to_finish (thread_list_ s)).

Lemma list_sum_insert (l : list point) i p q :
  l !! i = Some q -> (list_sum (map to_finish (<[i := p]> l)) + to_finish q = list_sum (map to_finish l) + to_finish p)%nat.
Proof.
  revert i. induction l as [|x l IH]; intros [|i] E; simpl in *; try done.
  - simplify_eq. lia.
  - specialize (IH i E). lia.
Qed.

(** After [stop] a worker that has not finished is never blocked, whatever is
    in the queue; its step lowers the number of steps left and takes no task. *)
Lemma stop_worker_steps s i p :
  break_flag_ s = true -> thread_list_ s !! i = Some p -> p <> Finished ->
  exists s', run_step i s = Some s'.
Proof.
  intros Hb Ei Hp. unfold run_step. rewrite Ei, Hb. destruct p as [| |x|]; [by eexists..|done].
Qed.

Lemma stop_step_lowers s i s' :
  break_flag_ s = true -> run_step i s = Some s' ->
  break_flag_ s' = true /\ started s' = started s /\ data_queue_ s' = data_queue_ s
  /\ (left_to_finish s' < left_to_finish s)%nat.
Proof.
  intros Hb. unfold run_step, left_to_finish. destruct (thread_list_ s !! i) as [p|] eqn:Ei; [|done]. rewrite Hb.
  pose proof (fun q => list_sum_insert (thread_list_ s) i q p Ei) as Hsum.
  destruct p as [| |x|]; [| | |done]; intros E; simplify_eq; simpl; split_and!; try done;
    [specialize (Hsum Finished)|specialize (Hsum Finished)|specialize (Hsum At_loop)]; simpl in Hsum; lia.
Qed.

(** A step of any worker; the destructor calls [stop] and waits until no
    worker is left, its [join]s. *)
Definition worker_step (s s' : t) : Prop := exists i, run_step i s = Some s'.
Definition joined (s : t) : Prop := Forall (fun p => p = Finished) (thread_list_ s).

Lemma joined_running s : joined s -> running s = [].
Proof. unfold joined, running. induction 1 as [|p l -> _ IH]; [done|exact IH]. Qed.

(** C32. The destructor ends: once [stop] has been called, however the
    workers are scheduled, they make no more than [left_to_finish] steps, and
    when none can make another step all have finished, so that every [join]
    returns. Then exactly the tasks taken before [stop] have run; those still
    queued are dropped. *)
Theorem stop_ends_workers n s added k s' :
  rtc step (init n, []) (s, added) -> nsteps worker_step k (stop s) s' ->
  (k <= left_to_finish (stop s))%nat
  /\ ((forall s2, ~ worker_step s' s2) -> joined s' /\ executed s' ≡ₚ started s /\ started s ++ data_queue_ s' = added).
Proof.
  intros Hr Hn.
  assert (inv (stop s) added) as Hi.
  { destruct (reachable_inv _ _ _ Hr) as [Hf Ho]. by constructor. }
  assert (break_flag_ (stop s) = true) as Hb by done.
  change (started s) with (started (stop s)). generalize dependent (stop s). clear s Hr.
  induction k as [|k IH]; intros s Hn Hi Hb.
  - inversion Hn; subst. split; [lia|]. intros Hend. assert (joined s') as Hj.
    { apply Forall_lookup. intros i p Ei. destruct (decide (p = Finished)) as [|Hp]; [done|].
      destruct (stop_worker_steps s' i p Hb Ei Hp) as [s2 E]. destruct (Hend s2). by exists i. }
    destruct Hi as [Hf Ho]. rewrite (joined_running _ Hj), app_nil_r in Ho. done.
  - inversion Hn as [|? ? s1 ? [i E] Hrest]; subst.
    destruct (stop_step_lowers _ _ _ Hb E) as (Hb1 & Hs1 & Hq1 & Hl).
    destruct (IH s1 Hrest) as [Hk Hend]; [by eapply thread_step_inv, step_run|done|].
    split; [lia|]. rewrite Hs1 in Hend. done.
Qed.

End Db_Thread.

(** ** process_query *)

Section process_query.
Context {Val Res : Type}.
Abbreviation DM := (M (@DbWorld Val Res)).

(** The callback, if there is one, is a computation of its own: it may use
    the database and throw. *)
Context (callback : option (option Res -> list Val -> DM unit)).

Definition call_back (query : option Res) (values : list Val) : DM unit :=
  match callback with Some f => f query values | None => ret tt end.

Fixpoint process_values (sql : qstring) (values_list : list (list Val)) : DM unit :=
  match values_list with
  | [] => ret tt
  | values :: rest =>
      let* query := exec sql values in
      call_back query values ;;;
      process_values sql rest
  end.

Definition process_query (sql : qstring) (values_list : list (list Val)) : DM unit :=
  match values_list with
  | [] => let* query := exec sql [] in call_back query []
  | _ => process_values sql values_list
  end.

End process_query.

(** ** Concrete instances of the properties *)

Module Db_Thread_Witness.
Import Db_Thread.

Definition busy : t := mk false [8%nat] [Running 7%nat; In_wait] [7%nat] [].

Lemma tasks_run_once_in_order_witness :
  started busy ++ data_queue_ busy = [7%nat; 8%nat] /\ executed busy ++ running busy ≡ₚ started busy.
Proof.
  apply (tasks_run_once_in_order 2 busy [7%nat; 8%nat]).
  eapply rtc_l; [apply (step_add 7%nat)|]. eapply rtc_l; [apply (step_add 8%nat)|].
  eapply rtc_l; [apply (step_run 0%nat); reflexivity|]. eapply rtc_l; [apply (step_run 0%nat); reflexivity|].
  eapply rtc_l; [apply (step_run 1%nat); reflexivity|]. apply rtc_refl.
Defined.

Lemma stop_ends_workers_witness :
  exists s', joined s' /\ executed s' ≡ₚ [7%nat] /\ data_queue_ s' = [8%nat].
Proof.
  destruct (stop_ends_workers 2 busy [7%nat; 8%nat] 3
              (mk true [8%nat] [Finished; Finished] [7%nat] [7%nat])) as [_ Hend].
  - eapply rtc_l; [apply (step_add 7%nat)|]. eapply rtc_l; [apply (step_add 8%nat)|].
    eapply rtc_l; [apply (step_run 0%nat); reflexivity|]. eapply rtc_l; [apply (step_run 0%nat); reflexivity|].
    eapply rtc_l; [apply (step_run 1%nat); reflexivity|]. apply rtc_refl.
  - eapply nsteps_l; [exists 0%nat; reflexivity|]. eapply nsteps_l; [exists 1%nat; reflexivity|].
    eapply nsteps_l; [exists 0%nat; reflexivity|]. apply nsteps_O.
  - eexists. destruct Hend as (Hj & He & _); [|exact (conj Hj (conj He eq_refl))].
    intros s2 [[|[|i]] E]; discriminate E.
Defined.

End Db_Thread_Witness.
