(* ===== verification/DbBuilder.v ===== *)
(** * Database meta data and builders

    [src/DBMeta/db_meta.h]: what the macro [HELPZ_DB_META] defines for a
    class, given its columns; [src/Database/db_builder.h]: building objects
    from query results and the conditions of queries by id. *)

From S2P Require Import Prelude QtString DbQuery DbQueryProofs DbBase DbBaseProofs.

(** ** HELPZ_DB_META

    A class [T] with its columns: name, getter expression and setter. [V] is
    QVariant, [null] the invalid one. *)

Module Db_Meta.

Section meta.
Context {T V : Type} (null : V).

Record column := mkColumn { col_name : qstring; col_get : T -> V; col_set : V -> T -> T }.

Record t := mk {
  t_name : qstring;
  t_short_name : qstring;
  use_common_prefix : bool;
  columns : list column;
}.

Definition COL_COUNT (m : t) : Z := zlen (columns m).

Definition table_name (common_prefix : qstring) (m : t) : qstring :=
  if use_common_prefix m then common_prefix ++ t_name m else t_name m.

Definition table_column_names (m : t) : list qstring := map col_name (columns m).

(** The [switch] over the column enumerators. *)
Definition value_getter (m : t) (obj : T) (pos : Z) : V :=
  match zget (columns m) pos with Some c => col_get c obj | None => null end.

Definition value_setter (m : t) (obj : T) (pos : Z) (value : V) : T :=
  match zget (columns m) pos with Some c => col_set c value obj | None => obj end.

Definition to_variantlist (m : t) (obj : T) : list V :=
  map (fun i => value_getter m obj (Z.of_nat i)) (seq 0 (Z.to_nat (COL_COUNT m))).

(** [db_table] *)
Definition db_table (common_prefix db_name : qstring) (m : t) : Table.t :=
  Table.mk (Table.db_table_name (table_name common_prefix m) db_name) (t_short_name m) (table_column_names m).

(** ** Building an object from a row *)

Fixpoint fill_from (m : t) (i : Z) (row : list V) (item : T) : T :=
  match row with
  | [] => item
  | v :: row' => if i <? COL_COUNT m then fill_from m (i + 1) row' (value_setter m item i v) else item
  end.

(** [db_fill_item]: the columns the row and the class have in common. *)
Definition db_fill_item (m : t) (row : list V) (item : T) : T := fill_from m 0 row item.

Definition db_build (m : t) (new : T) (row : list V) : T := db_fill_item m row new.

(** [db_build_list]: one object per row, in order. *)
Definition db_build_list (m : t) (new : T) (rows : list (list V)) : list T := map (db_build m new) rows.

(** Columns that read back what was written, and do not disturb each other. *)
Definition lawful (m : t) : Prop :=
  (forall i c v obj, columns m !! i = Some c -> col_get c (col_set c v obj) = v)
  /\ (forall i j c d v obj, columns m !! i = Some c -> columns m !! j = Some d -> i <> j ->
        col_get c (col_set d v obj) = col_get c obj).

Lemma fill_from_get m row i item j c :
  lawful m -> 0 <= i -> columns m !! j = Some c -> i + zlen row <= COL_COUNT m ->
  col_get c (fill_from m i row item) =
    match row !! (j - Z.to_nat i)%nat with
    | Some v => if Z.of_nat j <? i then col_get c item else v
    | None => col_get c item
    end.
Proof.
  intros Hlaw Hi Hj. revert i item Hi. induction row as [|v row IH]; intros i item Hi Hlen.
  { by rewrite lookup_nil. }
  cbn [fill_from]. assert (zlen (v :: row) = 1 + zlen row) as Ez by (unfold zlen; simpl; lia).
  pose proof (zlen_nonneg row). destruct (Z.ltb_spec i (COL_COUNT m)); [|lia]. rewrite IH by lia.
  assert (exists d, columns m !! Z.to_nat i = Some d) as [d Hd].
  { apply lookup_lt_is_Some_2. unfold COL_COUNT, zlen in *. lia. }
  assert (value_setter m item i v = col_set d v item) as Ev by (unfold value_setter, zget; by rewrite Hd).
  destruct (Z.lt_trichotomy (Z.of_nat j) i) as [Hlt|[Heq|Hgt]].
  - replace (j - Z.to_nat (i + 1))%nat with 0%nat by lia. replace (j - Z.to_nat i)%nat with 0%nat by lia. simpl.
    destruct (Z.ltb_spec (Z.of_nat j) i); [|lia].
    assert (col_get c (value_setter m item i v) = col_get c item) as Eg.
    { rewrite Ev. apply (proj2 Hlaw j (Z.to_nat i)); [done|done|lia]. }
    destruct (row !! 0%nat); [|done]. destruct (Z.ltb_spec (Z.of_nat j) (i + 1)); [done|lia].
  - replace (j - Z.to_nat (i + 1))%nat with 0%nat by lia. replace (j - Z.to_nat i)%nat with 0%nat by lia. simpl.
    destruct (Z.ltb_spec (Z.of_nat j) i); [lia|].
    assert (col_get c (value_setter m item i v) = v) as Eg.
    { rewrite Ev. replace (Z.to_nat i) with j in Hd by lia. rewrite Hj in Hd. injection Hd as <-.
      exact (proj1 Hlaw j c v item Hj). }
    destruct (row !! 0%nat); [|done]. destruct (Z.ltb_spec (Z.of_nat j) (i + 1)); [done|lia].
  - replace (j - Z.to_nat i)%nat with (S (j - Z.to_nat (i + 1)))%nat by lia. simpl.
    destruct (Z.ltb_spec (Z.of_nat j) (i + 1)); [lia|]. destruct (Z.ltb_spec (Z.of_nat j) i); [lia|].
    assert (col_get c (value_setter m item i v) = col_get c item) as Eg.
    { rewrite Ev. apply (proj2 Hlaw j (Z.to_nat i)); [done|done|lia]. }
    by rewrite Eg.
Qed.

(** An object written to a row and read back into any other object
    agrees with the first in every column: [db_fill_item] inverts
    [to_variantlist]. *)
Theorem fill_item_inverts m obj item i c :
  lawful m -> columns m !! i = Some c ->
  zlen (to_variantlist m obj) = COL_COUNT m
  /\ col_get c (db_fill_item m (to_variantlist m obj) item) = col_get c obj.
Proof.
  intros Hlaw Hi.
  assert (zlen (to_variantlist m obj) = COL_COUNT m) as Hlen.
  { unfold to_variantlist, zlen. rewrite length_map, length_seq. unfold COL_COUNT, zlen. lia. }
  split; [done|]. unfold db_fill_item. rewrite (fill_from_get m _ 0 _ i c Hlaw) by (done || lia).
  replace (i - Z.to_nat 0)%nat with i by lia.
  assert (to_variantlist m obj !! i = Some (col_get c obj)) as ->.
  { unfold to_variantlist. rewrite list_lookup_fmap, lookup_seq_lt.
    - simpl. unfold value_getter, zget. by rewrite Nat2Z.id, Hi.
    - apply lookup_lt_Some in Hi. unfold COL_COUNT, zlen. lia. }
  by destruct (Z.ltb_spec (Z.of_nat i) 0); [lia|].
Qed.

End meta.

(** ** Conditions by id *)

(** [suffix.replace(size - 1, 1, ')')] and [sql.remove(size - 1, 1)]. *)
Definition replace_last (c : Z) (s : qstring) : qstring := ztake (zlen s - 1) s ++ [c].
Definition remove_last (s : qstring) : qstring := ztake (zlen s - 1) s.

Fixpoint numbers_comma (ids : list Z) : qstring :=
  match ids with [] => [] | i :: ids' => number i ++ [ch_comma] ++ numbers_comma ids' end.

Definition db_get_items_list_suffix (column_names : list qstring) (short_name : qstring) (id_vect : list Z) (column_index : Z) : qstring :=
  match id_vect, zget column_names column_index with
  | [], _ => []
  | _, None => []
  | _, Some name =>
      let suffix := str "WHERE " in
      let suffix := if isEmpty short_name then suffix else suffix ++ short_name ++ [ch_dot] in
      replace_last ch_close (suffix ++ name ++ str " IN (" ++ numbers_comma id_vect)
  end.

(** The condition of [db_build_item]. *)
Definition item_suffix (column_names : list qstring) (short_name : qstring) (id : Z) : option qstring :=
  match column_names with
  | [] => None
  | name :: _ =>
      let suffix := str "WHERE " in
      let suffix := if isEmpty short_name then suffix else suffix ++ short_name ++ [ch_dot] in
      Some (suffix ++ name ++ [ch_equal] ++ number id)
  end.

Definition get_db_field_in_sql (field_name : qstring) (id_list ids : list Z) : qstring :=
  let n := zlen ids + zlen id_list in
  let sql := field_name ++ (if n =? 1 then str "=" else str " IN (") in
  let sql := sql ++ numbers_comma id_list ++ numbers_comma ids in
  if n =? 1 then remove_last sql else replace_last ch_close sql.

Lemma numbers_comma_app l k : numbers_comma (l ++ k) = numbers_comma l ++ numbers_comma k.
Proof. induction l as [|i l IH]; simpl; [done|]. rewrite IH, <- app_assoc. simpl. done. Qed.

Lemma numbers_comma_join l : l <> [] -> numbers_comma l = join [ch_comma] (map number l) ++ [ch_comma].
Proof.
  induction l as [|i l IH]; [done|]. intros _. destruct l as [|j l]; [done|].
  change (numbers_comma (i :: j :: l)) with (number i ++ [ch_comma] ++ numbers_comma (j :: l)).
  rewrite IH by done. change (join [ch_comma] (map number (i :: j :: l)))
    with (number i ++ [ch_comma] ++ join [ch_comma] (map number (j :: l))).
  by rewrite <- !app_assoc.
Qed.

Lemma remove_last_app s c : remove_last (s ++ [c]) = s.
Proof.
  unfold remove_last. rewrite zlen_app. change (zlen [c]) with 1. replace (zlen s + 1 - 1) with (zlen s) by lia.
  by apply ztake_app_exact.
Qed.

Lemma replace_last_app c s x : replace_last c (s ++ [x]) = s ++ [c].
Proof. unfold replace_last. change (ztake (zlen (s ++ [x]) - 1) (s ++ [x])) with (remove_last (s ++ [x])). by rewrite remove_last_app. Qed.

(** *** Reading objects from the database *)

Section reading.
Context {T V Res : Type} (m : @t T V) (new : T) (rows_of : Res -> list (list V)) (common_prefix : qstring).
Context `{QStringArg} (escapeIdentifier : qstring -> qstring).
Abbreviation DM := (M (@DbWorld V Res)).

(** A query that is not active has no row. *)
Definition query_rows (q : option Res) : list (list V) := match q with Some r => rows_of r | None => [] end.

(** [db_build_list(db, suffix, db_name)] *)
Definition db_build_list_db (suffix db_name : qstring) : DM (list T) :=
  let* q := select escapeIdentifier (db_table common_prefix db_name m) suffix [] [] in
  ret (db_build_list m new (query_rows q)).

(** [db_build_list(db, id_vect, db_name, column_index)] *)
Definition db_build_list_ids (id_vect : list Z) (db_name : qstring) (column_index : Z) : DM (list T) :=
  let suffix := db_get_items_list_suffix (table_column_names m) (t_short_name m) id_vect column_index in
  if isEmpty suffix then ret [] else db_build_list_db suffix db_name.

(** [db_build_item]; [first()] of no columns is undefined. *)
Definition db_build_item (id : Z) (db_name : qstring) : DM T :=
  match item_suffix (table_column_names m) (t_short_name m) id with
  | None => undef
  | Some suffix =>
      let* q := select escapeIdentifier (db_table common_prefix db_name m) suffix [] [] in
      match query_rows q with
      | row :: _ => ret (db_build m new row)
      | [] => ret new
      end
  end.

End reading.

(** The condition for a field and a list of ids: [field=id] for one id,
    [field IN (a,b,...)] for several; for no id at all the text is
    [field IN )], which is not SQL. *)
Theorem field_in_sql_text field id_list ids :
  get_db_field_in_sql field id_list ids =
    match id_list ++ ids with
    | [] => field ++ str " IN )"
    | [i] => field ++ str "=" ++ number i
    | l => field ++ str " IN (" ++ join [ch_comma] (map number l) ++ str ")"
    end.
Proof.
  unfold get_db_field_in_sql. rewrite <- numbers_comma_app.
  assert (zlen ids + zlen id_list = zlen (id_list ++ ids)) as -> by (rewrite zlen_app; lia).
  destruct (id_list ++ ids) as [|i [|j l]] eqn:E.
  - change (zlen (@nil Z) =? 1) with false. cbv iota. simpl numbers_comma. rewrite app_nil_r.
    change (str " IN (") with (str " IN " ++ [ch_open]). rewrite app_assoc, replace_last_app, <- app_assoc. done.
  - change (zlen [i] =? 1) with true. cbv iota. simpl numbers_comma.
    rewrite !app_assoc, remove_last_app, <- !app_assoc. done.
  - destruct (Z.eqb_spec (zlen (i :: j :: l)) 1) as [Hbad|_]; [unfold zlen in Hbad; simpl in Hbad; lia|].
    rewrite numbers_comma_join by done. rewrite !app_assoc, replace_last_app, <- !app_assoc. done.
Qed.

Lemma items_list_suffix_text names short_name ids col name :
  ids <> [] -> zget names col = Some name ->
  db_get_items_list_suffix names short_name ids col
  = str "WHERE " ++ (if isEmpty short_name then [] else short_name ++ [ch_dot]) ++ name
      ++ str " IN (" ++ join [ch_comma] (map number ids) ++ str ")".
Proof.
  intros Hne Ez. unfold db_get_items_list_suffix. rewrite Ez. destruct ids as [|i ids]; [done|].
  rewrite numbers_comma_join by done.
  destruct (isEmpty short_name); rewrite !app_assoc, replace_last_app, <- !app_assoc; done.
Qed.

Section reading_proofs.
Context {T V Res : Type} (m : @t T V) (new : T) (rows_of : Res -> list (list V)) (common_prefix : qstring).
Context `{HA : QStringArgLaws} (escapeIdentifier : qstring -> qstring).

(** The columns of the class, qualified and quoted, as a SELECT names them. *)
Definition selected_fields (db_name : qstring) : list qstring :=
  escape_fields escapeIdentifier (db_table common_prefix db_name m) [] true.

(** C33. Objects by id: on an open connection, when the statement succeeds and
    the names have none of the characters that formatting replaces, exactly one
    statement is run,
    the SELECT of all columns for the given ids, and the result has one
    object per row, in order, filled from the row. Without ids, or with a
    column the class does not have, nothing is run and the list is empty. *)
Theorem build_list_by_ids ids db_name col r (w : @DbWorld V Res) :
  let tb := db_table common_prefix db_name m in
  Table.is_null tb = false -> no_char ch_percent (Table.name_ tb ++ Table.short_name_ tb) ->
  Forall plain (selected_fields db_name) -> ready w -> env_exec w (n_exec w) = Some r ->
  db_build_list_ids m new rows_of common_prefix escapeIdentifier ids db_name col w
  = match ids, zget (table_column_names m) col with
    | _ :: _, Some name =>
        let where_ := str "WHERE " ++ (if isEmpty (t_short_name m) then [] else t_short_name m ++ [ch_dot]) ++ name
                        ++ str " IN (" ++ join [ch_comma] (map number ids) ++ str ")" in
        (Ret (map (db_build m new) (rows_of r)), after [(select_text tb where_ (selected_fields db_name), [])] w)
    | _, _ => (Ret [], w)
    end.
Proof.
  intros tb Hnull Hn Hf Hr He. unfold db_build_list_ids. destruct ids as [|i ids]; [done|].
  destruct (zget (table_column_names m) col) as [name|] eqn:Ez.
  - rewrite (items_list_suffix_text _ _ _ _ name) by done.
    set (suffix := str "WHERE " ++ _). change (isEmpty suffix) with false. cbv iota. unfold db_build_list_db.
    by erewrite bind_Ret by (by apply select_succeeds).
  - unfold db_get_items_list_suffix. by rewrite Ez.
Qed.

(** One object by its id: the first row, or a new object when there is none. *)
Lemma build_item_by_id id db_name name names r (w : @DbWorld V Res) :
  let tb := db_table common_prefix db_name m in
  table_column_names m = name :: names ->
  Table.is_null tb = false -> no_char ch_percent (Table.name_ tb ++ Table.short_name_ tb) ->
  Forall plain (selected_fields db_name) -> ready w -> env_exec w (n_exec w) = Some r ->
  exists w', db_build_item m new rows_of common_prefix escapeIdentifier id db_name w
    = (Ret (match rows_of r with row :: _ => db_build m new row | [] => new end), w').
Proof.
  intros tb Hc Hnull Hn Hf Hr He. unfold db_build_item, item_suffix. rewrite Hc.
  eexists. erewrite bind_Ret by (by apply select_succeeds). simpl. by destruct (rows_of r).
Qed.

End reading_proofs.

End Db_Meta.

(** ** Concrete instance *)

Module Meta_Witness.
Import Db_Meta QtStringRef.

Definition pair_meta : @t (Z * Z) Z :=
  mk (str "pair") (str "p") true
    [ mkColumn (str "a") fst (fun v p => (v, p.2)); mkColumn (str "b") snd (fun v p => (p.1, v)) ].

Lemma pair_lawful : lawful pair_meta.
Proof.
  split.
  - intros [|[|i]] c v obj E; simpl in E; try done; by injection E as <-.
  - intros [|[|i]] [|[|j]] c d v obj E1 E2 Hne; simpl in E1, E2; try done; injection E1 as <-; injection E2 as <-; done.
Qed.

Lemma fill_item_inverts_witness :
  zlen (to_variantlist 0 pair_meta (3, 4)) = 2
  /\ snd (db_fill_item pair_meta (to_variantlist 0 pair_meta (3, 4)) (0, 0)) = 4.
Proof.
  exact (fill_item_inverts 0 pair_meta (3, 4) (0, 0) 1%nat (mkColumn (str "b") snd (fun v p => (p.1, v))) pair_lawful eq_refl).
Defined.

Definition rows_world : @DbWorld Z (list (list Z)) :=
  mkDbWorld (mkBase false (str "main") Connection_Info.default_info) [(str "main", true)] (fun _ => true)
    (fun _ => Some [[1; 2]; [3; 4]]) 0 0 [].

Lemma build_list_by_ids_witness :
  exists w', db_build_list_ids (H := arg_ref) pair_meta (0, 0) (fun r => r) [] (fun s => s) [1; 3] [] 0 rows_world
    = (Ret [(1, 2); (3, 4)], w')
    /\ db_events w' = [Ev_exec (str "SELECT p.a,p.b FROM pair p WHERE p.a IN (1,3);") [] true].
Proof.
  eexists. split.
  - rewrite (build_list_by_ids pair_meta (0, 0) (fun r => r) [] (fun s => s) [1; 3] [] 0 [[1; 2]; [3; 4]] rows_world).
    + reflexivity.
    + reflexivity.
    + by apply (bool_decide_unpack _).
    + repeat constructor; by apply (bool_decide_unpack _).
    + split; [discriminate|reflexivity].
    + reflexivity.
  - vm_compute. reflexivity.
Defined.

End Meta_Witness.
