(* ===== verification/DbMetaMacros.v ===== *)
(** * The macros of db_meta.h

    [src/DBMeta/db_meta.h] generates the members of a table class with the
    preprocessor: it counts the arguments of [HELPZ_DB_META], chooses a macro
    by that number, and unrolls one line of macros per column. Here are the
    macros, on the texts of their arguments, and what the class they expand
    to does. [Db_Meta] of [DbBuilder], which speaks of a list of columns, is
    what they implement for 1 to 15 columns.

    An argument of a macro is its text; a missing argument, or the name of a
    macro that does not exist, is [None]: the code does not compile. *)

From S2P Require Import Prelude QtString DbQuery DbQueryProofs DbBase DbBaseProofs DbBuilder.

Module Meta_Macros.

Notation text := qstring.

(** ** Columns

    What a column macro expands to: name, getter and setter. *)

Inductive column_macro :=
| DB_A (A : text)
| DB_AM (A : text)
| DB_AMN (A : text)
| DB_AN (A : text)
| DB_AT (A : text)
| DB_ANS (A : text).

Definition ch_quote : Z := 34.

Definition expand_column (c : column_macro) : list text :=
  match c with
  | DB_A A => [A; A ++ str "()"; str "set_" ++ A]
  | DB_AM A => [A; A; A]
  | DB_AMN A => [A; A ++ str " ? obj." ++ A ++ str " : QVariant()"; A]
  | DB_AN A => [A; A ++ str "() ? obj." ++ A ++ str "() : QVariant()"; str "set_" ++ A]
  | DB_AT A => [A; A ++ str "_to_db()"; str "set_" ++ A ++ str "_from_db"]
  | DB_ANS A => [A; A ++ str "().isEmpty() ? " ++ [ch_quote; ch_quote] ++ str " : obj." ++ A ++ str "()"; str "set_" ++ A]
  end.

Definition column_text (c : column_macro) : text :=
  match c with DB_A A | DB_AM A | DB_AMN A | DB_AN A | DB_AT A | DB_ANS A => A end.

(** The arguments of a call: one empty argument when there is none. *)
Definition call_args (args : list text) : list text := match args with [] => [[]] | _ => args end.

Definition va_args (cs : list column_macro) : list text := call_args (concat (map expand_column cs)).

(** ** Counting

    The number of arguments is found by position: the arguments push the
    sequence of numbers to the right. *)

Definition HELPZ_DB_RSEQ_N : list text :=
  map number [15;15;15;14;14;14;13;13;13;12;12;12;11;11;11;10;10;10;
              9;9;9;8;8;8;7;7;7;6;6;6;5;5;5;4;4;4;3;3;3;2;2;2;1;1;1;0].

(** The argument after the first 45. *)
Definition HELPZ_DB_ARG_N (args : list text) : option text := args !! 45%nat.

Definition HELPZ_DB_NARG (args : list text) : option text := HELPZ_DB_ARG_N (args ++ HELPZ_DB_RSEQ_N).

Definition HELPZ_PP_RSEQ_N : list text :=
  map number [63;62;61;60;
              59;58;57;56;55;54;53;52;51;50;
              49;48;47;46;45;44;43;42;41;40;
              39;38;37;36;35;34;33;32;31;30;
              29;28;27;26;25;24;23;22;21;20;
              19;18;17;16;15;14;13;12;11;10;
              9;8;7;6;5;4;3;2;1;0].

Definition HELPZ_PP_ARG_N (args : list text) : option text := args !! 63%nat.

Definition HELPZ_PP_NARG (args : list text) : option text := HELPZ_PP_ARG_N (args ++ HELPZ_PP_RSEQ_N).

(** ** One macro per number of columns

    [HELPZ_DB_..._n] handles a column and calls [HELPZ_DB_..._(n-1)] with the
    arguments that are left. There is none for 0. *)

Definition COL_ (A : text) : text := str "COL_" ++ A.

Fixpoint HELPZ_DB_COL_NAME (n : nat) (args : list text) : option (list text) :=
  match n, args with
  | 1%nat, A :: GT :: ST :: _ => Some [COL_ A]
  | S n', A :: GT :: ST :: rest => cons (COL_ A) <$> HELPZ_DB_COL_NAME n' (call_args rest)
  | _, _ => None
  end.

(** The last one takes three arguments exactly. *)
Fixpoint HELPZ_DB_QUOTE (n : nat) (args : list text) : option (list text) :=
  match n, args with
  | 1%nat, [A; GT; ST] => Some [A]
  | 1%nat, _ => None
  | S n', A :: GT :: ST :: rest => cons A <$> HELPZ_DB_QUOTE n' (call_args rest)
  | _, _ => None
  end.

(** [case COL_A: return O.F;] *)
Definition HELPZ_DB_GETTER_CASE_IMPL (A O F : text) : text * text := (COL_ A, O ++ str "." ++ F).

Fixpoint HELPZ_DB_GETTER_CASE (n : nat) (O : text) (args : list text) : option (list (text * text)) :=
  match n, args with
  | 1%nat, A :: GT :: ST :: _ => Some [HELPZ_DB_GETTER_CASE_IMPL A O GT]
  | S n', A :: GT :: ST :: rest => cons (HELPZ_DB_GETTER_CASE_IMPL A O GT) <$> HELPZ_DB_GETTER_CASE n' O (call_args rest)
  | _, _ => None
  end.

(** [case COL_A: db_set_value_from_variant(O, &T::F, V); break;]: what is
    set, and the member that sets it. *)
Definition HELPZ_DB_SETTER_CASE_IMPL (A T O F V : text) : text * (text * text * text) :=
  (COL_ A, (O, str "&" ++ T ++ str "::" ++ F, V)).

Fixpoint HELPZ_DB_SETTER_CASE (n : nat) (T O V : text) (args : list text) : option (list (text * (text * text * text))) :=
  match n, args with
  | 1%nat, A :: GT :: ST :: _ => Some [HELPZ_DB_SETTER_CASE_IMPL A T O ST V]
  | S n', A :: GT :: ST :: rest =>
      cons (HELPZ_DB_SETTER_CASE_IMPL A T O ST V) <$> HELPZ_DB_SETTER_CASE n' T O V (call_args rest)
  | _, _ => None
  end.

(** ** The class *)

Record expansion := mkExpansion {
  Database_Columns : list text;
  quoted : list text;
  getter_cases : list (text * text);
  setter_cases : list (text * (text * text * text));
}.

(** The macros with suffix [N] that exist. *)
Definition suffix (N : text) : option nat :=
  list_find (fun n : nat => number (Z.of_nat n) = N) (seq 1 15) ≫= fun p => Some p.2.

Definition HELPZ_DB_META_PASTER (T N : text) (args : list text) : option expansion :=
  n ← suffix N;
  cols ← HELPZ_DB_COL_NAME n args;
  quotes ← HELPZ_DB_QUOTE n args;
  getters ← HELPZ_DB_GETTER_CASE n (str "obj") args;
  setters ← HELPZ_DB_SETTER_CASE n T (str "obj") (str "value") args;
  Some (mkExpansion (cols ++ [str "COL_COUNT"]) quotes getters setters).

Definition HELPZ_DB_META (T : text) (cs : list column_macro) : option expansion :=
  N ← HELPZ_DB_NARG (va_args cs);
  HELPZ_DB_META_PASTER T N (va_args cs).

(** The value of an enumerator: its position. *)
Definition enumerator (x : expansion) (name : text) : option nat :=
  fst <$> list_find (fun y => y = name) (Database_Columns x).

(** The [switch] of a generated function. *)
Fixpoint switch {E} (x : expansion) (cases : list (text * E)) (pos : Z) : option E :=
  match cases with
  | [] => None
  | (label, e) :: cases =>
      if bool_decide (Z.of_nat <$> enumerator x label = Some pos) then Some e else switch x cases pos
  end.

(** The enumerators are different. *)
Definition compiles (x : expansion) : bool := bool_decide (NoDup (Database_Columns x)).

(** ** HELPZ_FOR_EACH *)

(** [HELPZ_FE_n] on [n] arguments. *)
Fixpoint HELPZ_FE (n : nat) (WHAT : text -> text) (args : list text) : option text :=
  match n, args with
  | 1%nat, [X] => Some (WHAT X)
  | 1%nat, _ => None
  | S n', X :: rest => app (WHAT X) <$> HELPZ_FE n' WHAT (call_args rest)
  | _, _ => None
  end.

(** The sixth argument: a macro of the list, or an argument of the caller. *)
Definition HELPZ_GET_MACRO (args : list (text + nat)) : option (text + nat) := args !! 5%nat.

Definition HELPZ_FOR_EACH (action : text -> text) (args : list text) : option text :=
  NAME ← HELPZ_GET_MACRO (map inl args ++ map inr [5; 4; 3; 2; 1]%nat);
  match NAME with inr n => HELPZ_FE n action args | inl _ => None end.

(** ** What the class does

    [eval_get] is the value of a getter expression for an object, [member_of]
    the member a pointer [&T::F] denotes: a setter or a data member, of a type
    [AT] to which a [QVariant] is converted by [value]. *)

Section members.
Context {Obj V : Type} (null : V) (eval_get : text -> Obj -> V).

Inductive class_member :=
| Setter {AT : Type} (value : V -> AT) (f : AT -> Obj -> Obj)
| Field {AT : Type} (value : V -> AT) (put : AT -> Obj -> Obj).

Context (member_of : text -> class_member).

(** Both overloads. *)
Definition db_set_value_from_variant (obj : Obj) (m : class_member) (v : V) : Obj :=
  match m with
  | Setter value setter => setter (value v) obj
  | Field value put => put (value v) obj
  end.

Definition macro_value_getter (x : expansion) (obj : Obj) (pos : Z) : V :=
  match switch x (getter_cases x) pos with Some e => eval_get e obj | None => null end.

Definition macro_value_setter (x : expansion) (obj : Obj) (pos : Z) (value : V) : Obj :=
  match switch x (setter_cases x) pos with Some (_, member, _) => db_set_value_from_variant obj (member_of member) value | None => obj end.

(** The same class as a list of columns. *)
Definition getter_text (c : column_macro) : text := nth 1 (expand_column c) [].
Definition setter_text (c : column_macro) : text := nth 2 (expand_column c) [].

Definition meta_of (T t_name t_short_name : text) (prefix : bool) (cs : list column_macro) : Db_Meta.t (T := Obj) (V := V) :=
  Db_Meta.mk t_name t_short_name prefix
    (map (fun c => Db_Meta.mkColumn (column_text c) (eval_get (str "obj." ++ getter_text c))
                     (fun value obj => db_set_value_from_variant obj (member_of (str "&" ++ T ++ str "::" ++ setter_text c)) value)) cs).

End members.

(** ** Lemmas *)

Lemma expand_three c : expand_column c = [column_text c; getter_text c; setter_text c].
Proof. by destruct c. Qed.

Lemma va_args_cons c cs :
  va_args (c :: cs) = column_text c :: getter_text c :: setter_text c :: concat (map expand_column cs).
Proof. unfold va_args. cbn [map concat]. by rewrite expand_three. Qed.

Lemma va_args_length cs : cs <> [] -> length (va_args cs) = (3 * length cs)%nat.
Proof.
  destruct cs as [|c cs]; [done|]. intros _. rewrite va_args_cons. simpl.
  assert (length (concat (map expand_column cs)) = (3 * length cs)%nat) as ->; [|lia].
  induction cs as [|d cs IH]; [done|]. cbn [map concat]. rewrite length_app, IH, expand_three. simpl. lia.
Qed.

(** A chain of macros that treats the columns one by one. *)
Lemma chain_expands {X} (M : nat -> list text -> option (list X)) (f : text -> text -> text -> X) :
  (forall A GT ST, M 1%nat [A; GT; ST] = Some [f A GT ST]) ->
  (forall n A GT ST rest, M (S (S n)) (A :: GT :: ST :: rest) = cons (f A GT ST) <$> M (S n) (call_args rest)) ->
  forall cs, cs <> [] ->
    M (length cs) (va_args cs) = Some (map (fun c => f (column_text c) (getter_text c) (setter_text c)) cs).
Proof.
  intros H1' H2' cs. induction cs as [|c cs IH]; [done|]. intros _. rewrite va_args_cons. destruct cs as [|d cs].
  - simpl. apply H1'.
  - cbn [length]. rewrite H2'. specialize (IH ltac:(done)). cbn [length] in IH. unfold va_args in IH. by rewrite IH.
Qed.

Lemma suffix_number n : (1 <= n <= 15)%nat -> suffix (number (Z.of_nat n)) = Some n.
Proof. intros Hn. do 16 (destruct n as [|n]; [reflexivity || lia|]). lia. Qed.

Lemma narg_small args n : length args = (3 * n)%nat -> (1 <= n <= 15)%nat -> HELPZ_DB_NARG args = Some (number (Z.of_nat n)).
Proof.
  intros Hl Hn. unfold HELPZ_DB_NARG, HELPZ_DB_ARG_N. rewrite lookup_app_r by lia. rewrite Hl. clear Hl.
  do 16 (destruct n as [|n]; [reflexivity || lia|]). lia.
Qed.

Lemma enumerator_at x i a : NoDup (Database_Columns x) -> Database_Columns x !! i = Some a -> enumerator x a = Some i.
Proof.
  intros Hnd Hi. unfold enumerator. assert (list_find (fun y => y = a) (Database_Columns x) = Some (i, a)) as ->; [|done].
  apply list_find_Some. split; [done|]. split; [done|]. intros j y Hj Hlt ->.
  pose proof (NoDup_lookup _ _ _ _ Hnd Hi Hj). lia.
Qed.

(** Labels that are consecutive enumerators from [k] on. *)
Lemma switch_consecutive {E} x (cases : list (text * E)) : forall k pos,
  (forall j l e, cases !! j = Some (l, e) -> enumerator x l = Some (k + j)%nat) ->
  switch x cases pos = if Z.of_nat k <=? pos then snd <$> cases !! Z.to_nat (pos - Z.of_nat k) else None.
Proof.
  induction cases as [|[l e] cases IH]; intros k pos Hen; [simpl; by destruct (_ <=? _)|].
  cbn [switch]. rewrite (Hen 0%nat l e eq_refl), Nat.add_0_r. simpl. case_bool_decide as Hb.
  - injection Hb as <-. rewrite Z.leb_refl. by replace (Z.to_nat (Z.of_nat k - Z.of_nat k)) with 0%nat by lia.
  - rewrite (IH (S k)); [|intros j l' e' Hj; rewrite (Hen (S j) l' e' Hj); f_equal; lia].
    assert (Z.of_nat k <> pos) as Hne by (intros <-; done).
    destruct (Z.leb_spec (Z.of_nat (S k)) pos); destruct (Z.leb_spec (Z.of_nat k) pos); try lia; [|done].
    by replace (Z.to_nat (pos - Z.of_nat k)) with (S (Z.to_nat (pos - Z.of_nat (S k)))) by lia.
Qed.

(** ** What the macros expand to *)

Definition expanded (T : text) (cs : list column_macro) : expansion :=
  mkExpansion (map (fun c => COL_ (column_text c)) cs ++ [str "COL_COUNT"]) (map column_text cs)
    (map (fun c => (COL_ (column_text c), str "obj." ++ getter_text c)) cs)
    (map (fun c => (COL_ (column_text c), (str "obj", str "&" ++ T ++ str "::" ++ setter_text c, str "value"))) cs).

Lemma meta_expands T cs : (1 <= length cs <= 15)%nat -> HELPZ_DB_META T cs = Some (expanded T cs).
Proof.
  intros Hn. assert (cs <> []) as Hne by (intros ->; simpl in Hn; lia).
  unfold HELPZ_DB_META. rewrite (narg_small _ (length cs)) by (done || by apply va_args_length).
  simpl. unfold HELPZ_DB_META_PASTER. rewrite suffix_number by done. simpl.
  rewrite (chain_expands HELPZ_DB_COL_NAME (fun A _ _ => COL_ A)) by done. simpl.
  rewrite (chain_expands HELPZ_DB_QUOTE (fun A _ _ => A)) by done. simpl.
  rewrite (chain_expands (fun n => HELPZ_DB_GETTER_CASE n _) (fun A GT _ => HELPZ_DB_GETTER_CASE_IMPL A (str "obj") GT)) by done. simpl.
  rewrite (chain_expands (fun n => HELPZ_DB_SETTER_CASE n T _ _) (fun A _ ST => HELPZ_DB_SETTER_CASE_IMPL A T (str "obj") ST (str "value"))) by done.
  done.
Qed.

(** Without columns, or with more than 15, there is no such class: the count
    is wrong then, and the sixteenth column's name is taken for it. *)
Lemma meta_rejects T cs :
  cs = [] \/ ((15 < length cs)%nat /\ forall c, cs !! 15%nat = Some c -> suffix (column_text c) = None) ->
  HELPZ_DB_META T cs = None.
Proof.
  intros [->|[Hn Hs]]; [by vm_compute|].
  destruct (lookup_lt_is_Some_2 cs 15 Hn) as [c Hc]. specialize (Hs c Hc).
  enough (HELPZ_DB_NARG (va_args cs) = Some (column_text c)) as E.
  { unfold HELPZ_DB_META. rewrite E. simpl. unfold HELPZ_DB_META_PASTER. by rewrite Hs. }
  unfold HELPZ_DB_NARG, HELPZ_DB_ARG_N. do 15 (destruct cs as [|? cs]; [simpl in Hn; lia|]).
  destruct cs as [|d cs]; [done|]. injection Hc as ->. rewrite va_args_cons. cbn [map concat]. rewrite !expand_three. reflexivity.
Qed.

Lemma expanded_distinct T cs :
  NoDup (map column_text cs) -> str "COUNT" ∉ map column_text cs -> NoDup (Database_Columns (expanded T cs)).
Proof.
  intros Hnd Hc. cbn [Database_Columns expanded].
  assert (map (fun c => COL_ (column_text c)) cs ++ [str "COL_COUNT"] = map COL_ (map column_text cs ++ [str "COUNT"])) as ->
    by (rewrite map_app, map_map; done).
  apply NoDup_fmap_2; [by intros a b [= ->]|]. apply NoDup_app. split_and!; [done| |apply NoDup_singleton].
  intros a Ha ->%list_elem_of_singleton. done.
Qed.

Lemma expanded_enumerator T cs i c :
  NoDup (Database_Columns (expanded T cs)) -> cs !! i = Some c -> enumerator (expanded T cs) (COL_ (column_text c)) = Some i.
Proof.
  intros Hnd Hi. apply enumerator_at; [done|]. cbn [Database_Columns expanded].
  rewrite lookup_app_l by (rewrite length_map; by eapply lookup_lt_Some). by rewrite list_lookup_fmap, Hi.
Qed.

(** The [switch] over the cases of the columns. *)
Lemma expanded_switch {E} T cs (f : column_macro -> E) pos :
  0 <= pos -> NoDup (Database_Columns (expanded T cs)) ->
  switch (expanded T cs) (map (fun c => (COL_ (column_text c), f c)) cs) pos = f <$> zget cs pos.
Proof.
  intros Hpos Hnd. rewrite (switch_consecutive _ _ 0).
  - rewrite Z.sub_0_r. change (Z.of_nat 0) with 0. unfold zget. destruct (Z.leb_spec 0 pos); [|lia].
    rewrite list_lookup_fmap. by destruct (cs !! Z.to_nat pos).
  - intros j l e Hj. rewrite list_lookup_fmap in Hj. destruct (cs !! j) as [c|] eqn:Hc; [|done]. injection Hj as <- <-.
    by apply expanded_enumerator.
Qed.

Lemma zget_map {X Y} (f : X -> Y) l pos : zget (map f l) pos = f <$> zget l pos.
Proof. unfold zget. by rewrite list_lookup_fmap. Qed.

(** ** Property *)

(** C29. What [HELPZ_DB_META] generates. For 1 to 15 columns with different
    names, none of them COUNT, the macros expand to a class that compiles and
    behaves as [Db_Meta] says: its column names are those of the columns in
    their order, each enumerator is the column's position and [COL_COUNT]
    their number, and [value_getter] and [value_setter] reach, for every
    [pos], the getter and the setter of the column at [pos], and nothing
    outside. With no column, or with more than 15, it does not expand. *)
Theorem macros_implement_meta {Obj V} (null : V) (eval_get : text -> Obj -> V) (member_of : text -> class_member)
    T t_name t_short_name prefix cs :
  NoDup (map column_text cs) -> str "COUNT" ∉ map column_text cs ->
  (forall c, cs !! 15%nat = Some c -> suffix (column_text c) = None) ->
  let m := meta_of eval_get member_of T t_name t_short_name prefix cs in
  match HELPZ_DB_META T cs with
  | None => cs = [] \/ (15 < length cs)%nat
  | Some x =>
      (1 <= length cs <= 15)%nat /\ compiles x = true /\ quoted x = Db_Meta.table_column_names m
      /\ Z.of_nat <$> enumerator x (str "COL_COUNT") = Some (Db_Meta.COL_COUNT m)
      /\ (forall i c, cs !! i = Some c -> enumerator x (COL_ (column_text c)) = Some i)
      /\ (forall obj pos, 0 <= pos -> macro_value_getter null eval_get x obj pos = Db_Meta.value_getter null m obj pos)
      /\ (forall obj pos value, 0 <= pos -> macro_value_setter member_of x obj pos value = Db_Meta.value_setter m obj pos value)
  end.
Proof.
  intros Hnd Hc Hs m. pose proof (expanded_distinct T cs Hnd Hc) as Hd.
  destruct (decide (1 <= length cs <= 15)%nat) as [Hn|Hn].
  - rewrite meta_expands by done. split_and!; try lia.
    + unfold compiles. by apply bool_decide_eq_true.
    + unfold Db_Meta.table_column_names. simpl. by rewrite map_map.
    + rewrite (enumerator_at _ (length cs)); [|done|].
      * unfold Db_Meta.COL_COUNT, zlen. simpl. by rewrite length_map.
      * cbn [Database_Columns expanded]. rewrite lookup_app_r by (by rewrite length_map). by rewrite length_map, Nat.sub_diag.
    + intros i c. by apply expanded_enumerator.
    + intros obj pos Hpos. unfold macro_value_getter, Db_Meta.value_getter. cbn [getter_cases expanded].
      rewrite expanded_switch by done. simpl. rewrite zget_map. by destruct (zget cs pos).
    + intros obj pos value Hpos. unfold macro_value_setter, Db_Meta.value_setter. cbn [setter_cases expanded].
      rewrite expanded_switch by done. simpl. rewrite zget_map. by destruct (zget cs pos).
  - assert (cs = [] \/ (15 < length cs)%nat) as Hor by (destruct cs; [by left|right; simpl in *; lia]).
    rewrite meta_rejects; [done|]. destruct Hor; [by left|by right].
Qed.

(** *** The other macros *)

(** [HELPZ_PP_NARG] counts up to 63 arguments. *)
Lemma pp_narg_counts args : (1 <= length args <= 63)%nat -> HELPZ_PP_NARG args = Some (number (Z.of_nat (length args))).
Proof.
  intros Hn. unfold HELPZ_PP_NARG, HELPZ_PP_ARG_N. rewrite lookup_app_r by lia. generalize dependent (length args). clear args.
  intros n Hn. do 64 (destruct n as [|n]; [reflexivity || lia|]). lia.
Qed.

Lemma fe_expands action args : args <> [] -> HELPZ_FE (length args) action args = Some (concat (map action args)).
Proof.
  induction args as [|X args IH]; [done|]. intros _. destruct args as [|Y args]; [simpl; by rewrite app_nil_r|].
  specialize (IH ltac:(done)). cbn [length] in IH |- *.
  change (app (action X) <$> HELPZ_FE (S (length args)) action (Y :: args) = Some (concat (map action (X :: Y :: args)))).
  by rewrite IH.
Qed.

(** [HELPZ_FOR_EACH] treats one to five arguments, and no more. *)
Lemma for_each_expands action args :
  args <> [] ->
  HELPZ_FOR_EACH action args = if (length args <=? 5)%nat then Some (concat (map action args)) else None.
Proof.
  intros Hne. do 6 (destruct args as [|? args]; [try done; exact (fe_expands action _ ltac:(done))|]). reflexivity.
Qed.

End Meta_Macros.

(** ** Witness *)

Module Meta_Macros_Witness.
Import Meta_Macros.

Definition cs : list column_macro := [DB_A (str "id"); DB_AN (str "name"); DB_AT (str "date")].

(** A value is the text of the expression that yields it. *)
Definition shown (e : qstring) (obj : list qstring) : qstring := e.
Definition noted (member : qstring) : class_member := Setter id (fun value obj => obj ++ [member; value]).

Lemma macros_implement_meta_witness :
  exists x, HELPZ_DB_META (str "Item") cs = Some x /\ compiles x = true
    /\ enumerator x (str "COL_date") = Some 2%nat
    /\ (forall pos, 0 <= pos -> macro_value_getter [] shown x [] pos
           = Db_Meta.value_getter [] (meta_of shown noted (str "Item") (str "item") (str "i") true cs) [] pos)
    /\ macro_value_getter [] shown x [] 1 = str "obj.name() ? obj.name() : QVariant()"
    /\ macro_value_setter noted x [] 2 (str "v") = [str "&Item::set_date_from_db"; str "v"]
    /\ macro_value_setter noted x [] 3 (str "v") = [].
Proof.
  assert (NoDup (map column_text cs)) as Hnd by (apply (bool_decide_unpack _); vm_compute; exact I).
  assert (str "COUNT" ∉ map column_text cs) as Hc by (apply (bool_decide_unpack _); vm_compute; exact I).
  pose proof (macros_implement_meta [] shown noted (str "Item") (str "item") (str "i") true cs Hnd Hc ltac:(done)) as Hm.
  destruct (HELPZ_DB_META (str "Item") cs) as [x|] eqn:E; [|exfalso; vm_compute in E; discriminate].
  destruct Hm as (_ & Hco & _ & _ & Hen & Hg & Hs). exists x. split; [reflexivity|]. split; [exact Hco|].
  split; [exact (Hen 2%nat (DB_AT (str "date")) eq_refl)|]. split; [intros pos; apply Hg|].
  split; [rewrite Hg by lia; vm_compute; reflexivity|]. split; rewrite Hs by lia; vm_compute; reflexivity.
Defined.

End Meta_Macros_Witness.
