(* ===== verification/DtlsNode.v ===== *)
(** * DTLS::Node and the objects it works with

    [src/DTLS/dtls_node.h] and [.cpp], [dtls_server_node.*],
    [dtls_client_node.*] and [dtls_controller.*]: one end of a DTLS
    connection, which is the [Net::Protocol_Writer] of the protocol that runs
    over it. Nodes and protocols are shared objects, so they live in a store
    and are named by numbers; a [shared_ptr] is such a number, and a node is
    destroyed when nothing in the store names it any more.

    Botan (the TLS library) is not part of the repository: its channel is a
    parameter. Each protocol object in the store is a [Net::Protocol] as
    modelled in the Network files, and runs its own code: [run_protocol]. *)

From S2P Require Import Prelude StdMap QtInterface MessageItem FragmentedMessage ProtocolState ProtocolSend ProtocolRecv ProtocolStream ProtocolTimer.
From stdpp Require Export gmap.
Open Scope Z_scope.
Open Scope helpz_scope.

(** An IPv4 endpoint as the number [address * 2^16 + port]: boost orders
    endpoints by address, then port. *)
Abbreviation endpoint := Z.
Abbreviation bytes := (list byte).

(** ** Botan's channel

    A call of [received_data] runs callbacks of the node, and what the
    channel does next may depend on how they end. A call comes with the
    state of the channel at that moment. *)

Inductive Alert := CLOSE_NOTIFY | Other_Alert (code : Z).

Inductive Callback :=
| Cb_record_received (data : bytes)
| Cb_alert (alert : Alert)
| Cb_emit_data (data : bytes)
| Cb_verify_cert_chain (cert_chain : list bytes) (hostname : bytes)
| Cb_session_established
| Cb_choose_app_protocol (client_protos : list bytes).

Inductive Reply := Rep_done | Rep_app_protocol (name : bytes) | Rep_throw.

Inductive Activity (C : Type) :=
| Act_return (c : C)
| Act_throw (c : C)
| Act_call (c : C) (cb : Callback) (k : Reply -> Activity C).
Arguments Act_return {C}.
Arguments Act_throw {C}.
Arguments Act_call {C}.

(** [ch_send], [ch_close] and [ch_timeout_check] give the datagrams handed
    to [tls_emit_data]; [None] for the new channel when the call throws. *)
Class TlsChannel (C : Type) := {
  ch_is_active : C -> bool;
  ch_received_data : bytes -> C -> Activity C;
  ch_timeout_check : C -> bool * list bytes * C;
  ch_send : bytes -> C -> list bytes * option C;
  ch_close : C -> list bytes;
  ch_application_protocol : C -> bytes;
  new_Server : C;
  new_Client : bytes -> endpoint -> list bytes -> C;
}.

(** ** The store *)

Section dtls.
Context {D B C : Type}.

Record Node := mkNode {
  dtls_ : option C;
  node_protocol_ : option nat;
  receiver_endpoint_ : endpoint;
  node_title_ : bytes;            (** Protocol_Writer::title_ *)
  node_last_msg_recv_time_ : Z;   (** Protocol_Writer::last_msg_recv_time_ *)
  ping_flag_ : bool;              (** Client_Node::ping_flag_ *)
}.

(** A protocol object: its members other than the writer, and the writer,
    a [shared_ptr] to a node. *)
Record Proto := mkProto { proto_state : Protocol D B; proto_writer : option nat }.

(** Handlers posted to the [io_context]. *)
Inductive Task :=
| Task_write_data (ep : endpoint) (data : bytes)
| Task_write_message (ep : endpoint) (message : Message_Item.t D)
| Task_remove_client (ep : endpoint)
| Task_wait_list (data : Z).

(** What the outside sees, in order: calls of user code by the protocols,
    calls of the virtual functions [closed], [ready_write] and
    [before_remove_copy], packets given to a channel, datagrams given to the
    socket, destroyed nodes, receive operations started and error messages
    of the socket. *)
Inductive Dtls_Event :=
| De_protocol (pid : nat) (e : Event D)
| De_closed (pid : nat)
| De_ready_write (pid : nat)
| De_before_remove_copy (pid : nat)
| De_finally (f : callback) (is_state_ok : bool)
| De_packet (nid : nat) (data : bytes)
| De_datagram (ep : endpoint) (data : bytes)
| De_node_destroyed (nid : nat)
| De_start_receive
| De_error_message.

(** [Controller] with what its two subclasses add. *)
Record Dtls := mkDtls {
  nodes : gmap nat Node;
  protocols : gmap nat Proto;
  next_id : nat;
  clients_ : StdMap.t nat;                    (** Server_Controller *)
  records_queue_ : list (nat * bytes);        (** Server_Controller *)
  protocol_timer_ : Protocol_Timer.t (E := endpoint);
  io_tasks : list Task;
  local_nodes : list nat;                     (** [shared_ptr]s in local variables *)
  local_protocols : list nat;
  dtls_ticks : nat;
  dtls_events : list Dtls_Event;
}.

(** The user's code: the clock, which calls throw, the protocol factory
    functions (whether they give a protocol, and the name chosen), the
    virtual [operator ==], and which protocols user code keeps alive. *)
Record Env := mkEnv {
  de_clock : nat -> Z;
  de_throws : Event D -> bool;
  de_user_throws : Dtls_Event -> bool;
  server_protocol_func : list bytes -> bool * bytes;
  client_protocol_func : option (bytes -> bool);
  de_same : nat -> nat -> bool;
  de_keeps : nat -> bool;
  ep_text : endpoint -> bytes;
  path_validates : list bytes -> bytes -> bool;
}.

(** Assignments to single members. *)
Definition with_dtls v (n : Node) : Node :=
  let '(mkNode _ p e t l g) := n in mkNode v p e t l g.
Definition with_protocol v (n : Node) : Node :=
  let '(mkNode d _ e t l g) := n in mkNode d v e t l g.
Definition with_endpoint v (n : Node) : Node :=
  let '(mkNode d p _ t l g) := n in mkNode d p v t l g.
Definition with_node_title v (n : Node) : Node :=
  let '(mkNode d p e _ l g) := n in mkNode d p e v l g.
Definition with_recv_time v (n : Node) : Node :=
  let '(mkNode d p e t _ g) := n in mkNode d p e t v g.
Definition with_ping_flag v (n : Node) : Node :=
  let '(mkNode d p e t l _) := n in mkNode d p e t l v.

Definition with_nodes v (s : Dtls) : Dtls :=
  let '(mkDtls _ p i c r t o ln lp k e) := s in mkDtls v p i c r t o ln lp k e.
Definition with_protocols v (s : Dtls) : Dtls :=
  let '(mkDtls n _ i c r t o ln lp k e) := s in mkDtls n v i c r t o ln lp k e.
Definition with_next_id v (s : Dtls) : Dtls :=
  let '(mkDtls n p _ c r t o ln lp k e) := s in mkDtls n p v c r t o ln lp k e.
Definition with_clients v (s : Dtls) : Dtls :=
  let '(mkDtls n p i _ r t o ln lp k e) := s in mkDtls n p i v r t o ln lp k e.
Definition with_records v (s : Dtls) : Dtls :=
  let '(mkDtls n p i c _ t o ln lp k e) := s in mkDtls n p i c v t o ln lp k e.
Definition with_timer v (s : Dtls) : Dtls :=
  let '(mkDtls n p i c r _ o ln lp k e) := s in mkDtls n p i c r v o ln lp k e.
Definition with_tasks v (s : Dtls) : Dtls :=
  let '(mkDtls n p i c r t _ ln lp k e) := s in mkDtls n p i c r t v ln lp k e.
Definition with_local_nodes v (s : Dtls) : Dtls :=
  let '(mkDtls n p i c r t o _ lp k e) := s in mkDtls n p i c r t o v lp k e.
Definition with_local_protocols v (s : Dtls) : Dtls :=
  let '(mkDtls n p i c r t o ln _ k e) := s in mkDtls n p i c r t o ln v k e.
Definition with_ticks v (s : Dtls) : Dtls :=
  let '(mkDtls n p i c r t o ln lp _ e) := s in mkDtls n p i c r t o ln lp v e.
Definition with_dtls_events v (s : Dtls) : Dtls :=
  let '(mkDtls n p i c r t o ln lp k _) := s in mkDtls n p i c r t o ln lp k v.

End dtls.

Arguments Node : clear implicits.
Arguments Proto : clear implicits.
Arguments Task : clear implicits.
Arguments Dtls_Event : clear implicits.
Arguments Dtls : clear implicits.
Arguments Env : clear implicits.

Inductive Side := Server_Side | Client_Side (client_node : nat).

(** ** Operations on the store *)

Section node.
Context {D B C : Type} `{QIODevice D} `{QIODevice B, !QBuffer B} `{QDataStream} `{QtBytes} `{TlsChannel C}.
Context (env : Env D) (side : Side).
Implicit Types (s : Dtls D B C) (nid pid : nat).

Abbreviation DM := (M (Dtls D B C)).

(** Access through a [shared_ptr]. *)
Definition deref nid : DM (Node C) := fun s =>
  match nodes s !! nid with Some n => (Ret n, s) | None => (Undef, s) end.

Definition set_node nid (f : Node C -> Node C) : DM unit :=
  modify (fun s => with_nodes (alter f nid (nodes s)) s).

Definition log (e : Dtls_Event D) : DM unit := modify (fun s => with_dtls_events (dtls_events s ++ [e]) s).

Fixpoint log_all (es : list (Dtls_Event D)) : DM unit :=
  match es with [] => ret tt | e :: es => log e ;;; log_all es end.

(** A call of a virtual function the user overrides. *)
Definition user_call (e : Dtls_Event D) : DM unit :=
  log e ;;; if de_user_throws env e then throw else ret tt.

Definition dtls_now : DM Z := fun s =>
  (Ret (de_clock env (dtls_ticks s)), with_ticks (S (dtls_ticks s)) s).

(** [io_context::post]. *)
Definition post (t : Task D) : DM unit := modify (fun s => with_tasks (io_tasks s ++ [t]) s).

(** [Controller::add_timeout_at]. *)
Definition controller_add_timeout_at (remote_endpoint : endpoint) (time_point data : Z) : DM unit :=
  modify (fun s => with_timer
    (Protocol_Timer.add time_point (Protocol_Timer.mkItem remote_endpoint data) (protocol_timer_ s)) s).

(** [Node::write]: hand the data or message to the io thread, with the
    endpoint and not the node. *)
Definition write_data nid (data : bytes) : DM unit :=
  let* n := deref nid in post (Task_write_data (receiver_endpoint_ n) data).

Definition write_message nid (message : Message_Item.t D) : DM unit :=
  let* n := deref nid in post (Task_write_message (receiver_endpoint_ n) message).

(** [Node::add_timeout_at]. *)
Definition node_add_timeout_at nid (time_point data : Z) : DM unit :=
  let* n := deref nid in controller_add_timeout_at (receiver_endpoint_ n) time_point data.

(** [Node::tls_emit_data]. *)
Definition tls_emit_data nid (data : bytes) : DM unit :=
  let* n := deref nid in log (De_datagram (receiver_endpoint_ n) data).

Fixpoint emit_all nid (out : list bytes) : DM unit :=
  match out with [] => ret tt | d :: out => tls_emit_data nid d ;;; emit_all nid out end.

(** *** Running code of a protocol *)

(** The node as the [Protocol_Writer] the protocol sees. *)
Definition writer_view s (wr : option nat) : option Protocol_Writer :=
  match wr with
  | Some nid =>
      match nodes s !! nid with
      | Some n => Some {| title_ := node_title_ n; last_msg_recv_time_ := node_last_msg_recv_time_ n;
                          has_protocol := bool_decide (is_Some (node_protocol_ n)) |}
      | None => None
      end
  | None => None
  end.

Definition store_writer (wr : option nat) (v : option Protocol_Writer) (ns : gmap nat (Node C)) : gmap nat (Node C) :=
  match wr, v with
  | Some nid, Some v => alter (fun n => with_recv_time (last_msg_recv_time_ v) (with_node_title (title_ v) n)) nid ns
  | _, _ => ns
  end.

(** A virtual call of the writer goes to the node; the rest is user code. *)
Definition protocol_event pid (wr : option nat) (e : Event D) : DM unit :=
  match e, wr with
  | Ev_write m, Some nid => write_message nid m
  | Ev_add_timeout_at time_point data, Some nid => node_add_timeout_at nid time_point data
  | _, _ => log (De_protocol pid e)
  end.

Fixpoint protocol_events pid (wr : option nat) (es : list (Event D)) : DM unit :=
  match es with [] => ret tt | e :: es => protocol_event pid wr e ;;; protocol_events pid wr es end.

Definition run_protocol {A} pid (m : PM D B A) : DM A := fun s =>
  match protocols s !! pid with
  | None => (Undef, s)
  | Some po =>
      let wr := proto_writer po in
      let '(o, w) := m (mkWorld (with_writer (writer_view s wr) (proto_state po)) (de_clock env) (de_throws env) (dtls_ticks s) []) in
      let s := with_protocols (<[pid := mkProto (with_writer None (self w)) wr]> (protocols s)) s in
      let s := with_nodes (store_writer wr (protocol_writer_ (self w)) (nodes s)) s in
      (protocol_events pid wr (events w) ;;; fun s => (o, s)) (with_ticks (ticks w) s)
  end.

(** *** Lifetime *)

Definition new_protocol : DM nat := fun s =>
  (Ret (next_id s),
   with_next_id (S (next_id s)) (with_protocols (<[next_id s := mkProto init None]> (protocols s)) s)).

Definition new_node (c : option C) : DM nat := fun s =>
  (Ret (next_id s),
   with_next_id (S (next_id s)) (with_nodes (<[next_id s := mkNode c None 0 [] 0 false]> (nodes s)) s)).

Definition destroy_message (m : Message_Item.t D) : DM unit :=
  match Message_Item.dtor m with Some (f, ok) => log (De_finally f ok) | None => ret tt end.

Fixpoint destroy_messages (ms : list (Message_Item.t D)) : DM unit :=
  match ms with [] => ret tt | m :: ms => destroy_message m ;;; destroy_messages ms end.

Definition names_protocol pid (n : nat * Node C) : bool := bool_decide (node_protocol_ n.2 = Some pid).
Definition names_node nid (p : nat * Proto D B) : bool := bool_decide (proto_writer p.2 = Some nid).

Definition protocol_held s pid : bool :=
  de_keeps env pid || bool_decide (pid ∈ local_protocols s) || existsb (names_protocol pid) (map_to_list (nodes s)).

Definition node_held s nid : bool :=
  bool_decide (nid ∈ StdMap.values (clients_ s)) || bool_decide (nid ∈ map fst (records_queue_ s)) || bool_decide (nid ∈ local_nodes s)
  || existsb (names_node nid) (map_to_list (protocols s))
  || match side with Client_Side k => bool_decide (k = nid) | Server_Side => false end.

(** A [shared_ptr] to a protocol goes away. *)
Definition drop_protocol pid : DM unit := fun s =>
  if protocol_held s pid then (Ret tt, s)
  else
    match protocols s !! pid with
    | Some po =>
        (destroy_messages (StdMap.values (waiting_messages_ (proto_state po))) ;;;
         modify (fun s => with_protocols (delete pid (protocols s)) s)) s
    | None => (Ret tt, s)
    end.

Definition proto_set_writer pid (wr : option nat) : DM unit :=
  modify (fun s => with_protocols (alter (fun po => mkProto (proto_state po) wr) pid (protocols s)) s).

(** [Node::close]. *)
Definition close_protocol nid : DM unit :=
  let* n := deref nid in
  match node_protocol_ n with
  | Some pid =>
      user_call (De_closed pid) ;;;
      proto_set_writer pid None ;;;
      set_node nid (with_protocol None) ;;;
      drop_protocol pid
  | None => ret tt
  end.

Definition close_channel nid : DM unit :=
  let* n := deref nid in
  match dtls_ n with
  | Some c => emit_all nid (ch_close c) ;;; set_node nid (with_dtls None)
  | None => ret tt
  end.

Definition close nid : DM unit := close_protocol nid ;;; close_channel nid.

(** A [shared_ptr] to a node goes away. The destructor closes the node; an
    exception there ends the program. *)
Definition drop_node nid : DM unit := fun s =>
  if node_held s nid then (Ret tt, s)
  else
    match nodes s !! nid with
    | Some _ =>
        (try_catch (close nid) undef ;;;
         log (De_node_destroyed nid) ;;;
         modify (fun s => with_nodes (delete nid (nodes s)) s)) s
    | None => (Ret tt, s)
    end.

(** Run [m], then [cleanup] whether [m] returned or threw. *)
Definition scoped {A} (m : DM A) (cleanup : DM unit) : DM A := fun s =>
  match m s with
  | (Ret a, s') => (cleanup ;;; ret a) s'
  | (Throw, s') => (cleanup ;;; throw) s'
  | r => r
  end.

(** A local [shared_ptr] variable of a scope. *)
Definition hold_node {A} nid (m : DM A) : DM A :=
  modify (fun s => with_local_nodes (nid :: local_nodes s) s) ;;;
  scoped m (modify (fun s => with_local_nodes (tail (local_nodes s)) s) ;;; drop_node nid).

Definition hold_protocol {A} pid (m : DM A) : DM A :=
  modify (fun s => with_local_protocols (pid :: local_protocols s) s) ;;;
  scoped m (modify (fun s => with_local_protocols (tail (local_protocols s)) s) ;;; drop_protocol pid).

(** *** The rest of Node *)

Definition set_protocol nid (protocol : option nat) : DM unit :=
  let* n := deref nid in
  set_node nid (with_protocol protocol) ;;;
  (match node_protocol_ n with Some old => drop_protocol old | None => ret tt end) ;;;
  match protocol with
  | Some pid => proto_set_writer pid (Some nid)
  | None => ret tt
  end.

Definition set_receiver_endpoint nid (ep : endpoint) : DM unit :=
  set_node nid (with_endpoint ep) ;;;
  let* n := deref nid in
  match node_title_ n with
  | [] => set_node nid (with_node_title (ep_text env ep))
  | _ :: _ => ret tt
  end.

(** [Client_Node::application_protocol]. *)
Definition application_protocol nid : DM bytes :=
  let* n := deref nid in
  ret (match dtls_ n with Some c => ch_application_protocol c | None => [] end).

(** [Client_Controller::create_protocol]. *)
Definition client_create_protocol (app_proto : bytes) : DM (option nat) :=
  match client_protocol_func env with
  | Some f => if f app_proto then let* pid := new_protocol in ret (Some pid) else ret None
  | None => ret None
  end.

(** The virtual [create_protocol]: the base class's gives none, the client
    node's asks its controller. *)
Definition create_protocol nid : DM (option nat) :=
  match side with
  | Server_Side => ret None
  | Client_Side _ => let* app := application_protocol nid in client_create_protocol app
  end.

(** [Node::tls_alert], and what [Server_Node::tls_alert] adds. *)
Definition node_tls_alert nid (alert : Alert) : DM unit :=
  let* n := deref nid in
  match node_protocol_ n, alert with
  | Some pid, CLOSE_NOTIFY => user_call (De_closed pid) ;;; close nid
  | _, _ => ret tt
  end.

Definition post_remove_client nid : DM unit :=
  let* n := deref nid in post (Task_remove_client (receiver_endpoint_ n)).

Definition tls_alert nid (alert : Alert) : DM unit :=
  node_tls_alert nid alert ;;;
  match side, alert with
  | Server_Side, CLOSE_NOTIFY => post_remove_client nid
  | _, _ => ret tt
  end.

(** A server node queues the record for the record threads
    ([Server_Controller::add_received_record]); a client node lets its
    protocol process it. *)
Definition add_received_record nid (data : bytes) : DM unit :=
  modify (fun s => with_records (records_queue_ s ++ [(nid, data)]) s).

Definition node_tls_record_received nid (data : bytes) : DM unit :=
  let* n := deref nid in
  match node_protocol_ n with
  | Some pid => run_protocol pid (protocol_process_bytes data)
  | None => ret tt
  end.

Definition tls_record_received nid (data : bytes) : DM unit :=
  match side with
  | Server_Side => add_received_record nid data
  | Client_Side _ => node_tls_record_received nid data
  end.

(** Both results of the validation are only logged. *)
Definition tls_verify_cert_chain (cert_chain : list bytes) (hostname : bytes) : DM unit :=
  match cert_chain with
  | [] => throw
  | _ :: _ => if path_validates env cert_chain hostname then ret tt else ret tt
  end.

(** [Server_Node::tls_server_choose_app_protocol]. *)
Definition tls_server_choose_app_protocol nid (client_protos : list bytes) : DM bytes :=
  let '(given, app_protocol) := server_protocol_func env client_protos in
  (if given then let* pid := new_protocol in set_protocol nid (Some pid)
   else post_remove_client nid) ;;;
  ret app_protocol.

Definition callback_body nid (cb : Callback) : DM Reply :=
  match cb with
  | Cb_record_received data => tls_record_received nid data ;;; ret Rep_done
  | Cb_alert alert => tls_alert nid alert ;;; ret Rep_done
  | Cb_emit_data data => tls_emit_data nid data ;;; ret Rep_done
  | Cb_verify_cert_chain cert_chain hostname => tls_verify_cert_chain cert_chain hostname ;;; ret Rep_done
  | Cb_session_established => ret Rep_done
  | Cb_choose_app_protocol client_protos =>
      let* name := tls_server_choose_app_protocol nid client_protos in ret (Rep_app_protocol name)
  end.

Definition run_callback nid (cb : Callback) : DM Reply := try_catch (callback_body nid cb) (ret Rep_throw).

(** [dtls_] after a step of the channel. When a callback has reset it, the
    channel's code goes on in an object that has been destroyed. *)
Definition store_channel nid (c : C) : DM unit :=
  let* n := deref nid in
  match dtls_ n with
  | Some _ => set_node nid (with_dtls (Some c))
  | None => undef
  end.

Fixpoint run_activity nid (a : Activity C) : DM unit :=
  match a with
  | Act_return c => store_channel nid c
  | Act_throw c => store_channel nid c ;;; throw
  | Act_call c cb k =>
      store_channel nid c ;;;
      let* reply := run_callback nid cb in run_activity nid (k reply)
  end.

(** The part of [process_received_data] after the handshake's first data. *)
Definition now_active nid : DM unit :=
  let* n := deref nid in
  (match node_protocol_ n with
   | Some _ => ret tt
   | None => let* p := create_protocol nid in set_protocol nid p
   end) ;;;
  let* n := deref nid in
  match node_protocol_ n with
  | Some pid => user_call (De_ready_write pid)
  | None => ret tt
  end.

Definition check_first_active nid : DM unit :=
  let* n := deref nid in
  match dtls_ n with
  | Some c =>
      let '(_, out, c) := ch_timeout_check c in
      emit_all nid out ;;; store_channel nid c ;;;
      if ch_is_active c then now_active nid else ret tt
  | None => ret tt
  end.

Definition received_data_body nid (data : bytes) : DM unit :=
  let* n := deref nid in
  match dtls_ n with
  | None => ret tt
  | Some c =>
      run_activity nid (ch_received_data data c) ;;;
      if ch_is_active c then ret tt else check_first_active nid
  end.

Definition process_received_data nid (data : bytes) : DM unit :=
  try_catch (received_data_body nid data) (ret tt).

(** [dtls_->send]. *)
Definition channel_send nid (c : C) (data : bytes) : DM unit :=
  log (De_packet nid data) ;;;
  let '(out, c') := ch_send data c in
  emit_all nid out ;;;
  match c' with
  | Some c' => store_channel nid c'
  | None => throw
  end.

Definition write_impl_data nid (data : bytes) : DM unit :=
  let* n := deref nid in
  match dtls_ n with
  | Some c => if ch_is_active c then channel_send nid c data else ret tt
  | None => ret tt
  end.

(** The message belongs to the caller until the protocol takes it. *)
Definition write_impl_message nid (message : Message_Item.t D) : DM unit :=
  let* n := deref nid in
  match dtls_ n, node_protocol_ n with
  | Some c, Some pid =>
      if ch_is_active c then
        let* data := run_protocol pid (prepare_packet_to_send (Some message)) in
        channel_send nid c data
      else destroy_message message
  | _, _ => destroy_message message
  end.

(** *** Client_Node *)

Definition reset_ping_flag nid : DM unit :=
  let* n := deref nid in
  if ping_flag_ n then set_node nid (with_ping_flag false) else ret tt.

Definition start nid (host : bytes) (ep : endpoint) (next_protocols : list bytes) : DM unit :=
  reset_ping_flag nid ;;;
  set_receiver_endpoint nid ep ;;;
  set_node nid (with_dtls (Some (new_Client host ep next_protocols))).

Definition send_ping : PM D B unit :=
  let* sender := send Cmd.PING in
  let* sender := Protocol_Sender.timeout None (seconds 10) (seconds 1) sender in
  Protocol_Sender.dtor sender.

Definition is_reconnect_needed nid : DM bool :=
  let* n := deref nid in
  match dtls_ n with
  | Some c =>
      if ch_is_active c then
        let* t := dtls_now in
        if t - node_last_msg_recv_time_ n <? seconds 20 then ret false
        else
          match node_protocol_ n with
          | Some pid =>
              if ping_flag_ n then ret true
              else
                set_node nid (with_ping_flag true) ;;;
                run_protocol pid send_ping ;;;
                ret false
          | None => ret true
          end
      else ret true
  | None => ret true
  end.

End node.

Abbreviation DTM D B C := (M (Dtls D B C)).
