(* ===== verification/DtlsServer.v ===== *)
(** * DTLS::Server_Controller, Socket, Server

    [src/DTLS/dtls_server_controller.*], [dtls_socket.*] and
    [dtls_server.*]: the server's clients by endpoint, the datagrams and
    posted handlers that reach them, and the cleaning timer. A handler of the
    io thread is one step. A record thread or the timer thread, which takes
    no lock against [Node::close] while it works on a node's protocol, works
    in the steps of a [Job], between which others may run; [process_record]
    and [on_protocol_timeout] are those steps without a pause. The record
    threads' waiting is in [DtlsRecords]. *)

From S2P Require Import Prelude StdMap QtInterface MessageItem FragmentedMessage ProtocolState ProtocolSend ProtocolRecv ProtocolStream ProtocolTimer DtlsNode.
Open Scope Z_scope.
Open Scope helpz_scope.

Section server.
Context {D B C : Type} `{QIODevice D} `{QIODevice B, !QBuffer B} `{QDataStream} `{QtBytes} `{TlsChannel C}.
Context (env : Env D).
Implicit Types (s : Dtls D B C) (nid pid : nat).

Abbreviation DM := (DTM D B C).
Abbreviation side := Server_Side.

(** ** Clients *)

Definition find_client (remote_endpoint : endpoint) : DM (option nat) :=
  gets (fun s => StdMap.find remote_endpoint (clients_ s)).

(** [find_client(check_protocol_func)]: the first client, in endpoint
    order, whose protocol satisfies the test. *)
Fixpoint find_client_in (check_protocol_func : nat -> bool) (cs : StdMap.t nat) : DM (option nat) :=
  match cs with
  | [] => ret None
  | (_, nid) :: cs =>
      let* n := deref nid in
      match node_protocol_ n with
      | Some pid => if check_protocol_func pid then ret (Some nid) else find_client_in check_protocol_func cs
      | None => find_client_in check_protocol_func cs
      end
  end.

Definition find_client_by (check_protocol_func : nat -> bool) : DM (option nat) :=
  let* cs := gets clients_ in find_client_in check_protocol_func cs.

(** [std::make_shared<Server_Node>]. *)
Definition new_server_node (ep : endpoint) : DM nat :=
  let* nid := new_node None in
  set_receiver_endpoint env nid ep ;;;
  set_node nid (with_dtls (Some new_Server)) ;;;
  ret nid.

Definition create_client (remote_endpoint : endpoint) : DM (option nat) :=
  let* it := find_client remote_endpoint in
  match it with
  | Some nid => ret (Some nid)
  | None =>
      let* nid := new_server_node remote_endpoint in
      let* cs := gets clients_ in
      let '(cs', inserted) := StdMap.emplace remote_endpoint nid cs in
      modify (with_clients cs') ;;;
      ret (if inserted then Some nid else None)
  end.

Definition get_node (remote_endpoint : endpoint) : DM (option nat) :=
  let* node := find_client remote_endpoint in
  match node with Some nid => ret (Some nid) | None => create_client remote_endpoint end.

Definition process_data nid (data : bytes) : DM unit := process_received_data env side nid data.

Definition erase_client (ep : endpoint) : DM unit :=
  modify (fun s => with_clients (StdMap.erase ep (clients_ s)) s).

Definition remove_client (remote_endpoint : endpoint) : DM unit :=
  let* it := find_client remote_endpoint in
  match it with
  | Some nid => erase_client remote_endpoint ;;; drop_node env side nid
  | None => ret tt
  end.

(** *** Copies *)

(** [proto && proto.get() != client && *proto == *client] *)
Definition is_copy (client : nat) (proto : option nat) : bool :=
  match proto with
  | Some pid => negb (bool_decide (pid = client)) && de_same env pid client
  | None => false
  end.

Fixpoint check_copy_in (client : nat) (cs : StdMap.t nat) : DM bool :=
  match cs with
  | [] => ret false
  | (_, nid) :: cs =>
      let* n := deref nid in
      if is_copy client (node_protocol_ n) then ret true else check_copy_in client cs
  end.

Definition check_copy (client : nat) : DM bool :=
  let* cs := gets clients_ in check_copy_in client cs.

Definition remove_copy_of (client : nat) (ep : endpoint) nid : DM unit :=
  let* n := deref nid in
  match node_protocol_ n with
  | Some pid =>
      if is_copy client (Some pid) then
        hold_protocol env pid
          (user_call env (De_before_remove_copy pid) ;;;
           close env nid ;;;
           erase_client ep ;;;
           drop_node env side nid)
      else ret tt
  | None => ret tt
  end.

Fixpoint remove_copy_in (client : nat) (cs : StdMap.t nat) : DM unit :=
  match cs with
  | [] => ret tt
  | (ep, nid) :: cs => remove_copy_of client ep nid ;;; remove_copy_in client cs
  end.

Definition remove_copy (client : nat) : DM unit :=
  let* found := check_copy client in
  if found then let* cs := gets clients_ in remove_copy_in client cs else ret tt.

(** *** Frozen clients *)

Definition is_frozen (frozen_timeout now : Z) (n : Node C) : bool :=
  frozen_timeout <? now - node_last_msg_recv_time_ n.

Fixpoint check_frozen_in (frozen_timeout now : Z) (cs : StdMap.t nat) : DM bool :=
  match cs with
  | [] => ret false
  | (_, nid) :: cs =>
      let* n := deref nid in
      if is_frozen frozen_timeout now n then ret true else check_frozen_in frozen_timeout now cs
  end.

Definition check_frozen_clients (frozen_timeout : Z) : DM bool :=
  let* cs := gets clients_ in
  let* now := dtls_now env in
  check_frozen_in frozen_timeout now cs.

Definition remove_frozen_client (frozen_timeout now : Z) (ep : endpoint) nid : DM unit :=
  let* n := deref nid in
  if is_frozen frozen_timeout now n then
    close env nid ;;; erase_client ep ;;; drop_node env side nid
  else ret tt.

Fixpoint remove_frozen_in (frozen_timeout now : Z) (cs : StdMap.t nat) : DM unit :=
  match cs with
  | [] => ret tt
  | (ep, nid) :: cs => remove_frozen_client frozen_timeout now ep nid ;;; remove_frozen_in frozen_timeout now cs
  end.

Definition remove_frozen_clients (frozen_timeout : Z) : DM unit :=
  let* found := check_frozen_clients frozen_timeout in
  if found then
    let* now := dtls_now env in
    let* cs := gets clients_ in
    remove_frozen_in frozen_timeout now cs
  else ret tt.

(** *** Timeouts, records, end *)

Definition on_protocol_timeout (remote_endpoint : endpoint) (data : Z) : DM unit :=
  let* node := find_client remote_endpoint in
  match node with
  | None => ret tt
  | Some nid =>
      hold_node env side nid
        (let* n := deref nid in
         match node_protocol_ n with
         | Some pid => hold_protocol env pid (run_protocol env pid (process_wait_list data))
         | None => ret tt
         end)
  end.

(** One record taken from the queue by a record thread. *)
Definition process_record : DM unit :=
  let* q := gets records_queue_ in
  match q with
  | [] => ret tt
  | (nid, buffer) :: q =>
      modify (with_records q) ;;;
      hold_node env side nid
        (let* n := deref nid in
         match node_protocol_ n with
         | Some pid => hold_protocol env pid (run_protocol env pid (protocol_process_bytes buffer))
         | None => ret tt
         end)
  end.

(** The same work in steps. A job has taken a record or a timeout, and with
    it a local pointer to the node; then it copies [node->protocol()]; then it
    runs the protocol's code with whatever it copied; then its pointers go out
    of scope. *)
Inductive Phase := Taken | Copied (proto : option nat) | Worked (proto : option nat).

Record Job := mkJob { job_node : nat; job_work : PM D B unit; job_phase : Phase }.

Definition job_protocol (j : Job) : option nat :=
  match job_phase j with Taken => None | Copied p | Worked p => p end.

Definition take_node nid (work : PM D B unit) : DM (option Job) :=
  modify (fun s => with_local_nodes (nid :: local_nodes s) s) ;;; ret (Some (mkJob nid work Taken)).

Definition take_record : DM (option Job) :=
  let* q := gets records_queue_ in
  match q with
  | [] => ret None
  | (nid, buffer) :: q => modify (with_records q) ;;; take_node nid (protocol_process_bytes buffer)
  end.

Definition take_timeout (remote_endpoint : endpoint) (data : Z) : DM (option Job) :=
  let* node := find_client remote_endpoint in
  match node with
  | None => ret None
  | Some nid => take_node nid (process_wait_list data)
  end.

Fixpoint remove_first (x : nat) (l : list nat) : list nat :=
  match l with [] => [] | y :: l => if bool_decide (x = y) then l else y :: remove_first x l end.

Definition release_protocol (proto : option nat) : DM unit :=
  match proto with
  | Some pid =>
      modify (fun s => with_local_protocols (remove_first pid (local_protocols s)) s) ;;; drop_protocol env pid
  | None => ret tt
  end.

(** The next step of a job, and what is left of it. An exception of the
    protocol's code ends the program: nothing catches it. *)
Definition advance_job (j : Job) : DM (option Job) :=
  let nid := job_node j in
  match job_phase j with
  | Taken =>
      let* n := deref nid in
      (match node_protocol_ n with
       | Some pid => modify (fun s => with_local_protocols (pid :: local_protocols s) s)
       | None => ret tt
       end) ;;;
      ret (Some (mkJob nid (job_work j) (Copied (node_protocol_ n))))
  | Copied proto =>
      (match proto with Some pid => run_protocol env pid (job_work j) | None => ret tt end) ;;;
      ret (Some (mkJob nid (job_work j) (Worked proto)))
  | Worked proto =>
      release_protocol proto ;;;
      modify (fun s => with_local_nodes (remove_first nid (local_nodes s)) s) ;;; drop_node env side nid ;;;
      ret None
  end.

Fixpoint close_clients (cs : StdMap.t nat) : DM unit :=
  match cs with [] => ret tt | (_, nid) :: cs => close env nid ;;; close_clients cs end.

Fixpoint drop_nodes (ns : list nat) : DM unit :=
  match ns with [] => ret tt | nid :: ns => drop_node env side nid ;;; drop_nodes ns end.

(** [~Server_Controller], the clients' part. *)
Definition close_all_clients : DM unit :=
  let* cs := gets clients_ in
  close_clients cs ;;;
  modify (with_clients []) ;;;
  drop_nodes (StdMap.values cs).

(** ** Socket *)

Definition start_receive : DM unit := log De_start_receive.

Definition error_message : DM unit := log De_error_message.

Definition handle_receive (remote_endpoint : endpoint) (data : bytes) (err : bool) : DM unit :=
  if err then error_message
  else
    let* node := get_node remote_endpoint in
    match node with
    | Some nid => hold_node env side nid (start_receive ;;; process_data nid data)
    | None => start_receive
    end.

(** [handle_send]: an error code, a short send and a missing buffer are
    reported; otherwise nothing is left to do. *)
Definition handle_send (has_data : bool) (size : Z) (error : Z) (bytes_transferred : Z) : DM unit :=
  if negb (error =? 0) then error_message
  else if negb (size =? bytes_transferred) then error_message
  else if negb has_data then error_message
  else ret tt.

(** ** Server *)

Record Server := mkServer { cleaning_timeout_ : Z; cleaning_timer_ : Z; cleaning_waits : bool }.

Definition Server_init (cleaning_timeout now : Z) : Server :=
  mkServer cleaning_timeout (now + cleaning_timeout) true.

Definition cleaning (sv : Server) (err : bool) : DM Server :=
  if err then ret (mkServer (cleaning_timeout_ sv) (cleaning_timer_ sv) false)
  else
    remove_frozen_clients (cleaning_timeout_ sv) ;;;
    ret (mkServer (cleaning_timeout_ sv) (cleaning_timer_ sv + cleaning_timeout_ sv) true).

(** ** Posted handlers *)

Definition run_task (t : Task D) : DM unit :=
  match t with
  | Task_write_data ep data =>
      let* node := get_node ep in
      match node with Some nid => hold_node env side nid (write_impl_data nid data) | None => ret tt end
  | Task_write_message ep message =>
      let* node := get_node ep in
      match node with
      | Some nid => hold_node env side nid (write_impl_message env nid message)
      | None => destroy_message message
      end
  | Task_remove_client ep => remove_client ep
  | Task_wait_list _ => ret tt  (** posted by the client's controller only *)
  end.

(** The io thread takes the handlers in the order they were posted. *)
Definition run_next_task : DM unit :=
  let* ts := gets io_tasks in
  match ts with
  | [] => ret tt
  | t :: ts => modify (with_tasks ts) ;;; run_task t
  end.

(** A controller before any client: nothing in the store. *)
Definition server_init : Dtls D B C := mkDtls ∅ ∅ 0 [] [] Protocol_Timer.init [] [] [] 0 [].

End server.

Arguments Job : clear implicits.
