(* ===== verification/DtlsSocketIo.v ===== *)
(** * DTLS::Socket: buffers and datagrams

    [src/DTLS/dtls_socket.cpp]. Sending and receiving are asynchronous: a
    datagram is copied into a buffer which the completion handler owns, and
    the caller may reuse its memory at once. The heap, the operations that are
    under way and the caller's memory are explicit here, so that a datagram
    that changes after [send] would show. What happens to a datagram received
    is in [DtlsServer]. *)

From stdpp Require Import gmap.
From S2P Require Import Prelude MessageItem DtlsNode.

Module Socket_Io.

Abbreviation addr := nat.
Abbreviation datagram := (endpoint * list byte)%type.

(** [HELPZ_MAX_UDP_PACKET_SIZE] *)
Definition MAX_UDP : Z := HELPZ_MAX_UDP_PACKET_SIZE.

(** A send that is under way: what [std::bind] keeps for [handle_send]. *)
Record sending := mkSending { to_ep : endpoint; send_buffer : addr; size_ : Z }.

Record t := mk {
  socket_ : bool;                       (** there is one *)
  heap : gmap addr (list byte);
  fresh : addr;
  sends_ : list sending;
  receives_ : list addr;                (** buffers of receives under way *)
  caller : gmap addr (list byte);       (** memory of the user *)
  wire : list datagram;                 (** sent *)
  received : list (list byte);          (** handed to the controller *)
  asked : list datagram;                (** given to [send], as it was then *)
  lost : list datagram;                 (** completed with an error *)
  errors : nat;                         (** messages printed *)
}.

Definition with_receives v s := mk (socket_ s) (heap s) (fresh s) (sends_ s) v (caller s) (wire s) (received s) (asked s) (lost s) (errors s).
Definition with_caller v s := mk (socket_ s) (heap s) (fresh s) (sends_ s) (receives_ s) v (wire s) (received s) (asked s) (lost s) (errors s).
Definition with_sends v s := mk (socket_ s) (heap s) (fresh s) v (receives_ s) (caller s) (wire s) (received s) (asked s) (lost s) (errors s).
Definition with_heap v s := mk (socket_ s) v (fresh s) (sends_ s) (receives_ s) (caller s) (wire s) (received s) (asked s) (lost s) (errors s).
Definition with_asked v s := mk (socket_ s) (heap s) (fresh s) (sends_ s) (receives_ s) (caller s) (wire s) (received s) v (lost s) (errors s).
Definition with_wire v s := mk (socket_ s) (heap s) (fresh s) (sends_ s) (receives_ s) (caller s) v (received s) (asked s) (lost s) (errors s).
Definition with_lost v s := mk (socket_ s) (heap s) (fresh s) (sends_ s) (receives_ s) (caller s) (wire s) (received s) (asked s) v (errors s).
Definition with_received v s := mk (socket_ s) (heap s) (fresh s) (sends_ s) (receives_ s) (caller s) (wire s) v (asked s) (lost s) (errors s).
Definition with_fresh v s := mk (socket_ s) (heap s) v (sends_ s) (receives_ s) (caller s) (wire s) (received s) (asked s) (lost s) (errors s).

Abbreviation SM := (M t).

(** [new uint8_t[n]] with content [bs]. *)
Definition new_buffer (bs : list byte) : SM addr :=
  fun s => (Ret (fresh s), with_fresh (S (fresh s)) (with_heap (<[fresh s := bs]> (heap s)) s)).

Definition error_message : SM unit :=
  modify (fun s => mk (socket_ s) (heap s) (fresh s) (sends_ s) (receives_ s) (caller s) (wire s) (received s) (asked s) (lost s) (S (errors s))).

Definition construct (socket : bool) (memory : gmap addr (list byte)) : t := mk socket ∅ 0 [] [] memory [] [] [] [] 0.

(** [start_receive]; the content of the buffer is not initialised. *)
Definition start_receive : SM unit :=
  let* so := gets socket_ in
  when so
    (let* b := new_buffer [] in
     modify (fun s => with_receives (receives_ s ++ [b]) s)).

(** [memcpy] reads [size] bytes at [data]. *)
Definition send (remote_endpoint : endpoint) (data : addr) (size : Z) : SM unit :=
  let* so := gets socket_ in
  when so
    (let* mem := gets (fun s => caller s !! data) in
     match mem with
     | Some bs =>
         if (0 <=? size) && (size <=? zlen bs) then
           let* b := new_buffer (ztake size bs) in
           modify (fun s => with_asked (asked s ++ [(remote_endpoint, ztake size bs)])
                              (with_sends (sends_ s ++ [mkSending remote_endpoint b size]) s))
         else undef
     | None => undef
     end).

Definition handle_send (x : sending) (has_data : bool) (error bytes_transferred : Z) : SM unit :=
  if negb (error =? 0) then error_message
  else if negb (size_ x =? bytes_transferred) then error_message
  else if negb has_data then error_message
  else ret tt.

(** The system completes the [i]-th send: the bytes of the buffer at that
    time go out, or are lost; the handler runs, and its buffer is freed with
    it. *)
Definition complete_send (i : nat) (error : Z) : SM unit :=
  let* so := gets (fun s => sends_ s !! i) in
  match so with
  | None => ret tt
  | Some x =>
      let* content := gets (fun s => heap s !! send_buffer x) in
      match content with
      | None => undef
      | Some bs =>
          modify (fun s => with_sends (delete i (sends_ s)) s) ;;;
          modify (fun s => if error =? 0 then with_wire (wire s ++ [(to_ep x, bs)]) s
                           else with_lost (lost s ++ [(to_ep x, bs)]) s) ;;;
          handle_send x true error (zlen bs) ;;;
          modify (fun s => with_heap (delete (send_buffer x) (heap s)) s)
      end
  end.

(** The [i]-th receive completes, [handle_receive]: after an error no receive
    is started; without one the next receive is started, and what has arrived
    is handed to the controller if it has a node for the endpoint ([node]).
    The controller only reads the buffer, which is freed with the handler. *)
Definition complete_receive (i : nat) (data : list byte) (err node : bool) : SM unit :=
  let* b := gets (fun s => receives_ s !! i) in
  match b with
  | None => ret tt
  | Some b =>
      modify (fun s => with_receives (delete i (receives_ s)) s) ;;;
      (if err : bool then error_message
       else
         start_receive ;;;
         when node (modify (fun s => with_received (received s ++ [ztake MAX_UDP data]) s))) ;;;
      modify (fun s => with_heap (delete b (heap s)) s)
  end.

(** The user changes its memory. *)
Definition caller_writes (a : addr) (bs : list byte) : SM unit :=
  modify (fun s => with_caller (<[a := bs]> (caller s)) s).

(** What can happen next. *)
Inductive action :=
| A_receive
| A_send (ep : endpoint) (a : addr) (size : Z)
| A_sent (i : nat) (error : Z)
| A_received (i : nat) (data : list byte) (err node : bool)
| A_write (a : addr) (bs : list byte).

Definition perform (x : action) : SM unit :=
  match x with
  | A_receive => start_receive
  | A_send ep a size => send ep a size
  | A_sent i error => complete_send i error
  | A_received i data err node => complete_receive i data err node
  | A_write a bs => caller_writes a bs
  end.

Fixpoint perform_all (xs : list action) : SM unit :=
  match xs with [] => ret tt | x :: xs => perform x ;;; perform_all xs end.

(** A send within the user's memory. *)
Definition in_bounds (s : t) (x : action) : Prop :=
  match x with
  | A_send _ a size => exists bs, caller s !! a = Some bs /\ 0 <= size <= zlen bs
  | _ => True
  end.

(** ** Invariant *)

Definition in_flight (x : sending) (s : t) (d : datagram) : Prop :=
  heap s !! send_buffer x = Some d.2 /\ to_ep x = d.1 /\ size_ x = zlen d.2.

Definition buffers (s : t) : list addr := map send_buffer (sends_ s) ++ receives_ s.

(** Every datagram asked for is on the wire, lost with an error, or in a
    buffer of its own with the bytes it had; no other buffer is allocated. *)
Record intact (s : t) : Prop := {
  in_sends : exists ds, Forall2 (fun x d => in_flight x s d) (sends_ s) ds /\ Permutation (asked s) (wire s ++ lost s ++ ds);
  in_nodup : NoDup (buffers s);
  in_fresh : Forall (fun b => (b < fresh s)%nat) (buffers s);
  in_heap : forall b, is_Some (heap s !! b) <-> In b (buffers s);
}.

Lemma construct_intact so mem : intact (construct so mem).
Proof.
  constructor; [exists []; split; constructor|constructor|constructor|].
  intros b. change (is_Some ((∅ : gmap addr (list byte)) !! b) <-> False). rewrite lookup_empty. split; [by intros []|done].
Qed.

(** *** What happens to the buffers *)

(** A fresh buffer joins them. *)
Lemma buffers_grow (h : gmap addr (list byte)) (f : addr) (bs bs' : list addr) v :
  NoDup bs -> Forall (fun b => (b < f)%nat) bs -> (forall b, is_Some (h !! b) <-> In b bs) -> Permutation bs' (f :: bs) ->
  NoDup bs' /\ Forall (fun b => (b < S f)%nat) bs' /\ (forall b, is_Some (<[f := v]> h !! b) <-> In b bs').
Proof.
  intros Hnd Hf Hh Hp.
  assert (~ In f bs) as Hni by (intros Hin%list_elem_of_In; rewrite Forall_forall in Hf; specialize (Hf f Hin); lia).
  split_and!.
  - rewrite Hp. apply NoDup_cons. split; [|done]. by rewrite list_elem_of_In.
  - rewrite Hp. apply Forall_cons. split; [lia|]. eapply Forall_impl; [exact Hf|]. simpl. lia.
  - intros b. assert (In b bs' <-> In b (f :: bs)) as -> by (split; apply Permutation_in; by rewrite Hp).
    simpl. rewrite <- Hh. destruct (decide (f = b)) as [->|Hne]; [rewrite lookup_insert_eq|rewrite lookup_insert_ne by done]; naive_solver.
Qed.

(** A buffer is freed. *)
Lemma buffers_shrink (h : gmap addr (list byte)) (f b : addr) (bs bs' : list addr) :
  NoDup bs -> Forall (fun b => (b < f)%nat) bs -> (forall b, is_Some (h !! b) <-> In b bs) -> Permutation bs (b :: bs') ->
  NoDup bs' /\ Forall (fun b => (b < f)%nat) bs' /\ (forall x, is_Some (delete b h !! x) <-> In x bs') /\ ~ In b bs'.
Proof.
  intros Hnd Hf Hh Hp. rewrite Hp in Hnd, Hf. apply NoDup_cons in Hnd as [Hni Hnd]. apply Forall_cons in Hf as [_ Hf].
  rewrite list_elem_of_In in Hni. split_and!; try done. intros x.
  assert (In x bs <-> In x (b :: bs')) as E by (split; apply Permutation_in; by rewrite Hp).
  destruct (decide (b = x)) as [->|Hne]; [rewrite lookup_delete_eq|rewrite lookup_delete_ne by done].
  - split; [by intros []|done].
  - rewrite Hh, E. simpl. naive_solver.
Qed.

(** What is in flight stays there when other buffers come and go. *)
Lemma flight_other (xs : list sending) ds s s' :
  (forall b, In b (map send_buffer xs) -> heap s' !! b = heap s !! b) ->
  Forall2 (fun x d => in_flight x s d) xs ds -> Forall2 (fun x d => in_flight x s' d) xs ds.
Proof.
  intros Hh Hf. induction Hf as [|x d xs ds (H1 & H2 & H3) _ IH]; constructor.
  - split_and!; [|done|done]. rewrite Hh by (by left). done.
  - apply IH. intros b Hb. apply Hh. by right.
Qed.

Lemma start_receive_intact s :
  intact s -> exists s', start_receive s = (Ret tt, s') /\ intact s' /\ errors s' = errors s /\ lost s' = lost s.
Proof.
  intros [(ds & Hds & Hp) Hnd Hf Hh]. unfold start_receive, bind, gets, when. destruct (socket_ s) eqn:Es; simpl.
  2: { exists s. split; [done|]. split; [|done]. constructor; try done. by exists ds. }
  eexists. split; [reflexivity|]. split; [|by destruct s].
  destruct (buffers_grow (heap s) (fresh s) (buffers s) (map send_buffer (sends_ s) ++ receives_ s ++ [fresh s]) [] Hnd Hf Hh)
    as (G1 & G2 & G3).
  { unfold buffers. rewrite app_assoc, (Permutation_app_comm _ [fresh s]). done. }
  destruct s; simpl in *. constructor; simpl; try done. exists ds. split; [|done].
  eapply flight_other; [|exact Hds]. simpl. intros b Hb. apply lookup_insert_ne. intros <-.
  rewrite Forall_forall in Hf. specialize (Hf fresh0). rewrite list_elem_of_In in Hf. unfold buffers in Hf. simpl in Hf.
  specialize (Hf (in_or_app _ _ _ (or_introl Hb))). lia.
Qed.

Lemma send_intact s ep a size :
  intact s -> in_bounds s (A_send ep a size) -> exists s', send ep a size s = (Ret tt, s') /\ intact s'.
Proof.
  intros [(ds & Hds & Hp) Hnd Hf Hh] (bs & Hbs & Hsz). unfold send, bind, gets, when. destruct (socket_ s) eqn:Es; simpl.
  2: { exists s. split; [done|]. constructor; try done. by exists ds. }
  rewrite Hbs. destruct (Z.leb_spec 0 size); [|lia]. destruct (Z.leb_spec size (zlen bs)); [|lia]. simpl.
  eexists. split; [reflexivity|]. assert (zlen (ztake size bs) = size) as Hlen by (apply zlen_ztake; lia).
  destruct (buffers_grow (heap s) (fresh s) (buffers s)
    (map send_buffer (sends_ s ++ [mkSending ep (fresh s) size]) ++ receives_ s) (ztake size bs) Hnd Hf Hh) as (G1 & G2 & G3).
  { unfold buffers. rewrite map_app. simpl. rewrite <- app_assoc. simpl. by rewrite <- Permutation_middle. }
  destruct s; simpl in *. constructor; simpl; try done. exists (ds ++ [(ep, ztake size bs)]). split.
  - apply Forall2_app.
    + eapply flight_other; [|exact Hds]. simpl. intros b Hb. apply lookup_insert_ne. intros <-.
      rewrite Forall_forall in Hf. specialize (Hf fresh0). rewrite list_elem_of_In in Hf. unfold buffers in Hf. simpl in Hf.
      specialize (Hf (in_or_app _ _ _ (or_introl Hb))). lia.
    + constructor; [|constructor]. split_and!; simpl; [by rewrite lookup_insert_eq|done|done].
  - rewrite Hp, !app_assoc. done.
Qed.

Lemma flight_sent (W L ds ds' : list datagram) d :
  Permutation ds (d :: ds') -> Permutation (W ++ L ++ ds) ((W ++ [d]) ++ L ++ ds').
Proof. intros Hp. rewrite Hp, <- !app_assoc. apply Permutation_app_head. simpl. by rewrite <- Permutation_middle. Qed.

Lemma flight_lost (W L ds ds' : list datagram) d :
  Permutation ds (d :: ds') -> Permutation (W ++ L ++ ds) (W ++ (L ++ [d]) ++ ds').
Proof. intros Hp. by rewrite Hp, <- !app_assoc. Qed.

Lemma complete_send_intact s i error :
  intact s -> exists s', complete_send i error s = (Ret tt, s') /\ intact s'
    /\ (forall x, sends_ s !! i = Some x -> error = 0 -> errors s' = errors s /\ lost s' = lost s /\ length (wire s') = S (length (wire s))).
Proof.
  intros [(ds & Hds & Hp) Hnd Hf Hh]. unfold complete_send, bind at 1, gets at 1.
  destruct (sends_ s !! i) as [x|] eqn:Hi; [|exists s; split; [done|]; split; [|done]; constructor; try done; by exists ds].
  destruct (Forall2_lookup_l _ _ _ _ _ Hds Hi) as ([ep bs] & Hdi & Hx & Hep & Hsz). simpl in Hx, Hep, Hsz.
  unfold bind at 1, gets at 1. rewrite Hx.
  destruct (buffers_shrink (heap s) (fresh s) (send_buffer x) (buffers s) (map send_buffer (delete i (sends_ s)) ++ receives_ s) Hnd Hf Hh)
    as (S1 & S2 & S3 & S4).
  { unfold buffers. rewrite (delete_Permutation _ _ _ Hi) at 1. done. }
  assert (Forall2 (fun x d => in_flight x s d) (delete i (sends_ s)) (delete i ds)) as Hds' by (by apply Forall2_delete).
  pose proof (delete_Permutation _ _ _ Hdi) as Hdp.
  unfold bind, modify, ret, handle_send. rewrite Hsz. destruct (Z.eqb_spec error 0) as [->|He]; cbn [negb].
  - rewrite Z.eqb_refl. cbn [negb]. eexists. split; [reflexivity|]. destruct s; simpl in *. split; [|].
    + constructor; simpl; try done. exists (delete i ds). split.
      * eapply flight_other; [|exact Hds']. simpl. intros b Hb. apply lookup_delete_ne. intros <-. apply S4. apply in_or_app. by left.
      * rewrite Hp, Hep. by apply flight_sent.
    + intros y _ _. split_and!; try done. rewrite length_app. simpl. lia.
  - eexists. split; [reflexivity|]. destruct s; simpl in *. split; [|done].
    constructor; simpl; try done. exists (delete i ds). split.
    + eapply flight_other; [|exact Hds']. simpl. intros b Hb. apply lookup_delete_ne. intros <-. apply S4. apply in_or_app. by left.
    + rewrite Hp, Hep. by apply flight_lost.
Qed.

(** A buffer that is freed later might as well be freed before. *)
Lemma start_receive_free s b :
  (b < fresh s)%nat ->
  exists s', start_receive s = (Ret tt, s')
    /\ start_receive (with_heap (delete b (heap s)) s) = (Ret tt, with_heap (delete b (heap s')) s').
Proof.
  intros Hb. unfold start_receive, bind, gets, when. destruct s as [so h f xs rs c w r a l e]; simpl in *.
  destruct so; [|by eexists]. eexists. split; [reflexivity|]. unfold with_receives, with_heap, with_fresh. simpl.
  by rewrite delete_insert_ne by lia.
Qed.

Lemma complete_receive_intact s i data err node :
  intact s -> exists s', complete_receive i data err node s = (Ret tt, s') /\ intact s' /\ lost s' = lost s.
Proof.
  intros Hin. pose proof Hin as [(ds & Hds & Hp) Hnd Hf Hh]. unfold complete_receive, bind at 1, gets at 1.
  destruct (receives_ s !! i) as [b|] eqn:Hi; [|by exists s].
  destruct (buffers_shrink (heap s) (fresh s) b (buffers s) (map send_buffer (sends_ s) ++ delete i (receives_ s)) Hnd Hf Hh)
    as (S1 & S2 & S3 & S4).
  { unfold buffers. rewrite (delete_Permutation _ _ _ Hi) at 1. by rewrite <- Permutation_middle. }
  assert (b < fresh s)%nat as Hb.
  { rewrite Forall_forall in Hf. apply Hf. unfold buffers. apply elem_of_app. right. by eapply list_elem_of_lookup_2. }
  set (s0 := with_receives (delete i (receives_ s)) s). set (s1 := with_heap (delete b (heap s0)) s0).
  assert (intact s1) as Hin1.
  { unfold s1, s0. destruct s; simpl in *. constructor; simpl; try done. exists ds. split; [|done].
    eapply flight_other; [|exact Hds]. simpl. intros c Hc. apply lookup_delete_ne. intros <-. apply S4. apply in_or_app. by left. }
  unfold bind at 1, modify at 1. fold s0. destruct err.
  - eexists. split; [reflexivity|]. destruct Hin1. split; [|by destruct s]. constructor; unfold s1, s0 in *; by destruct s.
  - destruct (start_receive_free s0 b) as (s2 & E & E1); [by destruct s|]. fold s1 in E1.
    destruct (start_receive_intact s1 Hin1) as (s3 & E3 & [P1 P2 P3 P4] & _ & Hl). rewrite E1 in E3. injection E3 as <-.
    assert (lost s2 = lost s) as Hls by (transitivity (lost s1); [rewrite <- Hl; by destruct s2|unfold s1, s0; by destruct s]).
    rewrite bind_assoc, (bind_Ret _ _ _ _ _ E). destruct node; cbn [when]; (eexists; split; [reflexivity|]; split; [|by destruct s2]);
      constructor; by destruct s2.
Qed.

(** ** Property *)

(** C36. Sending is by value. Whatever the user does with its memory after [send],
    and in whatever order the system completes the sends, every datagram given
    to [send] is, with the bytes it had then and for its endpoint, on the
    wire, or lost with an error, or still in flight, once; no handler touches
    memory that is not there, and exactly the buffers of the operations under
    way are allocated, each for one of them. *)
Theorem datagrams_intact xs : forall so mem s,
  perform_all xs (construct so mem) = (Ret tt, s) ->
  exists ds, Permutation (asked s) (wire s ++ lost s ++ ds) /\ Forall2 (fun x d => in_flight x s d) (sends_ s) ds
    /\ NoDup (buffers s) /\ (forall b, is_Some (heap s !! b) <-> In b (buffers s))
    /\ forall x, in_bounds s x -> exists s', perform x s = (Ret tt, s').
Proof.
  assert (forall s x, intact s -> in_bounds s x -> exists s', perform x s = (Ret tt, s') /\ intact s') as Hstep.
  { intros s x Hin Hb. destruct x; simpl.
    - destruct (start_receive_intact s Hin) as (s' & ? & ? & _). by exists s'.
    - by apply send_intact.
    - destruct (complete_send_intact s i error Hin) as (s' & ? & ? & _). by exists s'.
    - destruct (complete_receive_intact s i data err node Hin) as (s' & ? & ? & _). by exists s'.
    - eexists. split; [reflexivity|]. destruct Hin. constructor; by destruct s. }
  assert (forall xs s0 s, intact s0 -> perform_all xs s0 = (Ret tt, s) -> intact s) as Hall.
  { clear xs. induction xs as [|x xs IH]; intros s0 s Hin E; [by injection E as <-|]. cbn [perform_all] in E.
    destruct (perform x s0) as [[u| | |] s1] eqn:E1; unfold bind in E; rewrite E1 in E; try done.
    apply (IH s1); [|done].
    assert (in_bounds s0 x \/ s1 = s0) as [Hb| ->]; [|destruct (Hstep s0 x Hin Hb) as (s' & E2 & ?); rewrite E1 in E2; by injection E2 as _ ->|done].
    destruct x as [|ep a size|i error|i data err node|a bs]; try (left; exact I).
    simpl in E1. unfold send, bind, gets, when in E1. destruct (socket_ s0); simpl in E1; [left|right; by injection E1].
    destruct (caller s0 !! a) as [bs|] eqn:Ec; [|done].
    destruct (Z.leb_spec 0 size), (Z.leb_spec size (zlen bs)); simpl in E1; try done. exists bs. split; [done|lia]. }
  intros so mem s E. pose proof (Hall _ _ _ (construct_intact so mem) E) as Hin.
  pose proof Hin as [(ds & Hds & Hp) Hnd _ Hh]. exists ds. split_and!; try done.
  intros x Hb. destruct (Hstep s x Hin Hb) as (s' & ? & _). by exists s'.
Qed.

(** After a receive that fails none is under way any more, if there was one. *)
Lemma receive_error_stops s b data node :
  receives_ s = [b] -> exists s', complete_receive 0 data true node s = (Ret tt, s') /\ receives_ s' = [] /\ errors s' = S (errors s).
Proof.
  intros Hr. unfold complete_receive, bind, gets, modify. rewrite Hr. eexists. split; [reflexivity|].
  destruct s. simpl in *. by rewrite Hr.
Qed.

End Socket_Io.

(** ** Witness *)

Module Socket_Io_Witness.
Import Socket_Io.

(** A buffer reused between two sends, which complete in the other order. *)
Definition run : list action :=
  [A_write 0 [x01; x02]; A_receive; A_send 7 0 2; A_write 0 [x03]; A_send 8 0 1; A_write 0 []; A_sent 1 0; A_sent 0 0].

Definition memory : gmap nat (list byte) := ∅.
Definition final : t := (perform_all run (construct true memory)).2.

Lemma datagrams_intact_witness :
  perform_all run (construct true memory) = (Ret tt, final) /\ wire final = [(8, [x03]); (7, [x01; x02])]
  /\ Permutation (asked final) (wire final) /\ exists s', perform (A_received 0 [x05] false true) final = (Ret tt, s').
Proof.
  assert (perform_all run (construct true memory) = (Ret tt, final)) as E by (vm_compute; reflexivity).
  split; [exact E|]. split; [vm_compute; reflexivity|].
  destruct (datagrams_intact run true memory final E) as (ds & Hp & Hf & _ & _ & Hx).
  split; [|exact (Hx (A_received 0 [x05] false true) I)].
  apply Forall2_length in Hf. destruct ds; [exact Hp|discriminate Hf].
Defined.

End Socket_Io_Witness.
