(* ===== verification/DtlsInvariant.v ===== *)
(** * The store of nodes and protocols stays consistent

    The links between clients, nodes and protocols: [dinv]. Each operation of
    a node keeps it; [ok R m] says that [m] keeps it and changes the rest of
    the store only as the relation [R] allows, whatever [m]'s outcome. *)

From S2P Require Import Prelude StdMap QtInterface MessageItem FragmentedMessage ProtocolState ProtocolSend ProtocolRecv ProtocolStream ProtocolTimer DtlsNode DtlsServer.
Open Scope Z_scope.
Open Scope helpz_scope.

Create HintDb dtls.

Section inv.
Context {D B C : Type}.
Implicit Types (s : Dtls D B C) (nid pid : nat).

Record dinv s : Prop := {
  di_sorted : StdMap.sorted (clients_ s);
  di_clients : forall ep nid, StdMap.find ep (clients_ s) = Some nid ->
    exists n, nodes s !! nid = Some n /\ receiver_endpoint_ n = ep;
  di_protocol : forall nid n pid, nodes s !! nid = Some n -> node_protocol_ n = Some pid ->
    exists po, protocols s !! pid = Some po /\ proto_writer po = Some nid;
  di_writer : forall pid po nid, protocols s !! pid = Some po -> proto_writer po = Some nid -> is_Some (nodes s !! nid);
  di_records : forall nid, nid ∈ map fst (records_queue_ s) -> is_Some (nodes s !! nid);
  di_local_nodes : forall nid, nid ∈ local_nodes s -> is_Some (nodes s !! nid);
  di_local_protocols : forall pid, pid ∈ local_protocols s -> is_Some (protocols s !! pid);
  di_fresh : forall i, (next_id s <= i)%nat -> nodes s !! i = None /\ protocols s !! i = None;
}.

(** No node goes away or changes its endpoint, and the clients and local
    variables are as before. *)
Record stable s s' : Prop := {
  st_nodes : forall nid n, nodes s !! nid = Some n ->
    exists n', nodes s' !! nid = Some n' /\ receiver_endpoint_ n' = receiver_endpoint_ n;
  st_clients : clients_ s' = clients_ s;
  st_local_nodes : local_nodes s' = local_nodes s;
  st_local_protocols : local_protocols s' = local_protocols s;
}.

(** Moreover no record is queued, and no protocol gets a writer. *)
Record calm s s' : Prop := {
  ca_stable : stable s s';
  ca_records : records_queue_ s' = records_queue_ s;
  ca_writers : forall pid po nid, protocols s' !! pid = Some po -> proto_writer po = Some nid ->
    exists po', protocols s !! pid = Some po' /\ proto_writer po' = Some nid;
}.

Lemma stable_refl s : stable s s.
Proof. constructor; eauto. Qed.

Lemma stable_trans s1 s2 s3 : stable s1 s2 -> stable s2 s3 -> stable s1 s3.
Proof.
  intros [N1 C1 L1 P1] [N2 C2 L2 P2]. constructor; try congruence.
  intros nid n Hn. destruct (N1 _ _ Hn) as (n' & Hn' & E1). destruct (N2 _ _ Hn') as (n'' & Hn'' & E2).
  exists n''. split; [done|congruence].
Qed.

Lemma calm_refl s : calm s s.
Proof. constructor; eauto using stable_refl. Qed.

Lemma calm_trans s1 s2 s3 : calm s1 s2 -> calm s2 s3 -> calm s1 s3.
Proof.
  intros [S1 R1 W1] [S2 R2 W2]. constructor; [by eapply stable_trans|congruence|].
  intros pid po nid Hp Hw. destruct (W2 _ _ _ Hp Hw) as (po' & Hp' & Hw'). eauto.
Qed.

(** The two relations as preorders. *)
Class Preorder_on (R : Dtls D B C -> Dtls D B C -> Prop) : Prop := {
  po_refl : forall s, R s s;
  po_trans : forall s1 s2 s3, R s1 s2 -> R s2 s3 -> R s1 s3;
}.
#[global] Instance stable_preorder : Preorder_on stable := {| po_refl := stable_refl; po_trans := stable_trans |}.
#[global] Instance calm_preorder : Preorder_on calm := {| po_refl := calm_refl; po_trans := calm_trans |}.

Definition ok (R : Dtls D B C -> Dtls D B C -> Prop) {A} (m : DTM D B C A) : Prop :=
  forall s, dinv s -> dinv (m s).2 /\ R s (m s).2.

Lemma ok_stable {A} (m : DTM D B C A) : ok calm m -> ok stable m.
Proof. intros Hm s Hs. destruct (Hm s Hs) as [? [? _ _]]. done. Qed.

Section monad.
Context (R : Dtls D B C -> Dtls D B C -> Prop) `{!Preorder_on R}.

Lemma ok_ret {A} (a : A) : ok R (ret a).
Proof. intros s Hs. split; [done|apply po_refl]. Qed.

Lemma ok_throw {A} : ok R (throw : DTM D B C A).
Proof. intros s Hs. split; [done|apply po_refl]. Qed.

Lemma ok_undef {A} : ok R (undef : DTM D B C A).
Proof. intros s Hs. split; [done|apply po_refl]. Qed.

Lemma ok_gets {A} (f : Dtls D B C -> A) : ok R (gets f).
Proof. intros s Hs. split; [done|apply po_refl]. Qed.

Lemma ok_bind {A A'} (m : DTM D B C A) (k : A -> DTM D B C A') :
  ok R m -> (forall a, ok R (k a)) -> ok R (bind m k).
Proof.
  intros Hm Hk s Hs. destruct (Hm s Hs) as [H1 H2]. unfold bind.
  destruct (m s) as [[a| | |] s1]; simpl in *; try done.
  destruct (Hk a s1 H1) as [H3 H4]. split; [done|by eapply po_trans].
Qed.

Lemma ok_try {A} (m h : DTM D B C A) : ok R m -> ok R h -> ok R (try_catch m h).
Proof.
  intros Hm Hh s Hs. destruct (Hm s Hs) as [H1 H2]. unfold try_catch.
  destruct (m s) as [[a| | |] s1]; simpl in *; try done.
  destruct (Hh s1 H1) as [H3 H4]. split; [done|by eapply po_trans].
Qed.

Lemma ok_deref nid : ok R (deref nid).
Proof. intros s Hs. unfold deref. destruct (nodes s !! nid); (split; [done|apply po_refl]). Qed.

End monad.

End inv.

#[export] Hint Resolve ok_ret ok_throw ok_undef ok_gets ok_deref ok_stable : dtls.

Section ops.
Context {D B C : Type} `{QIODevice D} `{QIODevice B, !QBuffer B} `{QDataStream} `{QtBytes} `{TlsChannel C}.
Context (env : Env D) (side : Side).
Implicit Types (s : Dtls D B C) (nid pid : nat).

(** What [dinv] and the relations look at. *)
Definition core s := (nodes s, protocols s, next_id s, clients_ s, records_queue_ s, (local_nodes s, local_protocols s)).

Lemma core_dinv s s' : core s' = core s -> dinv s -> dinv s'.
Proof.
  unfold core. intros E [I1 I2 I3 I4 I5 I6 I7 I8]. simplify_eq.
  constructor; repeat match goal with Hx : _ s' = _ s |- _ => rewrite Hx; clear Hx end; auto.
Qed.

Lemma core_calm s s' : core s' = core s -> calm s s'.
Proof.
  unfold core. intros E. simplify_eq. constructor; [constructor|..]; try congruence.
  - intros nid n Hn. exists n. split; congruence.
  - intros pid po nid Hp Hw. exists po. split; congruence.
Qed.

Lemma ok_core {A} (m : DTM D B C A) : (forall s, core (m s).2 = core s) -> ok calm m.
Proof. intros Hc s Hs. split; [by apply (core_dinv s); [apply Hc|]|apply core_calm, Hc]. Qed.

Lemma ok_log e : ok calm (log e : DTM D B C unit).
Proof. apply ok_core. by intros []. Qed.

Lemma ok_user_call e : ok calm (user_call env e : DTM D B C unit).
Proof. apply ok_core. intros []. unfold user_call, bind. simpl. by destruct (de_user_throws env e). Qed.

Lemma ok_dtls_now : ok calm (dtls_now env : DTM D B C Z).
Proof. apply ok_core. by intros []. Qed.

Lemma ok_post t : ok calm (post t : DTM D B C unit).
Proof. apply ok_core. by intros []. Qed.

Lemma ok_timer ep tp data : ok calm (controller_add_timeout_at ep tp data : DTM D B C unit).
Proof. apply ok_core. by intros []. Qed.

Hint Resolve ok_log ok_user_call ok_dtls_now ok_post ok_timer : dtls.

Lemma ok_tls_emit_data nid data : ok calm (tls_emit_data nid data : DTM D B C unit).
Proof. apply ok_bind; eauto with dtls typeclass_instances. Qed.

Lemma ok_emit_all nid out : ok calm (emit_all nid out : DTM D B C unit).
Proof.
  induction out as [|d out IH]; simpl; [apply ok_ret; apply _|].
  apply ok_bind; eauto using ok_tls_emit_data with typeclass_instances.
Qed.

Lemma ok_write_message nid m : ok calm (write_message nid m : DTM D B C unit).
Proof. apply ok_bind; eauto with dtls typeclass_instances. Qed.

Lemma ok_write_data nid m : ok calm (write_data nid m : DTM D B C unit).
Proof. apply ok_bind; eauto with dtls typeclass_instances. Qed.

Lemma ok_node_add_timeout_at nid tp data : ok calm (node_add_timeout_at nid tp data : DTM D B C unit).
Proof. apply ok_bind; eauto with dtls typeclass_instances. Qed.

Lemma ok_protocol_events pid wr es : ok calm (protocol_events pid wr es : DTM D B C unit).
Proof.
  induction es as [|e es IH]; simpl; [apply ok_ret; apply _|].
  apply ok_bind; [apply _| |done]. unfold protocol_event.
  destruct e, wr; eauto using ok_write_message, ok_node_add_timeout_at with dtls.
Qed.

(** An assignment to members of a node other than its endpoint and
    protocol. *)
Lemma ok_set_node nid (f : Node C -> Node C) :
  (forall n, receiver_endpoint_ (f n) = receiver_endpoint_ n /\ node_protocol_ (f n) = node_protocol_ n) ->
  ok calm (set_node nid f : DTM D B C unit).
Proof.
  intros Hf s [I1 I2 I3 I4 I5 I6 I7 I8].
  assert (forall i, is_Some (alter f nid (nodes s) !! i) <-> is_Some (nodes s !! i)) as Hdom.
  { intros i. destruct (decide (nid = i)) as [->|Hne].
    - rewrite lookup_alter_eq. by rewrite fmap_is_Some.
    - by rewrite lookup_alter_ne. }
  assert (forall i n, nodes s !! i = Some n -> exists n', alter f nid (nodes s) !! i = Some n'
      /\ receiver_endpoint_ n' = receiver_endpoint_ n /\ node_protocol_ n' = node_protocol_ n) as Hfwd.
  { intros i n Hn. destruct (decide (nid = i)) as [->|Hne].
    - rewrite lookup_alter_eq, Hn. simpl. eexists; split; [done|apply Hf].
    - rewrite lookup_alter_ne by done. eauto. }
  assert (forall i n', alter f nid (nodes s) !! i = Some n' -> exists n, nodes s !! i = Some n
      /\ node_protocol_ n' = node_protocol_ n) as Hbwd.
  { intros i n' Hn'. destruct (decide (nid = i)) as [->|Hne].
    - rewrite lookup_alter_eq in Hn'. destruct (nodes s !! i) as [n|]; simpl in Hn'; [|done].
      simplify_eq. eexists; split; [done|apply Hf].
    - rewrite lookup_alter_ne in Hn' by done. eauto. }
  destruct s as [N P I CL R T O LN LP K E]; simpl in *. split.
  - constructor; simpl; auto; try (intros; apply Hdom; eauto).
    + intros ep i Hi. destruct (I2 _ _ Hi) as (n & Hn & He). destruct (Hfwd _ _ Hn) as (n' & Hn' & He' & _).
      exists n'. split; [done|congruence].
    + intros i n' pid Hn' Hp. destruct (Hbwd _ _ Hn') as (n & Hn & He). eapply I3; [done|congruence].
    + intros i Hi. destruct (I8 i Hi) as [HN HP]. split; [|done].
      apply eq_None_not_Some. intros Hs. apply Hdom in Hs. rewrite HN in Hs. by destruct Hs.
  - constructor; [constructor|..]; simpl; eauto.
    intros i n Hn. destruct (Hfwd _ _ Hn) as (n' & Hn' & He' & _). eauto.
Qed.

Lemma ok_store_channel nid c : ok calm (store_channel nid c : DTM D B C unit).
Proof.
  apply ok_bind; [apply _|apply ok_deref, _|]. intros n. destruct (dtls_ n); [|apply ok_undef, _].
  apply ok_set_node. by intros [].
Qed.

End ops.

#[export] Hint Resolve ok_log ok_user_call ok_dtls_now ok_post ok_timer ok_tls_emit_data ok_emit_all
  ok_write_message ok_write_data ok_node_add_timeout_at ok_protocol_events ok_store_channel : dtls.
#[export] Hint Extern 1 (ok _ (set_node _ _)) => apply ok_set_node; intros []; done : dtls.

Section objects.
Context {D B C : Type} `{QIODevice D} `{QIODevice B, !QBuffer B} `{QDataStream} `{QtBytes} `{TlsChannel C}.
Context (env : Env D) (side : Side).
Implicit Types (s : Dtls D B C) (nid pid : nat).

(** *** Protocols *)

Lemma insert_proto s pid po st :
  dinv s -> protocols s !! pid = Some po ->
  dinv (with_protocols (<[pid := mkProto st (proto_writer po)]> (protocols s)) s)
  /\ calm s (with_protocols (<[pid := mkProto st (proto_writer po)]> (protocols s)) s).
Proof.
  intros [I1 I2 I3 I4 I5 I6 I7 I8] Hpo.
  assert (forall q po', <[pid := mkProto st (proto_writer po)]> (protocols s) !! q = Some po' ->
    exists po0, protocols s !! q = Some po0 /\ proto_writer po' = proto_writer po0) as Hb.
  { intros q po' Hq. destruct (decide (pid = q)) as [<-|Hne].
    - rewrite lookup_insert_eq in Hq. simplify_eq. eauto.
    - rewrite lookup_insert_ne in Hq by done. eauto. }
  destruct s as [N P I CL R T O LN LP K E]; simpl in *. split.
  - constructor; simpl; auto.
    + intros i n q Hn Hq. destruct (I3 _ _ _ Hn Hq) as (po' & Hq' & Hw). destruct (decide (pid = q)) as [<-|Hne].
      * rewrite lookup_insert_eq. eexists; split; [done|]. simpl. congruence.
      * rewrite lookup_insert_ne by done. eauto.
    + intros q po' i Hq Hw. destruct (Hb _ _ Hq) as (po0 & Hq0 & E0). eapply I4; [done|congruence].
    + intros q Hq. destruct (decide (pid = q)) as [<-|Hne].
      * rewrite lookup_insert_eq. eauto.
      * rewrite lookup_insert_ne by done. eauto.
    + intros i Hi. destruct (I8 i Hi) as [HN HP]. split; [done|].
      destruct (decide (pid = i)) as [<-|Hne]; [congruence|]. by rewrite lookup_insert_ne.
  - constructor; [constructor|..]; simpl; eauto.
    intros q po' i Hq Hw. destruct (Hb _ _ Hq) as (po0 & Hq0 & E0). exists po0. split; [done|congruence].
Qed.

Lemma ok_store_writer wr v : ok calm (modify (fun s => with_nodes (store_writer wr v (nodes s)) s) : DTM D B C unit).
Proof.
  unfold store_writer. destruct wr as [nid|], v as [v|]; try (apply ok_core; by intros []).
  apply (ok_set_node nid). by intros [].
Qed.

Lemma ok_run_protocol {A} pid (m : PM D B A) : ok calm (run_protocol env pid m : DTM D B C A).
Proof.
  intros s Hs. unfold run_protocol. destruct (protocols s !! pid) as [po|] eqn:Hpo; [|by split; [|apply calm_refl]].
  destruct (m _) as [o w]. simpl.
  destruct (insert_proto s pid po (with_writer None (self w)) Hs Hpo) as [J1 C1].
  set (s1 := with_protocols _ s) in *.
  destruct (ok_store_writer (proto_writer po) (protocol_writer_ (self w)) s1 J1) as [J2 C2]. simpl in J2, C2.
  set (s2 := with_nodes _ s1) in *.
  assert (core (with_ticks (ticks w) s2) = core s2) as Hcore by (by destruct s2).
  pose proof (core_dinv _ _ Hcore J2) as J3. pose proof (core_calm _ _ Hcore) as C3.
  assert (ok calm (protocol_events pid (proto_writer po) (events w) ;;; (fun s : Dtls D B C => (o, s)))) as Hok.
  { apply ok_bind; [apply _|apply ok_protocol_events|]. intros _. apply ok_core. done. }
  destruct (Hok _ J3) as [J4 C4].
  split; [exact J4|]. eapply calm_trans; [exact C1|]. eapply calm_trans; [exact C2|]. by eapply calm_trans.
Qed.

(** What destroying messages reports. *)
Definition finally_events (ms : list (Message_Item.t D)) : list (Dtls_Event D) :=
  flat_map (fun m => match Message_Item.dtor m with Some (f, ok) => [De_finally f ok] | None => [] end) ms.

Lemma destroy_messages_ok ms s :
  destroy_messages ms s = (Ret tt, with_dtls_events (dtls_events s ++ finally_events ms) s).
Proof.
  revert s. induction ms as [|m ms IH]; intros s; simpl; [destruct s; simpl; by rewrite app_nil_r|].
  unfold bind, destroy_message. destruct (Message_Item.dtor m) as [[f b]|]; simpl; rewrite IH; destruct s; simpl; [|done].
  by rewrite <- app_assoc.
Qed.

Lemma existsb_lookup {V} (p : nat * V -> bool) (m : gmap nat V) :
  existsb p (map_to_list m) = false -> forall i v, m !! i = Some v -> p (i, v) = false.
Proof.
  intros Hf i v Hi. apply elem_of_map_to_list in Hi. destruct (p (i, v)) eqn:E; [|done].
  assert (existsb p (map_to_list m) = true) as Ht; [|congruence].
  apply existsb_exists. exists (i, v). split; [by apply list_elem_of_In|done].
Qed.

Lemma ok_drop_protocol pid : ok calm (drop_protocol env pid : DTM D B C unit).
Proof.
  intros s Hs. unfold drop_protocol. destruct (protocol_held env s pid) eqn:Hh; [by split; [|apply calm_refl]|].
  destruct (protocols s !! pid) as [po|] eqn:Hpo; [|by split; [|apply calm_refl]].
  unfold protocol_held in Hh. apply orb_false_iff in Hh as [[_ Hlp]%orb_false_iff Hn].
  apply bool_decide_eq_false in Hlp. pose proof (existsb_lookup _ _ Hn) as Hnone. clear Hn.
  unfold bind. rewrite destroy_messages_ok. simpl.
  destruct Hs as [I1 I2 I3 I4 I5 I6 I7 I8].
  destruct s as [N P I CL R T O LN LP K E]; simpl in *. split.
  - constructor; simpl; auto.
    + intros i n q Hn Hq. destruct (I3 _ _ _ Hn Hq) as (po' & Hq' & Hw). exists po'. split; [|done].
      rewrite lookup_delete_ne; [done|]. intros <-. specialize (Hnone _ _ Hn). unfold names_protocol in Hnone.
      apply bool_decide_eq_false in Hnone. done.
    + intros q po' i Hq Hw. apply lookup_delete_Some in Hq as [_ Hq]. eauto.
    + intros q Hq. rewrite lookup_delete_ne; [eauto|]. by intros <-.
    + intros i Hi. destruct (I8 i Hi) as [HN HP]. split; [done|]. rewrite lookup_delete_None. by right.
  - constructor; [constructor|..]; simpl; eauto.
    intros q po' i Hq Hw. apply lookup_delete_Some in Hq as [_ Hq]. eauto.
Qed.

End objects.
#[export] Hint Resolve ok_run_protocol ok_drop_protocol : dtls.

Section node_ops.
Context {D B C : Type} `{QIODevice D} `{QIODevice B, !QBuffer B} `{QDataStream} `{QtBytes} `{TlsChannel C}.
Context (env : Env D).
Implicit Types (s : Dtls D B C) (nid pid : nat).

(** Both ends of the link between a node and its protocol are cut. *)
Lemma unlink s nid pid n :
  dinv s -> nodes s !! nid = Some n -> node_protocol_ n = Some pid ->
  let s' := ((proto_set_writer pid None ;;; set_node nid (with_protocol None)) s).2 in dinv s' /\ calm s s'.
Proof.
  intros [I1 I2 I3 I4 I5 I6 I7 I8] Hn Hp. destruct (I3 _ _ _ Hn Hp) as (po & Hpo & Hw).
  destruct s as [N P I CL R T O LN LP K E]; simpl in *.
  assert (forall q po', alter (fun po => mkProto (proto_state po) None) pid P !! q = Some po' ->
    (exists st, po' = mkProto st None) \/ (q <> pid /\ P !! q = Some po')) as Hb.
  { intros q po' Hq. destruct (decide (pid = q)) as [<-|Hne].
    - rewrite lookup_alter_eq, Hpo in Hq. simpl in Hq. simplify_eq. eauto.
    - rewrite lookup_alter_ne in Hq by done. auto. }
  assert (forall i, is_Some (alter (with_protocol None) nid N !! i) <-> is_Some (N !! i)) as Hdom.
  { intros i. destruct (decide (nid = i)) as [->|Hne];
      [rewrite lookup_alter_eq; by rewrite fmap_is_Some|by rewrite lookup_alter_ne]. }
  assert (forall i m, N !! i = Some m -> exists m', alter (with_protocol None) nid N !! i = Some m'
      /\ receiver_endpoint_ m' = receiver_endpoint_ m) as Hfwd.
  { intros i m Hm. destruct (decide (nid = i)) as [->|Hne].
    - rewrite lookup_alter_eq, Hm. simpl. eexists; split; [done|by destruct m].
    - rewrite lookup_alter_ne by done. eauto. }
  unfold bind. simpl. split.
  - constructor; simpl; auto; try (by intros; apply Hdom; eauto).
    + intros ep i Hi. destruct (I2 _ _ Hi) as (m & Hm & He). destruct (Hfwd _ _ Hm) as (m' & Hm' & He').
      exists m'. split; [done|congruence].
    + intros i m q Hm Hq. destruct (decide (nid = i)) as [<-|Hne].
      { rewrite lookup_alter_eq, Hn in Hm. simpl in Hm. simplify_eq. by destruct n. }
      rewrite lookup_alter_ne in Hm by done. destruct (I3 _ _ _ Hm Hq) as (po' & Hq' & Hw').
      exists po'. split; [|done]. rewrite lookup_alter_ne; [done|]. intros ->. congruence.
    + intros q po' i Hq Hw'. apply Hdom. destruct (Hb _ _ Hq) as [[st ->]|[_ Hq0]]; [done|]. eauto.
    + intros q Hq. destruct (decide (pid = q)) as [<-|Hne].
      * rewrite lookup_alter_eq. by rewrite Hpo; eauto.
      * rewrite lookup_alter_ne by done. eauto.
    + intros i Hi. destruct (I8 i Hi) as [HN HP]. split.
      * apply eq_None_not_Some. intros Hs. apply Hdom in Hs. rewrite HN in Hs. by destruct Hs.
      * rewrite lookup_alter_None. done.
  - constructor; [constructor|..]; simpl; eauto.
    intros q po' i Hq Hw'. destruct (Hb _ _ Hq) as [[st ->]|[_ Hq0]]; [done|]. eauto.
Qed.

Lemma ok_close_protocol nid : ok calm (close_protocol env nid : DTM D B C unit).
Proof.
  intros s Hs. unfold close_protocol, bind, deref. destruct (nodes s !! nid) as [n|] eqn:Hn; [|by split; [|apply calm_refl]].
  destruct (node_protocol_ n) as [pid|] eqn:Hp; [|by split; [|apply calm_refl]].
  destruct (ok_user_call env (De_closed pid) s Hs) as [J1 C1].
  assert (nodes (user_call env (De_closed pid) s).2 = nodes s) as EN.
  { unfold user_call, bind. destruct s; simpl. by destruct (de_user_throws env (De_closed pid)). }
  destruct (user_call env (De_closed pid) s) as [[u| | |] s1]; simpl in *; try done.
  rewrite <- EN in Hn. destruct (unlink s1 nid pid n J1 Hn Hp) as [J2 C2]. unfold bind in J2, C2. simpl in J2, C2.
  destruct (ok_drop_protocol env pid _ J2) as [J3 C3].
  split; [exact J3|]. eapply calm_trans; [exact C1|]. by eapply calm_trans.
Qed.

Lemma ok_close_channel nid : ok calm (close_channel nid : DTM D B C unit).
Proof.
  apply ok_bind; [apply _|apply ok_deref, _|]. intros n. destruct (dtls_ n); [|apply ok_ret, _].
  apply ok_bind; [apply _|apply ok_emit_all|]. intros _. apply ok_set_node. by intros [].
Qed.

Lemma ok_close nid : ok calm (close env nid : DTM D B C unit).
Proof. apply ok_bind; [apply _|apply ok_close_protocol|]. intros _. apply ok_close_channel. Qed.

(** A new object gets the next number. *)
Lemma ok_new_protocol : ok calm (new_protocol : DTM D B C nat).
Proof.
  intros s [I1 I2 I3 I4 I5 I6 I7 I8]. destruct (I8 (next_id s) ltac:(lia)) as [HN HP].
  destruct s as [N P I CL R T O LN LP K E]; simpl in *. split.
  - constructor; simpl; auto.
    + intros i n q Hn Hq. destruct (I3 _ _ _ Hn Hq) as (po & Hpo & Hw). exists po. split; [|done].
      rewrite lookup_insert_ne; [done|]. intros ->. congruence.
    + intros q po i Hq Hw. apply lookup_insert_Some in Hq as [[_ <-]|[_ Hq]]; [done|eauto].
    + intros q Hq. destruct (decide (I = q)) as [<-|Hne]; [rewrite lookup_insert_eq; eauto|].
      rewrite lookup_insert_ne by done. auto.
    + intros i Hi. destruct (I8 i ltac:(lia)) as [HN' HP']. split; [done|]. rewrite lookup_insert_ne by lia. done.
  - constructor; [constructor|..]; simpl; eauto.
    intros q po i Hq Hw. apply lookup_insert_Some in Hq as [[_ <-]|[_ Hq]]; [done|eauto].
Qed.

End node_ops.
#[export] Hint Resolve ok_close ok_new_protocol : dtls.

Section linking.
Context {D B C : Type} `{QIODevice D} `{QIODevice B, !QBuffer B} `{QDataStream} `{QtBytes} `{TlsChannel C}.
Context (env : Env D).
Implicit Types (s : Dtls D B C) (nid pid : nat).

(** Nothing names the protocol yet. *)
Definition unnamed s pid : Prop :=
  (exists st, protocols s !! pid = Some (mkProto st None))
  /\ forall i n, nodes s !! i = Some n -> node_protocol_ n <> Some pid.

(** Both ends of a new link are set. *)
Lemma link s nid pid :
  dinv s -> is_Some (nodes s !! nid) -> unnamed s pid ->
  let s' := ((set_node nid (with_protocol (Some pid)) ;;; proto_set_writer pid (Some nid)) s).2 in
  dinv s' /\ stable s s'.
Proof.
  intros [I1 I2 I3 I4 I5 I6 I7 I8] [n Hn] [[st Hpo] Hun].
  destruct s as [N P I CL R T O LN LP K E]; simpl in *.
  assert (forall q po', alter (fun po => mkProto (proto_state po) (Some nid)) pid P !! q = Some po' ->
    proto_writer po' = Some nid \/ P !! q = Some po') as Hb.
  { intros q po' Hq. destruct (decide (pid = q)) as [<-|Hne].
    - rewrite lookup_alter_eq, Hpo in Hq. simpl in Hq. simplify_eq. auto.
    - rewrite lookup_alter_ne in Hq by done. auto. }
  assert (forall i, is_Some (alter (with_protocol (Some pid)) nid N !! i) <-> is_Some (N !! i)) as Hdom.
  { intros i. destruct (decide (nid = i)) as [->|Hne];
      [rewrite lookup_alter_eq; by rewrite fmap_is_Some|by rewrite lookup_alter_ne]. }
  assert (forall i m, N !! i = Some m -> exists m', alter (with_protocol (Some pid)) nid N !! i = Some m'
      /\ receiver_endpoint_ m' = receiver_endpoint_ m) as Hfwd.
  { intros i m Hm. destruct (decide (nid = i)) as [->|Hne].
    - rewrite lookup_alter_eq, Hm. simpl. eexists; split; [done|by destruct m].
    - rewrite lookup_alter_ne by done. eauto. }
  unfold bind. simpl. split.
  - constructor; simpl; auto; try (by intros; apply Hdom; eauto).
    + intros ep i Hi. destruct (I2 _ _ Hi) as (m & Hm & He). destruct (Hfwd _ _ Hm) as (m' & Hm' & He').
      exists m'. split; [done|congruence].
    + intros i m q Hm Hq. destruct (decide (nid = i)) as [<-|Hne].
      { rewrite lookup_alter_eq, Hn in Hm. simpl in Hm. simplify_eq.
        assert (q = pid) as -> by (destruct n; simpl in Hq; congruence).
        rewrite lookup_alter_eq, Hpo. simpl. eauto. }
      rewrite lookup_alter_ne in Hm by done. destruct (I3 _ _ _ Hm Hq) as (po' & Hq' & Hw').
      exists po'. split; [|done]. rewrite lookup_alter_ne; [done|]. intros ->. by apply (Hun _ _ Hm).
    + intros q po' i Hq Hw'. apply Hdom. destruct (Hb _ _ Hq) as [Hw|Hq0]; [|by eauto].
      assert (i = nid) as -> by congruence. eauto.
    + intros q Hq. destruct (decide (pid = q)) as [<-|Hne].
      * rewrite lookup_alter_eq. by rewrite Hpo; eauto.
      * rewrite lookup_alter_ne by done. eauto.
    + intros i Hi. destruct (I8 i Hi) as [HN HP]. split.
      * apply eq_None_not_Some. intros Hs. apply Hdom in Hs. rewrite HN in Hs. by destruct Hs.
      * rewrite lookup_alter_None. done.
  - constructor; simpl; eauto.
Qed.

(** Releasing one protocol does not depend on the writer of another. *)
Lemma drop_set_writer_comm s old pid wr :
  old <> pid ->
  (drop_protocol env old ;;; proto_set_writer pid wr) s = (proto_set_writer pid wr ;;; drop_protocol env old) s.
Proof.
  intros Hne. unfold bind, drop_protocol, proto_set_writer, modify.
  replace (protocol_held env (with_protocols _ s) old) with (protocol_held env s old) by (by destruct s).
  destruct (protocol_held env s old); [done|].
  replace (protocols (with_protocols _ s)) with (alter (fun po => mkProto (proto_state po) wr) pid (protocols s))
    by (by destruct s).
  rewrite lookup_alter_ne by done. destruct (protocols s !! old) as [po|]; [|done].
  unfold bind. rewrite !destroy_messages_ok. destruct s; simpl. by rewrite delete_alter_ne.
Qed.

End linking.

Section callbacks.
Context {D B C : Type} `{QIODevice D} `{QIODevice B, !QBuffer B} `{QDataStream} `{QtBytes} `{TlsChannel C}.
Context (env : Env D) (side : Side).
Implicit Types (s : Dtls D B C) (nid pid : nat).

Lemma bind_deref {A} s nid (k : Node C -> DTM D B C A) :
  bind (deref nid) k s = match nodes s !! nid with Some n => k n s | None => (Undef, s) end.
Proof. unfold bind, deref. by destruct (nodes s !! nid). Qed.

(** A node takes a protocol nothing names yet. *)
Lemma set_protocol_new s nid pid :
  dinv s -> unnamed s pid -> dinv (set_protocol env nid (Some pid) s).2 /\ stable s (set_protocol env nid (Some pid) s).2.
Proof.
  intros Hs Hun. unfold set_protocol. rewrite bind_deref. destruct (nodes s !! nid) as [n|] eqn:Hn;
    [|by split; [|apply stable_refl]].
  destruct (link s nid pid Hs ltac:(eauto) Hun) as [J1 S1]. unfold bind in J1, S1. simpl in J1, S1.
  destruct (node_protocol_ n) as [old|] eqn:Hold; [|exact (conj J1 S1)].
  assert (old <> pid) as Hne by (intros ->; by apply (proj2 Hun _ _ Hn)).
  change ((set_node nid (with_protocol (Some pid));;; drop_protocol env old;;; proto_set_writer pid (Some nid)) s)
    with ((drop_protocol env old;;; proto_set_writer pid (Some nid)) (set_node nid (with_protocol (Some pid)) s).2).
  rewrite drop_set_writer_comm by done. unfold bind. simpl.
  destruct (ok_drop_protocol env old _ J1) as [J2 C2]. split; [done|]. eapply stable_trans; [exact S1|]. by destruct C2.
Qed.

Lemma new_protocol_unnamed s : dinv s -> unnamed (new_protocol s).2 (next_id s).
Proof.
  intros Hs. destruct (di_fresh _ Hs (next_id s) ltac:(lia)) as [HN HP]. split.
  - destruct s; simpl. rewrite lookup_insert_eq. eauto.
  - intros i n Hn Hp. assert (nodes s !! i = Some n) as Hn' by (by destruct s).
    destruct (di_protocol _ Hs _ _ _ Hn' Hp) as (po & Hpo & _). congruence.
Qed.

Lemma ok_take_new_protocol nid :
  ok stable (let* pid := new_protocol in set_protocol env nid (Some pid) : DTM D B C unit).
Proof.
  intros s Hs. unfold bind. pose proof (ok_new_protocol s Hs) as [J1 C1]. pose proof (new_protocol_unnamed s Hs) as Hun.
  change (new_protocol s) with (Ret (next_id s), (new_protocol s).2).
  destruct (set_protocol_new _ nid _ J1 Hun) as [J2 S2]. cbv iota beta. split; [done|].
  eapply stable_trans; [|exact S2]. by destruct C1.
Qed.

(** With no protocol before, assigning none changes nothing. *)
Lemma set_protocol_none s nid n :
  nodes s !! nid = Some n -> node_protocol_ n = None -> set_protocol env nid None s = (Ret tt, s).
Proof.
  intros Hn Hp. unfold set_protocol, bind, deref. rewrite Hn, Hp. simpl. f_equal.
  assert (alter (with_protocol None) nid (nodes s) = nodes s) as E.
  { apply alter_id. intros m Hm. simplify_eq. by destruct n as [? [] ? ? ? ?]. }
  destruct s; simpl in *. by rewrite E.
Qed.

Lemma ok_post_remove_client nid : ok calm (post_remove_client nid : DTM D B C unit).
Proof. apply ok_bind; [apply _|apply ok_deref, _|]. intros n. apply ok_post. Qed.

Lemma ok_tls_alert nid alert : ok calm (tls_alert env side nid alert : DTM D B C unit).
Proof.
  apply ok_bind; [apply _| |].
  - apply ok_bind; [apply _|apply ok_deref, _|]. intros n.
    destruct (node_protocol_ n), alert; try (apply ok_ret, _).
    apply ok_bind; [apply _|apply ok_user_call|]. intros _. apply ok_close.
  - intros _. destruct side, alert; try (apply ok_ret, _). apply ok_post_remove_client.
Qed.

(** Only a live node queues records. *)
Lemma add_received_record_ok s nid data :
  dinv s -> is_Some (nodes s !! nid) ->
  dinv (add_received_record nid data s).2 /\ stable s (add_received_record nid data s).2.
Proof.
  intros [I1 I2 I3 I4 I5 I6 I7 I8] Hn. destruct s as [N P I CL R T O LN LP K E]; simpl in *. split.
  - constructor; simpl; auto. intros i Hi. rewrite map_app in Hi. apply elem_of_app in Hi as [Hi|Hi]; [auto|].
    simpl in Hi. apply list_elem_of_singleton in Hi. by subst.
  - constructor; simpl; eauto.
Qed.

End callbacks.

Section activity.
Context {D B C : Type} `{QIODevice D} `{QIODevice B, !QBuffer B} `{QDataStream} `{QtBytes} `{TlsChannel C}.
Context (env : Env D) (side : Side).
Implicit Types (s : Dtls D B C) (nid pid : nat).

(** [ok stable] for code that runs with the node alive. *)
Definition oka nid {A} (m : DTM D B C A) : Prop :=
  forall s, dinv s -> is_Some (nodes s !! nid) -> dinv (m s).2 /\ stable s (m s).2.

Lemma stable_alive s s' nid : stable s s' -> is_Some (nodes s !! nid) -> is_Some (nodes s' !! nid).
Proof. intros [Hn _ _ _] [n E]. destruct (Hn _ _ E) as (n' & E' & _). eauto. Qed.

Lemma oka_ok nid {A} (m : DTM D B C A) : ok stable m -> oka nid m.
Proof. intros Hm s Hs _. by apply Hm. Qed.

Lemma oka_calm nid {A} (m : DTM D B C A) : ok calm m -> oka nid m.
Proof. intros Hm. by apply oka_ok, ok_stable. Qed.

Lemma oka_bind nid {A A'} (m : DTM D B C A) (k : A -> DTM D B C A') :
  oka nid m -> (forall a, oka nid (k a)) -> oka nid (bind m k).
Proof.
  intros Hm Hk s Hs Ha. destruct (Hm s Hs Ha) as [J1 S1]. unfold bind.
  destruct (m s) as [[a| | |] s1]; simpl in *; try done.
  destruct (Hk a s1 J1 (stable_alive _ _ _ S1 Ha)) as [J2 S2]. split; [done|by eapply stable_trans].
Qed.

Lemma oka_try nid {A} (m h : DTM D B C A) : oka nid m -> oka nid h -> oka nid (try_catch m h).
Proof.
  intros Hm Hh s Hs Ha. destruct (Hm s Hs Ha) as [J1 S1]. unfold try_catch.
  destruct (m s) as [[a| | |] s1]; simpl in *; try done.
  destruct (Hh s1 J1 (stable_alive _ _ _ S1 Ha)) as [J2 S2]. split; [done|by eapply stable_trans].
Qed.

Lemma bind_stable {A A'} s (m : DTM D B C A) (k : A -> DTM D B C A') :
  dinv (m s).2 /\ stable s (m s).2 -> (forall a, ok stable (k a)) ->
  dinv (bind m k s).2 /\ stable s (bind m k s).2.
Proof.
  intros [J1 S1] Hk. unfold bind. destruct (m s) as [[a| | |] s1]; simpl in *; try done.
  destruct (Hk a s1 J1) as [J2 S2]. split; [done|by eapply stable_trans].
Qed.

Hint Resolve oka_calm : dtls.

Lemma ok_node_tls_record_received nid data : ok calm (node_tls_record_received env nid data : DTM D B C unit).
Proof.
  apply ok_bind; [apply _|apply ok_deref, _|]. intros n. destruct (node_protocol_ n); [apply ok_run_protocol|apply ok_ret, _].
Qed.

Lemma oka_tls_record_received nid data : oka nid (tls_record_received env side nid data).
Proof.
  unfold tls_record_received. destruct side.
  - intros s Hs Ha. by apply add_received_record_ok.
  - apply oka_calm, ok_node_tls_record_received.
Qed.

Lemma ok_tls_verify cert_chain hostname : ok calm (tls_verify_cert_chain env cert_chain hostname : DTM D B C unit).
Proof.
  unfold tls_verify_cert_chain. destruct cert_chain; [apply ok_throw, _|].
  destruct (path_validates _ _ _); apply ok_ret, _.
Qed.

Lemma ok_choose nid protos : ok stable (tls_server_choose_app_protocol env nid protos : DTM D B C bytes).
Proof.
  unfold tls_server_choose_app_protocol. destruct (server_protocol_func env protos) as [given name].
  apply ok_bind; [apply _| |intros _; apply ok_ret, _]. destruct given.
  - apply ok_take_new_protocol.
  - apply ok_stable, ok_post_remove_client.
Qed.

Lemma oka_run_callback nid cb : oka nid (run_callback env side nid cb).
Proof.
  apply oka_try; [|apply oka_calm, ok_ret, _].
  destruct cb; simpl; try (apply oka_bind; [|intros; apply oka_calm, ok_ret, _]).
  - apply oka_tls_record_received.
  - apply oka_calm, ok_tls_alert.
  - apply oka_calm, ok_tls_emit_data.
  - apply oka_calm, ok_tls_verify.
  - apply oka_calm, ok_ret, _.
  - apply oka_ok, ok_choose.
Qed.

Lemma oka_run_activity nid a : oka nid (run_activity env side nid a).
Proof.
  induction a as [c|c|c cb k IH]; simpl.
  - apply oka_calm, ok_store_channel.
  - apply oka_bind; [apply oka_calm, ok_store_channel|]. intros _. apply oka_calm, ok_throw, _.
  - apply oka_bind; [apply oka_calm, ok_store_channel|]. intros _. apply oka_bind; [apply oka_run_callback|exact IH].
Qed.

(** [set_protocol(create_protocol())] on a node without protocol. *)
Lemma take_created_protocol s nid n :
  dinv s -> nodes s !! nid = Some n -> node_protocol_ n = None ->
  let m := let* p := create_protocol env side nid in set_protocol env nid p in
  dinv (m s).2 /\ stable s (m s).2.
Proof.
  intros Hs Hn Hp. unfold create_protocol.
  assert (dinv (set_protocol env nid None s).2 /\ stable s (set_protocol env nid None s).2) as Hnone.
  { rewrite (set_protocol_none _ _ _ n) by done. split; [done|apply stable_refl]. }
  destruct side as [|k]; [exact Hnone|].
  unfold application_protocol, client_create_protocol. cbv zeta.
  rewrite !bind_assoc, bind_deref, Hn, bind_ret_l.
  destruct (client_protocol_func env) as [f|]; [|exact Hnone].
  destruct (f _); [|exact Hnone]. rewrite bind_assoc. exact (ok_take_new_protocol env nid s Hs).
Qed.

Lemma oka_now_active nid : oka nid (now_active env side nid).
Proof.
  intros s Hs Ha. unfold now_active. rewrite bind_deref. destruct (nodes s !! nid) as [n|] eqn:Hn; [|by destruct Ha].
  assert (ok calm (let* n := deref nid in
    match node_protocol_ n with Some pid => user_call env (De_ready_write pid) | None => ret tt end : DTM D B C unit)) as Hend.
  { apply ok_bind; [apply _|apply ok_deref, _|]. intros m. destruct (node_protocol_ m); [apply ok_user_call|apply ok_ret, _]. }
  destruct (node_protocol_ n) as [pid|] eqn:Hp.
  - rewrite bind_ret_l. exact (ok_stable _ Hend s Hs).
  - apply bind_stable; [exact (take_created_protocol s nid n Hs Hn Hp)|]. intros _. exact (ok_stable _ Hend).
Qed.

Lemma oka_process_received_data nid data : oka nid (process_received_data env side nid data).
Proof.
  apply oka_try; [|apply oka_calm, ok_ret, _]. apply oka_bind; [apply oka_calm, ok_deref, _|]. intros n.
  destruct (dtls_ n) as [c|]; [|apply oka_calm, ok_ret, _].
  apply oka_bind; [apply oka_run_activity|]. intros _. destruct (ch_is_active c); [apply oka_calm, ok_ret, _|].
  apply oka_bind; [apply oka_calm, ok_deref, _|]. intros m. destruct (dtls_ m) as [c1|]; [|apply oka_calm, ok_ret, _].
  destruct (ch_timeout_check c1) as [[b out] c2].
  apply oka_bind; [apply oka_calm, ok_emit_all|]. intros _. apply oka_bind; [apply oka_calm, ok_store_channel|]. intros _.
  destruct (ch_is_active c2); [apply oka_now_active|apply oka_calm, ok_ret, _].
Qed.

Lemma ok_channel_send nid c data : ok calm (channel_send nid c data : DTM D B C unit).
Proof.
  apply ok_bind; [apply _|apply ok_log|]. intros _. destruct (ch_send data c) as [out c'].
  apply ok_bind; [apply _|apply ok_emit_all|]. intros _. destruct c'; [apply ok_store_channel|apply ok_throw, _].
Qed.

Lemma ok_write_impl_data nid data : ok calm (write_impl_data nid data : DTM D B C unit).
Proof.
  apply ok_bind; [apply _|apply ok_deref, _|]. intros n. destruct (dtls_ n); [|apply ok_ret, _].
  destruct (ch_is_active _); [apply ok_channel_send|apply ok_ret, _].
Qed.

Lemma ok_destroy_message m : ok calm (destroy_message m : DTM D B C unit).
Proof. unfold destroy_message. destruct (Message_Item.dtor m) as [[]|]; [apply ok_log|apply ok_ret, _]. Qed.

Lemma ok_write_impl_message nid m : ok calm (write_impl_message env nid m : DTM D B C unit).
Proof.
  apply ok_bind; [apply _|apply ok_deref, _|]. intros n.
  destruct (dtls_ n), (node_protocol_ n); try apply ok_destroy_message.
  destruct (ch_is_active _); [|apply ok_destroy_message].
  apply ok_bind; [apply _|apply ok_run_protocol|]. intros d. apply ok_channel_send.
Qed.

End activity.
