(* ===== verification/DtlsServerProofs.v ===== *)
(** * The server's clients

    Every step of the server keeps the links between endpoints, nodes and
    protocols ([dinv]); what removing clients does, exactly; and how a
    connection ends. *)

From S2P Require Import Prelude StdMap QtInterface MessageItem FragmentedMessage ProtocolState ProtocolSend ProtocolRecv ProtocolStream ProtocolTimer DtlsNode DtlsServer DtlsInvariant.
Open Scope Z_scope.
Open Scope helpz_scope.

Section keeping.
Context {D B C : Type} `{QIODevice D} `{QIODevice B, !QBuffer B} `{QDataStream} `{QtBytes} `{TlsChannel C}.
Context (env : Env D).
Implicit Types (s : Dtls D B C) (nid pid : nat).

(** The local variables are as before. *)
Definition same_locals s s' : Prop := local_nodes s' = local_nodes s /\ local_protocols s' = local_protocols s.

#[global] Instance same_locals_preorder : Preorder_on same_locals.
Proof. constructor; unfold same_locals; intros; intuition congruence. Qed.

Lemma ok_locals {A} (m : DTM D B C A) : ok stable m -> ok same_locals m.
Proof. intros Hm s Hs. destruct (Hm s Hs) as [? [_ _ ? ?]]. done. Qed.

Lemma ok_locals' {A} (m : DTM D B C A) : ok calm m -> ok same_locals m.
Proof. intros Hm. by apply ok_locals, ok_stable. Qed.

(** A node nothing names can be deleted. *)
Lemma delete_node s nid :
  dinv s -> (forall ep, StdMap.find ep (clients_ s) <> Some nid) -> nid ∉ map fst (records_queue_ s) ->
  nid ∉ local_nodes s -> (forall pid po, protocols s !! pid = Some po -> proto_writer po <> Some nid) ->
  dinv (with_nodes (delete nid (nodes s)) s).
Proof.
  intros [I1 I2 I3 I4 I5 I6 I7 I8] Hc Hr Hl Hw.
  assert (forall i, i <> nid -> is_Some (nodes s !! i) -> is_Some (delete nid (nodes s) !! i)) as Hd.
  { intros i Hi. by rewrite lookup_delete_ne. }
  destruct s as [N P I CL R T O LN LP K E]; simpl in *. constructor; simpl; auto.
  - intros ep i Hi. rewrite lookup_delete_ne; [auto|]. intros <-. by apply (Hc ep).
  - intros i n q Hn Hq. apply lookup_delete_Some in Hn as [_ Hn]. eauto.
  - intros q po i Hq Hi. apply Hd; [|eauto]. intros ->. by apply (Hw q po).
  - intros i Hi. apply Hd; [|auto]. intros ->. done.
  - intros i Hi. apply Hd; [|auto]. intros ->. done.
  - intros i Hi. destruct (I8 i Hi) as [HN HP]. split; [|done]. rewrite lookup_delete_None. by right.
Qed.

Lemma find_value (m : StdMap.t nat) ep nid : StdMap.find ep m = Some nid -> nid ∈ StdMap.values m.
Proof.
  intros Hf%StdMap.find_In. apply list_elem_of_In. unfold StdMap.values. apply in_map_iff. by exists (ep, nid).
Qed.

(** Releasing a node; it keeps everything but possibly that node. *)
Lemma ok_drop_node side nid : ok same_locals (drop_node env side nid).
Proof.
  intros s Hs. unfold drop_node. destruct (node_held side s nid) eqn:Hh; [by split; [|apply po_refl]|].
  destruct (nodes s !! nid) as [n|] eqn:Hn; [|by split; [|apply po_refl]].
  unfold node_held in Hh. rewrite !orb_false_iff in Hh. destruct Hh as [[[[Hc Hr] Hl] Hp] _].
  apply bool_decide_eq_false in Hc, Hr, Hl. pose proof (existsb_lookup _ _ Hp) as Hw. clear Hp.
  destruct (ok_close env nid s Hs) as [J1 [[S1 S2 S3 S4] R1 W1]]. unfold try_catch, bind.
  destruct (close env nid s) as [[u| | |] s1]; simpl in *; try done.
  assert (core (with_dtls_events (dtls_events s1 ++ [De_node_destroyed nid]) s1) = core s1) as Hcore by (by destruct s1).
  pose proof (core_dinv _ _ Hcore J1) as J2. split; [|destruct s1; done].
  apply delete_node; [done|..]; destruct s1; simpl in *; subst; try done.
  - intros ep Hf. by apply Hc, (find_value _ ep).
  - intros pid po Hpo Hwr. destruct (W1 _ _ _ Hpo Hwr) as (po' & Hpo' & Hwr').
    specialize (Hw _ _ Hpo'). unfold names_node in Hw. by apply bool_decide_eq_false in Hw.
Qed.

(** [m], run in [s], ends in undefined behaviour or keeps the invariant and
    the local variables. *)
Definition keeps_at {A} (m : DTM D B C A) s : Prop :=
  match m s with
  | (Ret _, s') | (Throw, s') => dinv s' /\ same_locals s s'
  | _ => True
  end.

Definition dkeeps {A} (m : DTM D B C A) : Prop := forall s, dinv s -> keeps_at m s.

Lemma keeps_of {A} (m : DTM D B C A) s : dinv (m s).2 /\ same_locals s (m s).2 -> keeps_at m s.
Proof. unfold keeps_at. by destruct (m s) as [[] ?]. Qed.

Lemma dkeeps_ok {A} (m : DTM D B C A) : ok same_locals m -> dkeeps m.
Proof. intros Hm s Hs. by apply keeps_of, Hm. Qed.

Lemma dkeeps_calm {A} (m : DTM D B C A) : ok calm m -> dkeeps m.
Proof. intros Hm. by apply dkeeps_ok, ok_locals'. Qed.

Lemma keeps_stable {A} (m : DTM D B C A) s : dinv (m s).2 /\ stable s (m s).2 -> keeps_at m s.
Proof. intros [J [_ _ L1 L2]]. apply keeps_of. done. Qed.

Lemma keeps_at_bind {A A'} (m : DTM D B C A) (k : A -> DTM D B C A') s :
  keeps_at m s -> (forall a s', m s = (Ret a, s') -> dinv s' -> keeps_at (k a) s') -> keeps_at (bind m k) s.
Proof.
  unfold keeps_at, bind. intros Hm Hk. destruct (m s) as [[a| | |] s1]; try done.
  destruct Hm as [J1 L1]. specialize (Hk a s1 eq_refl J1).
  destruct (k a s1) as [[?| | |] s2]; try done; destruct Hk as [J2 L2]; split; try done; by apply (po_trans s s1).
Qed.

Lemma dkeeps_bind {A A'} (m : DTM D B C A) (k : A -> DTM D B C A') :
  dkeeps m -> (forall a, dkeeps (k a)) -> dkeeps (bind m k).
Proof. intros Hm Hk s Hs. apply keeps_at_bind; [by apply Hm|]. intros a s' _ Hs'. by apply Hk. Qed.

(** The scope of a local [shared_ptr] to a node or a protocol. *)
Lemma keeps_hold_node {A} side nid (m : DTM D B C A) s :
  dinv s -> is_Some (nodes s !! nid) ->
  (forall s', dinv s' -> is_Some (nodes s' !! nid) -> keeps_at m s') -> keeps_at (hold_node env side nid m) s.
Proof.
  intros Hs Ha Hm. unfold keeps_at, hold_node, scoped, bind, modify.
  set (s1 := with_local_nodes (nid :: local_nodes s) s).
  assert (dinv s1) as J1.
  { destruct Hs as [I1 I2 I3 I4 I5 I6 I7 I8]. destruct s; constructor; simpl in *; auto.
    intros i [->|Hi]%elem_of_cons; auto. }
  assert (is_Some (nodes s1 !! nid)) as Ha1 by (by destruct s).
  specialize (Hm s1 J1 Ha1). unfold keeps_at in Hm. destruct (m s1) as [[a| | |] s2]; try done;
    destruct Hm as [J2 [L1 L2]];
    (assert (dinv (with_local_nodes (tail (local_nodes s2)) s2)) as J3;
      [destruct J2 as [I1 I2 I3 I4 I5 I6 I7 I8]; destruct s2, s; simpl in *; subst; constructor; simpl in *; auto;
       intros i Hi; apply I6, elem_of_cons; auto|]);
    destruct (ok_drop_node side nid _ J3) as [J4 [L3 L4]];
    (assert (same_locals s (with_local_nodes (tail (local_nodes s2)) s2)) as L5;
      [destruct s2, s; simpl in *; subst; done|]);
    destruct (drop_node env side nid _) as [[?| | |] s4]; try done; split; try done; by eapply po_trans.
Qed.

Lemma keeps_hold_protocol {A} pid (m : DTM D B C A) s :
  dinv s -> is_Some (protocols s !! pid) -> dkeeps m -> keeps_at (hold_protocol env pid m) s.
Proof.
  intros Hs Ha Hm. unfold keeps_at, hold_protocol, scoped, bind, modify.
  set (s1 := with_local_protocols (pid :: local_protocols s) s).
  assert (dinv s1) as J1.
  { destruct Hs as [I1 I2 I3 I4 I5 I6 I7 I8]. destruct s; constructor; simpl in *; auto.
    intros i [->|Hi]%elem_of_cons; auto. }
  specialize (Hm s1 J1). unfold keeps_at in Hm. destruct (m s1) as [[a| | |] s2]; try done;
    destruct Hm as [J2 [L1 L2]];
    (assert (dinv (with_local_protocols (tail (local_protocols s2)) s2)) as J3;
      [destruct J2 as [I1 I2 I3 I4 I5 I6 I7 I8]; destruct s2, s; simpl in *; subst; constructor; simpl in *; auto;
       intros i Hi; apply I7, elem_of_cons; auto|]);
    destruct (ok_locals' _ (ok_drop_protocol env pid) _ J3) as [J4 [L3 L4]];
    (assert (same_locals s (with_local_protocols (tail (local_protocols s2)) s2)) as L5;
      [destruct s2, s; simpl in *; subst; done|]);
    destruct (drop_protocol env pid _) as [[?| | |] s4]; try done; split; try done; by eapply po_trans.
Qed.

End keeping.

Section clients.
Context {D B C : Type} `{QIODevice D} `{QIODevice B, !QBuffer B} `{QDataStream} `{QtBytes} `{TlsChannel C}.
Context (env : Env D).
Implicit Types (s : Dtls D B C) (nid pid : nat).

(** The node a datagram from a new endpoint makes. *)
Definition fresh_node (ep : endpoint) : Node C := mkNode (Some new_Server) None ep (ep_text env ep) 0 false.

Definition with_new_client (ep : endpoint) s : Dtls D B C :=
  with_clients (StdMap.emplace ep (next_id s) (clients_ s)).1
    (with_next_id (S (next_id s)) (with_nodes (<[next_id s := fresh_node ep]> (nodes s)) s)).

Lemma new_server_node_ok s ep :
  new_server_node env ep s
  = (Ret (next_id s), with_next_id (S (next_id s)) (with_nodes (<[next_id s := fresh_node ep]> (nodes s)) s)).
Proof.
  unfold new_server_node, new_node, set_receiver_endpoint, set_node, deref, bind, modify, ret. destruct s; simpl.
  rewrite alter_insert_eq, lookup_insert_eq. simpl. rewrite !alter_insert_eq. simpl. unfold fresh_node.
  by destruct (ep_text env ep).
Qed.

Lemma new_client_dinv s ep : dinv s -> StdMap.find ep (clients_ s) = None -> dinv (with_new_client ep s).
Proof.
  intros [I1 I2 I3 I4 I5 I6 I7 I8] Hf. destruct (I8 (next_id s) ltac:(lia)) as [HN HP].
  assert (forall i, is_Some (nodes s !! i) -> is_Some (<[next_id s := fresh_node ep]> (nodes s) !! i)) as Hd.
  { intros i Hi. destruct (decide (next_id s = i)) as [<-|Hne]; [rewrite lookup_insert_eq; eauto|].
    by rewrite lookup_insert_ne. }
  pose proof (StdMap.emplace_sorted ep (next_id s) _ I1) as Hsort.
  pose proof (fun x => StdMap.emplace_find ep (next_id s) (clients_ s) x I1) as Hfind. rewrite Hf in Hfind. simpl in Hfind.
  destruct s as [N P I CL R T O LN LP K E]; unfold with_new_client; simpl in *. constructor; simpl; auto.
  - intros e i Hi. rewrite Hfind in Hi. destruct (Z.eqb_spec e ep) as [->|Hne].
    + simplify_eq. rewrite lookup_insert_eq. eauto.
    + destruct (I2 _ _ Hi) as (n & Hn & He). exists n. split; [|done]. rewrite lookup_insert_ne; [done|]. congruence.
  - intros i n q Hn Hq. apply lookup_insert_Some in Hn as [[_ <-]|[_ Hn]]; [done|eauto].
  - eauto.
  - intros i Hi. destruct (I8 i ltac:(lia)) as [HN' HP']. split; [|done]. rewrite lookup_insert_ne by lia. done.
Qed.

(** [get_node] finds the endpoint's client, or makes one. *)
Lemma get_node_ok s ep :
  dinv s ->
  get_node env ep s =
    match StdMap.find ep (clients_ s) with
    | Some nid => (Ret (Some nid), s)
    | None => (Ret (Some (next_id s)), with_new_client ep s)
    end.
Proof.
  intros Hs. unfold get_node, create_client, find_client, gets. unfold bind at 1. destruct (StdMap.find ep (clients_ s)) as [nid|] eqn:Hf; [done|].
  unfold bind at 1. rewrite Hf. unfold bind at 1. rewrite new_server_node_ok. unfold bind, modify, with_new_client.
  pose proof (StdMap.emplace_fresh_flag ep (next_id s) (clients_ s) Hf) as Hfl. destruct s; simpl in *.
  destruct (StdMap.emplace ep _ _) as [cs fl]; simpl in *. by subst.
Qed.

Lemma get_node_keeps s ep :
  dinv s -> exists nid s', get_node env ep s = (Ret (Some nid), s') /\ dinv s' /\ same_locals s s'
    /\ is_Some (nodes s' !! nid) /\ StdMap.find ep (clients_ s') = Some nid.
Proof.
  intros Hs. rewrite get_node_ok by done. destruct (StdMap.find ep (clients_ s)) as [nid|] eqn:Hf.
  - exists nid, s. split_and!; try done. destruct (di_clients _ Hs _ _ Hf) as (n & Hn & _). eauto.
  - exists (next_id s), (with_new_client ep s). pose proof (new_client_dinv s ep Hs Hf) as J.
    pose proof (StdMap.emplace_find ep (next_id s) (clients_ s) ep (di_sorted _ Hs)) as He.
    rewrite Z.eqb_refl, Hf in He. destruct s; simpl in *. split_and!; try done.
    rewrite lookup_insert_eq. eauto.
Qed.

(** The map's reference to a node goes away. *)
Lemma ok_erase_client ep : ok same_locals (erase_client ep : DTM D B C unit).
Proof.
  intros s [I1 I2 I3 I4 I5 I6 I7 I8]. pose proof (StdMap.erase_sorted ep _ I1) as Hsort.
  pose proof (fun x => StdMap.erase_find ep (clients_ s) x I1) as Hfind. destruct s; simpl in *. split; [|done].
  constructor; simpl; auto. intros e i Hi. rewrite Hfind in Hi. destruct (e =? ep); [done|auto].
Qed.

Lemma ok_remove_client ep : ok same_locals (remove_client env ep : DTM D B C unit).
Proof.
  apply ok_bind; [apply _|apply ok_gets, _|]. intros [nid|]; [|apply ok_ret, _].
  apply ok_bind; [apply _|apply ok_erase_client|]. intros _. apply ok_drop_node.
Qed.

(** An entry of the map is closed and erased. *)
Lemma ok_close_erase ep nid :
  ok same_locals (close env nid ;;; erase_client ep ;;; drop_node env Server_Side nid : DTM D B C unit).
Proof.
  apply ok_bind; [apply _|apply ok_locals', ok_close|]. intros _.
  apply ok_bind; [apply _|apply ok_erase_client|]. intros _. apply ok_drop_node.
Qed.

Lemma ok_check_copy_in client cs : ok calm (check_copy_in env client cs : DTM D B C bool).
Proof.
  induction cs as [|[ep nid] cs IH]; simpl; [apply ok_ret, _|].
  apply ok_bind; [apply _|apply ok_deref, _|]. intros n. destruct (is_copy _ _ _); [apply ok_ret, _|done].
Qed.

Lemma dkeeps_remove_copy client : dkeeps (remove_copy env client : DTM D B C unit).
Proof.
  apply dkeeps_bind.
  { apply dkeeps_calm, ok_bind; [apply _|apply ok_gets, _|]. intros cs. apply ok_check_copy_in. }
  intros []; [|apply dkeeps_calm, ok_ret, _]. apply dkeeps_bind; [apply dkeeps_calm, ok_gets, _|]. intros cs.
  induction cs as [|[ep nid] cs IH]; simpl; [apply dkeeps_calm, ok_ret, _|].
  apply dkeeps_bind; [|done]. intros s Hs. unfold remove_copy_of, keeps_at. rewrite bind_deref.
  destruct (nodes s !! nid) as [n|] eqn:Hn; [|done]. destruct (node_protocol_ n) as [pid|] eqn:Hp; [|by split; [|apply po_refl]].
  destruct (is_copy _ _ _); [|by split; [|apply po_refl]].
  destruct (di_protocol _ Hs _ _ _ Hn Hp) as (po & Hpo & _). apply (keeps_hold_protocol env pid); [done|eauto|].
  apply dkeeps_ok. apply ok_bind; [apply _|apply ok_locals', ok_user_call|]. intros _. apply ok_close_erase.
Qed.

Lemma ok_check_frozen_in t now cs : ok calm (check_frozen_in t now cs : DTM D B C bool).
Proof.
  induction cs as [|[ep nid] cs IH]; simpl; [apply ok_ret, _|].
  apply ok_bind; [apply _|apply ok_deref, _|]. intros n. destruct (is_frozen _ _ _); [apply ok_ret, _|done].
Qed.

Lemma ok_remove_frozen_clients t : ok same_locals (remove_frozen_clients env t : DTM D B C unit).
Proof.
  apply ok_bind; [apply _| |].
  { apply ok_locals', ok_bind; [apply _|apply ok_gets, _|]. intros cs.
    apply ok_bind; [apply _|apply ok_dtls_now|]. intros now. apply ok_check_frozen_in. }
  intros []; [|apply ok_ret, _]. apply ok_bind; [apply _|apply ok_locals', ok_dtls_now|]. intros now.
  apply ok_bind; [apply _|apply ok_gets, _|]. intros cs.
  induction cs as [|[ep nid] cs IH]; simpl; [apply ok_ret, _|].
  apply ok_bind; [apply _| |done]. apply ok_bind; [apply _|apply ok_deref, _|]. intros n.
  destruct (is_frozen _ _ _); [apply ok_close_erase|apply ok_ret, _].
Qed.

End clients.

Section system.
Context {D B C : Type} `{QIODevice D} `{QIODevice B, !QBuffer B} `{QDataStream} `{QtBytes} `{TlsChannel C}.
Context (env : Env D).
Implicit Types (s : Dtls D B C) (nid pid : nat).

Definition defined {A} (o : outcome A) : Prop := match o with Ret _ | Throw => True | _ => False end.

(** The store, and the jobs of the record threads and of the timer thread. *)
Abbreviation System := (Dtls D B C * list (Job D B))%type.

(** A step of the server: a datagram or a receive error, the next posted
    handler, the cleaning timer, [remove_copy], a call of a protocol's code by
    its user, the end; a record thread or the timer thread takes a record or a
    timeout, or goes one step on with what it took. A step that ends in
    undefined behaviour has no successor. *)
Inductive server_step : System -> System -> Prop :=
| step_datagram s js ep data err o s' :
    handle_receive env ep data err s = (o, s') -> defined o -> server_step (s, js) (s', js)
| step_task s js o s' : run_next_task env s = (o, s') -> defined o -> server_step (s, js) (s', js)
| step_cleaning s js sv err o s' : cleaning env sv err s = (o, s') -> defined o -> server_step (s, js) (s', js)
| step_remove_copy s js client o s' : remove_copy env client s = (o, s') -> defined o -> server_step (s, js) (s', js)
| step_user s js pid (m : PM D B unit) o s' : run_protocol env pid m s = (o, s') -> defined o -> server_step (s, js) (s', js)
| step_end s js o s' : close_all_clients env s = (o, s') -> defined o -> server_step (s, js) (s', js)
| step_take_record s js j s' : take_record s = (Ret (Some j), s') -> server_step (s, js) (s', j :: js)
| step_take_timeout s js ep data j s' :
    take_timeout ep data s = (Ret (Some j), s') -> server_step (s, js) (s', j :: js)
| step_job s js1 j js2 j' s' :
    advance_job env j s = (Ret j', s') -> server_step (s, js1 ++ j :: js2) (s', js1 ++ option_list j' ++ js2).

Lemma keeps_defined {A} (m : DTM D B C A) s o s' :
  keeps_at m s -> m s = (o, s') -> defined o -> dinv s' /\ same_locals s s'.
Proof. unfold keeps_at. intros Hm E Ho. rewrite E in Hm. by destruct o. Qed.

(** Work on a live node in the scope of a local pointer to it. *)
Lemma keeps_with_node {A} (m : nat -> DTM D B C A) s ep :
  (forall nid s', dinv s' -> is_Some (nodes s' !! nid) -> keeps_at (m nid) s') -> dinv s ->
  keeps_at (let* node := get_node env ep in
            match node with Some nid => hold_node env Server_Side nid (m nid) | None => throw end) s.
Proof.
  intros Hm Hs. destruct (get_node_keeps env s ep Hs) as (nid & s1 & E & J & L & Ha & _).
  apply keeps_at_bind; [unfold keeps_at; by rewrite E|]. intros a s' E' Hs'. rewrite E in E'. simplify_eq.
  apply keeps_hold_node; eauto.
Qed.

Lemma get_node_some {A} s ep (k1 : nat -> DTM D B C A) (k2 k3 : DTM D B C A) :
  dinv s ->
  (let* node := get_node env ep in match node with Some nid => k1 nid | None => k2 end) s
  = (let* node := get_node env ep in match node with Some nid => k1 nid | None => k3 end) s.
Proof.
  intros Hs. destruct (get_node_keeps env s ep Hs) as (nid & s1 & E & _). unfold bind. by rewrite E.
Qed.

Lemma keeps_ext {A} (m m' : DTM D B C A) s : m s = m' s -> keeps_at m' s -> keeps_at m s.
Proof. unfold keeps_at. intros E. by rewrite E. Qed.

Lemma dkeeps_handle_receive ep data err : dkeeps (handle_receive env ep data err : DTM D B C unit).
Proof.
  intros s Hs. unfold handle_receive. destruct err; [by apply (dkeeps_calm _ (ok_log De_error_message))|].
  eapply keeps_ext; [apply (get_node_some s ep _ start_receive throw Hs)|].
  apply keeps_with_node; [|done]. intros nid s' Hs' Ha. apply keeps_stable.
  apply (oka_bind nid); [apply oka_calm, ok_log| |done..]. intros _. apply oka_process_received_data.
Qed.

Lemma dkeeps_run_task t : dkeeps (run_task env t : DTM D B C unit).
Proof.
  intros s Hs. destruct t as [ep data|ep m|ep|data]; simpl.
  - eapply keeps_ext; [apply (get_node_some s ep _ (ret tt) throw Hs)|].
    apply keeps_with_node; [|done]. intros nid s' Hs' _. by apply dkeeps_calm; [apply ok_write_impl_data|].
  - eapply keeps_ext; [apply (get_node_some s ep _ (destroy_message m) throw Hs)|].
    apply keeps_with_node; [|done]. intros nid s' Hs' _. by apply dkeeps_calm; [apply ok_write_impl_message|].
  - by apply dkeeps_ok; [apply ok_remove_client|].
  - by apply dkeeps_calm; [apply ok_ret, _|].
Qed.

Lemma ok_modify_tasks ts : ok calm (modify (with_tasks ts) : DTM D B C unit).
Proof. apply ok_core. by intros []. Qed.

Lemma dkeeps_close_all : dkeeps (close_all_clients env : DTM D B C unit).
Proof.
  apply dkeeps_ok, ok_bind; [apply _|apply ok_gets, _|]. intros cs. apply ok_bind; [apply _| |].
  - apply ok_locals'. induction cs as [|[ep nid] cs IH]; simpl; [apply ok_ret, _|].
    apply ok_bind; [apply _|apply ok_close|done].
  - intros _. apply ok_bind; [apply _| |].
    + intros s [I1 I2 I3 I4 I5 I6 I7 I8]. destruct s; simpl in *. split; [|done]. constructor; simpl; auto.
      * apply StdMap.sorted_nil.
      * done.
    + intros _. generalize (StdMap.values cs) as ns. induction ns as [|nid ns IH]; simpl; [apply ok_ret, _|].
      apply ok_bind; [apply _|apply ok_drop_node|done].
Qed.

Lemma dkeeps_cleaning sv err : dkeeps (cleaning env sv err : DTM D B C Server).
Proof.
  apply dkeeps_ok. unfold cleaning. destruct err; [apply ok_ret, _|].
  apply ok_bind; [apply _|apply ok_remove_frozen_clients|]. intros _. apply ok_ret, _.
Qed.

(** *** Jobs *)

(** The local pointers are those of the jobs. *)
Definition job_links (js : list (Job D B)) s : Prop :=
  local_nodes s ≡ₚ map job_node js /\ local_protocols s ≡ₚ omap job_protocol js.

Definition sys_inv (x : System) : Prop := dinv x.1 /\ job_links x.2 x.1.

Lemma links_same s s' js : same_locals s s' -> job_links js s -> job_links js s'.
Proof. intros [L1 L2] [J1 J2]. unfold job_links. by rewrite L1, L2. Qed.

Lemma dinv_local_nodes s l : dinv s -> (forall i, i ∈ l -> is_Some (nodes s !! i)) -> dinv (with_local_nodes l s).
Proof. intros [I1 I2 I3 I4 I5 I6 I7 I8] Hl. destruct s. by constructor. Qed.

Lemma dinv_local_protocols s l :
  dinv s -> (forall i, i ∈ l -> is_Some (protocols s !! i)) -> dinv (with_local_protocols l s).
Proof. intros [I1 I2 I3 I4 I5 I6 I7 I8] Hl. destruct s. by constructor. Qed.

Lemma remove_first_sub x l i : i ∈ remove_first x l -> i ∈ l.
Proof.
  induction l as [|y l IH]; simpl; [done|]. case_bool_decide; rewrite !elem_of_cons; [auto|]. intros [->|Hi]; auto.
Qed.

Lemma remove_first_perm x l l' : l ≡ₚ x :: l' -> remove_first x l ≡ₚ l'.
Proof.
  intros Hp. assert (x ∈ l) as Hx by (rewrite Hp; apply elem_of_cons; auto).
  apply (Permutation_cons_inv (a := x)). rewrite <- Hp. clear Hp.
  induction l as [|y l IH]; simpl; [by apply elem_of_nil in Hx|]. case_bool_decide; [by subst|].
  apply elem_of_cons in Hx as [->|Hx]; [done|]. rewrite perm_swap. by rewrite IH.
Qed.

(** Taking a node: a live one, with a local pointer to it. *)
Lemma take_node_inv s js nid work j s' :
  dinv s -> job_links js s -> is_Some (nodes s !! nid) ->
  take_node nid work s = (Ret (Some j), s') -> sys_inv (s', j :: js).
Proof.
  intros Hs [J1 J2] Ha E. unfold take_node, bind, modify, ret in E. simplify_eq.
  split; [|destruct s; split; simpl in *; [by rewrite J1|done]]. cbn [fst].
  apply dinv_local_nodes; [done|]. intros i [->|Hi]%elem_of_cons; [done|]. by apply (di_local_nodes _ Hs).
Qed.

Lemma take_record_inv s js j s' :
  sys_inv (s, js) -> take_record s = (Ret (Some j), s') -> sys_inv (s', j :: js).
Proof.
  intros [Hs HJ] E. cbn [fst snd] in *. unfold take_record, gets in E. unfold bind at 1 in E.
  destruct (records_queue_ s) as [|[nid buffer] q] eqn:Hq; [done|]. unfold bind at 1, modify in E.
  eapply (take_node_inv (with_records q s)); [| |  |exact E].
  - destruct Hs as [I1 I2 I3 I4 I5 I6 I7 I8]. destruct s; simpl in *; subst. constructor; simpl; auto.
    intros i Hi. apply I5. simpl. apply elem_of_cons. auto.
  - by destruct s.
  - destruct (di_records _ Hs nid) as [n Hn]; [rewrite Hq; simpl; apply elem_of_cons; auto|]. destruct s; simpl in *; eauto.
Qed.

Lemma take_timeout_inv s js ep data j s' :
  sys_inv (s, js) -> take_timeout ep data s = (Ret (Some j), s') -> sys_inv (s', j :: js).
Proof.
  intros [Hs HJ] E. cbn [fst snd] in *. unfold take_timeout, find_client, gets in E. unfold bind at 1 in E.
  destruct (StdMap.find ep (clients_ s)) as [nid|] eqn:Hf; [|done].
  destruct (di_clients _ Hs _ _ Hf) as (n & Hn & _). eapply take_node_inv; eauto.
Qed.

Lemma drop_protocol_returns pid s : exists s', drop_protocol env pid s = (Ret tt, s').
Proof.
  unfold drop_protocol. destruct (protocol_held env s pid); [eauto|]. destruct (protocols s !! pid); [|eauto].
  unfold bind. rewrite destroy_messages_ok. unfold modify. eauto.
Qed.

(** The pointers of a job that is done go away. *)
Lemma release_protocol_inv s l p :
  dinv s -> local_protocols s ≡ₚ option_list p ++ l ->
  exists s', release_protocol env p s = (Ret tt, s') /\ dinv s' /\ local_nodes s' = local_nodes s /\ local_protocols s' ≡ₚ l.
Proof.
  intros Hs Hp. destruct p as [pid|]; [|by exists s]. unfold release_protocol, bind, modify.
  set (s1 := with_local_protocols _ s).
  assert (dinv s1) as J1.
  { apply dinv_local_protocols; [done|]. intros i Hi%remove_first_sub. by apply (di_local_protocols _ Hs). }
  destruct (ok_locals' _ (ok_drop_protocol env pid) s1 J1) as [J2 [L1 L2]].
  destruct (drop_protocol_returns pid s1) as [s2 E]. rewrite E in *. exists s2. cbn [snd] in *. split; [done|]. split; [done|].
  rewrite L1, L2. subst s1. destruct s; simpl in *. split; [done|]. by apply remove_first_perm.
Qed.

Lemma advance_job_inv s js1 j js2 j' s' :
  sys_inv (s, js1 ++ j :: js2) -> advance_job env j s = (Ret j', s') -> sys_inv (s', js1 ++ option_list j' ++ js2).
Proof.
  intros [Hs [J1 J2]] E. cbn [fst snd] in *. unfold sys_inv, job_links. cbn [fst snd].
  rewrite map_app, omap_app in *. cbn [map omap list_omap] in *. destruct j as [nid work [|p|p]];
    unfold advance_job in E; cbn [job_node job_work job_phase job_protocol] in *.
  - rewrite bind_deref in E. destruct (nodes s !! nid) as [n|] eqn:Hn; [|done].
    destruct (node_protocol_ n) as [pid|] eqn:Hp; unfold bind, modify, ret in E; simplify_eq; simpl.
    + destruct (di_protocol _ Hs _ _ _ Hn Hp) as (po & Hpo & _). split_and!.
      * apply dinv_local_protocols; [done|]. intros i [->|Hi]%elem_of_cons; [eauto|]. by apply (di_local_protocols _ Hs).
      * by destruct s.
      * destruct s; simpl in *. rewrite J2. by rewrite Permutation_middle.
    + done.
  - assert (exists s1, dinv s1 /\ same_locals s s1 /\ s' = s1 /\ j' = Some (mkJob nid work (Worked p)))
      as (s1 & K & [L1 L2] & -> & ->).
    { destruct p as [pid|].
      - destruct (ok_locals' _ (ok_run_protocol env pid work) s Hs) as [K L]. unfold bind, ret in E.
        destruct (run_protocol env pid work s) as [[?| | |] s1]; simplify_eq. by exists s'.
      - unfold bind, ret in E. simplify_eq. exists s'. split_and!; try done. }
    simpl. by rewrite L1, L2.
  - destruct (release_protocol_inv s (omap job_protocol js1 ++ omap job_protocol js2) p Hs) as (s1 & E1 & K1 & L1 & P1).
    { rewrite J2. destruct p; simpl; [|done]. by rewrite <- Permutation_middle. }
    rewrite (bind_Ret _ _ _ _ _ E1) in E. unfold bind at 1, modify in E. set (s2 := with_local_nodes _ s1) in *.
    assert (dinv s2) as K2.
    { apply dinv_local_nodes; [done|]. intros i Hi%remove_first_sub. by apply (di_local_nodes _ K1). }
    destruct (ok_drop_node env Server_Side nid s2 K2) as [K3 [L3 L4]]. unfold bind, ret in E.
    destruct (drop_node env Server_Side nid s2) as [[?| | |] s3]; simplify_eq. simpl in *.
    rewrite L3, L4. subst s2. destruct s1; simpl in *. split; [done|]. split; [|done].
    subst. apply remove_first_perm. rewrite J1. by rewrite Permutation_middle.
Qed.

Lemma server_step_keeps x y : sys_inv x -> server_step x y -> sys_inv y.
Proof.
  assert (forall A (m : DTM D B C A) s js o s', dkeeps m -> sys_inv (s, js) -> m s = (o, s') -> defined o -> sys_inv (s', js))
    as Hgen.
  { intros A m s js o s' Hm [Hs HJ] E Ho. destruct (keeps_defined m s o s' (Hm s Hs) E Ho) as [Hs' L].
    split; [done|]. by eapply links_same. }
  intros Hx. inversion 1; subst.
  - eapply Hgen; eauto. apply dkeeps_handle_receive.
  - eapply Hgen; eauto. apply dkeeps_bind; [apply dkeeps_calm, ok_gets, _|]. intros [|t ts]; [apply dkeeps_calm, ok_ret, _|].
    apply dkeeps_bind; [apply dkeeps_calm, ok_modify_tasks|]. intros _. apply dkeeps_run_task.
  - eapply Hgen; eauto. apply dkeeps_cleaning.
  - eapply Hgen; eauto. apply dkeeps_remove_copy.
  - eapply Hgen; eauto. apply dkeeps_calm, ok_run_protocol.
  - eapply Hgen; eauto. apply dkeeps_close_all.
  - by eapply take_record_inv.
  - by eapply take_timeout_inv.
  - by eapply advance_job_inv.
Qed.

Lemma server_steps_keep x y : rtc server_step x y -> sys_inv x -> sys_inv y.
Proof. induction 1; eauto using server_step_keeps. Qed.

(** [process_record] and [on_protocol_timeout] are the steps of a job that
    nothing interrupts. *)
Lemma remove_first_head x l l' : l = x :: l' -> remove_first x l = tail l.
Proof. intros ->. simpl. by case_bool_decide. Qed.

Definition job_code nid (work : PM D B unit) : DTM D B C unit :=
  let* n := deref nid in
  match node_protocol_ n with Some pid => hold_protocol env pid (run_protocol env pid work) | None => ret tt end.

(** The body of the scope, in the three steps before the last. *)
Lemma job_code_steps s nid work s2 :
  dinv s -> job_code nid work s = (Ret tt, s2) ->
  exists p sp sq, advance_job env (mkJob nid work Taken) s = (Ret (Some (mkJob nid work (Copied p))), sp)
    /\ advance_job env (mkJob nid work (Copied p)) sp = (Ret (Some (mkJob nid work (Worked p))), sq)
    /\ release_protocol env p sq = (Ret tt, s2) /\ local_nodes s2 = local_nodes s.
Proof.
  intros Hs E. unfold job_code in E. rewrite bind_deref in E. destruct (nodes s !! nid) as [n|] eqn:Hn; [|done].
  destruct (node_protocol_ n) as [pid|] eqn:Hp.
  - unfold hold_protocol, bind at 1, modify at 1, scoped in E. set (sp := with_local_protocols _ s) in *.
    assert (dinv sp) as Jp.
    { destruct (di_protocol _ Hs _ _ _ Hn Hp) as (po & Hpo & _). apply dinv_local_protocols; [done|].
      intros i [->|Hi]%elem_of_cons; [eauto|]. by apply (di_local_protocols _ Hs). }
    destruct (ok_locals' _ (ok_run_protocol env pid work) sp Jp) as [Jq [L1 L2]].
    destruct (run_protocol env pid work sp) as [[[]| | |] sq] eqn:Er; cbn [snd] in *; try done.
    2:{ unfold bind, modify in E. by destruct (drop_protocol env pid _) as [[]]. }
    assert (release_protocol env (Some pid) sq = (Ret tt, s2)) as Erel.
    { unfold release_protocol, bind, modify, ret in *.
      rewrite (remove_first_head pid _ (local_protocols s)) by (rewrite L2; subst sp; by destruct s). by destruct (drop_protocol env pid _) as [[[]| | |]]; simplify_eq. }
    exists (Some pid), sp, sq. split_and!; [| |done|].
    + unfold advance_job. cbn [job_node job_work job_phase]. by rewrite bind_deref, Hn, Hp.
    + unfold advance_job. cbn [job_node job_work job_phase]. by erewrite bind_Ret by exact Er.
    + destruct (release_protocol_inv sq (tail (local_protocols sq)) (Some pid) Jq) as (s3 & E3 & _ & L3 & _).
      { rewrite L2. subst sp. by destruct s. }
      rewrite Erel in E3. injection E3 as <-. rewrite L3, L1. subst sp. by destruct s.
  - unfold ret in E. simplify_eq. exists None, s2, s2. unfold advance_job. cbn [job_node job_work job_phase].
    by rewrite bind_deref, Hn, Hp.
Qed.

Lemma job_uninterrupted s nid work s' js :
  dinv s -> is_Some (nodes s !! nid) -> hold_node env Server_Side nid (job_code nid work) s = (Ret tt, s') ->
  rtc server_step (with_local_nodes (nid :: local_nodes s) s, mkJob nid work Taken :: js) (s', js).
Proof.
  intros Hs Ha E. unfold hold_node, bind at 1, modify at 1, scoped in E. set (s1 := with_local_nodes _ s) in *.
  assert (dinv s1) as J1.
  { apply dinv_local_nodes; [done|]. intros i [->|Hi]%elem_of_cons; [done|]. by apply (di_local_nodes _ Hs). }
  destruct (job_code nid work s1) as [[[]| | |] s2] eqn:Ec; try done.
  2:{ unfold bind, modify in E. by destruct (drop_node env Server_Side nid _) as [[]]. }
  destruct (job_code_steps s1 nid work s2 J1 Ec) as (p & sp & sq & E1 & E2 & E3 & L).
  eapply rtc_l; [exact (step_job s1 [] _ js _ sp E1)|]. eapply rtc_l; [exact (step_job sp [] _ js _ sq E2)|].
  eapply rtc_l; [|apply rtc_refl]. apply (step_job sq [] (mkJob nid work (Worked p)) js None s').
  unfold advance_job. cbn [job_node job_work job_phase]. erewrite bind_Ret by exact E3.
  unfold bind, modify, ret in *.
  rewrite (remove_first_head nid _ (local_nodes s)) by (rewrite L; subst s1; by destruct s). by destruct (drop_node env Server_Side nid _) as [[[]| | |]]; simplify_eq.
Qed.

Lemma process_record_steps s s' js :
  dinv s -> process_record env s = (Ret tt, s') -> rtc server_step (s, js) (s', js).
Proof.
  intros Hs E. unfold process_record, gets in E. unfold bind at 1 in E.
  destruct (records_queue_ s) as [|[nid buffer] q] eqn:Hq; [unfold ret in E; simplify_eq; apply rtc_refl|].
  unfold bind at 1, modify at 1 in E. set (s0 := with_records q s) in *.
  eapply rtc_l.
  - apply (step_take_record s js (mkJob nid (protocol_process_bytes buffer) Taken) (with_local_nodes (nid :: local_nodes s0) s0)).
    unfold take_record, gets. unfold bind at 1. by rewrite Hq.
  - apply job_uninterrupted; [| |exact E].
    + destruct Hs as [I1 I2 I3 I4 I5 I6 I7 I8]. subst s0. destruct s; simpl in *; subst. constructor; simpl; auto.
      intros i Hi. apply I5. simpl. apply elem_of_cons. auto.
    + destruct (di_records _ Hs nid) as [n Hn]; [rewrite Hq; simpl; apply elem_of_cons; auto|].
      subst s0. destruct s; simpl in *; eauto.
Qed.

Lemma on_protocol_timeout_steps s ep data s' js :
  dinv s -> on_protocol_timeout env ep data s = (Ret tt, s') -> rtc server_step (s, js) (s', js).
Proof.
  intros Hs E. unfold on_protocol_timeout, find_client, gets in E. unfold bind at 1 in E.
  destruct (StdMap.find ep (clients_ s)) as [nid|] eqn:Hf; [|unfold ret in E; simplify_eq; apply rtc_refl].
  destruct (di_clients _ Hs _ _ Hf) as (n & Hn & _). eapply rtc_l.
  - apply (step_take_timeout s js ep data (mkJob nid (process_wait_list data) Taken) (with_local_nodes (nid :: local_nodes s) s)).
    unfold take_timeout, find_client, gets. unfold bind at 1. by rewrite Hf.
  - apply job_uninterrupted; [done|eauto|exact E].
Qed.

Lemma server_init_dinv : dinv (server_init : Dtls D B C).
Proof.
  constructor; simpl; try done.
  - apply StdMap.sorted_nil.
  - intros nid Hn. by apply elem_of_nil in Hn.
  - intros nid Hn. by apply elem_of_nil in Hn.
  - intros pid Hn. by apply elem_of_nil in Hn.
Qed.

End system.

(** ** What closing and removing does, when no user code throws *)

Section removal.
Context {D B C : Type} `{QIODevice D} `{QIODevice B, !QBuffer B} `{QDataStream} `{QtBytes} `{TlsChannel C}.
Context (env : Env D) (quiet : forall e, de_user_throws env e = false).
Implicit Types (s : Dtls D B C) (nid pid : nat) (n : Node C).

(** [s'] is [s] with the nodes [ns] and more events. *)
Record changed (ns : gmap nat (Node C)) (es : list (Dtls_Event D)) s s' : Prop := {
  ch_nodes : nodes s' = ns;
  ch_clients : clients_ s' = clients_ s;
  ch_records : records_queue_ s' = records_queue_ s;
  ch_tasks : io_tasks s' = io_tasks s;
  ch_events : dtls_events s' = dtls_events s ++ es;
}.

Lemma user_call_quiet e s : user_call env e s = (Ret tt, with_dtls_events (dtls_events s ++ [e]) s).
Proof. unfold user_call, bind. simpl. by rewrite quiet. Qed.

Lemma emit_all_ok nid n out s :
  nodes s !! nid = Some n ->
  emit_all nid out s = (Ret tt, with_dtls_events (dtls_events s ++ map (De_datagram (receiver_endpoint_ n)) out) s).
Proof.
  revert s. induction out as [|d out IH]; intros s Hn; simpl; [destruct s; simpl; by rewrite app_nil_r|].
  unfold bind at 1. unfold tls_emit_data. rewrite bind_deref, Hn. simpl.
  rewrite IH by (by destruct s). destruct s; simpl. by rewrite <- app_assoc.
Qed.

Lemma drop_protocol_ok pid s :
  exists es, (drop_protocol env pid s).1 = Ret tt /\ changed (nodes s) es s (drop_protocol env pid s).2
    /\ Forall (fun e => match e with De_finally _ _ => True | _ => False end) es.
Proof.
  unfold drop_protocol. destruct (protocol_held env s pid);
    [exists []; split_and!; [done|constructor; rewrite ?app_nil_r; done|constructor]|].
  destruct (protocols s !! pid) as [po|];
    [|exists []; split_and!; [done|constructor; rewrite ?app_nil_r; done|constructor]].
  unfold bind. rewrite destroy_messages_ok. simpl.
  exists (finally_events (StdMap.values (waiting_messages_ (proto_state po)))).
  split_and!; [done|by destruct s|]. unfold finally_events. apply Forall_forall. intros e He.
  apply list_elem_of_In, in_flat_map in He as (m & _ & He). destruct (Message_Item.dtor m) as [[f b]|]; [|done].
  by destruct He as [<-|[]].
Qed.

(** Events of a closing node after the call of [closed]. *)
Definition closing_event (e : Dtls_Event D) : Prop :=
  match e with De_finally _ _ | De_datagram _ _ => True | _ => False end.

Lemma close_ok s nid n :
  nodes s !! nid = Some n ->
  exists es s', close env nid s = (Ret tt, s')
    /\ changed (<[nid := with_dtls None (with_protocol None n)]> (nodes s))
         (match node_protocol_ n with Some pid => De_closed pid :: es | None => es end) s s'
    /\ Forall closing_event es.
Proof.
  intros Hn.
  assert (exists es s1, close_protocol env nid s = (Ret tt, s1)
    /\ changed (<[nid := with_protocol None n]> (nodes s))
         (match node_protocol_ n with Some pid => De_closed pid :: es | None => es end) s s1
    /\ Forall closing_event es) as (es1 & s1 & E1 & [N1 C1 R1 T1 V1] & F1).
  { unfold close_protocol. rewrite bind_deref, Hn. destruct (node_protocol_ n) as [pid|] eqn:Hp.
    - erewrite bind_Ret by apply user_call_quiet.
      unfold bind, proto_set_writer, set_node, modify.
      set (s1 := with_nodes _ _). destruct (drop_protocol_ok pid s1) as (es & E & [N1 C1 R1 T1 V1] & F).
      destruct (drop_protocol env pid s1) as [o s2]. simpl in *. subst o.
      exists es, s2. split_and!; [done| |by eapply Forall_impl; [exact F|intros []; simpl]].
      subst s1. destruct s; simpl in *. constructor; simpl; try done.
      + rewrite N1. apply map_eq. intros i. destruct (decide (nid = i)) as [<-|Hne].
        * by rewrite lookup_alter_eq, lookup_insert_eq, Hn.
        * by rewrite lookup_alter_ne, lookup_insert_ne.
      + by rewrite V1, <- app_assoc.
    - exists [], s. split_and!; [done| |constructor]. constructor; rewrite ?app_nil_r; try done.
      rewrite insert_id; [done|]. by destruct n as [? [] ? ? ? ?]. }
  unfold close. erewrite bind_Ret by exact E1. unfold close_channel. rewrite bind_deref.
  assert (nodes s1 !! nid = Some (with_protocol None n)) as Hn1 by (by rewrite N1, lookup_insert_eq).
  rewrite Hn1. replace (dtls_ (with_protocol None n)) with (dtls_ n) by (by destruct n).
  destruct (dtls_ n) as [c|] eqn:Hd.
  - erewrite bind_Ret by (apply (emit_all_ok nid _ _ _ Hn1)). unfold set_node, modify.
    exists (es1 ++ map (De_datagram (receiver_endpoint_ (with_protocol None n))) (ch_close c)). eexists.
    split_and!; [reflexivity| |].
    + destruct s1; simpl in *. subst. constructor; simpl; try done.
      * by rewrite alter_insert_eq.
      * rewrite <- app_assoc. f_equal. by destruct (node_protocol_ n).
    + apply Forall_app. split; [done|]. apply Forall_map, Forall_forall. done.
  - exists es1, s1. split_and!; [done| |done]. constructor; try done. rewrite N1. f_equal.
    destruct n; simpl in *; by subst.
Qed.

(** Releasing a closed node destroys it or leaves it closed. *)
Lemma drop_closed_node side s nid n :
  nodes s !! nid = Some n -> dtls_ n = None -> node_protocol_ n = None ->
  exists es s', drop_node env side nid s = (Ret tt, s')
    /\ changed (if node_held side s nid then nodes s else delete nid (nodes s)) es s s'
    /\ Forall (fun e => e = De_node_destroyed nid) es.
Proof.
  intros Hn Hd Hp. unfold drop_node. destruct (node_held side s nid).
  - exists [], s. split_and!; [done|constructor; rewrite ?app_nil_r; done|constructor].
  - rewrite Hn. exists [De_node_destroyed nid]. unfold try_catch, close, close_protocol, close_channel.
    eexists. split_and!; [|..|by constructor].
    + unfold bind, deref. rewrite Hn, Hp. simpl. rewrite ?Hn, Hd. reflexivity.
    + by destruct s.
Qed.

(** A client's entry is closed and erased. *)
Definition gone nid n (es : list (Dtls_Event D)) s' : Prop :=
  (forall n', nodes s' !! nid = Some n' -> dtls_ n' = None /\ node_protocol_ n' = None)
  /\ (forall pid, node_protocol_ n = Some pid -> De_closed pid ∈ es).

Lemma remove_one s ep nid n :
  nodes s !! nid = Some n ->
  exists es s', (close env nid ;;; erase_client ep ;;; drop_node env Server_Side nid) s = (Ret tt, s')
    /\ clients_ s' = StdMap.erase ep (clients_ s) /\ (forall i, i <> nid -> nodes s' !! i = nodes s !! i)
    /\ gone nid n es s' /\ dtls_events s' = dtls_events s ++ es.
Proof.
  intros Hn. destruct (close_ok s nid n Hn) as (es1 & s1 & E1 & [N1 C1 R1 T1 V1] & F1).
  erewrite bind_Ret by exact E1. unfold bind at 1. unfold erase_client, modify.
  set (s2 := with_clients _ s1). set (n' := with_dtls None (with_protocol None n)) in *.
  assert (nodes s2 !! nid = Some n') as Hn2 by (subst s2; destruct s1; simpl in *; subst; by rewrite lookup_insert_eq).
  assert (dtls_ n' = None /\ node_protocol_ n' = None) as [Hd Hp] by (by destruct n).
  destruct (drop_closed_node Server_Side s2 nid n' Hn2 Hd Hp) as (es2 & s3 & E3 & [N3 C3 R3 T3 V3] & F3).
  exists (match node_protocol_ n with Some pid => De_closed pid :: es1 | None => es1 end ++ es2), s3.
  split_and!; [exact E3|..].
  - rewrite C3. subst s2. destruct s1; simpl in *. by subst.
  - intros i Hi. rewrite N3. subst s2. destruct s1; simpl in *. subst.
    destruct (node_held _ _ _); rewrite ?lookup_delete_ne, lookup_insert_ne by done; done.
  - split.
    + intros m Hm. rewrite N3 in Hm. destruct (node_held _ _ _); [|by rewrite lookup_delete_eq in Hm].
      rewrite Hn2 in Hm. by simplify_eq.
    + intros pid ->. apply elem_of_app. left. apply elem_of_cons. by left.
  - rewrite V3. subst s2. destruct s1; simpl in *. subst. by rewrite app_assoc.
Qed.

(** The entries of a client found by the loop over the map. *)
Definition after_removal (t now : Z) (nid : nat) n (ep : endpoint) (es : list (Dtls_Event D)) s s' : Prop :=
  if is_frozen t now n
  then StdMap.find ep (clients_ s') = None /\ gone nid n es s'
  else StdMap.find ep (clients_ s') = StdMap.find ep (clients_ s) /\ nodes s' !! nid = Some n.

Lemma remove_frozen_in_ok t now cs s :
  dinv s -> StdMap.sorted cs -> (forall ep nid, In (ep, nid) cs -> StdMap.find ep (clients_ s) = Some nid) ->
  exists es s', remove_frozen_in env t now cs s = (Ret tt, s') /\ dtls_events s' = dtls_events s ++ es
    /\ (forall ep nid n, In (ep, nid) cs -> nodes s !! nid = Some n -> after_removal t now nid n ep es s s')
    /\ (forall ep, ~ In ep (StdMap.keys cs) -> StdMap.find ep (clients_ s') = StdMap.find ep (clients_ s))
    /\ (forall i, ~ In i (StdMap.values cs) -> nodes s' !! i = nodes s !! i).
Proof.
  revert s. induction cs as [|[ep nid] cs IH]; intros s Hs Hsort Hin; simpl.
  { exists [], s. split_and!; try done. by rewrite app_nil_r. }
  destruct (StdMap.sorted_cons_inv _ _ _ Hsort) as [Hsort' Hlt].
  assert (~ In ep (StdMap.keys cs)) as Hep.
  { intros Hi. rewrite Forall_forall in Hlt. apply list_elem_of_In in Hi. specialize (Hlt _ Hi). lia. }
  destruct (di_clients _ Hs ep nid) as (n & Hn & Hne); [by apply Hin; left|].
  assert (~ In nid (StdMap.values cs)) as Hnid.
  { intros Hi. unfold StdMap.values in Hi. apply in_map_iff in Hi as ([e i] & <- & Hi). simpl in Hn.
    destruct (di_clients _ Hs e i) as (n' & Hn' & He); [by apply Hin; right|].
    apply Hep. apply in_map_iff. exists (e, i). split; [simpl; congruence|done]. }
  unfold bind at 1. unfold remove_frozen_client. rewrite bind_deref, Hn. destruct (is_frozen t now n) eqn:Hf.
  - destruct (remove_one s ep nid n Hn) as (es1 & s1 & E1 & C1 & N1 & G1 & V1).
    pose proof (ok_close_erase env ep nid s Hs) as [J1 _]. rewrite E1 in J1. simpl in J1. rewrite E1.
    assert (forall e, e <> ep -> StdMap.find e (clients_ s1) = StdMap.find e (clients_ s)) as Hother.
    { intros e He. rewrite C1, StdMap.erase_find by apply di_sorted, Hs. by rewrite (proj2 (Z.eqb_neq e ep) He). }
    assert (forall e i, In (e, i) cs -> e <> ep) as Hne'.
    { intros e i Hi ->. apply Hep, in_map_iff. by exists (ep, i). }
    destruct (IH s1 J1 Hsort') as (es2 & s2 & E2 & V2 & A2 & C2 & N2).
    { intros e i Hi. rewrite (Hother e) by eauto. apply Hin. by right. }
    exists (es1 ++ es2), s2. split_and!; [done|by rewrite V2, V1, app_assoc|..].
    + intros e i m [[= -> ->]|Hi] Hm; unfold after_removal.
      * assert (m = n) as -> by congruence. rewrite Hf, C2, C1, StdMap.erase_find, Z.eqb_refl by (done || apply di_sorted, Hs).
        split; [done|]. destruct G1 as [G1 G1']. split; [intros n'; rewrite N2 by done; auto|].
        intros pid Hp. apply elem_of_app. auto.
      * assert (i <> nid) as Hi' by (intros ->; apply Hnid, in_map_iff; by exists (e, nid)).
        rewrite <- (N1 i Hi') in Hm. specialize (A2 e i m Hi Hm). unfold after_removal in A2.
        destruct (is_frozen t now m).
        -- destruct A2 as [A2 [G2 G2']]. split; [done|]. split; [done|]. intros pid Hp. apply elem_of_app. auto.
        -- destruct A2 as [A2 A3]. rewrite A2, Hother by eauto. done.
    + intros e He. rewrite C2 by tauto. apply Hother. intros ->. tauto.
    + intros i Hi. rewrite N2 by tauto. apply N1. intros ->. tauto.
  - destruct (IH s Hs Hsort') as (es & s2 & E2 & V2 & A2 & C2 & N2); [intros; apply Hin; by right|].
    exists es, s2. split_and!; try done.
    + intros e i m [[= -> ->]|Hi] Hm; [|by apply A2]. assert (m = n) as -> by congruence.
      unfold after_removal. rewrite Hf, C2, N2 by done. done.
    + intros e He. apply C2. tauto.
    + intros i Hi. apply N2. tauto.
Qed.

Definition frozen_at (t now : Z) s (c : Z * nat) : bool :=
  match nodes s !! c.2 with Some n => is_frozen t now n | None => false end.

Lemma check_frozen_in_ok t now cs s :
  (forall ep nid, In (ep, nid) cs -> is_Some (nodes s !! nid)) ->
  check_frozen_in t now cs s = (Ret (existsb (frozen_at t now s) cs), s).
Proof.
  induction cs as [|[ep nid] cs IH]; intros Ha; simpl; [done|]. rewrite bind_deref. unfold frozen_at at 1. simpl.
  destruct (Ha ep nid) as [n Hn]; [by left|]. rewrite Hn. destruct (is_frozen t now n); [done|].
  apply IH. intros. eapply Ha. by right.
Qed.

End removal.

(** ** Properties *)

Section properties.
Context {D B C : Type} `{QIODevice D} `{QIODevice B, !QBuffer B} `{QDataStream} `{QtBytes} `{TlsChannel C}.
Context (env : Env D).
Implicit Types (s : Dtls D B C) (nid pid : nat) (n : Node C).

(** C21. However datagrams, posted handlers, cleanings, removals of copies,
    user calls and the steps of the record threads and of the timer thread
    follow each other, and whatever the TLS channel and the user code do, as
    long as no step is undefined: the server's objects are linked as [dinv]
    says. The map of clients is ordered by endpoint and leads from an endpoint
    to a live node with that endpoint; a node and its protocol point at each
    other; every pointer of the map, of the record queue and of a protocol's
    writer is to a live object, and so is every pointer a thread holds while
    it works, the node's after the node was closed and the protocol's after
    the node let go of it. A step is a handler of the io thread, or one of
    taking a record or timeout, copying [protocol()], a call of the protocol's
    code, the end of the scope; the source takes no lock against [close] in
    the last three, and what happens when two steps overlap is not covered. *)
Theorem server_links s js :
  rtc (server_step env) (server_init, []) (s, js) ->
  dinv s /\ local_nodes s ≡ₚ map job_node js /\ local_protocols s ≡ₚ omap job_protocol js
  /\ Forall (fun j => is_Some (nodes s !! job_node j)) js
  /\ Forall (fun j => forall pid, job_protocol j = Some pid -> is_Some (protocols s !! pid)) js.
Proof.
  intros Hr. destruct (server_steps_keep env _ _ Hr) as [Hs [J1 J2]].
  { split; [apply server_init_dinv|done]. }
  cbn [fst snd] in *. split_and!; try done; apply Forall_forall; intros j Hj.
  - apply (di_local_nodes _ Hs). rewrite J1. by apply list_elem_of_fmap_2.
  - intros pid Hp. apply (di_local_protocols _ Hs). rewrite J2. apply list_elem_of_omap. by exists j.
Qed.

(** C22. Cleaning removes exactly the frozen clients: if some client has
    received nothing for longer than the timeout at the first look at the
    clock, then every client for which that holds at the second look leaves
    the map, its protocol's [closed] is called and its channel and protocol
    are gone, and every other client keeps its entry and its node as it was;
    if no client is frozen at the first look, nothing is removed. *)
Theorem frozen_clients_removed s t :
  (forall e, de_user_throws env e = false) -> dinv s ->
  exists s', remove_frozen_clients env t s = (Ret tt, s') /\
    forall ep nid n, StdMap.find ep (clients_ s) = Some nid -> nodes s !! nid = Some n ->
      if existsb (frozen_at t (de_clock env (dtls_ticks s)) s) (clients_ s)
         && is_frozen t (de_clock env (S (dtls_ticks s))) n
      then StdMap.find ep (clients_ s') = None /\ gone nid n (dtls_events s') s'
      else StdMap.find ep (clients_ s') = Some nid /\ nodes s' !! nid = Some n.
Proof.
  intros Hq Hs. unfold remove_frozen_clients, check_frozen_clients, gets, dtls_now.
  set (s1 := with_ticks (S (dtls_ticks s)) s).
  assert (core s1 = core s) as Hc1 by (by destruct s).
  assert (nodes s1 = nodes s /\ clients_ s1 = clients_ s) as [EN EC] by (by destruct s).
  assert (forall ep nid, In (ep, nid) (clients_ s) -> is_Some (nodes s1 !! nid)) as Ha.
  { intros ep nid Hi. rewrite EN. destruct (di_clients _ Hs ep nid) as (n & Hn & _); [|eauto].
    by apply StdMap.In_find; [apply di_sorted|]. }
  rewrite !bind_assoc. unfold bind at 1. rewrite bind_assoc. unfold bind at 1. fold s1. unfold bind at 1.
  rewrite (check_frozen_in_ok t _ _ s1 Ha).
  assert (existsb (frozen_at t (de_clock env (dtls_ticks s)) s1) (clients_ s)
          = existsb (frozen_at t (de_clock env (dtls_ticks s)) s) (clients_ s)) as ->
    by (unfold frozen_at; by rewrite EN).
  destruct (existsb _ (clients_ s)) eqn:Hfound; [|exists s1; split; [done|]; intros; by rewrite EN, EC].
  unfold bind at 1. replace (dtls_ticks s1) with (S (dtls_ticks s)) by (by destruct s).
  set (s2 := with_ticks (S (S (dtls_ticks s))) s1). unfold bind at 1.
  assert (core s2 = core s) as Hc2 by (by destruct s).
  assert (nodes s2 = nodes s /\ clients_ s2 = clients_ s) as [EN2 EC2] by (by destruct s).
  pose proof (core_dinv _ _ Hc2 Hs) as Hs2.
  destruct (remove_frozen_in_ok env Hq t (de_clock env (S (dtls_ticks s))) (clients_ s2) s2 Hs2) as (es & s3 & E & V & A & _).
  { by apply di_sorted. }
  { intros ep nid Hi. by apply StdMap.In_find; [apply di_sorted|]. }
  exists s3. split; [exact E|]. intros ep nid n Hf Hn. rewrite EN2, EC2 in A.
  specialize (A ep nid n (StdMap.find_In _ _ _ Hf) Hn). unfold after_removal in A. rewrite EC2 in A. simpl.
  destruct (is_frozen _ _ n); [|by rewrite <- Hf]. destruct A as [A [G1 G2]]. split; [done|]. split; [done|].
  intros pid Hp. rewrite V. apply elem_of_app. right. auto.
Qed.

(** A close notification ends a server connection: the node loses its
    channel and its protocol, the removal of the client is posted, and the
    protocol's [closed] is called, but twice, by [tls_alert] itself and by
    [close]. Running the removal takes the client off the map, and the node
    is destroyed unless a queued record, a local variable or a protocol the
    user keeps still refers to it. *)
Theorem close_notify_ends s ep nid n pid :
  (forall e, de_user_throws env e = false) -> dinv s ->
  StdMap.find ep (clients_ s) = Some nid -> nodes s !! nid = Some n -> node_protocol_ n = Some pid ->
  exists es s1 s2,
    tls_alert env Server_Side nid CLOSE_NOTIFY s = (Ret tt, s1)
    /\ dtls_events s1 = dtls_events s ++ De_closed pid :: De_closed pid :: es /\ Forall closing_event es
    /\ nodes s1 !! nid = Some (with_dtls None (with_protocol None n))
    /\ io_tasks s1 = io_tasks s ++ [Task_remove_client ep]
    /\ remove_client env ep s1 = (Ret tt, s2)
    /\ clients_ s2 = StdMap.erase ep (clients_ s)
    /\ (node_held Server_Side s2 nid = false -> nodes s2 !! nid = None).
Proof.
  intros Hq Hs Hf Hn Hp. destruct (di_clients _ Hs _ _ Hf) as (n0 & Hn0 & He). assert (n0 = n) as -> by congruence.
  set (sa := with_dtls_events (dtls_events s ++ [De_closed pid]) s).
  assert (nodes sa !! nid = Some n) as Hna by (by destruct s).
  destruct (close_ok env Hq sa nid n Hna) as (es & s1 & E1 & [N1 C1 R1 T1 V1] & F1). rewrite Hp in V1.
  set (n' := with_dtls None (with_protocol None n)) in *.
  assert (nodes s1 !! nid = Some n') as Hn1 by (by rewrite N1, lookup_insert_eq).
  set (sb := with_tasks (io_tasks s1 ++ [Task_remove_client ep]) s1).
  set (sc := with_clients (StdMap.erase ep (clients_ s1)) sb).
  assert (nodes sc !! nid = Some n') as Hnc by (by destruct s1).
  assert (dtls_ n' = None /\ node_protocol_ n' = None) as [Hd' Hp'] by (by destruct n).
  destruct (drop_closed_node env Server_Side sc nid n' Hnc Hd' Hp') as (es2 & s2 & E2 & [N2 C2 R2 T2 V2] & F2).
  exists es, sb, s2. split_and!.
  - unfold tls_alert, node_tls_alert. unfold bind at 1. rewrite bind_deref, Hn, Hp.
    erewrite bind_Ret by (by apply user_call_quiet). fold sa. rewrite E1. unfold post_remove_client.
    rewrite bind_deref, Hn1. replace (receiver_endpoint_ n') with ep by (by destruct n). done.
  - subst sb sa. destruct s1, s; simpl in *. subst. by rewrite <- app_assoc.
  - done.
  - subst sb. by destruct s1.
  - subst sb sa. destruct s1, s; simpl in *. by subst.
  - unfold remove_client, find_client, gets. unfold bind at 1.
    replace (clients_ sb) with (clients_ s) by (subst sb sa; destruct s1, s; simpl in *; by subst). rewrite Hf.
    unfold bind at 1. unfold erase_client, modify. fold sb.
    replace (with_clients (StdMap.erase ep (clients_ sb)) sb) with sc by (subst sc sb; by destruct s1). exact E2.
  - rewrite C2. subst sc sb sa. destruct s1, s; simpl in *. by subst.
  - intros Hh. rewrite N2. destruct (node_held Server_Side sc nid) eqn:Hh'; [|by rewrite lookup_delete_eq].
    exfalso. unfold drop_node in E2. rewrite Hh' in E2. simplify_eq. congruence.
Qed.

(** The notification comes from inside [received_data] of the channel, which
    [close] destroys: when the callback returns, the channel's code goes on in
    an object that is gone. *)
Lemma close_notify_in_channel s nid n c c' pid data k :
  (forall e, de_user_throws env e = false) ->
  nodes s !! nid = Some n -> dtls_ n = Some c -> node_protocol_ n = Some pid ->
  ch_received_data data c = Act_call c' (Cb_alert CLOSE_NOTIFY) k ->
  (process_received_data env Server_Side nid data s).1 = Undef.
Proof.
  intros Hq Hn Hd Hp Hr. unfold process_received_data, received_data_body, try_catch. rewrite bind_deref, Hn, Hd, Hr.
  cbn [run_activity]. rewrite !bind_assoc. unfold store_channel at 1. rewrite bind_assoc, bind_deref, Hn, Hd.
  set (n0 := with_dtls (Some c') n). set (s0 := with_nodes (alter (with_dtls (Some c')) nid (nodes s)) s).
  assert (nodes s0 !! nid = Some n0) as Hn0 by (subst s0; destruct s; simpl in *; by rewrite lookup_alter_eq, Hn).
  erewrite bind_Ret by reflexivity. fold s0.
  set (sa := with_dtls_events (dtls_events s0 ++ [De_closed pid]) s0).
  destruct (close_ok env Hq sa nid n0) as (es & s1 & E1 & [N1 _ _ _ _] & _); [by destruct s0|].
  set (n1 := with_dtls None (with_protocol None n0)) in *.
  assert (nodes s1 !! nid = Some n1) as Hn1 by (by rewrite N1, lookup_insert_eq).
  set (s2 := with_tasks (io_tasks s1 ++ [Task_remove_client (receiver_endpoint_ n1)]) s1).
  assert (nodes s2 !! nid = Some n1) as Hn2 by (by destruct s1).
  assert (run_callback env Server_Side nid (Cb_alert CLOSE_NOTIFY) s0 = (Ret Rep_done, s2)) as Ecb.
  { unfold run_callback, try_catch, callback_body, tls_alert, node_tls_alert. rewrite !bind_assoc, bind_deref, Hn0.
    replace (node_protocol_ n0) with (Some pid) by (by destruct n). rewrite bind_assoc.
    erewrite bind_Ret by (by apply user_call_quiet). fold sa. erewrite bind_Ret by exact E1.
    unfold post_remove_client. rewrite bind_assoc, bind_deref, Hn1. done. }
  rewrite bind_assoc. erewrite bind_Ret by exact Ecb.
  assert (forall x, store_channel nid x s2 = (Undef, s2)) as Hu.
  { intros x. unfold store_channel. rewrite bind_deref, Hn2. by replace (dtls_ n1) with (@None C) by (by destruct n). }
  unfold bind. destruct (k Rep_done); cbn [run_activity]; unfold bind; by rewrite Hu.
Qed.

(** [Node::write] hands the io thread the endpoint, and the handler
    looks the client up again with [get_node], which creates what it does
    not find: a message or data written to a client that was removed before
    the handler ran puts a new, unconnected client for that endpoint into
    the map, and the message is dropped there (its [finally] function is
    told). *)
Theorem write_after_removal s ep m :
  dinv s -> StdMap.find ep (clients_ s) = None ->
  exists s', run_task env (Task_write_message ep m) s = (Ret tt, s')
    /\ StdMap.find ep (clients_ s') = Some (next_id s)
    /\ nodes s' !! next_id s = Some (fresh_node env ep)
    /\ io_tasks s' = io_tasks s
    /\ dtls_events s' = dtls_events s ++ finally_events [m].
Proof.
  intros Hs Hf. set (nid := next_id s).
  set (s1 := with_new_client env ep s).
  set (s2 := with_local_nodes (nid :: local_nodes s1) s1).
  set (s3 := with_dtls_events (dtls_events s2 ++ finally_events [m]) s2).
  set (s4 := with_local_nodes (local_nodes s) s3).
  pose proof (StdMap.emplace_find ep nid (clients_ s) ep (di_sorted _ Hs)) as He. rewrite Z.eqb_refl, Hf in He. simpl in He.
  assert (StdMap.find ep (clients_ s4) = Some nid) as Hf4 by (by destruct s).
  assert (nodes s2 !! nid = Some (fresh_node env ep)) as Hn2 by (subst nid s2 s1; destruct s; simpl; by rewrite lookup_insert_eq).
  assert (write_impl_message env nid m s2 = (Ret tt, s3)) as Ew.
  { unfold write_impl_message. rewrite bind_deref, Hn2. simpl. subst s3. unfold destroy_message, finally_events. simpl.
    destruct (Message_Item.dtor m) as [[f b]|]; simpl; [by destruct s2|]. destruct s2; simpl. by rewrite app_nil_r. }
  assert (node_held Server_Side s4 nid = true) as Hh.
  { unfold node_held. rewrite !orb_true_iff. do 4 left. apply bool_decide_eq_true. by apply (find_value _ ep). }
  exists s4. split_and!; [|done|by subst nid s4 s3 s2 s1; destruct s..].
  simpl. unfold bind at 1. rewrite get_node_ok, Hf by done. fold s1 nid. unfold hold_node, scoped, bind at 1, modify. fold s2.
  rewrite Ew. unfold bind, ret. replace (with_local_nodes (tail (local_nodes s3)) s3) with s4 by (by destruct s).
  unfold drop_node. by rewrite Hh.
Qed.

End properties.

(** ** Concrete instance

    A toy channel: the first datagram is the handshake and asks for an
    application protocol, later datagrams are records, an empty one is a
    close notification. *)

Module Dtls_Witness.
Import QtRef.

#[export] Instance toy_channel : TlsChannel bool := {|
  ch_is_active := id;
  ch_received_data d c :=
    if c then Act_call true (match d with [] => Cb_alert CLOSE_NOTIFY | _ => Cb_record_received d end) (fun _ => Act_return true)
    else Act_call false (Cb_choose_app_protocol [[x68]]) (fun _ => Act_return true);
  ch_timeout_check c := (false, [], c);
  ch_send d c := ([d], Some c);
  ch_close c := [[x00]];
  ch_application_protocol _ := [];
  new_Server := false;
  new_Client _ _ _ := false;
|}.

Definition env0 : Env mem :=
  {| de_clock n := seconds 1000 + Z.of_nat n; de_throws _ := false; de_user_throws _ := false;
     server_protocol_func protos := (true, default [] (head protos)); client_protocol_func := None;
     de_same _ _ := false; de_keeps _ := false; ep_text _ := [x65]; path_validates _ _ := false |}.

(** Two clients connect. *)
Definition s1 : Dtls mem mem bool := (handle_receive env0 70000 [x01] false server_init).2.
Definition s2 : Dtls mem mem bool := (handle_receive env0 80000 [x01] false s1).2.

Definition js0 : list (Job mem mem) := [].

Lemma s1_step : server_step env0 (server_init, js0) (s1, js0).
Proof. by eapply (step_datagram env0 _ _ 70000 [x01] false (Ret tt)). Qed.

Lemma s2_step : server_step env0 (s1, js0) (s2, js0).
Proof. by eapply (step_datagram env0 _ _ 80000 [x01] false (Ret tt)). Qed.

Lemma s2_dinv : dinv s2.
Proof.
  apply (server_steps_keep env0 (server_init, js0) (s2, js0)).
  - eapply rtc_l; [exact s1_step|]. eapply rtc_l; [exact s2_step|]. apply rtc_refl.
  - split; [apply server_init_dinv|done].
Qed.

(** The first client sends a record, a thread takes it and copies the
    protocol's pointer, and then the cleaning timer removes both clients. *)
Definition s3 : Dtls mem mem bool := (handle_receive env0 70000 [x05] false s2).2.
Definition s4 : Dtls mem mem bool := (take_record s3).2.
Definition job4 : Job mem mem := mkJob 0 (protocol_process_bytes [x05]) Taken.
Definition s5 : Dtls mem mem bool := (advance_job env0 job4 s4).2.
Definition job5 : Job mem mem := mkJob 0 (protocol_process_bytes [x05]) (Copied (Some 1%nat)).
Definition s6 : Dtls mem mem bool := (cleaning env0 (mkServer (seconds 180) 0 true) false s5).2.

Lemma ends_in {A} (m : DTM mem mem bool A) s o : (m s).1 = o -> m s = (o, (m s).2).
Proof. intros <-. apply surjective_pairing. Qed.

Lemma s6_steps : rtc (server_step env0) (server_init, []) (s6, [job5]).
Proof.
  eapply rtc_l; [exact s1_step|]. eapply rtc_l; [exact s2_step|].
  eapply rtc_l; [eapply (step_datagram env0 _ _ 70000 [x05] false (Ret tt)); [apply ends_in; by vm_compute|exact I]|].
  eapply rtc_l; [apply (step_take_record env0 _ _ job4), ends_in; reflexivity|].
  eapply rtc_l; [apply (step_job env0 s4 [] job4 [] (Some job5)), ends_in; reflexivity|].
  eapply rtc_l; [|apply rtc_refl].
  eapply (step_cleaning env0 _ _ (mkServer (seconds 180) 0 true) false (Ret (mkServer (seconds 180) (seconds 180) true)));
    [apply ends_in; by vm_compute|exact I].
Qed.

(** The map is empty, and what the thread still works with is alive. *)
Lemma server_links_witness :
  clients_ s6 = [] /\ dinv s6
  /\ Forall (fun j => is_Some (nodes s6 !! job_node j)) [job5]
  /\ Forall (fun j => forall pid, job_protocol j = Some pid -> is_Some (protocols s6 !! pid)) [job5].
Proof.
  split; [by vm_compute|]. destruct (server_links env0 s6 [job5] s6_steps) as (H1 & _ & _ & H2 & H3).
  exact (conj H1 (conj H2 H3)).
Defined.

(** A close notification of this channel. *)
Lemma close_notify_undefined : (handle_receive env0 70000 [] false s2).1 = Undef.
Proof. by vm_compute. Qed.

(** Neither client has received a record, so a cleaning with a timeout of
    180 seconds removes both. *)
Lemma frozen_clients_removed_witness :
  exists s', remove_frozen_clients env0 (seconds 180) s2 = (Ret tt, s') /\ StdMap.find 70000 (clients_ s') = None
    /\ StdMap.find 80000 (clients_ s') = None.
Proof.
  destruct (frozen_clients_removed env0 s2 (seconds 180) (fun _ => eq_refl) s2_dinv) as (s' & E & H).
  exists s'. split; [exact E|]. split.
  - exact (proj1 (H 70000 0%nat _ eq_refl eq_refl)).
  - exact (proj1 (H 80000 2%nat _ eq_refl eq_refl)).
Defined.

Lemma close_notify_ends_witness :
  exists s3 s4, tls_alert env0 Server_Side 0 CLOSE_NOTIFY s2 = (Ret tt, s3) /\ remove_client env0 70000 s3 = (Ret tt, s4)
    /\ StdMap.keys (clients_ s4) = [80000].
Proof.
  destruct (close_notify_ends env0 s2 70000 0 _ 1 (fun _ => eq_refl) s2_dinv eq_refl eq_refl eq_refl)
    as (es & s3 & s4 & H1 & _ & _ & _ & _ & H2 & H3 & _).
  exists s3, s4. split; [exact H1|]. split; [exact H2|]. rewrite H3. by vm_compute.
Defined.

Lemma write_after_removal_witness :
  exists s', run_task env0 (Task_write_message 90000 (Message_Item.make 16 None None 0)) s2 = (Ret tt, s')
    /\ StdMap.find 90000 (clients_ s') = Some 4%nat.
Proof.
  destruct (write_after_removal env0 s2 90000 (Message_Item.make 16 None None 0) s2_dinv eq_refl) as (s' & E & F & _).
  exists s'. exact (conj E F).
Defined.

End Dtls_Witness.
