(* ===== verification/DtlsClient.v ===== *)
(** * DTLS::Client_Controller, Client, Client_Thread

    [src/DTLS/dtls_client_controller.*], [dtls_client.*] and
    [dtls_client_thread.*]: the client's one node, its socket and deadline
    timer, and the thread that connects, runs and reconnects. The handlers of
    the client run on one thread; [Client_Thread] and the callers of [stop]
    interleave, so the thread is a step function. *)

From S2P Require Import Prelude StdMap QtInterface MessageItem FragmentedMessage ProtocolState ProtocolSend ProtocolRecv ProtocolStream ProtocolTimer DtlsNode DtlsInvariant.
Open Scope Z_scope.
Open Scope helpz_scope.

Module Client.

(** [deadline_] is [None] for [pos_infin]; [receiving] says whether a
    receive operation is pending, [canceled] whether its handler will be
    called with [operation_aborted]. *)
Record t := mk {
  socket_open : bool;
  deadline_ : option Z;
  deadline_waits : bool;
  receiving : bool;
  canceled : bool;
  io_stopped : bool;
}.

Definition init : t := mk false None false false false false.

Section client.
Context {D B C : Type} `{QIODevice D} `{QIODevice B, !QBuffer B} `{QDataStream} `{QtBytes} `{TlsChannel C}.
Context (env : Env D).

Record World := mkWorld { cl : t; dt : Dtls D B C }.
Abbreviation CM := (M World).

(** [Client_Controller::node_] is the object number 0. *)
Definition node : nat := 0.
Definition side : Side := Client_Side node.

Definition lift {A} (m : DTM D B C A) : CM A := fun w =>
  let '(o, s) := m (dt w) in (o, mkWorld (cl w) s).
Definition change (f : t -> t) : CM unit := modify (fun w => mkWorld (f (cl w)) (dt w)).

(** ** Client_Controller *)

Definition get_node : CM (option nat) := ret (Some node).

Definition process_data (data : bytes) : CM unit :=
  lift (reset_ping_flag node ;;; process_received_data env side node data).

Definition on_protocol_timeout (data : Z) : CM unit := lift (post (Task_wait_list data)).

(** The handlers posted for the client. *)
Definition wait_list (data : Z) : DTM D B C unit :=
  let* n := deref node in
  match node_protocol_ n with
  | Some pid => hold_protocol env pid (run_protocol env pid (process_wait_list data))
  | None => ret tt
  end.

Definition run_task (x : Task D) : CM unit :=
  match x with
  | Task_write_data _ data => lift (write_impl_data node data)
  | Task_write_message _ message => lift (write_impl_message env node message)
  | Task_remove_client _ => ret tt  (** posted by server nodes only *)
  | Task_wait_list data => lift (wait_list data)
  end.

(** ** Client *)

Definition client_init : World := mkWorld init
  (mkDtls {[ node := mkNode None None 0 [] 0 false ]} ∅ 1 [] [] Protocol_Timer.init [] [] [] 0 []).

Definition start_receive : CM unit :=
  lift (log De_start_receive) ;;;
  change (fun c => mk (socket_open c) (deadline_ c) (deadline_waits c) true (canceled c) (io_stopped c)) ;;;
  let* now := lift (dtls_now env) in
  change (fun c => mk (socket_open c) (Some (now + seconds 10)) (deadline_waits c) (receiving c) (canceled c) (io_stopped c)).

Definition set_deadline (d : option Z) : CM unit :=
  change (fun c => mk (socket_open c) d (deadline_waits c) (receiving c) (canceled c) (io_stopped c)).

(** [socket_->cancel()]: the pending operation ends with an error. *)
Definition cancel : CM unit :=
  change (fun c => mk (socket_open c) (deadline_ c) (deadline_waits c) (receiving c) (receiving c || canceled c) (io_stopped c)).

Definition deadline_passed (now : Z) (d : option Z) : bool :=
  match d with Some d => d <=? now | None => false end.

Definition check_deadline (operation_aborted : bool) : CM unit :=
  (if operation_aborted then ret tt
   else
     let* d := gets (fun w => deadline_ (cl w)) in
     let* now := lift (dtls_now env) in
     if deadline_passed now d then
       let* needed := lift (is_reconnect_needed env node) in
       if needed then cancel ;;; set_deadline None
       else let* now := lift (dtls_now env) in set_deadline (Some (now + seconds 10))
     else ret tt) ;;;
  change (fun c => mk (socket_open c) (deadline_ c) true (receiving c) (canceled c) (io_stopped c)).

(** [resolved] is what the resolver gives; it throws when it finds nothing. *)
Definition start_connection (host : bytes) (resolved : option endpoint) (next_protocols : list bytes) : CM unit :=
  match resolved with
  | None => throw
  | Some receiver_endpoint =>
      change (fun c => mk true (deadline_ c) (deadline_waits c) (receiving c) (canceled c) (io_stopped c)) ;;;
      lift (start env node host receiver_endpoint next_protocols) ;;;
      start_receive ;;;
      check_deadline false
  end.

Definition close : CM unit :=
  lift (DtlsNode.close env node) ;;;
  let* open := gets (fun w => socket_open (cl w)) in
  (if open then
     cancel ;;;
     change (fun c => mk false (deadline_ c) (deadline_waits c) (receiving c) (canceled c) (io_stopped c))
   else ret tt) ;;;
  change (fun c => mk (socket_open c) (deadline_ c) (deadline_waits c) (receiving c) (canceled c) true).

(** [Client::error_message] throws what [Socket]'s only prints. *)
Definition error_message : CM unit := throw.

Definition handle_receive (data : bytes) (err : bool) : CM unit :=
  change (fun c => mk (socket_open c) (deadline_ c) (deadline_waits c) false false (io_stopped c)) ;;;
  if err then error_message
  else start_receive ;;; process_data data.

End client.
End Client.

(** ** Client_Thread *)

Module Client_Thread_Config.

(** [create_protocol_func_] is known by an identity, none when empty. *)
Record t := mk {
  reconnect_interval_ : Z;
  tls_police_file_name_ : bytes;
  host_ : bytes;
  port_ : bytes;
  next_protocols_ : list bytes;
  create_protocol_func_ : option callback;
}.

Definition make (tls_police_file_name host port : bytes) (next_protocols : list bytes) (reconnect_interval_sec : Z) : t :=
  mk (seconds reconnect_interval_sec) tls_police_file_name host port next_protocols None.

Definition set_create_protocol_func v (c : t) : t := let '(mk r f h p n _) := c in mk r f h p n v.
Definition set_reconnect_interval v (c : t) : t := let '(mk _ f h p n u) := c in mk v f h p n u.
Definition set_tls_police_file_name v (c : t) : t := let '(mk r _ h p n u) := c in mk r v h p n u.
Definition set_host v (c : t) : t := let '(mk r f _ p n u) := c in mk r f v p n u.
Definition set_port v (c : t) : t := let '(mk r f h _ n u) := c in mk r f h v n u.
Definition set_next_protocols v (c : t) : t := let '(mk r f h p _ u) := c in mk r f h p v u.

End Client_Thread_Config.

Module Client_Thread.

(** Where the thread is: constructing the TLS tools, at the loop condition
    (with [is_first_connect]), sleeping, about to call [start], inside
    [client_->run()], or at the end. *)
Inductive point :=
| Constructing
| At_loop (is_first_connect : bool)
| Sleeping
| Starting
| Running
| Finished.

(** The client objects made so far; those that are closed; [client_]. A
    client that is replaced or reset is closed once more by its destructor,
    which changes nothing for a closed one; [closed()] of the user's protocol
    is taken not to throw here. *)
Record t := mk {
  stop_flag_ : bool;
  made : nat;
  closed : list nat;
  client_ : option nat;
  thread_ : point;
}.

Definition init : t := mk false 0 [] None Constructing.

Definition at_point (p : point) (s : t) : t := mk (stop_flag_ s) (made s) (closed s) (client_ s) p.

Definition close_client (s : t) : t :=
  match client_ s with
  | Some c => mk (stop_flag_ s) (made s) (closed s ++ [c]) (client_ s) (thread_ s)
  | None => s
  end.

(** [stop], by another thread or at the end of [run]. *)
Definition stop (s : t) : t :=
  close_client (mk true (made s) (closed s) (client_ s) (thread_ s)).

(** [start]: [ok] is false when [start_connection] throws. *)
Definition start (ok : bool) (s : t) : t :=
  if stop_flag_ s then at_point (At_loop false) s
  else
    let s := close_client s in
    let s := mk (stop_flag_ s) (S (made s)) (closed s) (Some (made s)) (thread_ s) in
    at_point (if ok then Running else At_loop false) s.

(** The code after the loop: [stop()] and [client_.reset()]. *)
Definition finish (s : t) : t :=
  let s := stop s in mk (stop_flag_ s) (made s) (closed s) None Finished.

(** [io_context::run] of a client ends when the context is stopped, which
    [Client::close] does, or with an exception, which may come at any time
    ([thrown]). *)
Definition run_returns (thrown : bool) (s : t) : bool :=
  thrown || match client_ s with Some c => bool_decide (c ∈ closed s) | None => true end.

(** One step of [run]; [ok] says whether what it calls succeeds. [None]
    when the thread is blocked or has ended. *)
Definition run_step (ok : bool) (s : t) : option t :=
  match thread_ s with
  | Constructing => Some (if ok then at_point (At_loop true) s else finish s)
  | At_loop first =>
      Some (if stop_flag_ s then finish s
            else if first then at_point Starting s else at_point Sleeping s)
  | Sleeping => Some (at_point Starting s)
  | Starting => Some (start ok s)
  | Running => if run_returns (negb ok) s then Some (at_point (At_loop false) s) else None
  | Finished => None
  end.

Inductive step : t -> t -> Prop :=
| step_run ok s s' : run_step ok s = Some s' -> step s s'
| step_stop s : step s (stop s).

End Client_Thread.
