(* ===== verification/DtlsTransport.v ===== *)
(** * The transport as a whole

    A message of the user on a client, from the handler that [Node::write]
    posts, through the client's protocol, the TLS channel, a datagram, the
    server's socket, its channel, the queue of records and a record thread, to
    the user's code on the server. The parts are those of [DtlsClient],
    [DtlsServer] and of the protocol files; of Botan's channel, the two ends
    of a connection are taken to carry a record that fits in one datagram. The
    network keeps the order of the datagrams and loses none, and the server
    has one record thread; client, network and record thread interleave
    freely. *)

From S2P Require Import Prelude StdMap QtInterface MessageItem FragmentedMessage ProtocolState ProtocolSend ProtocolRecv ProtocolFrame ProtocolStream StreamProofs SendProofs ReceiveProofs TransferProofs ProtocolTimer DtlsNode DtlsServer DtlsInvariant DtlsServerProofs DtlsClient.
Open Scope Z_scope.
Open Scope helpz_scope.

(** The largest plaintext of a TLS record. *)
Definition MAX_PLAINTEXT_SIZE : Z := 16384.

(** Two ends of an established connection with the datagrams that are on the
    way, each with the record it carries: what one end sends as one record the
    other end gives to [tls_record_received], once. *)
Class TlsLink (C : Type) `{TlsChannel C} := {
  linked : C -> list (bytes * bytes) -> C -> Prop;
  link_active : forall a q b, linked a q b -> ch_is_active a = true /\ ch_is_active b = true;
  link_send : forall a q b data, linked a q b -> zlen data <= MAX_PLAINTEXT_SIZE ->
    exists d a', ch_send data a = ([d], Some a') /\ linked a' (q ++ [(d, data)]) b;
  link_receive : forall a d data q b, linked a ((d, data) :: q) b ->
    exists b1 b2 k, ch_received_data d b = Act_call b1 (Cb_record_received data) k /\ k Rep_done = Act_return b2
      /\ linked a q b2;
}.

(** ** Running a protocol *)

Section run.
Context {D B C : Type} `{QIODevice D} `{QIODevice B, !QBuffer B} `{QDataStream} `{QtBytes} `{TlsChannel C}.
Context (env : Env D).
Implicit Types (s : Dtls D B C) (nid pid : nat) (n : Node C).

(** What a step leaves alone. *)
Record same_lists s s' : Prop := {
  sl_clients : clients_ s' = clients_ s;
  sl_records : records_queue_ s' = records_queue_ s;
  sl_nodes : local_nodes s' = local_nodes s;
  sl_protocols : local_protocols s' = local_protocols s;
}.

Lemma same_lists_trans s1 s2 s3 : same_lists s1 s2 -> same_lists s2 s3 -> same_lists s1 s3.
Proof. intros [] []. constructor; congruence. Qed.

(** Events of the protocol that are the user's. *)
Definition user_event pid (e : Event D) : option (Dtls_Event D) :=
  match e with Ev_write _ | Ev_add_timeout_at _ _ => None | _ => Some (De_protocol pid e) end.

Lemma protocol_events_ok pid nid es : forall s n, nodes s !! nid = Some n ->
  exists s', protocol_events pid (Some nid) es s = (Ret tt, s')
    /\ nodes s' = nodes s /\ protocols s' = protocols s /\ same_lists s s'
    /\ dtls_events s' = dtls_events s ++ omap (user_event pid) es.
Proof.
  induction es as [|e es IH]; intros s n Hn; [exists s; split_and!; try done; by rewrite app_nil_r|].
  assert (exists s1, protocol_event pid (Some nid) e s = (Ret tt, s1) /\ nodes s1 = nodes s /\ protocols s1 = protocols s
    /\ same_lists s s1 /\ dtls_events s1 = dtls_events s ++ omap (user_event pid) [e]) as (s1 & E1 & N1 & P1 & L1 & V1).
  { destruct e; cbn [protocol_event]; unfold write_message, node_add_timeout_at;
      rewrite ?bind_deref, ?Hn; unfold post, controller_add_timeout_at, log, modify; (eexists; split; [reflexivity|]);
      destruct s; simpl; by rewrite ?app_nil_r. }
  destruct (IH s1 n) as (s2 & E2 & N2 & P2 & L2 & V2); [by rewrite N1|].
  exists s2. cbn [protocol_events]. rewrite (bind_Ret _ _ _ _ _ E1). split; [exact E2|].
  split_and!; [congruence|congruence|by apply (same_lists_trans s s1)|].
  rewrite V2, V1, <- app_assoc. f_equal. simpl. by destruct (user_event pid e).
Qed.

(** A connection: a node with its channel and its protocol. *)
Definition connection s nid c pid (P : Protocol D B) : Prop :=
  exists n, nodes s !! nid = Some n /\ dtls_ n = Some c /\ node_protocol_ n = Some pid
    /\ protocols s !! pid = Some (mkProto P (Some nid)).

(** The world in which the protocol of a connection runs. *)
Definition world_of s nid (P : Protocol D B) : World D B :=
  mkWorld (with_writer (writer_view s (Some nid)) P) (de_clock env) (de_throws env) (dtls_ticks s) [].

Lemma run_protocol_ok {A} s nid c pid P (m : PM D B A) a w :
  connection s nid c pid P -> m (world_of s nid P) = (Ret a, w) ->
  exists s', run_protocol env pid m s = (Ret a, s')
    /\ connection s' nid c pid (with_writer None (self w)) /\ same_lists s s'
    /\ dtls_events s' = dtls_events s ++ omap (user_event pid) (events w).
Proof.
  intros (n & Hn & Hd & Hp & Hpo) Hm. unfold run_protocol. rewrite Hpo. cbn [proto_writer proto_state].
  unfold world_of in Hm. rewrite Hm.
  set (po := mkProto _ (Some nid)). set (s1 := with_protocols _ s). set (s2 := with_nodes _ s1). set (s3 := with_ticks _ s2).
  assert (exists n', nodes s3 !! nid = Some n' /\ dtls_ n' = Some c /\ node_protocol_ n' = Some pid) as (n' & Hn' & Hd' & Hp').
  { unfold s3, s2, s1. destruct s. simpl in *. destruct (protocol_writer_ (self w)) as [v|]; [|by exists n].
    rewrite lookup_alter_eq, Hn. eexists. split; [reflexivity|]. by destruct n. }
  destruct (protocol_events_ok pid nid (events w) s3 n' Hn') as (s4 & E & N4 & P4 & L4 & V4).
  exists s4. rewrite (bind_Ret _ _ _ _ _ E). split; [done|]. split; [|split].
  - exists n'. rewrite N4, P4. split_and!; try done. unfold s3, s2, s1. destruct s. simpl. by rewrite lookup_insert_eq.
  - apply (same_lists_trans s s3); [|done]. unfold s3, s2, s1. by destruct s.
  - rewrite V4. unfold s3, s2, s1. by destruct s.
Qed.

Lemma connection_protocol_held s nid c pid P : connection s nid c pid P -> protocol_held env s pid = true.
Proof.
  intros (n & Hn & _ & Hp & _). unfold protocol_held. apply orb_true_iff. right. apply existsb_exists.
  exists (nid, n). split; [by apply list_elem_of_In, elem_of_map_to_list|]. unfold names_protocol. by apply bool_decide_eq_true.
Qed.

Lemma connection_nodes s s' nid c pid P :
  nodes s' = nodes s -> protocols s' = protocols s -> connection s nid c pid P -> connection s' nid c pid P.
Proof. intros En Ep (n & Hn). exists n. by rewrite En, Ep. Qed.

Lemma connection_channel s nid c c' pid P :
  connection s nid c pid P -> exists s', store_channel nid c' s = (Ret tt, s') /\ connection s' nid c' pid P
    /\ same_lists s s' /\ dtls_events s' = dtls_events s.
Proof.
  intros (n & Hn & Hd & Hp & Hpo). unfold store_channel. rewrite bind_deref, Hn, Hd.
  eexists. split; [reflexivity|].
  split; [|by destruct s]. exists (with_dtls (Some c') n). destruct s. simpl in *. rewrite lookup_alter_eq, Hn. simpl.
  split_and!; try done; by destruct n.
Qed.

End run.

(** ** One message *)

Section transport.
Context {D B C : Type} `{HD : QIODeviceLaws D} `{HO : !DevicesOpen D} `{HBL : QIODeviceLaws B} `{HQ : !QBuffer B} `{HQL : !QBufferLaws B}
  `{HSL : QDataStreamLaws} `{HCL : QtBytesLaws} `{HT : TlsChannel C, !TlsLink C}.
(** The environments of the two programs, and the client's endpoint. *)
Context (client_env server_env : Env D) (cep : endpoint).
Implicit Types (s : Dtls D B C) (nid pid : nat) (m : Message_Item.t D).
Abbreviation CWorld := (Client.World (D := D) (B := B) (C := C)).

(** The datagrams given to the socket since [old]. *)
Definition datagram_of (e : Dtls_Event D) : option bytes := match e with De_datagram _ d => Some d | _ => None end.
Definition datagrams (old new : Dtls D B C) : list bytes :=
  omap datagram_of (drop (length (dtls_events old)) (dtls_events new)).

(** What can happen next: the handler that [Node::write] has posted runs on the
    client, and what it sends goes on its way; the first datagram on its way
    arrives at the server's socket; the record thread of the server takes a
    record. *)
Inductive action := Write (m : Message_Item.t D) | Arrive | Process.

Definition act (a : action) (x : CWorld * list bytes * Dtls D B C) : option (CWorld * list bytes * Dtls D B C) :=
  let '(wc, net, ss) := x in
  match a with
  | Write m =>
      match Client.run_task client_env (Task_write_message 0 m) wc with
      | (Ret tt, wc') => Some (wc', net ++ datagrams (Client.dt wc) (Client.dt wc'), ss)
      | _ => None
      end
  | Arrive =>
      match net with
      | [] => Some x
      | d :: net =>
          match handle_receive server_env cep d false ss with
          | (Ret tt, ss') => Some (wc, net, ss')
          | _ => None
          end
      end
  | Process =>
      match process_record server_env ss with
      | (Ret tt, ss') => Some (wc, net, ss')
      | _ => None
      end
  end.

Fixpoint act_all (l : list action) (x : CWorld * list bytes * Dtls D B C) : option (CWorld * list bytes * Dtls D B C) :=
  match l with [] => Some x | a :: l => match act a x with Some x => act_all l x | None => None end end.

(** What protocol [pid] has handed to the user's code. *)
Definition handed pid s : list (Z * Z * list byte) :=
  omap (fun e => match e with
                 | De_protocol p (Ev_process_message i c d) => if decide (p = pid) then Some (i, c, d) else None
                 | _ => None
                 end) (dtls_events s).

(** A message that goes as one packet, in one record. *)
Record plain m (dev : D) : Prop := {
  pl_wf : Message_Item.wf m;
  pl_id : Message_Item.id_ m = None;
  pl_flags : Message_Item.flags_ m = 0;
  pl_answer : Message_Item.answer_id_ m = None;
  pl_device : Message_Item.data_device_ m = Some dev;
  pl_open : dev_is_open dev = true;
  pl_size : dev_size dev <= Message_Item.fragment_size_ m;
  pl_cmd : Message_Item.cmd_ m <> Cmd.REMOVE_FRAGMENT /\ Message_Item.cmd_ m <> Cmd.PING;
  pl_record : 9 + Z.max (dev_size dev) (zlen (qCompress (dev_content dev))) <= MAX_PLAINTEXT_SIZE;
}.

(** A packet that a receiver which expects the message [x] hands on as [x]. *)
Definition carries (x : Z * Z * list byte) (packet : bytes) : Prop :=
  let '(i, c, data) := x in
  forall wr : World D B, next_rx_msg_id_ (self wr) = i -> rx_empty wr -> env_throws wr (Ev_process_message i c data) = false ->
  exists wr', protocol_process_bytes packet wr = (Ret tt, wr')
    /\ events wr' = events wr ++ [Ev_process_message i c data] /\ next_rx_msg_id_ (self wr') = u8 (i + 1) /\ rx_empty wr'.

(** Messages with the ids from [i] up to [j], which is not among them. *)
Fixpoint consecutive (i : Z) (xs : list (Z * Z * list byte)) (j : Z) : Prop :=
  match xs with [] => i = j | x :: xs => x.1.1 = i /\ consecutive (u8 (i + 1)) xs j end.

(** Both ends of the connection. [xs] are the messages sent and not yet handed
    on: their packets are in the record queue or, as records, on the way. The
    client gives [j] as the next id. *)
Record flow (wc : CWorld) (net : list bytes) (ss : Dtls D B C) (pc ns ps : nat) (xs : list (Z * Z * list byte)) (j : Z) : Prop := {
  fl_link : exists cc cs Pc Ps packets queued,
    connection (Client.dt wc) Client.node cc pc Pc /\ connection ss ns cs ps Ps
    /\ linked cc (zip net packets) cs /\ length net = length packets
    /\ records_queue_ ss = map (fun p => (ns, p)) queued /\ Forall2 carries xs (queued ++ packets)
    /\ next_tx_msg_id_ Pc = j /\ consecutive (next_rx_msg_id_ Ps) xs j
    /\ buffer_empty (device_ Ps) /\ packet_end_position_ Ps = [];
  fl_client : StdMap.find cep (clients_ ss) = Some ns;
  fl_id : is_u8 j;
}.

(** Both ends at rest: nothing on its way, the ids in step. *)
Definition session (wc : CWorld) (ss : Dtls D B C) (pc ns ps : nat) (i : Z) : Prop := flow wc [] ss pc ns ps [] i.

Lemma with_writer_members v (P : Protocol D B) :
  next_tx_msg_id_ (with_writer v P) = next_tx_msg_id_ P /\ next_rx_msg_id_ (with_writer v P) = next_rx_msg_id_ P
  /\ device_ (with_writer v P) = device_ P /\ packet_end_position_ (with_writer v P) = packet_end_position_ P.
Proof. by destruct P. Qed.

(** The client's handler makes one datagram. *)
Lemma client_sends m (wc : CWorld) cc pc Pc q cs packet w :
  connection (Client.dt wc) Client.node cc pc Pc -> linked cc q cs -> zlen packet <= MAX_PLAINTEXT_SIZE ->
  prepare_packet_to_send (Some m) (world_of client_env (Client.dt wc) Client.node Pc) = (Ret packet, w) ->
  exists d cc' wc', Client.run_task client_env (Task_write_message 0 m) wc = (Ret tt, wc')
    /\ connection (Client.dt wc') Client.node cc' pc (with_writer None (self w))
    /\ datagrams (Client.dt wc) (Client.dt wc') = [d] /\ linked cc' (q ++ [(d, packet)]) cs.
Proof.
  intros Hc Hl Hlen Hm. destruct (link_active _ _ _ Hl) as [Ha _].
  destruct (link_send _ _ _ packet Hl Hlen) as (d & cc' & Es & Hl').
  destruct (run_protocol_ok client_env _ _ _ _ _ _ _ _ Hc Hm) as (s1 & E1 & Hc1 & L1 & V1).
  exists d, cc'. destruct wc as [ct s]. simpl in *.
  pose proof Hc1 as (n1 & Hn1 & Hd1 & _).
  set (s2 := with_dtls_events (dtls_events s1 ++ [De_packet Client.node packet]) s1).
  set (s3 := with_dtls_events (dtls_events s2 ++ [De_datagram (receiver_endpoint_ n1) d]) s2).
  assert (connection s3 Client.node cc pc (with_writer None (self w))) as Hc3
    by (apply (connection_nodes s1); [unfold s3, s2; by destruct s1..|done]).
  destruct (connection_channel s3 Client.node cc cc' pc _ Hc3) as (s4 & E4 & Hc4 & L4 & V4).
  exists (Client.mkWorld ct s4). split_and!; try done.
  - unfold Client.run_task, Client.lift. simpl. unfold write_impl_message.
    destruct Hc as (n & Hn & Hd & Hp & Hpo). rewrite bind_deref, Hn, Hd, Hp, Ha.
    rewrite (bind_Ret _ _ _ _ _ E1). unfold channel_send. erewrite bind_Ret by reflexivity. fold s2. rewrite Es.
    assert (emit_all Client.node [d] s2 = (Ret tt, s3)) as Eem.
    { cbn [emit_all]. unfold tls_emit_data. rewrite bind_assoc, bind_deref.
      replace (nodes s2 !! Client.node) with (Some n1) by (unfold s2; destruct s1; simpl in *; by rewrite Hn1).
      by erewrite bind_Ret by reflexivity. }
    rewrite (bind_Ret _ _ _ _ _ Eem). by rewrite E4.
  - unfold datagrams. simpl. rewrite V4. unfold s3, s2. replace (dtls_events (with_dtls_events _ _))
      with (dtls_events s1 ++ [De_packet Client.node packet] ++ [De_datagram (receiver_endpoint_ n1) d])
      by (destruct s1; simpl; by rewrite <- app_assoc).
    rewrite V1, <- app_assoc, drop_app_length, omap_app. 
    assert (omap datagram_of (omap (user_event pc) (events w)) = []) as ->; [|done].
    clear. induction (events w) as [|e es IH]; [done|].
    transitivity (omap datagram_of (omap (user_event pc) es)); [by destruct e|exact IH].
Qed.

(** A node in the map of clients is not destroyed. *)
Lemma client_held s ns : StdMap.find cep (clients_ s) = Some ns -> node_held Server_Side s ns = true.
Proof. intros Hf. unfold node_held. rewrite !orb_true_iff. do 4 left. apply bool_decide_eq_true. by apply (find_value _ cep). Qed.

Lemma hold_client {A} s ns (m : DTM D B C A) a s1 :
  m (with_local_nodes (ns :: local_nodes s) s) = (Ret a, s1) -> StdMap.find cep (clients_ s1) = Some ns ->
  local_nodes s1 = ns :: local_nodes s ->
  hold_node server_env Server_Side ns m s = (Ret a, with_local_nodes (local_nodes s) s1).
Proof.
  intros Em Hf Hl. unfold hold_node, bind at 1, modify, scoped. rewrite Em.
  unfold bind, modify, ret. rewrite Hl. simpl tail. unfold drop_node.
  by rewrite (client_held (with_local_nodes (local_nodes s) s1) ns) by (by destruct s1).
Qed.

(** The server's socket handler puts the record into the queue. *)
Lemma server_queues s ns cs ps Ps d b1 packet k cs' :
  connection s ns cs ps Ps -> StdMap.find cep (clients_ s) = Some ns -> ch_is_active cs = true ->
  ch_received_data d cs = Act_call b1 (Cb_record_received packet) k -> k Rep_done = Act_return cs' ->
  exists s', handle_receive server_env cep d false s = (Ret tt, s')
    /\ connection s' ns cs' ps Ps /\ clients_ s' = clients_ s /\ records_queue_ s' = records_queue_ s ++ [(ns, packet)]
    /\ local_nodes s' = local_nodes s /\ local_protocols s' = local_protocols s
    /\ dtls_events s' = dtls_events s ++ [De_start_receive].
Proof.
  intros Hc Hf Ha Er Ek. set (sl := with_local_nodes (ns :: local_nodes s) s).
  set (s0 := with_dtls_events (dtls_events sl ++ [De_start_receive]) sl).
  assert (connection s0 ns cs ps Ps) as Hc0 by (apply (connection_nodes s); [unfold s0, sl; by destruct s..|done]).
  destruct (connection_channel s0 ns cs b1 ps Ps Hc0) as (s1 & E1 & Hc1 & L1 & V1).
  set (s2 := with_records (records_queue_ s1 ++ [(ns, packet)]) s1).
  assert (connection s2 ns b1 ps Ps) as Hc2 by (apply (connection_nodes s1); [unfold s2; by destruct s1..|done]).
  destruct (connection_channel s2 ns b1 cs' ps Ps Hc2) as (s3 & E3 & Hc3 & L3 & V3).
  assert ((start_receive ;;; process_data server_env ns d) sl = (Ret tt, s3)) as Em.
  { unfold start_receive. erewrite bind_Ret by reflexivity. fold s0.
    unfold process_data, process_received_data, try_catch, received_data_body.
    destruct Hc0 as (n & Hn & Hd & Hp & Hpo). rewrite bind_deref, Hn, Hd, Er. cbn [run_activity].
    rewrite bind_assoc, (bind_Ret _ _ _ _ _ E1). rewrite bind_assoc.
    assert (run_callback server_env Server_Side ns (Cb_record_received packet) s1 = (Ret Rep_done, s2)) as Ecb by reflexivity.
    rewrite (bind_Ret _ _ _ _ _ Ecb), Ek. cbn [run_activity]. rewrite (bind_Ret _ _ _ _ _ E3). by rewrite Ha. }
  assert (clients_ s3 = clients_ s /\ local_nodes s3 = ns :: local_nodes s /\ local_protocols s3 = local_protocols s
    /\ records_queue_ s3 = records_queue_ s ++ [(ns, packet)]) as (Q1 & Q2 & Q3 & Q4).
  { destruct L1 as [A1 A2 A3 A4], L3 as [B1 B2 B3 B4]. rewrite B1, B2, B3, B4. unfold s2. destruct s1. simpl in *. subst.
    unfold s0, sl. by destruct s. }
  exists (with_local_nodes (local_nodes s) s3). split_and!.
  - unfold handle_receive. cbn iota.
    assert (DtlsServer.get_node server_env cep s = (Ret (Some ns), s)) as Eg
      by (unfold DtlsServer.get_node, find_client, bind, gets; by rewrite Hf).
    rewrite (bind_Ret _ _ _ _ _ Eg). apply hold_client; [exact Em|by rewrite Q1|done].
  - by apply (connection_nodes s3); [destruct s3..|].
  - by destruct s3.
  - by destruct s3.
  - by destruct s3.
  - by destruct s3.
  - transitivity (dtls_events s3); [by destruct s3|]. rewrite V3. unfold s2. transitivity (dtls_events s1); [by destruct s1|].
    rewrite V1. unfold s0, sl. by destruct s.
Qed.

(** A record thread lets the protocol of the record's node process it. *)
Lemma server_processes s ns cs ps Ps packet q w :
  connection s ns cs ps Ps -> StdMap.find cep (clients_ s) = Some ns -> records_queue_ s = (ns, packet) :: q ->
  (forall s1 : Dtls D B C, nodes s1 = nodes s -> dtls_ticks s1 = dtls_ticks s ->
     protocol_process_bytes packet (world_of server_env s1 ns Ps) = (Ret tt, w)) ->
  exists s', process_record server_env s = (Ret tt, s')
    /\ connection s' ns cs ps (with_writer None (self w)) /\ clients_ s' = clients_ s /\ records_queue_ s' = q
    /\ dtls_events s' = dtls_events s ++ omap (user_event ps) (events w).
Proof.
  intros Hc Hf Hq Hm. set (s0 := with_records q s). set (sl := with_local_nodes (ns :: local_nodes s0) s0).
  set (sp := with_local_protocols (ps :: local_protocols sl) sl).
  assert (connection sp ns cs ps Ps) as Hcp by (apply (connection_nodes s); [unfold sp, sl, s0; by destruct s..|done]).
  destruct (run_protocol_ok server_env sp ns cs ps Ps (protocol_process_bytes packet) tt w Hcp) as (s1 & E1 & Hc1 & [L1 L2 L3 L4] & V1).
  { apply Hm; unfold sp, sl, s0; by destruct s. }
  set (s2 := with_local_protocols (local_protocols sl) s1).
  assert (connection s2 ns cs ps (with_writer None (self w))) as Hc2 by (by apply (connection_nodes s1); [unfold s2; destruct s1..|]).
  assert ((let* n := deref ns in
           match node_protocol_ n with
           | Some pid => hold_protocol server_env pid (run_protocol server_env pid (protocol_process_bytes packet))
           | None => ret tt
           end) sl = (Ret tt, s2)) as Ein.
  { destruct Hcp as (n & Hn & Hd & Hp & Hpo). rewrite bind_deref.
    replace (nodes sl !! ns) with (Some n) by (rewrite <- Hn; unfold sp; by destruct sl). rewrite Hp.
    unfold hold_protocol, bind at 1, modify at 1, scoped. fold sp. rewrite E1. unfold bind, modify, ret. rewrite L4.
    replace (tail (local_protocols sp)) with (local_protocols sl) by (unfold sp; by destruct sl). fold s2. unfold drop_protocol.
    by rewrite (connection_protocol_held server_env s2 ns cs ps _ Hc2). }
  exists (with_local_nodes (local_nodes s0) s2). split_and!.
  - unfold process_record, bind at 1, gets. rewrite Hq. erewrite bind_Ret by reflexivity. fold s0.
    apply (hold_client s0 ns _ tt s2 Ein).
    + unfold s2. destruct s1. simpl in *. rewrite L1. unfold sp, sl, s0. by destruct s.
    + unfold s2. destruct s1. simpl in *. rewrite L3. unfold sp, sl, s0. by destruct s.
  - by apply (connection_nodes s2); [destruct s2..|].
  - unfold s2. destruct s1. simpl in *. rewrite L1. unfold sp, sl, s0. by destruct s.
  - unfold s2. destruct s1. simpl in *. rewrite L2. unfold sp, sl, s0. by destruct s.
  - unfold s2. destruct s1. simpl in *. rewrite V1. unfold sp, sl, s0. by destruct s.
Qed.

(** The packet a plain message is turned into. *)
Lemma plain_packet m dev (ws : World D B) :
  plain m dev -> is_u8 (next_tx_msg_id_ (self ws)) ->
  exists packet w1, prepare_packet_to_send (Some m) ws = (Ret packet, w1)
    /\ carries (next_tx_msg_id_ (self ws), Message_Item.cmd_ m, dev_content dev) packet
    /\ zlen packet <= MAX_PLAINTEXT_SIZE /\ next_tx_msg_id_ (self w1) = u8 (next_tx_msg_id_ (self ws) + 1).
Proof.
  intros [Hwf Hid Hfl Ha Hd Hop Hsz [Hc1 Hc2] Hre] Hi. set (i := next_tx_msg_id_ (self ws)).
  assert (msg_id_of m ws = i) as Eid by (unfold msg_id_of; by rewrite Hid).
  assert (zlen (qCompress (dev_content dev)) < 2000000000) as Hcm by (unfold MAX_PLAINTEXT_SIZE in Hre; lia).
  pose proof (plain_round_trip ws) as Hrt. destruct (prepare_packet_value m dev ws Hd) as (w1 & E1).
  set (packet := expected_packet m dev ws) in *. exists packet, w1. split; [done|].
  assert (forall wr : World D B, next_rx_msg_id_ (self wr) = i -> rx_empty wr ->
    env_throws wr (Ev_process_message i (Message_Item.cmd_ m) (dev_content dev)) = false ->
    exists wr', protocol_process_bytes packet wr = (Ret tt, wr')
      /\ events wr' = events wr ++ [Ev_process_message i (Message_Item.cmd_ m) (dev_content dev)]
      /\ next_rx_msg_id_ (self wr') = u8 (i + 1) /\ rx_empty wr' /\ zlen packet <= MAX_PLAINTEXT_SIZE) as Hcar.
  { intros wr Hn He Hth.
    destruct (Hrt wr m dev Hwf Hi Hfl Ha Hd Hop Hsz Hc1 Hc2 Hcm) as (packet' & w1' & wr' & F1 & F2 & F3 & F4 & F5 & F6);
      rewrite ?Eid; try done.
    rewrite E1 in F1. injection F1 as <- <-. exists wr'. rewrite Eid in F3, F4. split_and!; try done. lia. }
  split; [|split].
  - intros wr Hn He Hth. destruct (Hcar wr Hn He Hth) as (wr' & ?). exists wr'. tauto.
  - destruct (buffer_opens (new_QBuffer : B)) as [b Eb]; [apply new_QBuffer_spec|].
    destruct (open_content _ _ Eb) as (Cb & _ & Ob).
    destruct (Hcar (mkWorld (with_next_rx i (with_device b init)) (fun _ => 0) (fun _ => false) 0 [])) as (wr' & _ & _ & _ & _ & Hl);
      [done| |done|done]. split; [|done]. split; [done|]. simpl. rewrite Cb. apply new_QBuffer_spec.
  - pose proof (prepare_small_tx m dev ws Hd Hid Hsz) as Hp. by rewrite E1 in Hp.
Qed.

Lemma consecutive_snoc i xs j c data :
  consecutive i xs j -> consecutive i (xs ++ [(j, c, data)]) (u8 (j + 1)).
Proof. revert i. induction xs as [|x xs IH]; intros i; cbn [app consecutive]; [by intros ->|]. intros [? ?]. split; auto. Qed.

(** The client writes a message. *)
Lemma write_step m dev wc net ss pc ns ps xs j :
  flow wc net ss pc ns ps xs j -> plain m dev ->
  exists wc' net', act (Write m) (wc, net, ss) = Some (wc', net', ss)
    /\ flow wc' net' ss pc ns ps (xs ++ [(j, Message_Item.cmd_ m, dev_content dev)]) (u8 (j + 1)).
Proof.
  intros [(cc & cs & Pc & Ps & packets & queued & Hcc & Hcs & Hl & Hlen & Hq & Hcar & Htx & Hcon & Hbe & Hpe) Hf Hj] Hm.
  set (ws := world_of client_env (Client.dt wc) Client.node Pc).
  assert (next_tx_msg_id_ (self ws) = j) as Etx by (rewrite <- Htx; apply with_writer_members).
  destruct (plain_packet m dev ws Hm) as (packet & w1 & E1 & Hc & Hz & Hn); [by rewrite Etx|]. rewrite Etx in Hc, Hn.
  destruct (client_sends m wc cc pc Pc _ cs packet w1 Hcc Hl Hz E1) as (d & cc' & wc' & F1 & F2 & F3 & F4).
  exists wc', (net ++ [d]). split; [cbn [act]; by rewrite F1, F3|]. constructor; [|done|apply u8_range].
  exists cc', cs, (with_writer None (self w1)), Ps, (packets ++ [packet]), queued.
  split; [done|]. split; [done|]. split; [by rewrite zip_with_app by done|]. split; [rewrite !length_app; simpl; lia|].
  split; [done|]. split; [rewrite app_assoc; apply Forall2_app; [done|by constructor]|].
  split; [rewrite <- Hn; apply with_writer_members|]. split; [by apply consecutive_snoc|done].
Qed.

(** A datagram arrives. *)
Lemma arrive_step wc net ss pc ns ps xs j :
  flow wc net ss pc ns ps xs j ->
  exists net' ss', act Arrive (wc, net, ss) = Some (wc, net', ss') /\ flow wc net' ss' pc ns ps xs j
    /\ handed ps ss' = handed ps ss.
Proof.
  intros Hfl. destruct net as [|d net]; [by exists [], ss|].
  destruct Hfl as [(cc & cs & Pc & Ps & packets & queued & Hcc & Hcs & Hl & Hlen & Hq & Hcar & Htx & Hcon & Hbe & Hpe) Hf Hj].
  destruct packets as [|packet packets]; [done|]. cbn [zip_with] in Hl.
  destruct (link_receive _ _ _ _ _ Hl) as (b1 & cs' & k & Er & Ek & Hl').
  destruct (server_queues ss ns cs ps Ps d b1 packet k cs' Hcs Hf (proj2 (link_active _ _ _ Hl)) Er Ek)
    as (s1 & G1 & G2 & G3 & G4 & G5 & G6 & G7).
  exists net, s1. split; [cbn [act]; by rewrite G1|]. split.
  - constructor; [|by rewrite G3|done]. exists cc, cs', Pc, Ps, packets, (queued ++ [packet]).
    split_and!; try done; [by injection Hlen|by rewrite G4, Hq, map_app|by rewrite <- app_assoc].
  - unfold handed. by rewrite G7, omap_app, app_nil_r.
Qed.

(** The record thread takes a record: the first message on its way is handed
    on. *)
Lemma process_step wc net ss pc ns ps xs j :
  (forall i c d, de_throws server_env (Ev_process_message i c d) = false) ->
  flow wc net ss pc ns ps xs j ->
  exists ss' xs', act Process (wc, net, ss) = Some (wc, net, ss') /\ flow wc net ss' pc ns ps xs' j
    /\ handed ps ss' ++ xs' = handed ps ss ++ xs.
Proof.
  intros Hth Hfl. destruct Hfl as [(cc & cs & Pc & Ps & packets & queued & Hcc & Hcs & Hl & Hlen & Hq & Hcar & Htx & Hcon & Hbe & Hpe) Hf Hj] eqn:Efl.
  destruct queued as [|packet queued].
  { exists ss, xs. split; [|done]. cbn [act]. unfold process_record, bind, gets. by rewrite Hq. }
  clear Efl Hfl. inversion Hcar as [|x ? xs' ? Hx Hxs]; subst. destruct x as [[i c] data]. cbn [consecutive fst] in Hcon. destruct Hcon as [Hi Hcon].
  assert (forall s1 : Dtls D B C, exists w2, protocol_process_bytes packet (world_of server_env s1 ns Ps) = (Ret tt, w2)
    /\ events w2 = [Ev_process_message i c data] /\ next_rx_msg_id_ (self w2) = u8 (i + 1) /\ rx_empty w2) as Hrun.
  { intros s1. destruct (with_writer_members (writer_view s1 (Some ns)) Ps) as (_ & M2 & M3 & M4).
    apply Hx; [by rewrite M2 || rewrite Hi|unfold rx_empty, world_of; cbn [self]; by rewrite M3, M4|apply Hth]. }
  destruct (Hrun ss) as (w2 & E2 & E3 & E4 & E5).
  destruct (server_processes ss ns cs ps Ps packet (map (fun p => (ns, p)) queued) w2 Hcs Hf Hq) as (s2 & K1 & K2 & K3 & K4 & K5).
  { intros s1' Hn Ht. rewrite <- E2. unfold world_of, writer_view. by rewrite Hn, Ht. }
  destruct (with_writer_members None (self w2)) as (_ & W2 & W3 & W4).
  exists s2, xs'. split; [cbn [act]; by rewrite K1|]. split.
  - constructor; [|by rewrite K3|done]. exists cc, cs, Pc, (with_writer None (self w2)), packets, queued.
    rewrite W2, W3, W4, E4, <- Hi in *. destruct E5. split_and!; done.
  - unfold handed. rewrite K5, E3, omap_app. cbn. rewrite decide_True by done. by rewrite <- app_assoc.
Qed.

(** The messages of the writes, with their devices, and their ids. *)
Fixpoint writes (l : list action) (ms : list (Message_Item.t D * D)) : Prop :=
  match l, ms with
  | [], [] => True
  | Write m :: l, (m', dev) :: ms => m = m' /\ plain m dev /\ writes l ms
  | Write _ :: _, [] => False
  | _ :: l, ms => writes l ms
  | [], _ :: _ => False
  end.

Fixpoint numbered (i : Z) (ms : list (Message_Item.t D * D)) : list (Z * Z * list byte) :=
  match ms with
  | [] => []
  | (m, dev) :: ms => (i, Message_Item.cmd_ m, dev_content dev) :: numbered (u8 (i + 1)) ms
  end.

Lemma act_all_flow l : forall ms wc net ss pc ns ps xs j,
  (forall i c d, de_throws server_env (Ev_process_message i c d) = false) ->
  flow wc net ss pc ns ps xs j -> writes l ms ->
  exists wc' net' ss' xs', act_all l (wc, net, ss) = Some (wc', net', ss')
    /\ flow wc' net' ss' pc ns ps xs' (u8 (j + zlen ms))
    /\ handed ps ss' ++ xs' = handed ps ss ++ xs ++ numbered j ms.
Proof.
  induction l as [|a l IH]; intros ms wc net ss pc ns ps xs j Hth Hfl Hw.
  { destruct ms; [|done]. exists wc, net, ss, xs. rewrite app_nil_r, zlen_nil, Z.add_0_r, u8_small; [done|by destruct Hfl]. }
  destruct a as [m| |].
  - destruct ms as [|[m' dev] ms]; [done|]. destruct Hw as (<- & Hm & Hw).
    destruct (write_step m dev wc net ss pc ns ps xs j Hfl Hm) as (wc1 & net1 & E1 & Hfl1).
    destruct (IH ms wc1 net1 ss pc ns ps _ _ Hth Hfl1 Hw) as (wc' & net' & ss' & xs' & E & Hf' & Hh).
    exists wc', net', ss', xs'. cbn [act_all]. rewrite E1. split; [done|]. split; [|by rewrite Hh, <- app_assoc].
    replace (u8 (j + zlen ((m, dev) :: ms))) with (u8 (u8 (j + 1) + zlen ms)); [done|].
    unfold u8. rewrite Zplus_mod_idemp_l. f_equal. unfold zlen. simpl length. lia.
  - destruct (arrive_step wc net ss pc ns ps xs j Hfl) as (net1 & ss1 & E1 & Hfl1 & Hh1).
    destruct (IH ms wc net1 ss1 pc ns ps xs j Hth Hfl1 Hw) as (wc' & net' & ss' & xs' & E & Hf' & Hh).
    exists wc', net', ss', xs'. cbn [act_all]. rewrite E1. by rewrite Hh, Hh1.
  - destruct (process_step wc net ss pc ns ps xs j Hth Hfl) as (ss1 & xs1 & E1 & Hfl1 & Hh1).
    destruct (IH ms wc net ss1 pc ns ps xs1 j Hth Hfl1 Hw) as (wc' & net' & ss' & xs' & E & Hf' & Hh).
    exists wc', net', ss', xs'. cbn [act_all]. rewrite E1. by rewrite Hh, !app_assoc, Hh1.
Qed.

(** Nothing is left when nothing is on its way and no record waits. *)
Lemma flow_rest wc ss pc ns ps xs j : flow wc [] ss pc ns ps xs j -> records_queue_ ss = [] -> xs = [].
Proof.
  intros [(cc & cs & Pc & Ps & packets & queued & _ & _ & _ & Hlen & Hq & Hcar & _) _ _] Hr.
  rewrite Hr in Hq. destruct queued; [|done]. destruct packets; [|done]. by inversion Hcar.
Qed.

(** C11. Messages arrive over a network that keeps the order of the datagrams
    and loses none. On an established connection between a client and a server
    with one record thread, with the ids in step and nothing on its way, let
    messages that fit in a packet and a TLS record each be written on the
    client, while datagrams arrive and the record thread takes records, in any
    interleaving. Every message goes through the posted handler, the client's
    protocol, the channel, a datagram, the server's socket, its channel, the
    record queue and the record thread. What the server's protocol has handed
    to the user's code is, at any time, a beginning of the messages written,
    in order, each once, with their bytes; once nothing is on its way and no
    record waits it is all of them, and the connection is as at the start. *)
Theorem transport_delivers l ms wc ss pc ns ps i :
  (forall j c d, de_throws server_env (Ev_process_message j c d) = false) ->
  session wc ss pc ns ps i -> writes l ms ->
  exists wc' net ss' rest, act_all l (wc, [], ss) = Some (wc', net, ss')
    /\ handed ps ss' ++ rest = handed ps ss ++ numbered i ms
    /\ (net = [] -> records_queue_ ss' = [] -> rest = [] /\ session wc' ss' pc ns ps (u8 (i + zlen ms))).
Proof.
  intros Hth Hse Hw. destruct (act_all_flow l ms wc [] ss pc ns ps [] i Hth Hse Hw) as (wc' & net & ss' & xs & E & Hfl & Hh).
  exists wc', net, ss', xs. split; [done|]. split; [done|]. intros -> Hr.
  pose proof (flow_rest _ _ _ _ _ _ _ Hfl Hr) as ->. split; [done|exact Hfl].
Qed.

End transport.

(** ** Concrete instance *)

Module Transport_Witness.
Import QtRef Receive_Witness.

(** A channel without encryption. *)
#[local] Instance clear_channel : TlsChannel bool := {|
  ch_is_active := id;
  ch_received_data d c := Act_call c (Cb_record_received d) (fun _ => Act_return c);
  ch_timeout_check c := (false, [], c);
  ch_send d c := ([d], Some c);
  ch_close c := [];
  ch_application_protocol _ := [];
  new_Server := true;
  new_Client _ _ _ := true;
|}.

#[local] Instance clear_link : TlsLink bool.
Proof.
  refine {| linked a q b := a = true /\ b = true /\ Forall (fun x : bytes * bytes => x.1 = x.2) q |}.
  - intros a q b (-> & -> & _). split; reflexivity.
  - intros a q b data (-> & -> & Hq) _. exists data, true. split_and!; try reflexivity.
    apply Forall_app. split; [exact Hq|]. constructor; [reflexivity|constructor].
  - intros a d data q b (-> & -> & Hq). inversion Hq as [|x l Hx Hl]; subst. simpl in Hx. subst.
    exists true, true, (fun _ => Act_return true). split_and!; try reflexivity. exact Hl.
Defined.

Definition both : Dtls mem mem bool :=
  mkDtls {[ 0%nat := mkNode (Some true) (Some 1%nat) 70000 [] 0 false ]} {[ 1%nat := mkProto init (Some 0%nat) ]} 2 [(70000, 0%nat)] []
    Protocol_Timer.init [] [] [] 0 [].

Lemma both_connection : connection both 0 true 1 init.
Proof. exists (mkNode (Some true) (Some 1%nat) 70000 [] 0 false). split_and!; reflexivity. Qed.

(** Two messages on their way at once. *)
Lemma transport_delivers_witness :
  let l := [Write msg3; Arrive; Write msg3; Arrive; Process; Process] in
  exists wc' net ss', act_all Dtls_Witness.env0 Dtls_Witness.env0 70000 l (Client.mkWorld Client.init both, [], both) = Some (wc', net, ss')
    /\ handed 1 ss' = [(0, 16, [x01; x02; x03]); (1, 16, [x01; x02; x03])].
Proof.
  intros l. destruct (transport_delivers Dtls_Witness.env0 Dtls_Witness.env0 70000 l [(msg3, dev3); (msg3, dev3)]
    (Client.mkWorld Client.init both) both 1 0 1 0) as (wc' & net & ss' & rest & E & Hh & Hr).
  - reflexivity.
  - constructor; [|reflexivity|unfold is_u8; lia].
    exists true, true, init, init, [], []. split; [exact both_connection|]. split; [exact both_connection|].
    split; [split; [reflexivity|split; [reflexivity|constructor]]|]. repeat split; try reflexivity. constructor.
  - assert (plain msg3 dev3) as Hp.
    { constructor; try reflexivity; try discriminate.
      - apply Message_Item.make_wf; [unfold is_u8; lia|discriminate].
      - split; discriminate. }
    repeat (split; [first [reflexivity|exact Hp]|]); try exact I.
  - exists wc', net, ss'. split; [exact E|].
    assert (net = [] /\ records_queue_ ss' = []) as [En Er] by (vm_compute in E; injection E as _ <- <-; split; reflexivity).
    destruct (Hr En Er) as [-> _]. rewrite app_nil_r in Hh. exact Hh.
Defined.

End Transport_Witness.
