(* ===== verification/DtlsClientProofs.v ===== *)
(** * The client: reconnection and the end of its thread *)

From S2P Require Import Prelude StdMap QtInterface MessageItem FragmentedMessage ProtocolState ProtocolSend ProtocolRecv ProtocolStream ProtocolTimer DtlsNode DtlsInvariant DtlsClient.
Open Scope Z_scope.
Open Scope helpz_scope.

(** ** Client_Thread *)

Module Client_Thread_Proofs.
Import Client_Thread.

(** Every client made is closed or is [client_]; after [stop] that one is
    closed too. *)
Record tinv (s : t) : Prop := {
  ti_made : forall c, (c < made s)%nat -> client_ s = Some c \/ c ∈ closed s;
  ti_client : forall c, client_ s = Some c -> (c < made s)%nat;
  ti_stop : stop_flag_ s = true -> forall c, client_ s = Some c -> c ∈ closed s;
  ti_end : thread_ s = Finished -> stop_flag_ s = true /\ client_ s = None;
  ti_run : thread_ s = Running -> is_Some (client_ s);
}.

Lemma stop_tinv s : tinv s -> tinv (stop s).
Proof.
  intros [I1 I2 I3 I4 I5]. unfold stop, close_client. simpl. destruct (client_ s) as [c|] eqn:Ec.
  - constructor; simpl; rewrite ?Ec in *; try done.
    + intros c' Hc. destruct (I1 _ Hc) as [|]; [auto|]. right. apply elem_of_app. auto.
    + intros _ c' [= <-]. apply elem_of_app. right. by apply list_elem_of_singleton.
    + intros He. by destruct (I4 He).
  - constructor; simpl; rewrite ?Ec in *; try done.
Qed.

Lemma finish_tinv s : tinv s -> tinv (finish s).
Proof.
  intros Hs. destruct (stop_tinv s Hs) as [I1 I2 I3 I4 I5]. unfold finish. constructor; simpl; try done.
  - intros c Hc. right. destruct (I1 c Hc) as [E|]; [|done]. apply I3; [|done].
    unfold stop, close_client. simpl. by destruct (client_ s).
  - intros _. split; [|done]. unfold stop, close_client. simpl. by destruct (client_ s).
Qed.

Lemma start_tinv ok s : tinv s -> tinv (start ok s).
Proof.
  intros [I1 I2 I3 I4 I5]. unfold start. destruct (stop_flag_ s) eqn:Es.
  - constructor; simpl; auto; rewrite ?Es; auto; done.
  - assert (made (close_client s) = made s /\ stop_flag_ (close_client s) = false
      /\ forall c, (c < made s)%nat -> c ∈ closed (close_client s)) as (Em & Ef & Hc).
    { unfold close_client. destruct (client_ s) as [c0|] eqn:Ec; simpl; split_and!; try done.
      - intros c Hc. apply elem_of_app. destruct (I1 c Hc) as [|]; [right; simplify_eq; by apply list_elem_of_singleton|auto].
      - intros c Hc. by destruct (I1 c Hc). }
    constructor; simpl; rewrite ?Em, ?Ef; try done.
    + intros c Hc'. destruct (decide (c = made s)) as [->|]; [auto|]. right. apply Hc. lia.
    + intros c [= <-]. lia.
    + by destruct ok.
Qed.

Lemma client_step_tinv s s' : tinv s -> step s s' -> tinv s'.
Proof.
  intros Hs. inversion 1 as [ok ? ? Hr|]; subst; [|by apply stop_tinv].
  pose proof Hs as [I1 I2 I3 I4 I5]. unfold run_step in Hr.
  destruct (thread_ s) eqn:Et; simplify_eq.
  - destruct ok; [|by apply finish_tinv]. by constructor.
  - destruct (stop_flag_ s) eqn:Es; [by apply finish_tinv|]. destruct is_first_connect; constructor; simpl; try done; by rewrite Es.
  - by constructor.
  - by apply start_tinv.
  - destruct (run_returns _ _); simplify_eq. by constructor.
Qed.

(** Steps left once [stop] was called. *)
Definition to_finish (p : point) : nat :=
  match p with Finished => 0 | At_loop _ => 1 | Constructing => 2 | Starting => 2 | Running => 2 | Sleeping => 3 end.

(** C24. The client thread can always be ended: in every reachable state
    each client object made so far is closed or is the current one, so at
    most one is open; once [stop] has been called the current one is closed
    too, and a thread that has not finished is never blocked: whatever its
    calls return or throw, each of its steps brings it nearer to the end (at
    most three steps in all), where every client made has been closed. *)
Theorem client_thread_stops s :
  rtc step init s ->
  (forall c, (c < made s)%nat -> client_ s = Some c \/ c ∈ closed s)
  /\ (thread_ s = Finished -> stop_flag_ s = true /\ forall c, (c < made s)%nat -> c ∈ closed s)
  /\ (stop_flag_ s = true -> thread_ s <> Finished ->
      forall ok, exists s', run_step ok s = Some s' /\ stop_flag_ s' = true /\ made s' = made s
        /\ (to_finish (thread_ s') < to_finish (thread_ s) <= 3)%nat).
Proof.
  intros Hr.
  assert (tinv s) as Hs.
  { assert (forall x y, rtc step x y -> tinv x -> tinv y) as Hgen
      by (induction 1; eauto using client_step_tinv).
    apply (Hgen _ _ Hr). constructor; simpl; try done. intros c Hc. lia. }
  pose proof Hs as [I1 I2 I3 I4 I5]. split; [exact I1|]. split.
  { intros He. destruct (I4 He) as [Hf Hc]. split; [done|]. intros c Hlt. by destruct (I1 c Hlt) as [E|]; [rewrite Hc in E|]. }
  intros Hf Hne ok. unfold run_step, start. rewrite Hf.
  assert (stop_flag_ (finish s) = true /\ made (finish s) = made s) as [F1 F2].
  { unfold finish, stop, close_client. simpl. by destruct (client_ s). }
  destruct (thread_ s) eqn:Et; try done.
  - destruct ok; (eexists; split; [reflexivity|]); split_and!; try done; simpl; lia.
  - eexists; split; [reflexivity|]; split_and!; try done; simpl; lia.
  - eexists; split; [reflexivity|]; split_and!; try done; simpl; lia.
  - eexists; split; [reflexivity|]; split_and!; try done; simpl; lia.
  - destruct (I5 eq_refl) as [c Ec]. unfold run_returns. rewrite Ec, bool_decide_eq_true_2 by auto. rewrite orb_true_r.
    eexists; split; [reflexivity|]; split_and!; try done; simpl; lia.
Qed.

Lemma client_thread_stops_witness :
  rtc step init (stop (mk false 1 [] (Some 0%nat) Running))
  /\ (exists s', run_step true (stop (mk false 1 [] (Some 0%nat) Running)) = Some s').
Proof.
  assert (rtc step init (stop (mk false 1 [] (Some 0%nat) Running))) as Hr.
  { do 3 (eapply rtc_l; [by eapply (step_run true)|]). eapply rtc_l; [apply step_stop|]. apply rtc_refl. }
  split; [exact Hr|].
  destruct (client_thread_stops _ Hr) as (_ & _ & H).
  destruct (H eq_refl ltac:(discriminate) true) as (s' & E & _). exists s'. exact E.
Defined.

End Client_Thread_Proofs.

(** ** Client: the deadline timer *)

Module Client_Proofs.

Section client.
Context {D B C : Type} `{QIODevice D} `{QIODevice B, !QBuffer B} `{QDataStream} `{QtBytes} `{TlsChannel C}.
Context (env : Env D).
Implicit Types (s : Dtls D B C) (w : Client.World (D := D) (B := B) (C := C)).

(** The message [send_ping] builds at time [t]. *)
Definition ping_message (t : Z) : Message_Item.t D :=
  let m := Protocol_Sender.msg_ (Protocol_Sender.on_msg
    (fun m => Message_Item.with_resend_timeout (seconds 1) (Message_Item.with_end_time (t + seconds 10) m))
    (Protocol_Sender.on_msg (Message_Item.with_timeout_func None)
      (Protocol_Sender.make true Cmd.PING None None (milliseconds 3000)))) in
  Message_Item.with_data_device
    ((fun d => dev_seek (dev_size d) d) <$> Message_Item.data_device_ m) m.

Lemma send_ping_ok (pw : World D B) wr :
  protocol_writer_ (self pw) = Some wr -> has_protocol wr = true ->
  send_ping pw = (Ret tt, mkWorld (self pw) (env_clock pw) (env_throws pw) (S (ticks pw))
                            (events pw ++ [Ev_write (ping_message (env_clock pw (ticks pw)))])).
Proof.
  intros Hw Hh. unfold send_ping, send, send_answer, writer, member, gets, Protocol_Sender.timeout, now, bind, ret.
  rewrite Hw, Hh. unfold Protocol_Sender.dtor, send_message, writer, member, gets, bind. simpl. rewrite Hw. done.
Qed.

(** The protocol of the node sends the ping through the node: it is posted. *)
Lemma run_ping_ok s nid n pid po :
  nodes s !! nid = Some n -> node_protocol_ n = Some pid ->
  protocols s !! pid = Some po -> proto_writer po = Some nid ->
  exists s', run_protocol env pid send_ping s = (Ret tt, s') /\ nodes s' = nodes s
    /\ dtls_ticks s' = S (dtls_ticks s)
    /\ io_tasks s' = io_tasks s ++ [Task_write_message (receiver_endpoint_ n) (ping_message (de_clock env (dtls_ticks s)))].
Proof.
  intros Hn Hp Hpo Hw. unfold run_protocol. rewrite Hpo, Hw.
  set (wr := {| title_ := node_title_ n; last_msg_recv_time_ := node_last_msg_recv_time_ n; has_protocol := true |}).
  assert (writer_view s (Some nid) = Some wr) as ->.
  { unfold writer_view. rewrite Hn, bool_decide_eq_true_2 by (rewrite Hp; eauto). done. }
  erewrite send_ping_ok; [|by destruct (proto_state po)|done].
  assert (store_writer (Some nid) (Some wr) (nodes s) = nodes s) as Hst.
  { unfold store_writer. apply alter_id. intros m Hm. rewrite Hn in Hm. injection Hm as <-. by destruct n. }
  replace (protocol_writer_ _) with (Some wr) by (by destruct (proto_state po)).
  cbn [self ticks events].
  set (s1 := with_ticks (S (dtls_ticks s)) _).
  assert (nodes s1 = nodes s /\ dtls_ticks s1 = S (dtls_ticks s) /\ io_tasks s1 = io_tasks s) as (N1 & T1 & O1).
  { subst s1. destruct s; simpl in *. by rewrite Hst. }
  exists (with_tasks (io_tasks s1 ++ [Task_write_message (receiver_endpoint_ n) (ping_message (de_clock env (dtls_ticks s)))]) s1).
  split_and!; [|by rewrite <- N1; destruct s1|by rewrite <- T1; destruct s1|by rewrite <- O1; destruct s1].
  cbn [protocol_events protocol_event app env_clock]. unfold write_message, deref, bind. by rewrite N1, Hn.
Qed.

(** C25. A silent peer is asked once before the client gives it up. When
    the deadline passes on an active connection that has received nothing
    for at least 20 seconds: with the ping flag clear, the flag is set, one
    PING with a ten-second limit is handed to the io thread, the deadline
    moves ten seconds on and nothing is cancelled; with the flag set (no
    datagram since that ping, each of which clears it) the pending receive
    is cancelled, no deadline is left, and nothing is sent. In both cases
    the timer waits again. *)
Theorem silent_peer_pinged w n c pid po d :
  nodes (Client.dt w) !! Client.node = Some n -> dtls_ n = Some c -> ch_is_active c = true ->
  node_protocol_ n = Some pid -> protocols (Client.dt w) !! pid = Some po -> proto_writer po = Some Client.node ->
  Client.deadline_ (Client.cl w) = Some d ->
  let k := dtls_ticks (Client.dt w) in
  d <= de_clock env k -> seconds 20 <= de_clock env (S k) - node_last_msg_recv_time_ n ->
  exists w', Client.check_deadline env false w = (Ret tt, w')
    /\ Client.deadline_waits (Client.cl w') = true
    /\ if ping_flag_ n
       then Client.canceled (Client.cl w') = (Client.receiving (Client.cl w) || Client.canceled (Client.cl w))
            /\ Client.deadline_ (Client.cl w') = None /\ io_tasks (Client.dt w') = io_tasks (Client.dt w)
       else Client.canceled (Client.cl w') = Client.canceled (Client.cl w)
            /\ Client.deadline_ (Client.cl w') = Some (de_clock env (S (S (S k))) + seconds 10)
            /\ io_tasks (Client.dt w')
               = io_tasks (Client.dt w)
                 ++ [Task_write_message (receiver_endpoint_ n) (ping_message (de_clock env (S (S k))))]
            /\ nodes (Client.dt w') !! Client.node = Some (with_ping_flag true n).
Proof.
  intros Hn Hd Ha Hp Hpo Hw Hdl k Hk Hr. destruct w as [cw s]. simpl in *.
  set (s1 := with_ticks (S k) s). set (s2 := with_ticks (S (S k)) s1).
  assert (nodes s1 !! Client.node = Some n) as Hn1 by (by destruct s).
  assert (is_reconnect_needed env Client.node s1 =
    (if ping_flag_ n then (Ret true, s2)
     else (set_node Client.node (with_ping_flag true) ;;; run_protocol env pid send_ping ;;; ret false) s2)) as En.
  { unfold is_reconnect_needed. rewrite bind_deref, Hn1, Hd, Ha. unfold dtls_now at 1. unfold bind at 1.
    replace (dtls_ticks s1) with (S k) by (by destruct s). fold s2.
    rewrite (proj2 (Z.ltb_ge _ _) Hr), Hp. by destruct (ping_flag_ n). }
  unfold Client.check_deadline. unfold bind at 1. unfold gets. unfold bind at 1. simpl. rewrite Hdl.
  unfold bind at 1. unfold Client.lift at 1. unfold dtls_now at 1. simpl. fold k. fold s1.
  rewrite (proj2 (Z.leb_le _ _) Hk). unfold bind at 1. unfold Client.lift at 1. simpl. rewrite En.
  destruct (ping_flag_ n) eqn:Hf.
  - eexists. split; [reflexivity|]. destruct s, cw; simpl. done.
  - unfold bind at 1. unfold set_node at 1, modify at 1.
    set (s3 := with_nodes (alter (with_ping_flag true) Client.node (nodes s2)) s2).
    assert (nodes s3 !! Client.node = Some (with_ping_flag true n)) as Hn3.
    { subst s3. replace (nodes (with_nodes _ s2)) with (alter (with_ping_flag true) Client.node (nodes s2)) by (by destruct s).
      replace (nodes s2) with (nodes s1) by (by destruct s). by rewrite lookup_alter_eq, Hn1. }
    destruct (run_ping_ok s3 Client.node (with_ping_flag true n) pid po Hn3) as (s4 & E4 & N4 & T4 & O4);
      [by destruct n|by destruct s|done|].
    unfold bind at 1. rewrite E4. simpl.
    replace (dtls_ticks s3) with (S (S k)) in * by (by destruct s).
    replace (io_tasks s3) with (io_tasks s) in O4 by (by destruct s).
    replace (receiver_endpoint_ (with_ping_flag true n)) with (receiver_endpoint_ n) in O4 by (by destruct n).
    unfold Client.lift, dtls_now, Client.set_deadline, Client.change, modify, bind. simpl. rewrite T4.
    eexists. split; [reflexivity|]. simpl. rewrite <- N4 in Hn3. destruct s4; simpl in *. done.
Qed.

End client.

(** A connected client that has heard nothing for 20 seconds. *)
Module Client_Witness.
Import QtRef.

#[local] Instance quiet_channel : TlsChannel bool := {|
  ch_is_active := id; ch_received_data _ c := Act_return c; ch_timeout_check c := (false, [], c);
  ch_send d c := ([d], Some c); ch_close _ := []; ch_application_protocol _ := [];
  new_Server := false; new_Client _ _ _ := true |}.

Definition env1 : Env mem :=
  {| de_clock n := seconds 1000; de_throws _ := false; de_user_throws _ := false;
     server_protocol_func _ := (false, []); client_protocol_func := None;
     de_same _ _ := false; de_keeps _ := false; ep_text _ := [x65]; path_validates _ _ := false |}.

Definition node1 : Node bool := mkNode (Some true) (Some 1%nat) 70000 [x65] (seconds 970) false.

Definition w1 : Client.World (D := mem) (B := mem) (C := bool) :=
  Client.mkWorld (Client.mk true (Some (seconds 999)) true true false false)
    (mkDtls {[ 0%nat := node1 ]} {[ 1%nat := mkProto init (Some 0%nat) ]} 2 [] [] Protocol_Timer.init [] [] [] 0 []).

Lemma silent_peer_pinged_witness :
  exists w', Client.check_deadline env1 false w1 = (Ret tt, w') /\ Client.deadline_ (Client.cl w') = Some (seconds 1010)
    /\ length (io_tasks (Client.dt w')) = 1%nat.
Proof.
  destruct (silent_peer_pinged env1 w1 node1 true 1 (mkProto init (Some 0%nat)) (seconds 999)
    eq_refl eq_refl (eq_refl : ch_is_active (TlsChannel := quiet_channel) true = true) eq_refl eq_refl eq_refl eq_refl ltac:(vm_compute; discriminate) ltac:(vm_compute; discriminate))
    as (w' & E & _ & _ & H2 & H3 & _).
  exists w'. split; [exact E|]. split; [exact H2|]. rewrite H3. reflexivity.
Defined.

End Client_Witness.
End Client_Proofs.
