(* ===== verification/DtlsRecords.v ===== *)
(** * Server_Controller's record threads

    [Server_Controller::add_received_record] and [records_thread_run]
    ([src/DTLS/dtls_server_controller.cpp]): threads that take received
    records from a queue and let the node's protocol process them, one at a
    time per node ([Server_Node::record_mutex_]). A step of a thread runs
    from one point where it holds no lock, or enters the lock of a node, to
    the next; a record is known by its node and a number. What processing a
    record does is [DtlsServer.process_record]. *)

From S2P Require Import Prelude.

Module Record_Threads.

Record record := mkRecord { node_ : nat; number : nat }.

#[global] Instance record_eq_dec : EqDecision record.
Proof. solve_decision. Defined.

(** At the loop condition, in [records_cond_.wait], with a record taken from
    the queue, inside [process_bytes] with the node's lock, or finished. *)
Inductive point := At_loop | In_wait | Taken (r : record) | Processing (r : record) | Finished.

Record t := mk {
  records_thread_break_flag_ : bool;
  records_queue_ : list record;
  records_thread_list_ : list point;
  taken : list record;      (** taken from the queue, in order *)
  started : list record;    (** handed to [process_bytes], in order *)
  skipped : list record;    (** taken when the node had no protocol *)
}.

Definition init (record_thread_count : nat) : t := mk false [] (replicate record_thread_count At_loop) [] [] [].

Definition add_received_record (r : record) (s : t) : t :=
  mk (records_thread_break_flag_ s) (records_queue_ s ++ [r]) (records_thread_list_ s) (taken s) (started s) (skipped s).

(** The first part of [~Server_Controller]. *)
Definition stop (s : t) : t :=
  mk true (records_queue_ s) (records_thread_list_ s) (taken s) (started s) (skipped s).

Definition set_thread (i : nat) (p : point) (s : t) : t :=
  mk (records_thread_break_flag_ s) (records_queue_ s) (<[i := p]> (records_thread_list_ s)) (taken s) (started s) (skipped s).

Definition processes (n : nat) (p : point) : bool :=
  match p with Processing r => bool_decide (node_ r = n) | _ => false end.

(** [record_mutex_] of the node is held. *)
Definition locked (n : nat) (s : t) : bool := existsb (processes n) (records_thread_list_ s).

(** One step of [records_thread_run] in thread [i]; [has_protocol] says what
    [node_->protocol()] gives. [None] when the thread is blocked or gone. *)
Definition run_step (i : nat) (has_protocol : bool) (s : t) : option t :=
  match records_thread_list_ s !! i with
  | Some At_loop => Some (set_thread i (if records_thread_break_flag_ s then Finished else In_wait) s)
  | Some In_wait =>
      if records_thread_break_flag_ s then Some (set_thread i Finished s)
      else
        match records_queue_ s with
        | [] => None
        | r :: q =>
            Some (mk false q (<[i := Taken r]> (records_thread_list_ s)) (taken s ++ [r]) (started s) (skipped s))
        end
  | Some (Taken r) =>
      if has_protocol then
        if locked (node_ r) s then None
        else Some (mk (records_thread_break_flag_ s) (records_queue_ s) (<[i := Processing r]> (records_thread_list_ s))
                     (taken s) (started s ++ [r]) (skipped s))
      else Some (mk (records_thread_break_flag_ s) (records_queue_ s) (<[i := At_loop]> (records_thread_list_ s))
                   (taken s) (started s) (skipped s ++ [r]))
  | Some (Processing r) => Some (set_thread i At_loop s)
  | _ => None
  end.

(** Steps of the object; the ghost list holds the records added. *)
Inductive step : t * list record -> t * list record -> Prop :=
| step_run i hp s s' added : run_step i hp s = Some s' -> step (s, added) (s', added)
| step_add r s added : step (s, added) (add_received_record r s, added ++ [r])
| step_stop s added : step (s, added) (stop s, added).

Definition taken_by (p : point) : list record := match p with Taken r => [r] | _ => [] end.
Definition waiting (s : t) : list record := concat (map taken_by (records_thread_list_ s)).

(** The node's lock excludes two threads inside [process_bytes]. *)
Definition exclusive (l : list point) : Prop :=
  forall i j r r', l !! i = Some (Processing r) -> l !! j = Some (Processing r') -> node_ r = node_ r' -> i = j.

Record rinv (s : t) (added : list record) : Prop := {
  ri_fifo : taken s ++ records_queue_ s = added;
  ri_once : started s ++ skipped s ++ waiting s ≡ₚ taken s;
  ri_exclusive : exclusive (records_thread_list_ s);
}.

Lemma waiting_insert i p (l : list point) q :
  l !! i = Some q -> concat (map taken_by (<[i := p]> l)) ++ taken_by q ≡ₚ concat (map taken_by l) ++ taken_by p.
Proof.
  revert i. induction l as [|x l IH]; intros [|i] E; simpl in *; try done.
  - simplify_eq. solve_Permutation.
  - rewrite <- !app_assoc, (IH i E). done.
Qed.

Lemma exclusive_other i p l : (forall r, p <> Processing r) -> exclusive l -> exclusive (<[i := p]> l).
Proof.
  intros Hp He a b r r' Ha Hb. apply list_lookup_insert_Some in Ha as [(-> & -> & _)|[_ Ha]]; [by destruct (Hp r)|].
  apply list_lookup_insert_Some in Hb as [(-> & -> & _)|[_ Hb]]; [by destruct (Hp r')|]. by eapply He.
Qed.

Lemma exclusive_lock i r s :
  locked (node_ r) s = false -> exclusive (records_thread_list_ s) -> exclusive (<[i := Processing r]> (records_thread_list_ s)).
Proof.
  intros Hl He.
  assert (forall j r', records_thread_list_ s !! j = Some (Processing r') -> node_ r' <> node_ r) as Hne.
  { intros j r' Hj E. unfold locked in Hl. assert (existsb (processes (node_ r)) (records_thread_list_ s) = true); [|congruence].
    apply existsb_exists. exists (Processing r'). split.
    - apply list_elem_of_In. by eapply list_elem_of_lookup_2.
    - simpl. by apply bool_decide_eq_true. }
  intros a b x y Ha Hb E. apply list_lookup_insert_Some in Ha as [(-> & [= ->] & _)|[_ Ha]];
    apply list_lookup_insert_Some in Hb as [(-> & [= ->] & _)|[_ Hb]]; try done.
  - by destruct (Hne _ _ Hb).
  - by destruct (Hne _ _ Ha).
  - by eapply He.
Qed.

Lemma record_step_inv s added s' added' : rinv s added -> step (s, added) (s', added') -> rinv s' added'.
Proof.
  intros [Hf Ho He]. inversion 1 as [i hp ? ? ? Hr|r ? ?|? ?]; subst.
  - unfold run_step in Hr. destruct (records_thread_list_ s !! i) as [p|] eqn:Ei; [|done].
    pose proof (fun q => waiting_insert i q _ _ Ei) as Hw. unfold waiting in Ho.
    destruct p as [| |r|r|]; try done; simpl in Hw.
    + simplify_eq. constructor; simpl; [done| |by apply exclusive_other; [destruct (records_thread_break_flag_ s)|]].
      unfold waiting. simpl. rewrite <- Ho. specialize (Hw (if records_thread_break_flag_ s then Finished else In_wait)).
      assert (taken_by (if records_thread_break_flag_ s then Finished else In_wait) = []) as E0
        by (by destruct (records_thread_break_flag_ s)).
      rewrite E0, !app_nil_r in Hw. by rewrite Hw.
    + destruct (records_thread_break_flag_ s).
      * simplify_eq. constructor; simpl; [done| |by apply exclusive_other].
        unfold waiting. simpl. rewrite <- Ho. specialize (Hw Finished). simpl in Hw. rewrite !app_nil_r in Hw. by rewrite Hw.
      * destruct (records_queue_ s) as [|r q] eqn:Eq; [done|]. simplify_eq. constructor; simpl.
        -- by rewrite <- app_assoc.
        -- unfold waiting. simpl. specialize (Hw (Taken r)). simpl in Hw. rewrite app_nil_r in Hw.
           rewrite Hw, !app_assoc, <- (app_assoc (started s)), Ho. done.
        -- by apply exclusive_other.
    + destruct hp; [destruct (locked (node_ r) s) eqn:El; [done|]|]; simplify_eq; constructor; simpl; try done.
      * unfold waiting. simpl. specialize (Hw (Processing r)). simpl in Hw. rewrite app_nil_r in Hw. rewrite <- Ho, <- Hw. solve_Permutation.
      * by apply exclusive_lock.
      * unfold waiting. simpl. specialize (Hw At_loop). simpl in Hw. rewrite app_nil_r in Hw. rewrite <- Ho, <- Hw. solve_Permutation.
      * by apply exclusive_other.
    + simplify_eq. constructor; simpl; [done| |by apply exclusive_other].
      unfold waiting. simpl. rewrite <- Ho. specialize (Hw At_loop). simpl in Hw. rewrite !app_nil_r in Hw. by rewrite Hw.
  - constructor; simpl; [|done|done]. by rewrite app_assoc.
  - by constructor.
Qed.

(** ** Properties *)

(** C23. Every received record is processed at most once and none is lost:
    with any number of record threads and any interleaving, the records
    taken and those still queued are the received ones in their order; the
    taken ones are exactly those handed to a protocol, those skipped because
    the node had no protocol, and those a thread still holds; and two
    threads never process records of the same node at the same time. *)
Theorem records_processed_once n s added :
  rtc step (init n, []) (s, added) ->
  taken s ++ records_queue_ s = added
  /\ started s ++ skipped s ++ waiting s ≡ₚ taken s
  /\ (forall i j r r', records_thread_list_ s !! i = Some (Processing r) ->
        records_thread_list_ s !! j = Some (Processing r') -> node_ r = node_ r' -> i = j).
Proof.
  intros Hr.
  assert (forall x y, rtc step x y -> rinv x.1 x.2 -> rinv y.1 y.2) as Hgen.
  { induction 1 as [|[s1 a1] [s2 a2] z Hs _ IH]; intros Hi; [done|]. apply IH. by eapply record_step_inv. }
  destruct (Hgen _ _ Hr) as [Hf Ho He]; [|done]. simpl.
  assert (forall p, p ∈ replicate n At_loop -> p = At_loop) as Hrep by (intros p Hp; by apply elem_of_replicate in Hp as [-> _]).
  constructor; simpl; [done| |].
  - unfold waiting. simpl. assert (concat (map taken_by (replicate n At_loop)) = []) as ->; [|done].
    clear. induction n as [|n IH]; [done|exact IH].
  - intros i j r r' Hi. apply list_elem_of_lookup_2, Hrep in Hi. done.
Qed.

(** The order of two records of one node is not kept: with two threads, the
    second can be handed to the protocol before the first. *)
Theorem records_reordered :
  let r1 := mkRecord 7 1 in let r2 := mkRecord 7 2 in
  exists s, rtc step (init 2, []) (s, [r1; r2]) /\ started s = [r2; r1].
Proof.
  intros r1 r2. eexists. split.
  - eapply rtc_l; [apply (step_add r1)|]. eapply rtc_l; [apply (step_add r2)|].
    do 2 (eapply rtc_l; [apply (step_run 0 true); reflexivity|]).
    do 3 (eapply rtc_l; [apply (step_run 1 true); reflexivity|]).
    eapply rtc_l; [apply (step_run 1 true); reflexivity|].
    eapply rtc_l; [apply (step_run 0 true); reflexivity|]. apply rtc_refl.
  - reflexivity.
Qed.

Lemma records_processed_once_witness :
  exists s, rtc step (init 2, []) (s, [mkRecord 7 1]) /\ started s ++ skipped s ++ waiting s ≡ₚ taken s.
Proof.
  assert (rtc step (init 2, []) (mk false [] [Taken (mkRecord 7 1); At_loop] [mkRecord 7 1] [] [], [mkRecord 7 1])) as Hr.
  { eapply rtc_l; [apply (step_add (mkRecord 7 1))|].
    do 2 (eapply rtc_l; [apply (step_run 0 true); reflexivity|]). apply rtc_refl. }
  eexists. split; [exact Hr|]. exact (proj1 (proj2 (records_processed_once 2 _ _ Hr))).
Defined.

End Record_Threads.
