(* ===== verification/DtlsServerThread.v ===== *)
(** * DTLS::Server_Thread

    [src/DTLS/dtls_server_thread.h] and [.cpp]: the thread that owns the
    [io_context] and the server, the promise by which it reports its start,
    and the calls other threads make on it ([stop], [server], the
    destructor). The raw pointers the class keeps are modelled with the state
    of what they point at, so that a use after [delete] is undefined. *)

From S2P Require Import Prelude.

Module Server_Thread_Config.

Record t := mk {
  port_ : Z;
  receive_thread_count_ : Z;
  record_thread_count_ : Z;
  main_thread_priority_ : Z;
  cleaning_timeout_ : Z;
  tls_police_file_name_ : list byte;
  certificate_file_name_ : list byte;
  certificate_key_file_name_ : list byte;
  create_protocol_func_ : option callback;
}.

Definition make (port : Z) (tls_police_file_name certificate_file_name certificate_key_file_name : list byte)
    (cleaning_timeout_sec receive_thread_count record_thread_count main_thread_priority : Z) : t :=
  {| port_ := port; receive_thread_count_ := receive_thread_count; record_thread_count_ := record_thread_count;
     main_thread_priority_ := main_thread_priority; cleaning_timeout_ := seconds cleaning_timeout_sec;
     tls_police_file_name_ := tls_police_file_name; certificate_file_name_ := certificate_file_name;
     certificate_key_file_name_ := certificate_key_file_name; create_protocol_func_ := None |}.

Definition set_create_protocol_func v (c : t) : t := let '(mk p r o m t f n k _) := c in mk p r o m t f n k v.
Definition set_cleaning_timeout v (c : t) : t := let '(mk p r o m _ f n k u) := c in mk p r o m v f n k u.
Definition set_port v (c : t) : t := let '(mk _ r o m t f n k u) := c in mk v r o m t f n k u.
Definition set_tls_police_file_name v (c : t) : t := let '(mk p r o m t _ n k u) := c in mk p r o m t v n k u.
Definition set_certificate_file_name v (c : t) : t := let '(mk p r o m t f _ k u) := c in mk p r o m t f v k u.
Definition set_certificate_key_file_name v (c : t) : t := let '(mk p r o m t f n _ u) := c in mk p r o m t f n v u.
Definition set_receive_thread_count v (c : t) : t := let '(mk p _ o m t f n k u) := c in mk p v o m t f n k u.
Definition set_record_thread_count v (c : t) : t := let '(mk p r _ m t f n k u) := c in mk p r v m t f n k u.
Definition set_main_thread_priority v (c : t) : t := let '(mk p r o _ t f n k u) := c in mk p r o v t f n k u.

End Server_Thread_Config.

Module Server_Thread.

(** The pointer [io_context_]: not initialised (the constructor does not),
    null, to a live context (and whether that is stopped), or to a deleted
    one. *)
Inductive io_pointer := Uninit | Null | Live (stopped : bool) | Freed.

(** The pointer [promises_]. *)
Inductive promise_pointer := P_live | P_null | P_freed.

(** Where [run] is: before the context is made, before the server is made,
    before the server is ready, starting the additional threads, in
    [run_context(0)], after the [try] block, joining the additional threads,
    at its end. *)
Inductive point := Begin | Creating | Constructing | Spawning | Running | Ending | Joining | Finished.

#[global] Instance point_eq_dec : EqDecision point.
Proof. solve_decision. Defined.

(** An additional thread in [run_context]: it waits in [io_context::run], runs
    a handler, or has left. *)
Inductive worker := Waiting | Busy | Done.

#[global] Instance worker_eq_dec : EqDecision worker.
Proof. solve_decision. Defined.

Record t := mk {
  promises_ : promise_pointer;
  promised : option bool;   (** the value the promise got *)
  io_context_ : io_pointer;
  server_ : bool;           (** the address of the server has been stored *)
  server_alive : bool;      (** the server object exists *)
  thread_ : point;
  joined : bool;            (** [thread_] is not joinable any more *)
  additional_threads : list worker;
}.

Definition with_promise p v (s : t) : t := let '(mk _ _ i o a x j l) := s in mk p v i o a x j l.
Definition with_io i (s : t) : t := let '(mk p v _ o a x j l) := s in mk p v i o a x j l.
Definition with_server o (s : t) : t := let '(mk p v i _ a x j l) := s in mk p v i o a x j l.
Definition with_alive a (s : t) : t := let '(mk p v i o _ x j l) := s in mk p v i o a x j l.
Definition at_point x (s : t) : t := let '(mk p v i o a _ j l) := s in mk p v i o a x j l.
Definition with_joined j (s : t) : t := let '(mk p v i o a x _ l) := s in mk p v i o a x j l.
Definition with_threads l (s : t) : t := let '(mk p v i o a x j _) := s in mk p v i o a x j l.

(** The constructor: the thread has started. *)
Definition init : t := mk P_live None Uninit false false Begin false [].

(** [io_context_->stop()] *)
Definition io_stop (s : t) : outcome t :=
  match io_context_ s with Live _ => Ret (with_io (Live true) s) | _ => Undef end.

Definition stop (s : t) : outcome t :=
  match io_context_ s with Null => Ret s | _ => io_stop s end.

(** [promises_->set_value(v); delete promises_; promises_ = nullptr] *)
Definition set_promise (v : bool) (s : t) : outcome t :=
  match promises_ s with P_live => Ret (with_promise P_null (Some v) s) | _ => Undef end.

(** Leaving the [try] block, at its end or by an exception, destroys the
    server. The stored address stays. *)
Definition leave (s : t) : t := with_alive false (at_point Ending s).

(** The code after the [try] block, up to the joins. *)
Definition finish (s : t) : outcome t :=
  match match promises_ s with P_null => Ret s | _ => set_promise false s end with
  | Ret s =>
      match io_context_ s with
      | Live stopped => if stopped then Ret (at_point Joining s) else Ret (at_point Joining (with_io (Live true) s))
      | _ => Undef
      end
  | o => o
  end.

(** One step of [run]; [ok] says whether what it calls succeeds. [None] when
    the thread is blocked or has ended. *)
Definition run_step (conf : Server_Thread_Config.t) (ok : bool) (s : t) : option (outcome t) :=
  match thread_ s with
  | Begin => Some (Ret (at_point Creating (with_io Null s)))
  | Creating => Some (Ret (if ok then at_point Constructing (with_io (Live false) s) else leave s))
  | Constructing =>
      Some (if ok then match set_promise true (with_server true (with_alive true s)) with
                       | Ret s => Ret (at_point Spawning s)
                       | o => o
                       end
            else Ret (leave s))
  | Spawning =>
      Some (Ret (if negb ok then leave s
                 else if 1 + zlen (additional_threads s) <? Server_Thread_Config.receive_thread_count_ conf
                      then with_threads (additional_threads s ++ [Waiting]) s
                      else at_point Running s))
  | Running =>
      match io_context_ s with
      | Live stopped => if stopped || negb ok then Some (Ret (leave s)) else None
      | _ => Some Undef
      end
  | Ending => Some (finish s)
  | Joining =>
      if forallb (fun x => bool_decide (x = Done)) (additional_threads s) then
        Some (match io_context_ s with Live _ => Ret (at_point Finished (with_io Freed s)) | _ => Undef end)
      else None
  | Finished => None
  end.

(** One step of additional thread [i] in [run_context]: a waiting thread
    leaves a stopped context, or takes a handler; the handlers are those of
    the server (receiving, cleaning, sending), which they use; one that
    throws ends the thread. *)
Definition run_context (i : nat) (throws : bool) (s : t) : option (outcome t) :=
  match additional_threads s !! i with
  | None | Some Done => None
  | Some Waiting =>
      Some (match io_context_ s with
            | Live true => Ret (with_threads (<[i := Done]> (additional_threads s)) s)
            | Live false => Ret (with_threads (<[i := Busy]> (additional_threads s)) s)
            | _ => Undef
            end)
  | Some Busy =>
      Some (if server_alive s then Ret (with_threads (<[i := if throws then Done else Waiting]> (additional_threads s)) s)
            else Undef)
  end.

(** [server()]: an address or null, or the call waits for the report through
    the shared future. *)
Inductive call := Given (obj : bool) | Waits.

Definition server (s : t) : outcome call :=
  if server_ s then Ret (Given true)
  else match promises_ s with P_null => Ret (Given false) | P_live => Ret Waits | P_freed => Undef end.

(** How a waiting call goes on; a false report is an exception. *)
Definition awaited (s : t) : option (outcome bool) :=
  match promised s with None => None | Some true => Some (Ret (server_ s)) | Some false => Some Throw end.

(** [io_context()], when [server()] has returned [obj]. *)
Definition io_context (obj : bool) (s : t) : io_pointer := if obj then io_context_ s else Null.

(** [join()]: [None] while the thread has not ended. *)
Definition join (s : t) : option t :=
  if joined s then Some s
  else match thread_ s with Finished => Some (with_joined true s) | _ => None end.

(** The destructor up to [thread_.join()]; the pointer to the deleted promise
    is not cleared. *)
Definition dtor (s : t) : outcome t :=
  let s := match promises_ s with P_null => s | _ => with_promise P_freed (promised s) s end in
  if joined s then Ret s else stop s.

(** Steps of the threads. *)
Inductive thread_step conf : t -> t -> Prop :=
| step_run ok s s' : run_step conf ok s = Some (Ret s') -> thread_step conf s s'
| step_context i throws s s' : run_context i throws s = Some (Ret s') -> thread_step conf s s'.

(** Steps of the threads and calls from outside; the context also stops by
    itself when nothing is left to do, as [stop] does. *)
Inductive step conf : t -> t -> Prop :=
| step_thread s s' : thread_step conf s s' -> step conf s s'
| step_stop s s' : io_context_ s <> Uninit -> stop s = Ret s' -> step conf s s'
| step_join s s' : join s = Some s' -> step conf s s'.

(** ** Behaviour *)

Section behaviour.
Context (conf : Server_Thread_Config.t).

(** The context is live from its creation until all threads have left it; the
    server exists exactly while [run] is in the [try] block behind its
    construction. *)
Definition shape (s : t) : Prop :=
  match thread_ s with
  | Begin => promised s = None /\ io_context_ s = Uninit /\ server_alive s = false /\ additional_threads s = []
  | Creating => promised s = None /\ io_context_ s = Null /\ server_alive s = false /\ additional_threads s = []
  | Constructing => promised s = None /\ (exists b, io_context_ s = Live b) /\ server_alive s = false /\ additional_threads s = []
  | Spawning | Running => promised s = Some true /\ (exists b, io_context_ s = Live b) /\ server_alive s = true
  | Ending => ((exists b, io_context_ s = Live b) \/ (io_context_ s = Null /\ additional_threads s = [])) /\ server_alive s = false
  | Joining => promised s <> None /\ io_context_ s = Live true /\ server_alive s = false
  | Finished => promised s <> None /\ io_context_ s = Freed /\ server_alive s = false /\ Forall (eq Done) (additional_threads s)
  end.

(** The promise is deleted when it has its value; the address of the server is
    stored exactly when that is true. *)
Record sinv (s : t) : Prop := {
  si_shape : shape s;
  si_promise : promises_ s = match promised s with None => P_live | Some _ => P_null end;
  si_server : server_ s = match promised s with Some b => b | None => false end;
  si_few : zlen (additional_threads s) <= Z.max 0 (Server_Thread_Config.receive_thread_count_ conf - 1);
  si_joined : joined s = true -> thread_ s = Finished;
}.

Lemma stop_sinv s s' : sinv s -> stop s = Ret s' -> sinv s'.
Proof.
  intros Hs E. unfold stop, io_stop in E. destruct s as [p v io o a x j l]. simpl in *.
  destruct io; simplify_eq; [done|]. destruct Hs as [I1 I2 I3 I4 I5]. constructor; try done.
  unfold shape in *. simpl in *. destruct x; naive_solver.
Qed.

Lemma join_sinv s s' : sinv s -> join s = Some s' -> sinv s'.
Proof.
  intros Hs E. unfold join in E. destruct s as [p v io o a x j l]. simpl in *.
  destruct j; simplify_eq; [done|]. destruct x; simplify_eq. by destruct Hs.
Qed.

Lemma all_done (l : list worker) : forallb (fun x => bool_decide (x = Done)) l = true <-> Forall (eq Done) l.
Proof.
  rewrite Forall_forall, forallb_forall. setoid_rewrite <- list_elem_of_In. split; intros Hl x Hx; specialize (Hl x Hx).
  - by apply bool_decide_eq_true in Hl.
  - by apply bool_decide_eq_true.
Qed.

Lemma run_sinv ok s s' : sinv s -> run_step conf ok s = Some (Ret s') -> sinv s'.
Proof.
  intros [I1 I2 I3 I4 I5] E. unfold run_step, finish, leave, set_promise, shape in *. destruct s as [p v io o a x j l]. simpl in *.
  assert (j = true -> x = Finished) as Hj by done. clear I5.
  destruct x; simpl in E.
  - simplify_eq. constructor; unfold shape; simpl; naive_solver.
  - destruct ok; simplify_eq; constructor; unfold shape; simpl; naive_solver.
  - destruct p, ok; simplify_eq; constructor; unfold shape; simpl; naive_solver.
  - destruct ok; simplify_eq; [|constructor; unfold shape; simpl; naive_solver].
    destruct (Z.ltb_spec (1 + zlen l) (Server_Thread_Config.receive_thread_count_ conf));
      constructor; unfold shape; simpl; try naive_solver.
    rewrite zlen_app. change (zlen [Waiting]) with 1. lia.
  - destruct io as [| |b|]; simplify_eq. destruct (b || negb ok); simplify_eq. constructor; unfold shape; simpl; naive_solver.
  - destruct v as [v|]; subst p; simpl in E; destruct io as [| |[]|]; simplify_eq; constructor; unfold shape; simpl; naive_solver.
  - destruct (forallb _ l) eqn:El; simplify_eq. apply all_done in El. destruct io; simplify_eq.
    constructor; unfold shape; simpl; naive_solver.
  - simplify_eq.
Qed.

Lemma context_sinv i th s s' : sinv s -> run_context i th s = Some (Ret s') -> sinv s'.
Proof.
  intros [I1 I2 I3 I4 I5] E. unfold run_context, shape in *. destruct s as [p v io o a x j l]. simpl in *.
  destruct (l !! i) as [y|] eqn:El; [|done].
  enough (exists y', y <> Done /\ s' = mk p v io o a x j (<[i := y']> l)) as (y' & Hy & ->).
  { constructor; unfold shape; simpl; try done; [|unfold zlen in *; by rewrite length_insert].
    assert (l <> []) as Hne by (by intros ->). clear I2 I3 I4 I5 E.
    destruct x; try tauto. destruct I1 as (? & ? & ? & Hd). rewrite Forall_lookup in Hd. by specialize (Hd i y El). }
  destruct y, io as [| |[]|], a; simplify_eq; by eexists _.
Qed.

Lemma thread_sinv s s' : sinv s -> thread_step conf s s' -> sinv s'.
Proof. destruct 2; eauto using run_sinv, context_sinv. Qed.

Lemma server_step_sinv s s' : sinv s -> step conf s s' -> sinv s'.
Proof. destruct 2; eauto using thread_sinv, stop_sinv, join_sinv. Qed.

Lemma steps_sinv s s' : rtc (step conf) s s' -> sinv s -> sinv s'.
Proof. induction 1; eauto using server_step_sinv. Qed.

Lemma reachable_sinv s : rtc (step conf) init s -> sinv s.
Proof.
  intros Hr. apply (steps_sinv _ _ Hr). constructor; [by split_and!|done|done| |done].
  change (0 <= Z.max 0 (Server_Thread_Config.receive_thread_count_ conf - 1)). lia.
Qed.

(** The start is always reported: a call of [server()] waits only while
    the thread has not reported; a thread that runs the context has reported
    the server, and one that has ended has reported. *)
Theorem start_reported s :
  rtc (step conf) init s ->
  server s <> Undef
  /\ (server s = Ret Waits -> promised s = None /\ thread_ s <> Running /\ thread_ s <> Finished)
  /\ (thread_ s = Finished -> awaited s <> None)
  /\ (thread_ s = Running -> server_alive s = true /\ server s = Ret (Given true) /\ awaited s = Some (Ret true)).
Proof.
  intros [I1 I2 I3 I4 I5]%reachable_sinv. unfold server, awaited, shape in *. rewrite I2, I3.
  destruct (promised s) as [[]|], (thread_ s); naive_solver.
Qed.

(** The context is deleted only when every additional thread has left it: no
    step of such a thread finds a context that is not live. *)
Theorem context_outlives_threads s i th :
  rtc (step conf) init s -> run_context i th s = Some Undef ->
  additional_threads s !! i = Some Busy /\ server_alive s = false.
Proof.
  intros [I1 I2 I3 I4 I5]%reachable_sinv E. unfold run_context, shape in *.
  destruct (additional_threads s !! i) as [y|] eqn:El; [|done].
  assert (additional_threads s <> []) as Hne by (by intros E0; rewrite E0 in El).
  destruct y; [|by destruct (server_alive s)|done]. exfalso.
  assert ((exists b, io_context_ s = Live b) \/ thread_ s = Finished) as [[b Eb]|Ef] by (clear - I1 Hne; destruct (thread_ s); naive_solver).
  - rewrite Eb in E. by destruct b.
  - rewrite Ef in I1. destruct I1 as (_ & _ & _ & Hd). rewrite Forall_lookup in Hd. by specialize (Hd i _ El).
Qed.

(** With one receive thread, no thread step is undefined unless the context
    could not be allocated. *)
Theorem one_receive_thread_defined s :
  Server_Thread_Config.receive_thread_count_ conf <= 1 -> rtc (step conf) init s ->
  (forall i th, run_context i th s = None)
  /\ (forall ok, run_step conf ok s = Some Undef -> thread_ s = Ending /\ io_context_ s = Null).
Proof.
  intros Hc [I1 I2 I3 I4 I5]%reachable_sinv. split.
  - intros i th. unfold run_context. destruct (additional_threads s) as [|y l]; [done|].
    exfalso. unfold zlen in I4. simpl in I4. lia.
  - intros ok E. unfold run_step, finish, set_promise, shape in *. destruct s as [p v io o a x j l]. simpl in *.
    destruct x; simpl in E; try done.
    + destruct I1 as (-> & _). subst p. by destruct ok.
    + destruct I1 as (_ & (b & ->) & _). by destruct (b || negb ok).
    + destruct v as [v|]; subst p; simpl in E; destruct I1 as [[(b & ->)|[-> _]] _]; try done; by destruct b.
    + destruct I1 as (_ & -> & _). by destruct (forallb _ l).
Qed.

(** *** The end *)

Definition point_rest (x : point) : nat :=
  match x with Begin => 7 | Creating => 6 | Constructing => 5 | Spawning => 4 | Running => 3 | Ending => 2 | Joining => 1 | Finished => 0 end.
Definition worker_rest (y : worker) : nat := match y with Waiting => 1 | Busy => 2 | Done => 0 end.
Definition workers_rest (l : list worker) : nat := foldr (fun y n => worker_rest y + n)%nat 0%nat l.

(** The steps that are left once the context is stopped. *)
Definition steps_left (s : t) : nat :=
  point_rest (thread_ s) + workers_rest (additional_threads s)
  + 2 * Z.to_nat (Server_Thread_Config.receive_thread_count_ conf - 1 - zlen (additional_threads s)).

Definition stopping (s : t) : Prop := io_context_ s = Live true \/ io_context_ s = Freed.

Lemma workers_rest_insert l i y y' :
  l !! i = Some y -> (workers_rest (<[i := y']> l) + worker_rest y = workers_rest l + worker_rest y')%nat.
Proof. revert i. induction l as [|z l IH]; intros [|i] E; simplify_eq/=; [lia|]. specialize (IH _ E). lia. Qed.

Lemma workers_rest_app l l' : workers_rest (l ++ l') = (workers_rest l + workers_rest l')%nat.
Proof. induction l as [|y l IH]; simpl; [done|]. rewrite IH. lia. Qed.

Lemma stopping_run ok s s' :
  sinv s -> stopping s -> run_step conf ok s = Some (Ret s') -> stopping s' /\ (steps_left s' < steps_left s)%nat.
Proof.
  intros [I1 I2 _ _ _] Hst E. unfold run_step, finish, leave, set_promise, shape, stopping, steps_left in *.
  destruct s as [p v io o a x j l]. simpl in *. destruct x; simpl in E.
  - naive_solver.
  - naive_solver.
  - destruct p, ok; simplify_eq; simpl; split; try done; lia.
  - destruct ok; simplify_eq; simpl; [|split; [done|lia]].
    destruct (Z.ltb_spec (1 + zlen l) (Server_Thread_Config.receive_thread_count_ conf)); simpl; (split; [done|]); [|lia].
    rewrite zlen_app, workers_rest_app. change (zlen [Waiting]) with 1. simpl. lia.
  - destruct io as [| |b|]; simplify_eq. destruct (b || negb ok); simplify_eq. simpl. split; [done|lia].
  - destruct v as [v|]; subst p; simpl in E; destruct io as [| |[]|]; simplify_eq; simpl; (split; [tauto|lia]).
  - destruct (forallb _ l); simplify_eq. destruct io; simplify_eq. simpl. split; [tauto|lia].
  - done.
Qed.

Lemma stopping_context i th s s' :
  stopping s -> run_context i th s = Some (Ret s') -> stopping s' /\ (steps_left s' < steps_left s)%nat.
Proof.
  intros Hst E. unfold run_context, stopping, steps_left in *. destruct s as [p v io o a x j l]. simpl in *.
  destruct (l !! i) as [y|] eqn:El; [|done].
  enough (exists y', (worker_rest y' < worker_rest y)%nat /\ s' = mk p v io o a x j (<[i := y']> l)) as (y' & Hy & ->).
  { simpl. pose proof (workers_rest_insert l i y y' El). unfold zlen. rewrite length_insert. split; [done|lia]. }
  destruct y as [| |], io as [| |[]|], a, th; simplify_eq; try naive_solver; eexists; (split; [|reflexivity]); simpl; lia.
Qed.

Lemma not_all_done (l : list worker) : forallb (fun x => bool_decide (x = Done)) l = false -> exists i y, l !! i = Some y /\ y <> Done.
Proof.
  induction l as [|y l IH]; simpl; [done|]. intros E%andb_false_iff. destruct (decide (y = Done)) as [->|Hy].
  - rewrite bool_decide_true in E by done. destruct E as [|E]; [done|]. destruct (IH E) as (i & z & ? & ?). by exists (S i), z.
  - by exists 0%nat, y.
Qed.

Lemma stopping_live s : sinv s -> stopping s -> thread_ s <> Finished ->
  (exists o, run_step conf true s = Some o) \/ (exists i o, run_context i false s = Some o).
Proof.
  intros [I1 _ _ _ _] Hst Hf. unfold run_step, shape, stopping in *. destruct s as [p v io o a x j l]. simpl in *.
  destruct x; simpl; try done; try by (left; eexists).
  - left. destruct I1 as (_ & (b & ->) & _). destruct Hst; simplify_eq. by eexists.
  - destruct (forallb _ l) eqn:El; [left; by eexists|]. right. destruct (not_all_done l El) as (i & y & Ey & Hy). exists i.
    unfold run_context. simpl. rewrite Ey. destruct y; [by eexists..|done].
Qed.

(** [stop] ends a server whose context exists: from then on, however the
    threads are scheduled, they make a bounded number of steps, and when
    none of them can make another, [run] has ended: [join()] and the
    destructor return. *)
Theorem stop_ends_server s s1 n s2 :
  rtc (step conf) init s -> (exists b, io_context_ s = Live b) -> stop s = Ret s1 -> nsteps (thread_step conf) n s1 s2 ->
  (n <= steps_left s)%nat
  /\ ((forall ok, run_step conf ok s2 = None) -> (forall i th, run_context i th s2 = None) ->
      exists s3, join s2 = Some s3 /\ joined s3 = true).
Proof.
  intros Hs%reachable_sinv [b Eb] Estop Hn. pose proof (stop_sinv _ _ Hs Estop) as Hs1.
  assert (stopping s1 /\ steps_left s1 = steps_left s) as [Hst <-].
  { unfold stop, io_stop in Estop. rewrite Eb in Estop. simplify_eq. unfold stopping, steps_left. destruct s. simpl. tauto. }
  clear Hs Eb Estop. induction Hn as [s1|n s1 s1' s2 H1 Hn IH].
  - split; [lia|]. intros Hr Hc. unfold join. destruct (joined s1) eqn:Ej; [by exists s1|].
    destruct (decide (thread_ s1 = Finished)) as [->|Hf]; [eexists; split; [done|by destruct s1]|].
    destruct (stopping_live s1 Hs1 Hst Hf) as [[o E]|(i & o & E)]; [by rewrite Hr in E|by rewrite Hc in E].
  - assert (stopping s1' /\ (steps_left s1' < steps_left s1)%nat) as [Hst' Hlt]
      by (destruct H1; eauto using stopping_run, stopping_context).
    destruct (IH (thread_sinv _ _ Hs1 H1) Hst') as [Hle Hend]. split; [lia|done].
Qed.

(** When the thread has ended by itself, for example because the port is in
    use, [io_context_] still holds the address of the deleted context: a
    later [stop], and the destructor of an object not joined, use it after
    [delete]. After [join()] the destructor has nothing to do. *)
Theorem stop_after_end_undefined s :
  rtc (step conf) init s -> thread_ s = Finished ->
  stop s = Undef /\ dtor s = (if joined s then Ret s else Undef).
Proof.
  intros [I1 I2 I3 I4 I5]%reachable_sinv Ht. unfold shape, dtor, stop, io_stop in *. rewrite Ht in I1.
  destruct I1 as (Hp & Hi & _). rewrite I2, Hi. destruct (promised s); [|done]. by destruct (joined s); [|rewrite Hi].
Qed.

End behaviour.

(** A start that fails leads there. *)
Example failed_start_ends : exists s, rtc (step (Server_Thread_Config.make 0 [] [] [] 180 5 5 (-1))) init s
  /\ thread_ s = Finished /\ promised s = Some false.
Proof.
  eexists. split.
  - do 2 (eapply rtc_l; [apply step_thread, (step_run _ true); reflexivity|]).
    eapply rtc_l; [apply step_thread, (step_run _ false); reflexivity|].
    do 2 (eapply rtc_l; [apply step_thread, (step_run _ true); reflexivity|]). apply rtc_refl.
  - done.
Qed.

(** With the default of five receive threads the server can be destroyed while
    an additional thread is in one of its handlers: [run] leaves the [try]
    block, which destroys the server, before it waits for these threads. Here
    after [stop], with the first of them in a handler. *)
Example server_destroyed_in_handler : exists s, rtc (step (Server_Thread_Config.make 0 [] [] [] 180 5 5 (-1))) init s
  /\ thread_ s = Ending /\ run_context 0 false s = Some Undef.
Proof.
  eexists. split.
  - do 8 (eapply rtc_l; [apply step_thread, (step_run _ true); reflexivity|]).
    eapply rtc_l; [apply step_thread, (step_context _ 0 false); reflexivity|].
    eapply rtc_l; [apply step_stop; [discriminate|reflexivity]|].
    eapply rtc_l; [apply step_thread, (step_run _ true); reflexivity|]. apply rtc_refl.
  - split; reflexivity.
Qed.

(** A destructor that runs while the thread is starting deletes the promise,
    which the thread then uses. *)
Example destroyed_while_starting conf : exists s s', rtc (step conf) init s /\ dtor s = Ret s'
  /\ run_step conf true s' = Some Undef.
Proof.
  eexists _, _. split.
  - do 2 (eapply rtc_l; [apply step_thread, (step_run _ true); reflexivity|]). apply rtc_refl.
  - split; reflexivity.
Qed.

End Server_Thread.
