(* ===== verification/IndexSequence.v ===== *)
(** * fake_integer_sequence.h

    [src/Base/fake_integer_sequence.h]: [std::index_sequence] for compilers
    before C++14, which [apply_parse] indexes its arguments with. A sequence
    of template arguments is a list; a recursive template is a function by
    well-founded recursion, and the depth of its recursion is what a compiler
    limits. *)

From Equations Require Import Equations.
From S2P Require Import Prelude.

Module Index_Sequence.

(** ** fake_std *)

(** [seq<I1..., (sizeof...(I1) + I2)...>] *)
Definition concat (I1 I2 : list Z) : list Z := I1 ++ map (fun i => zlen I1 + i) I2.

Lemma half_lt N : (2 <= N)%nat -> (N / 2 < N)%nat.
Proof. intros Hn. apply Nat.div_lt; lia. Qed.

Lemma rest_lt N : (2 <= N)%nat -> (N - N / 2 < N)%nat.
Proof. intros Hn. pose proof (Nat.div_str_pos N 2 ltac:(lia)). lia. Qed.

#[local] Obligation Tactic := idtac.

Equations gen_seq (N : nat) : list Z by wf N lt :=
  gen_seq 0 := [];
  gen_seq 1 := [0];
  gen_seq (S (S N)) := concat (gen_seq (S (S N) / 2)) (gen_seq (S (S N) - S (S N) / 2)).
Next Obligation. intros N _. apply half_lt. lia. Qed.
Next Obligation. intros N _. apply rest_lt. lia. Qed.

(** ** std *)

(** [s + i] is a sum of [std::size_t]. *)
Definition doubled_index_sequence (s : Z) (i : list Z) : list Z := i ++ map (fun x => (s + x) mod 2 ^ 64) i.

Definition inc_index_sequence (NEED : bool) (i : list Z) : list Z := if NEED then i ++ [zlen i] else i.

Equations make_index_sequence_impl (N : nat) : list Z by wf N lt :=
  make_index_sequence_impl 0 := [];
  make_index_sequence_impl (S N) :=
    inc_index_sequence (negb (S N mod 2 =? 0)%nat)
      (doubled_index_sequence (Z.of_nat (S N / 2)) (make_index_sequence_impl (S N / 2))).
Next Obligation. intros N _. apply Nat.div_lt; lia. Qed.

Definition make_index_sequence (N : nat) : list Z := make_index_sequence_impl N.

Definition index_sequence_for {T} (types : list T) : list Z := make_index_sequence (length types).

(** How deep the instantiations nest. *)
Equations depth (N : nat) : nat by wf N lt :=
  depth 0 := 1%nat;
  depth (S N) := S (depth (S N / 2)).
Next Obligation. intros N _. apply Nat.div_lt; lia. Qed.

(** ** Lemmas *)

Definition indices (n : nat) : list Z := map Z.of_nat (seq 0 n).

Lemma indices_length n : zlen (indices n) = Z.of_nat n.
Proof. unfold indices, zlen. by rewrite length_map, length_seq. Qed.

Lemma indices_app a b : indices (a + b) = indices a ++ map (fun i => Z.of_nat a + i) (indices b).
Proof.
  unfold indices. rewrite seq_app, map_app, map_map. f_equal. simpl. rewrite <- (Nat.add_0_r a) at 1.
  rewrite <- fmap_add_seq, map_map. apply map_ext. intros i. lia.
Qed.

Lemma indices_S n : indices (S n) = indices n ++ [Z.of_nat n].
Proof. unfold indices. by rewrite seq_S, map_app. Qed.

Lemma gen_seq_indices N : gen_seq N = indices N.
Proof.
  induction N as [N IH] using lt_wf_ind. destruct N as [|[|N]]; [done|done|]. rewrite gen_seq_equation_3. unfold concat.
  rewrite (IH (S (S N) / 2)%nat) by (apply half_lt; lia). rewrite (IH (S (S N) - S (S N) / 2)%nat) by (apply rest_lt; lia).
  rewrite indices_length, <- indices_app. f_equal. pose proof (half_lt (S (S N)) ltac:(lia)). lia.
Qed.

Lemma doubled_indices n : Z.of_nat (n + n) < 2 ^ 64 -> doubled_index_sequence (Z.of_nat n) (indices n) = indices (n + n).
Proof.
  intros Hn. unfold doubled_index_sequence. rewrite indices_app. f_equal. apply map_ext_in. intros i Hi.
  unfold indices in Hi. apply in_map_iff in Hi as (j & <- & Hj%in_seq). apply Z.mod_small. lia.
Qed.

Lemma impl_indices N : Z.of_nat N < 2 ^ 64 -> make_index_sequence_impl N = indices N.
Proof.
  induction N as [N IH] using lt_wf_ind. destruct N as [|N]; [done|]. intros Hn. rewrite make_index_sequence_impl_equation_2.
  assert (S N / 2 < S N)%nat by (apply Nat.div_lt; lia).
  pose proof (Nat.div_mod (S N) 2 ltac:(lia)) as E. pose proof (Nat.mod_upper_bound (S N) 2 ltac:(lia)).
  set (h := (S N / 2)%nat) in *. rewrite IH by lia. rewrite doubled_indices by lia. unfold inc_index_sequence.
  destruct (Nat.eqb_spec (S N mod 2) 0); simpl.
  - f_equal. lia.
  - rewrite indices_length. replace (S N) with (S (h + h)) by lia. by rewrite indices_S.
Qed.

Lemma depth_log N : (0 < N)%nat -> depth N = (Nat.log2 N + 2)%nat.
Proof.
  induction N as [N IH] using lt_wf_ind. destruct N as [|N]; [lia|]. intros _. rewrite depth_equation_2. destruct (decide (N = 0%nat)) as [->|HN].
  - change (1 / 2)%nat with 0%nat. by rewrite depth_equation_1.
  - rewrite IH by (apply Nat.div_lt || apply Nat.div_str_pos; lia). assert (Nat.log2 (S N) = S (Nat.log2 (S N / 2))) as ->; [|lia].
    pose proof (Nat.div_mod (S N) 2 ltac:(lia)) as E. pose proof (Nat.mod_upper_bound (S N) 2 ltac:(lia)).
    assert (0 < S N / 2)%nat by (apply Nat.div_str_pos; lia). set (h := (S N / 2)%nat) in *.
    destruct (decide (S N mod 2 = 0)%nat) as [E0|E0].
    + replace (S N) with (2 * h)%nat by lia. by rewrite Nat.log2_double.
    + replace (S N) with (2 * h + 1)%nat by lia. by rewrite Nat.log2_succ_double.
Qed.

(** ** Property *)

(** [index_sequence_for] is the sequence of the positions of its arguments,
    as is [make_index_sequence] of their number and [gen_seq]: the doubling
    and the halving give each index once, in order. The instantiations nest
    at most 66 deep for any number of arguments a [std::size_t] can hold. *)
Theorem index_sequence_counts N {T} (types : list T) :
  Z.of_nat N < 2 ^ 64 -> Z.of_nat (length types) < 2 ^ 64 ->
  make_index_sequence N = indices N /\ gen_seq N = indices N /\ (depth N <= 66)%nat
  /\ length (index_sequence_for types) = length types
  /\ forall i x, types !! i = Some x -> index_sequence_for types !! i = Some (Z.of_nat i).
Proof.
  intros HN HT. split_and!.
  - by apply impl_indices.
  - apply gen_seq_indices.
  - destruct (decide (N = 0%nat)) as [->|H0]; [rewrite depth_equation_1; lia|]. rewrite depth_log by lia.
    enough (Nat.log2 N < 64)%nat by lia. apply Nat.log2_lt_pow2; [lia|].
    apply Nat2Z.inj_lt. rewrite Nat2Z.inj_pow. exact HN.
  - unfold index_sequence_for, make_index_sequence. rewrite impl_indices by done. unfold indices. by rewrite length_map, length_seq.
  - intros i x Hi. unfold index_sequence_for, make_index_sequence. rewrite impl_indices by done.
    apply lookup_lt_Some in Hi. unfold indices. rewrite list_lookup_fmap, lookup_seq_lt by done. done.
Qed.

(** Five arguments. *)
Lemma index_sequence_counts_witness :
  make_index_sequence 5 = [0; 1; 2; 3; 4] /\ gen_seq 5 = [0; 1; 2; 3; 4] /\ (depth 5 <= 66)%nat
  /\ index_sequence_for [true; true; false; true; false] !! 3%nat = Some 3.
Proof.
  destruct (index_sequence_counts 5 [true; true; false; true; false] ltac:(reflexivity) ltac:(reflexivity)) as (E1 & E2 & Hd & _ & E3).
  split; [exact E1|]. split; [exact E2|]. split; [exact Hd|]. exact (E3 3%nat true eq_refl).
Defined.

End Index_Sequence.
