(* ===== verification/ApplyParse.v ===== *)
(** * apply_parse

    [src/Base/apply_parse.h]: calling a function with values read from a
    stream. The types to read are [T], their values [V]; what Qt's or the
    user's [operator>>] does for a type is the interface [Extract]. The
    function called is a computation over a state of its own, [W]; the stream
    is passed along with it. Templates over the number of arguments are lists
    here. *)

From S2P Require Import Prelude QtInterface.

Module Apply_Parse.

(** [QDataStream::Status], as far as reading sets it. *)
Inductive Status := Ok | ReadPastEnd | ReadCorruptData.
#[export] Instance Status_eq_dec : EqDecision Status.
Proof. solve_decision. Defined.

(** What is left to read of a device; nothing can be read of a closed one. *)
Definition unread {D} `{QIODevice D} (d : D) : list byte :=
  if dev_is_open d then zdrop (dev_pos d) (dev_content d) else [].

(** [operator>>]: the value (a default one when there is none), the status it
    asks for, the device after; and a device over the bytes of an array. *)
Class Extract (D T V : Type) := {
  extract : Z -> T -> D -> V * Status * D;
  QBuffer_of : list byte -> D;
}.

(** The format of each type, by version: reading consumes what the format
    says, or fails with a status that is not [Ok]. *)
Class ExtractLaws (D T V : Type) `{QIODevice D, Extract D T V} := {
  decode : Z -> T -> list byte -> option (V * list byte);
  extract_ok : forall ver ty (d : D) v rest, decode ver ty (unread d) = Some (v, rest) ->
    exists d', extract ver ty d = (v, Ok, d') /\ unread d' = rest;
  extract_bad : forall ver ty (d : D), decode ver ty (unread d) = None -> (extract ver ty d : V * Status * D).1.2 <> Ok;
  QBuffer_of_unread : forall bs, unread (QBuffer_of bs : D) = bs;
}.

Section parse.
Context {D T V W : Type} `{QIODevice D, Extract D T V}.

(** A [QDataStream] over a device, and the state of the function called. *)
Record stream := mk { device : D; version : Z; status : Status; env : W }.

Abbreviation P := (M stream).

Definition set_status v s := mk (device s) (version s) v (env s).

(** [QDataStream::setStatus] keeps the first error. *)
Definition shift_in (ty : T) : P V := fun s =>
  let '(v, st, d) := extract (version s) ty (device s) in
  (Ret v, mk d (version s) (if decide (status s = Ok) then st else status s) (env s)).

(** [parse_out] of a stream and variables of the types [tys]: the values of
    the variables. *)
Fixpoint parse_out (tys : list T) : P (list V) :=
  match tys with
  | [] => ret []
  | ty :: tys =>
      let* v := shift_in ty in
      let* st := gets status in
      if decide (st = Ok) then let* vs := parse_out tys in ret (v :: vs) else throw
  end.

(** [parse_open_device]: a device that is open is read from where it stands. *)
Definition parse_open_device (data_dev : D) (ds_version : Z) (w : W) : outcome stream :=
  if dev_is_open data_dev then Ret (mk data_dev ds_version Ok w)
  else match dev_open data_dev with
       | Some d => Ret (mk d ds_version Ok w)
       | None => Throw
       end.

(** Run [m] on a stream made for it. *)
Definition on_stream {A} (o : outcome stream) (m : P A) : outcome A :=
  match o with Ret s => (m s).1 | Throw => Throw | Undef => Undef | Unfinished => Unfinished end.

Definition parse_out_device (ds_version : Z) (data_dev : D) (w : W) (tys : list T) : outcome (list V) :=
  on_stream (parse_open_device data_dev ds_version w) (parse_out tys).

Definition parse_out_data (ds_version : Z) (data : list byte) (w : W) (tys : list T) : outcome (list V) :=
  on_stream (Ret (mk (QBuffer_of data) ds_version Ok w)) (parse_out tys).

(** [parse<T>(ds)] *)
Definition parse_value (ty : T) : P V :=
  let* vs := parse_out [ty] in
  match vs with v :: _ => ret v | [] => throw end.

(** [parse<_Tuple, x, _Idx...>]: one element of the tuple after the other. *)
Fixpoint parse_tuple (tys : list T) : P (list V) :=
  match tys with
  | [] => ret []
  | ty :: tys => let* v := parse_value ty in let* vs := parse_tuple tys in ret (v :: vs)
  end.

Section apply.
Context {R : Type} (f : list V -> M W R).

(** [std::invoke], on the state of the function. *)
Definition invoke (values : list V) : P R := fun s =>
  let '(r, w) := f values (env s) in (r, mk (device s) (version s) (status s) w).

(** [__apply_parse_impl]: the first [count] types are read, the arguments
    given follow. *)
Definition apply_parse_indices (count : nat) (tys : list T) (args : list V) : P R :=
  let* st := gets status in
  when (bool_decide (st <> Ok)) (modify (set_status Ok)) ;;;
  let* values := parse_tuple (take count tys) in
  invoke (values ++ args).

(** [apply_parse_impl]; more arguments than the function has do not compile. *)
Definition apply_parse_impl (tys : list T) (args : list V) : P R :=
  apply_parse_indices (length tys - length args) tys args.

(** The three ways to call it: a stream, a device, an array. *)
Definition apply_parse (tys : list T) (args : list V) : P R := apply_parse_impl tys args.

Definition apply_parse_device (data_dev : D) (ds_version : Z) (tys : list T) (args : list V) (w : W) : outcome R * W :=
  match parse_open_device data_dev ds_version w with
  | Ret s => let '(r, s') := apply_parse_impl tys args s in (r, env s')
  | _ => (Throw, w)
  end.

Definition apply_parse_data (data : list byte) (ds_version : Z) (tys : list T) (args : list V) (w : W) : outcome R * W :=
  let '(r, s') := apply_parse_impl tys args (mk (QBuffer_of data) ds_version Ok w) in (r, env s').

End apply.
End parse.

Arguments stream : clear implicits.

(** ** Properties *)

Section proofs.
Context {D T V W : Type} `{HL : ExtractLaws D T V}.
Abbreviation S := (stream D W).

(** The values the format gives for a list of types, and the bytes after. *)
Fixpoint decode_all (ver : Z) (tys : list T) (bs : list byte) : option (list V * list byte) :=
  match tys with
  | [] => Some ([], bs)
  | ty :: tys =>
      match decode ver ty bs with
      | None => None
      | Some (v, bs) =>
          match decode_all ver tys bs with None => None | Some (vs, rest) => Some (v :: vs, rest) end
      end
  end.

Lemma parse_out_ok ver tys : forall (s : S) vs rest,
  version s = ver -> status s = Ok -> decode_all ver tys (unread (device s)) = Some (vs, rest) ->
  exists d, parse_out tys s = (Ret vs, mk d ver Ok (env s)) /\ unread d = rest.
Proof.
  induction tys as [|ty tys IH]; intros [d v st w] vs rest Hv Hs E; simpl in *; subst.
  { injection E as <- <-. exists d. done. }
  destruct (decode ver ty (unread d)) as [[x bs]|] eqn:Ed; [|done].
  destruct (extract_ok _ _ _ _ _ Ed) as (d' & Ex & Eu).
  destruct (decode_all ver tys bs) as [[xs r]|] eqn:Ea; [|done]. injection E as <- <-.
  destruct (IH (mk d' ver Ok w) xs r eq_refl eq_refl) as (d2 & Ep & Eu2); [by simpl; rewrite Eu|].
  exists d2. split; [|done]. unfold shift_in, bind, gets. simpl. rewrite Ex. simpl. by rewrite Ep.
Qed.

Lemma parse_out_bad ver tys : forall (s : S),
  version s = ver -> status s = Ok -> decode_all ver tys (unread (device s)) = None ->
  exists s', parse_out tys s = (Throw, s') /\ env s' = env s /\ status s' <> Ok.
Proof.
  induction tys as [|ty tys IH]; intros [d v st w] Hv Hs E; simpl in *; subst; [done|].
  unfold shift_in, bind, gets. simpl.
  destruct (decode ver ty (unread d)) as [[x bs]|] eqn:Ed.
  - destruct (extract_ok _ _ _ _ _ Ed) as (d' & Ex & Eu). rewrite Ex. simpl.
    destruct (decode_all ver tys bs) as [[xs r]|] eqn:Ea; [done|].
    destruct (IH (mk d' ver Ok w) eq_refl eq_refl) as (s' & Ep & He & Hst); [by simpl; rewrite Eu|].
    exists s'. by rewrite Ep.
  - pose proof (extract_bad _ _ _ Ed) as Hb. destruct (extract ver ty d) as [[x st] d'] eqn:Ex. simpl in *.
    eexists. split; [by rewrite decide_False|]. done.
Qed.

(** Reading element by element is reading them all. *)
Lemma parse_tuple_out tys : forall s : S, parse_tuple tys s = parse_out tys s.
Proof.
  induction tys as [|ty tys IH]; intros s; [done|]. cbn [parse_tuple parse_out].
  unfold parse_value, bind, gets. simpl. unfold bind, gets.
  destruct (shift_in ty s) as [[v| | |] s1]; try done.
  destruct (decide (status s1 = Ok)); [|done]. simpl. by rewrite IH.
Qed.

Lemma apply_parse_resets {R} (f : list V -> M W R) tys args (s : S) :
  apply_parse f tys args s =
  bind (parse_out (take (length tys - length args) tys)) (fun vs => invoke f (vs ++ args)) (set_status Ok s).
Proof.
  unfold apply_parse, apply_parse_impl, apply_parse_indices.
  rewrite (bind_Ret _ _ s s (status s)) by done.
  rewrite (bind_Ret _ _ s (set_status Ok s) tt).
  - unfold bind. by rewrite parse_tuple_out.
  - unfold when. destruct (decide (status s = Ok)) as [E|E].
    + rewrite bool_decide_eq_false_2 by (intros Hn; by apply Hn). destruct s. simpl in *. by subst.
    + by rewrite bool_decide_eq_true_2.
Qed.

(** The specification: the function with the values that were read and the
    arguments, or an exception without any effect. *)
Definition called {R} (f : list V -> M W R) (r : option (list V * list byte)) (args : list V) (w : W) : outcome R * W :=
  match r with Some (vs, _) => f (vs ++ args) w | None => (Throw, w) end.

Lemma apply_parse_stream {R} (f : list V -> M W R) tys args (s : S) :
  let r := decode_all (version s) (take (length tys - length args) tys) (unread (device s)) in
  exists s', apply_parse f tys args s = ((called f r args (env s)).1, s') /\ env s' = (called f r args (env s)).2
    /\ match r with Some (_, rest) => status s' = Ok /\ unread (device s') = rest | None => status s' <> Ok end.
Proof.
  intros r. rewrite apply_parse_resets. destruct r as [[vs rest]|] eqn:E.
  - destruct (parse_out_ok (version s) _ (set_status Ok s) vs rest eq_refl eq_refl E) as (d & Ep & Eu).
    rewrite (bind_Ret _ _ _ _ _ Ep). unfold invoke. simpl.
    destruct (f (vs ++ args) (env s)) as [o w]. by eexists.
  - destruct (parse_out_bad (version s) _ (set_status Ok s) eq_refl eq_refl E) as (s' & Ep & He & Hs).
    exists s'. by rewrite (bind_Throw _ _ _ _ Ep).
Qed.

Lemma apply_parse_array {R} (f : list V -> M W R) tys args bs ver w :
  apply_parse_data (D := D) f bs ver tys args w
  = called f (decode_all ver (take (length tys - length args) tys) bs) args w.
Proof.
  unfold apply_parse_data. destruct (apply_parse_stream f tys args (mk (QBuffer_of bs : D) ver Ok w)) as (s' & E & Ee & _).
  unfold apply_parse in E. rewrite E. simpl in *. rewrite Ee, QBuffer_of_unread. by rewrite <- surjective_pairing.
Qed.

(** What reading a device starts with: the rest of an open one, all of one
    that is opened for it. *)
Definition readable (dev : D) : option (list byte) :=
  if dev_is_open dev then Some (unread dev)
  else match dev_open dev with Some _ => Some (dev_content dev) | None => None end.

(** C34. The function is called exactly when every value can be read: once,
    with the values in the order of its parameters and then the arguments
    given, leaving the stream after the last value. When the bytes run out or
    are corrupt there is an exception and no call. This holds for a stream,
    whatever error earlier reading has left in it; for an array; and for a
    device, which is opened if need be and read from where it stands if not,
    with an exception when it cannot be opened. *)
Theorem apply_parse_calls `{!QIODeviceLaws D} {R} (f : list V -> M W R) tys args (s : S) (dev : D) bs ver w :
  let n := (length tys - length args)%nat in
  (let r := decode_all (version s) (take n tys) (unread (device s)) in
   exists s', apply_parse f tys args s = ((called f r args (env s)).1, s') /\ env s' = (called f r args (env s)).2
     /\ match r with Some (_, rest) => status s' = Ok /\ unread (device s') = rest | None => status s' <> Ok end)
  /\ apply_parse_data (D := D) f bs ver tys args w = called f (decode_all ver (take n tys) bs) args w
  /\ apply_parse_device f dev ver tys args w
     = match readable dev with
       | Some bs => called f (decode_all ver (take n tys) bs) args w
       | None => (Throw, w)
       end.
Proof.
  intros n. split; [apply apply_parse_stream|]. split; [apply apply_parse_array|].
  unfold apply_parse_device, parse_open_device, readable.
  destruct (dev_is_open dev) eqn:Eo; [|destruct (dev_open dev) as [d|] eqn:Ed; [|done]].
  - destruct (apply_parse_stream f tys args (mk dev ver Ok w)) as (s' & E & Ee & _).
    unfold apply_parse in E. rewrite E. simpl in *. rewrite Ee. by rewrite <- surjective_pairing.
  - destruct (open_content _ _ Ed) as (Ec & Ep & Eop).
    destruct (apply_parse_stream f tys args (mk d ver Ok w)) as (s' & E & Ee & _).
    unfold apply_parse in E. rewrite E. simpl in *. rewrite Ee. unfold unread. rewrite Eop, Ep, Ec. fold n.
    by rewrite <- surjective_pairing.
Qed.

(** Writing each value in the format of its type, if the format reads it back. *)
Definition writes (ver : Z) (ty : T) (v : V) (bs : list byte) : Prop :=
  forall rest, decode ver ty (bs ++ rest) = Some (v, rest).

Lemma decode_all_written ver tys vs bss rest :
  Forall3 (writes ver) tys vs bss -> decode_all ver tys (concat bss ++ rest) = Some (vs, rest).
Proof.
  induction 1 as [|ty v bs tys vs bss Hw _ IH]; [done|]. simpl. rewrite <- app_assoc, Hw, IH. done.
Qed.

(** Values written one after the other into an array reach the function
    unchanged, whatever follows them. *)
Lemma written_values_reach {R} (f : list V -> M W R) ver tys vs bss rest args w :
  Forall3 (writes ver) (take (length tys - length args) tys) vs bss ->
  apply_parse_data (D := D) f (concat bss ++ rest) ver tys args w = f (vs ++ args) w.
Proof. intros Hw. by rewrite apply_parse_array, (decode_all_written _ _ _ _ _ Hw). Qed.

End proofs.

(** ** Integers

    The unsigned integers of [QtInterface] are such types: reading takes
    their bytes from the device. *)

Section integers.
Context {D : Type} `{HD : QIODeviceLaws D} `{HS : QDataStreamLaws} (buffer_of : list byte -> D).
Context (Hbuffer : forall bs, unread (buffer_of bs) = bs).

#[export] Instance extract_width : Extract D width Z := {
  extract _ w d :=
    let '(bs, d') := dev_read (wbytes w) d in
    match get w bs with Some (v, _) => (v, Ok, d') | None => (0, ReadPastEnd, d') end;
  QBuffer_of := buffer_of;
}.

Lemma read_unread n (d : D) : 0 <= n -> (dev_read n d).1 = ztake n (unread d).
Proof.
  intros Hn. unfold unread. destruct (dev_is_open d) eqn:Ho; [by apply read_bytes|]. rewrite read_closed by done.
  unfold ztake. by rewrite take_nil.
Qed.

Lemma wbytes_pos w : 0 < wbytes w.
Proof. by destruct w. Qed.

(** The format: the value of the first bytes, and the bytes after them. *)
Definition decode_width (w : width) (bs : list byte) : option (Z * list byte) :=
  match get w (ztake (wbytes w) bs) with Some (v, _) => Some (v, zdrop (wbytes w) bs) | None => None end.

#[export] Instance extract_width_laws : ExtractLaws D width Z.
Proof.
  unshelve econstructor; [exact (fun _ => decode_width)|..].
  - intros ver w d v rest. unfold decode_width, unread, extract. simpl.
    pose proof (wbytes_pos w) as Hw. pose proof (read_unread (wbytes w) d ltac:(lia)) as Hb. unfold unread in Hb.
    pose proof (read_pos (wbytes w) d ltac:(lia)) as Hp. pose proof (read_content (wbytes w) d) as Hc.
    pose proof (read_open (wbytes w) d) as Ho.
    destruct (dev_read (wbytes w) d) as [bs d'] eqn:Er. simpl in *. rewrite <- Hb.
    destruct (get w bs) as [[x r]|] eqn:Eg; [|done]. intros [= <- <-]. exists d'. split; [done|].
    assert (wbytes w <= zlen bs) as Hlen.
    { destruct (Z.le_gt_cases (wbytes w) (zlen bs)); [done|]. by rewrite get_short in Eg. }
    assert (zlen bs <= wbytes w). { rewrite Hb. zlists. rewrite length_take. lia. }
    pose proof (dev_pos_nonneg d). rewrite Ho, Hp, Hc. destruct (dev_is_open d); [|unfold zdrop; by rewrite drop_nil]. rewrite zdrop_zdrop by lia. f_equal. lia.
  - intros ver w d. unfold decode_width, unread, extract. simpl.
    pose proof (wbytes_pos w) as Hw. pose proof (read_unread (wbytes w) d ltac:(lia)) as Hb. unfold unread in Hb.
    destruct (dev_read (wbytes w) d) as [bs d'] eqn:Er. simpl in *. rewrite <- Hb.
    by destruct (get w bs) as [[x r]|].
  - exact Hbuffer.
Defined.

Lemma put_writes ver w v : 0 <= v < wbound w -> writes ver w v (put w v).
Proof.
  intros Hv rest. unfold decode. simpl. unfold decode_width.
  rewrite ztake_app_exact, zdrop_app_exact by (by rewrite put_len).
  pose proof (get_put w v [] Hv) as Hg. rewrite app_nil_r in Hg. by rewrite Hg.
Qed.

End integers.
End Apply_Parse.

(** ** Concrete instance: a function of three numbers, the last one given *)

Module Parse_Witness.
Import Apply_Parse QtRef.

Definition buffer (bs : list byte) : mem := {| m_content := bs; m_pos := 0; m_open := true |}.

#[local] Existing Instance be_stream.
#[local] Instance mem_extract : Extract mem width Z := extract_width buffer.
#[local] Instance mem_extract_laws : ExtractLaws mem width Z := extract_width_laws buffer (fun bs => eq_refl).

(** It records its arguments. *)
Definition record (values : list Z) : M (list (list Z)) unit := modify (fun w => w ++ [values]).

Definition closed : mem := {| m_content := [x01; x00; x02; x09]; m_pos := 0; m_open := false |}.

Lemma apply_parse_calls_witness :
  apply_parse_device record closed 0 [W8; W16; W32] [7] [] = (Ret tt, [[1; 2; 7]])
  /\ apply_parse_data (D := mem) record [x01; x00] 0 [W8; W16; W32] [7] [] = (Throw, []).
Proof.
  destruct (apply_parse_calls record [W8; W16; W32] [7] (mk closed 0 ReadPastEnd []) closed [x01; x00] 0 [])
    as (_ & Ha & Hd).
  rewrite Ha, Hd. split; vm_compute; reflexivity.
Defined.

End Parse_Witness.
