(* ===== verification/DataStream.v ===== *)
(** * Data_Stream

    [src/Base/data_stream.h] and [data_stream.cpp]: reading integers of six
    types from a byte vector in a chosen byte order. The byte order of the
    machine that runs the code is a parameter, since [read] loads the value
    as the machine does and then swaps it when the stream's order is not what
    [systemByteOrder] reports; so is the address of the vector's bytes, since
    the load goes through a pointer cast to the integer type, which is defined
    only at a multiple of the type's alignment. That the bytes of a vector are
    read as a wider integer at all is taken as compilers do it that do not
    use the language's aliasing rule, which forbids it. *)

From S2P Require Import Prelude.

Module Data_Stream.

(** [int8_t] to [uint32_t]: the number of bytes, and whether it is signed. *)
Inductive int_type := int8_t | int16_t | int32_t | uint8_t | uint16_t | uint32_t.

Definition sizeof (T : int_type) : Z :=
  match T with int8_t | uint8_t => 1 | int16_t | uint16_t => 2 | int32_t | uint32_t => 4 end.

Definition is_signed (T : int_type) : bool :=
  match T with int8_t | int16_t | int32_t => true | _ => false end.

Definition modulus (T : int_type) : Z := 256 ^ sizeof T.
Definition min_value (T : int_type) : Z := if is_signed T then - (modulus T / 2) else 0.
Definition in_type (T : int_type) (v : Z) : Prop := min_value T <= v < min_value T + modulus T.

(** Conversion of an integer to the type: the value of the type congruent to
    it. The shifts of [read] convert this way too: a signed value that is
    shifted left is never negative there. *)
Definition cast (T : int_type) (v : Z) : Z := (v - min_value T) mod modulus T + min_value T.

Inductive ByteOrder := BigEndian | LittleEndian.
#[export] Instance ByteOrder_dec : EqDecision ByteOrder.
Proof. solve_decision. Defined.

Inductive Status := Ok | ReadPastEnd.
#[export] Instance Status_dec : EqDecision Status.
Proof. solve_decision. Defined.

Abbreviation Storage := (list byte).

(** [m_data] is null for a stream made from a null pointer. [m_ptr] keeps the
    storage alive when the stream owns or shares it. *)
Record t := {
  m_ptr : option Storage;
  m_data : option Storage;
  m_idx : Z;
  m_status : Status;
  m_byteOrder : ByteOrder;
  m_systemOrder : ByteOrder;
}.

Definition set_m_idx v s := {| m_ptr := m_ptr s; m_data := m_data s; m_idx := v; m_status := m_status s;
  m_byteOrder := m_byteOrder s; m_systemOrder := m_systemOrder s |}.
Definition set_m_status v s := {| m_ptr := m_ptr s; m_data := m_data s; m_idx := m_idx s; m_status := v;
  m_byteOrder := m_byteOrder s; m_systemOrder := m_systemOrder s |}.

(** The test is of the pointer to [t], which is never null, and not of the
    byte it points to. *)
Definition systemByteOrder : ByteOrder := LittleEndian.

(** The four constructors: from a pointer, a shared and a unique pointer, and
    a vector that is moved in. *)
Definition from_pointer (data : option Storage) : t :=
  {| m_ptr := None; m_data := data; m_idx := 0; m_status := Ok;
     m_byteOrder := BigEndian; m_systemOrder := systemByteOrder |}.
Definition from_shared (data : option Storage) : t :=
  {| m_ptr := data; m_data := data; m_idx := 0; m_status := Ok;
     m_byteOrder := BigEndian; m_systemOrder := systemByteOrder |}.
Definition from_unique (data : option Storage) : t :=
  {| m_ptr := data; m_data := data; m_idx := 0; m_status := Ok;
     m_byteOrder := BigEndian; m_systemOrder := systemByteOrder |}.
Definition from_vector (data : Storage) : t :=
  {| m_ptr := Some data; m_data := Some data; m_idx := 0; m_status := Ok;
     m_byteOrder := BigEndian; m_systemOrder := systemByteOrder |}.

Definition setByteOrder (b : ByteOrder) (s : t) : t :=
  {| m_ptr := m_ptr s; m_data := m_data s; m_idx := m_idx s; m_status := m_status s;
     m_byteOrder := b; m_systemOrder := m_systemOrder s |}.
Definition byteOrder (s : t) : ByteOrder := m_byteOrder s.

Definition deref_data : M t Storage :=
  fun s => match m_data s with Some d => (Ret d, s) | None => (Undef, s) end.

Definition atEnd : M t bool :=
  let* d := deref_data in gets (fun s => m_idx s =? zlen d).

(** The sum is of [size_t]. *)
Definition has (count : Z) : M t bool :=
  let* d := deref_data in gets (fun s => (m_idx s + count) mod 2 ^ 64 <=? zlen d).

(** The loop of [read]: [n] is what is left of [sizeof(T)] iterations. *)
Fixpoint swap (T : int_type) (n : nat) (tmp result : Z) : Z :=
  match n with
  | O => tmp
  | S n => swap T n (cast T (Z.lor (Z.shiftl tmp 8) (Z.land result 255))) (Z.shiftr result 8)
  end.

Section read.
(** The byte order of the machine, and the address of the first byte of the
    vector. The alignment of each of the six types is its size. *)
Context (machine : ByteOrder) (address : Z).

Definition alignof (T : int_type) : Z := sizeof T.

(** The load through the casted pointer to the byte at [idx]: undefined when
    the pointer is not aligned for the type. *)
Definition load (T : int_type) (idx : Z) (d : Storage) : M t Z :=
  if (address + idx) mod alignof T =? 0 then
    let bs := ztake (sizeof T) (zdrop idx d) in
    ret (cast T (match machine with BigEndian => be_val bs | LittleEndian => be_val (rev bs) end))
  else undef.

(** [i] is the value the variable has before; the result is its value after. *)
Definition read (T : int_type) (i : Z) : M t Z :=
  let* enough := has (sizeof T) in
  let* status := gets m_status in
  if enough && bool_decide (Ok = status) then
    let* d := deref_data in
    let* idx := gets m_idx in
    let* result := load T idx d in
    modify (set_m_idx (idx + sizeof T));;;
    let* differ := gets (fun s => negb (bool_decide (m_byteOrder s = m_systemOrder s))) in
    ret (if differ then swap T (Z.to_nat (sizeof T)) 0 result else result)
  else
    modify (set_m_status ReadPastEnd);;; ret i.

(** [s >> i1 >> i2 >> ...]: the variables' types and their values before. *)
Fixpoint read_all (vars : list (int_type * Z)) : M t (list Z) :=
  match vars with
  | [] => ret []
  | (T, i) :: vars => let* v := read T i in let* vs := read_all vars in ret (v :: vs)
  end.

End read.

(** ** Conversions *)

Lemma modulus_pos T : 0 < modulus T.
Proof. by destruct T. Qed.

Lemma cast_in_type T v : in_type T (cast T v).
Proof. unfold in_type, cast. pose proof (Z.mod_pos_bound (v - min_value T) (modulus T) (modulus_pos T)). lia. Qed.

Lemma cast_id T v : in_type T v -> cast T v = v.
Proof. unfold in_type, cast. intros. rewrite Z.mod_small; lia. Qed.

(** Only the residue of the argument matters. *)
Lemma cast_mod T a b : a mod modulus T = b mod modulus T -> cast T a = cast T b.
Proof.
  intros E. unfold cast. f_equal. pose proof (modulus_pos T).
  rewrite (Zminus_mod a), (Zminus_mod b), E. done.
Qed.

Lemma cast_residue T v : cast T v mod modulus T = v mod modulus T.
Proof.
  unfold cast. pose proof (modulus_pos T). rewrite Z.add_mod_idemp_l by lia. f_equal. lia.
Qed.

Lemma zero_in_type T : in_type T 0.
Proof. by destruct T. Qed.

(** ** The swap *)

Lemma shift_or a b : 0 <= b < 256 -> Z.lor (Z.shiftl a 8) b = a * 256 + b.
Proof.
  intros Hb. rewrite Z.shiftl_mul_pow2 by lia. change (2 ^ 8) with 256.
  rewrite Z.add_nocarry_lxor, Z.lxor_lor; [done| |]; apply Z.bits_inj_0; intros k;
    rewrite Z.land_spec; change 256 with (2 ^ 8);
    (destruct (Z.lt_ge_cases k 8);
      [rewrite Z.mul_pow2_bits_low by lia; done
      |replace (Z.testbit b k) with false; [apply andb_false_r|];
       symmetry; apply Z.testbit_false; [lia|]; rewrite Z.div_small; [done|];
       split; [lia|]; apply Z.lt_le_trans with (2 ^ 8); [lia|]; apply Z.pow_le_mono_r; lia]).
Qed.

Lemma be_val_app bs cs : be_val (bs ++ cs) = be_val bs * 256 ^ zlen cs + be_val cs.
Proof.
  induction bs as [|b bs IH]; [simpl; lia|]. cbn [app be_val]. rewrite IH, zlen_app.
  rewrite Z.pow_add_r by apply zlen_nonneg. lia.
Qed.

(** The loop moves the low bytes of [result], first to last, under [tmp]. *)
Lemma swap_spec T bs : forall tmp result,
  result mod 256 ^ zlen bs = be_val (rev bs) ->
  in_type T tmp ->
  swap T (length bs) tmp result = cast T (tmp * 256 ^ zlen bs + be_val bs).
Proof.
  induction bs as [|b bs IH]; intros tmp result E Ht.
  { simpl. change (zlen (@nil byte)) with 0. rewrite Z.pow_0_r, Z.mul_1_r, Z.add_0_r. by rewrite cast_id. }
  cbn [length swap]. replace (zlen (b :: bs)) with (1 + zlen bs) in * by (unfold zlen; simpl; lia).
  pose proof (zlen_nonneg bs) as Hn. rewrite Z.pow_add_r in * by lia. change (256 ^ 1) with 256 in *.
  cbn [rev] in E. rewrite be_val_app in E. change (256 ^ zlen [b]) with 256 in E.
  cbn [be_val] in E. change (256 ^ zlen (@nil byte)) with 1 in E. rewrite Z.mul_1_r, Z.add_0_r in E.
  pose proof (Z_of_byte_range b) as Hb. pose proof (be_val_range (rev bs)) as Hr.
  rewrite Z.rem_mul_r in E by lia.
  pose proof (Z.mod_pos_bound result 256 ltac:(lia)) as Hm.
  assert (result mod 256 = Z_of_byte b /\ (result / 256) mod 256 ^ zlen bs = be_val (rev bs)) as [E1 E2] by lia.
  change 255 with (Z.ones 8). rewrite Z.land_ones by lia. change (2 ^ 8) with 256. rewrite E1, shift_or by lia.
  rewrite IH.
  - apply cast_mod. pose proof (modulus_pos T).
    rewrite <- Z.add_mod_idemp_l, <- Z.mul_mod_idemp_l, cast_residue by lia.
    rewrite Z.mul_mod_idemp_l, Z.add_mod_idemp_l by lia. cbn [be_val]. f_equal. lia.
  - rewrite Z.shiftr_div_pow2 by lia. exact E2.
  - apply cast_in_type.
Qed.

(** ** Reading

    The value of the bytes in a byte order. *)
Definition value_of (o : ByteOrder) (T : int_type) (bs : Storage) : Z :=
  cast T (match o with BigEndian => be_val bs | LittleEndian => be_val (rev bs) end).

(** The order in which a stream set to [o] reads on a machine: its own on a
    little-endian machine, the other one on a big-endian machine, where
    [systemByteOrder] reports little-endian too. *)
Definition order_on (machine o : ByteOrder) : ByteOrder :=
  match machine, o with
  | LittleEndian, o => o
  | BigEndian, BigEndian => LittleEndian
  | BigEndian, LittleEndian => BigEndian
  end.

(** The variables after [>>] of all of them from [bs]: those from the first
    that does not fit keep their values. *)
Fixpoint values_from (o : ByteOrder) (bs : Storage) (vars : list (int_type * Z)) : list Z :=
  match vars with
  | [] => []
  | (T, i) :: vars' =>
      if sizeof T <=? zlen bs
      then value_of o T (ztake (sizeof T) bs) :: values_from o (zdrop (sizeof T) bs) vars'
      else map snd vars
  end.

(** Each variable that fits into the [left] bytes at [addr] stands, when its
    turn comes, at a multiple of its size. *)
Fixpoint aligned (addr left : Z) (vars : list (int_type * Z)) : bool :=
  match vars with
  | [] => true
  | (T, _) :: vars =>
      if sizeof T <=? left then (addr mod sizeof T =? 0) && aligned (addr + sizeof T) (left - sizeof T) vars
      else true
  end.

(** A stream over an existing vector with its position inside. The size of a
    vector is below 2^63. *)
Definition wf (s : t) : Prop :=
  exists d, m_data s = Some d /\ 0 <= m_idx s <= zlen d /\ zlen d < 2 ^ 63 /\ m_systemOrder s = LittleEndian.

Definition left_in (s : t) : Storage := zdrop (m_idx s) (default [] (m_data s)).

Definition total (vars : list (int_type * Z)) : Z := fold_right (fun v n => sizeof v.1 + n) 0 vars.

Definition advance (n : Z) (s : t) : t := set_m_idx (m_idx s + n) s.

Lemma sizeof_range T : 1 <= sizeof T <= 4.
Proof. by destruct T. Qed.

Lemma total_size_nonneg vars : 0 <= total vars.
Proof. induction vars as [|[T i] vars IH]; [done|]. simpl. pose proof (sizeof_range T). lia. Qed.

Lemma left_in_len s : wf s -> 0 <= zlen (left_in s) /\ m_idx s + zlen (left_in s) = zlen (default [] (m_data s)).
Proof.
  intros (d & Hd & Hi & _). unfold left_in. rewrite Hd. simpl. rewrite zlen_zdrop by lia. lia.
Qed.

Lemma left_in_advance n s : wf s -> 0 <= n -> left_in (advance n s) = zdrop n (left_in s).
Proof. intros (d & Hd & Hi & _) Hn. unfold left_in. simpl. rewrite zdrop_zdrop by lia. done. Qed.

Lemma wf_advance n s : wf s -> 0 <= n <= zlen (left_in s) -> wf (advance n s).
Proof.
  intros Hw Hn. pose proof (left_in_len s Hw) as [_ Hl]. destruct Hw as (d & Hd & Hi & Hs & Ho).
  rewrite Hd in Hl. simpl in Hl. exists d. unfold advance. simpl. repeat split; auto; lia.
Qed.

Lemma has_spec n s : wf s -> 0 <= n <= 4 -> has n s = (Ret (n <=? zlen (left_in s)), s).
Proof.
  intros Hw Hn. pose proof (left_in_len s Hw) as [_ Hl]. destruct Hw as (d & Hd & Hi & Hs & _).
  unfold has, deref_data, bind, gets. rewrite Hd in Hl |- *. simpl in Hl. do 2 f_equal.
  rewrite Z.mod_small by lia. apply eq_true_iff_eq. rewrite !Z.leb_le. lia.
Qed.

(** The loop of [read] reverses the order of the bytes. *)
Lemma swap_value T bs : zlen bs = sizeof T ->
  swap T (Z.to_nat (sizeof T)) 0 (value_of LittleEndian T bs) = value_of BigEndian T bs
  /\ swap T (Z.to_nat (sizeof T)) 0 (value_of BigEndian T bs) = value_of LittleEndian T bs.
Proof.
  assert (forall cs, zlen cs = sizeof T ->
    swap T (Z.to_nat (sizeof T)) 0 (cast T (be_val (rev cs))) = cast T (be_val cs)) as Hswap.
  { intros cs Hl. rewrite <- Hl. unfold zlen. rewrite Nat2Z.id. rewrite swap_spec; [done| |apply zero_in_type].
    rewrite Hl. fold (modulus T). rewrite cast_residue, Z.mod_small; [done|].
    pose proof (be_val_range (rev cs)) as Hr. unfold zlen in *. rewrite length_rev, Hl in Hr. exact Hr. }
  intros Hl. split; [by apply Hswap|]. unfold value_of. rewrite <- (rev_involutive bs) at 1. apply Hswap.
  unfold zlen. by rewrite length_rev.
Qed.

Section reading.
Context (machine : ByteOrder) (address : Z).

Abbreviation here s := (address + m_idx s).

Lemma read_fits T i s :
  wf s -> m_status s = Ok -> sizeof T <= zlen (left_in s) -> here s mod sizeof T = 0 ->
  read machine address T i s
  = (Ret (value_of (order_on machine (byteOrder s)) T (ztake (sizeof T) (left_in s))), advance (sizeof T) s).
Proof.
  intros Hw Hs Hf Ha. pose proof (sizeof_range T). unfold read.
  erewrite bind_Ret by (apply has_spec; [done|lia]).
  rewrite (proj2 (Z.leb_le _ _) Hf). erewrite bind_Ret by reflexivity. rewrite Hs.
  rewrite bool_decide_eq_true_2 by done. cbn [andb].
  destruct Hw as (d & Hd & Hi & Hm & Ho). erewrite bind_Ret by (unfold deref_data; by rewrite Hd).
  unfold bind, gets, load, alignof. rewrite (proj2 (Z.eqb_eq _ _) Ha).
  unfold modify, ret. cbn [m_byteOrder m_systemOrder set_m_idx]. unfold advance.
  do 2 f_equal. rewrite Ho. unfold left_in in *. rewrite Hd in *. simpl default in *.
  set (bs := ztake _ _). assert (zlen bs = sizeof T) as Hbs by (apply zlen_ztake; lia).
  destruct (swap_value T bs Hbs) as [Hlb Hbl]. unfold byteOrder.
  destruct machine, (m_byteOrder s); cbn; [exact Hbl|done|exact Hlb|done].
Qed.

Lemma read_past T i s :
  wf s -> m_status s <> Ok \/ zlen (left_in s) < sizeof T ->
  read machine address T i s = (Ret i, set_m_status ReadPastEnd s).
Proof.
  intros Hw Hp. pose proof (sizeof_range T). unfold read.
  erewrite bind_Ret by (apply has_spec; [done|lia]). erewrite bind_Ret by reflexivity.
  replace ((sizeof T <=? zlen (left_in s)) && bool_decide (Ok = m_status s)) with false; [done|].
  symmetry. apply andb_false_iff. destruct Hp as [Hp|Hp].
  - right. by apply bool_decide_eq_false_2.
  - left. by apply Z.leb_gt.
Qed.

(** A value that is there but not aligned. *)
Lemma read_misaligned T i s :
  wf s -> m_status s = Ok -> sizeof T <= zlen (left_in s) -> here s mod sizeof T <> 0 ->
  read machine address T i s = (Undef, s).
Proof.
  intros Hw Hs Hf Ha. pose proof (sizeof_range T). unfold read.
  erewrite bind_Ret by (apply has_spec; [done|lia]).
  rewrite (proj2 (Z.leb_le _ _) Hf). erewrite bind_Ret by reflexivity. rewrite Hs.
  rewrite bool_decide_eq_true_2 by done. cbn [andb].
  destruct Hw as (d & Hd & _). erewrite bind_Ret by (unfold deref_data; by rewrite Hd).
  unfold bind, gets, load, alignof. by rewrite (proj2 (Z.eqb_neq _ _) Ha).
Qed.

(** After a read past the end nothing is read any more. *)
Lemma reads_past vars : forall s,
  wf s -> m_status s = ReadPastEnd -> read_all machine address vars s = (Ret (map snd vars), s).
Proof.
  induction vars as [|[T i] vars IH]; intros s Hw Hs; [done|]. cbn [read_all].
  erewrite bind_Ret by (apply read_past; [done|left; by rewrite Hs]).
  assert (set_m_status ReadPastEnd s = s) as -> by (destruct s; simpl in *; by subst).
  by erewrite bind_Ret by (by apply IH).
Qed.

(** The state after a sequence of aligned reads: all of them fit, or the
    status is set at the first that does not. *)
Lemma reads_aligned vars : forall s,
  wf s -> m_status s = Ok -> aligned (here s) (zlen (left_in s)) vars = true ->
  exists s', read_all machine address vars s
      = (Ret (values_from (order_on machine (byteOrder s)) (left_in s) vars), s')
    /\ wf s'
    /\ if total vars <=? zlen (left_in s) then s' = advance (total vars) s else m_status s' = ReadPastEnd.
Proof.
  induction vars as [|[T i] vars IH]; intros s Hw Hs Ha.
  { pose proof (zlen_nonneg (left_in s)). exists s. split; [done|]. split; [done|].
    change (total []) with 0. rewrite (proj2 (Z.leb_le _ _)) by done.
    unfold advance. rewrite Z.add_0_r. by destruct s. }
  pose proof (sizeof_range T). pose proof (total_size_nonneg vars). cbn [aligned read_all values_from] in *.
  change (total ((T, i) :: vars)) with (sizeof T + total vars).
  destruct (Z.leb_spec (sizeof T) (zlen (left_in s))) as [Hle|Hgt].
  - apply andb_true_iff in Ha as [Ha Har]. apply Z.eqb_eq in Ha.
    assert (left_in (advance (sizeof T) s) = zdrop (sizeof T) (left_in s)) as El by (apply left_in_advance; [done|lia]).
    assert (zlen (left_in (advance (sizeof T) s)) = zlen (left_in s) - sizeof T) as Hlen by (rewrite El, zlen_zdrop; lia).
    erewrite bind_Ret by (by apply read_fits).
    destruct (IH (advance (sizeof T) s)) as (s' & E & Hw' & Hs'); [apply wf_advance; [done|lia]|done| |].
    { rewrite Hlen. simpl. by rewrite Z.add_assoc. }
    erewrite bind_Ret by exact E. rewrite El. exists s'. split; [done|]. split; [done|].
    rewrite Hlen in Hs'. destruct (Z.leb_spec (sizeof T + total vars) (zlen (left_in s))) as [Ht|Ht].
    + rewrite (proj2 (Z.leb_le _ _)) in Hs' by lia. rewrite Hs'. unfold advance, set_m_idx. simpl.
      by rewrite Z.add_assoc.
    + by rewrite (proj2 (Z.leb_gt _ _)) in Hs' by lia.
  - erewrite bind_Ret by (apply read_past; [done|by right]).
    erewrite bind_Ret by (by apply reads_past). exists (set_m_status ReadPastEnd s).
    split; [done|]. split; [exact Hw|]. by rewrite (proj2 (Z.leb_gt _ _)) by lia.
Qed.

(** A sequence with a value that is there but not aligned. *)
Lemma reads_misaligned vars : forall s,
  wf s -> m_status s = Ok -> aligned (here s) (zlen (left_in s)) vars = false ->
  (read_all machine address vars s).1 = Undef.
Proof.
  induction vars as [|[T i] vars IH]; intros s Hw Hs Ha; [done|].
  pose proof (sizeof_range T). cbn [aligned read_all] in *.
  destruct (Z.leb_spec (sizeof T) (zlen (left_in s))) as [Hle|Hgt]; [|done].
  destruct (Z.eqb_spec (here s mod sizeof T) 0) as [Hm|Hm].
  - erewrite bind_Ret by (by apply read_fits). unfold bind.
    specialize (IH (advance (sizeof T) s)).
    destruct (read_all machine address vars (advance (sizeof T) s)) as [r s'] eqn:E.
    simpl in IH. rewrite IH; [done|apply wf_advance; [done|lia]|done|].
    rewrite left_in_advance, zlen_zdrop by (done || lia). by rewrite Z.add_assoc.
  - unfold bind. by rewrite read_misaligned.
Qed.

End reading.

Lemma value_of_in_type o T bs : in_type T (value_of o T bs).
Proof. apply cast_in_type. Qed.

Lemma values_in_type o vars : forall bs,
  Forall (fun v => in_type v.1 v.2) vars -> Forall2 in_type (map fst vars) (values_from o bs vars).
Proof.
  induction vars as [|[T i] vars IH]; intros bs Hv; [constructor|]. cbn [values_from map fst].
  inversion Hv; subst. case_cmp.
  - constructor; [apply value_of_in_type|by apply IH].
  - cbn [map snd]. constructor; [done|]. clear -H2. induction H2 as [|[] ? ? ? IH]; constructor; auto.
Qed.

(** C35. Reading a list of variables with [>>] from a stream over a vector:
    when each value that is there stands at a multiple of its size, the reads
    return, the variables get the values of the consecutive bytes, those from
    the first one that does not fit keep what they had, every variable stays
    within its type, the position stays within the data, and the status is
    [Ok] exactly when all of them fit. The values are in the stream's byte
    order on a little-endian machine and in the other order on a big-endian
    one. When a value that is there stands elsewhere, the reads are
    undefined. (The aliasing rule of the language is left aside.) *)
Theorem reads_bounded machine address vars s :
  wf s -> m_status s = Ok -> Forall (fun v => in_type v.1 v.2) vars ->
  if aligned (address + m_idx s) (zlen (left_in s)) vars
  then exists vs s', read_all machine address vars s = (Ret vs, s')
    /\ vs = values_from (order_on machine (byteOrder s)) (left_in s) vars
    /\ Forall2 in_type (map fst vars) vs
    /\ wf s'
    /\ (m_status s' = Ok <-> total vars <= zlen (left_in s))
    /\ (m_status s' = Ok -> m_idx s' = m_idx s + total vars)
  else (read_all machine address vars s).1 = Undef.
Proof.
  intros Hw Hs Hv. destruct (aligned _ _ _) eqn:Ha; [|by apply reads_misaligned].
  destruct (reads_aligned machine address vars s Hw Hs Ha) as (s' & E & Hw' & Hs').
  eexists _, s'. split; [exact E|]. split; [done|]. split; [by apply values_in_type|]. split; [done|].
  destruct (Z.leb_spec (total vars) (zlen (left_in s))) as [Hle|Hgt].
  - subst s'. split; [by split|done].
  - rewrite Hs'. split; [split; [done|lia]|done].
Qed.

Definition demo : t := from_vector [x01; x02; xff; xfe; x05].

(** The last variable but one does not fit; and a [uint32_t] after a
    [uint8_t]. *)
Lemma reads_bounded_witness :
  (exists vs s', read_all LittleEndian 4096 [(uint16_t, 0); (int16_t, 0); (uint32_t, 7); (uint8_t, 9)] demo
      = (Ret vs, s') /\ vs = [258; -2; 7; 9])
  /\ (read_all LittleEndian 4096 [(uint8_t, 0); (uint32_t, 0)] demo).1 = Undef.
Proof.
  assert (wf demo) as Hw by (exists [x01; x02; xff; xfe; x05]; vm_compute; repeat split; discriminate).
  split.
  - destruct (reads_bounded LittleEndian 4096 [(uint16_t, 0); (int16_t, 0); (uint32_t, 7); (uint8_t, 9)] demo Hw)
      as (vs & s' & E & Hvs & _).
    + reflexivity.
    + repeat constructor; vm_compute; repeat split; discriminate.
    + exists vs, s'. split; [exact E|]. rewrite Hvs. vm_compute. reflexivity.
  - apply (reads_bounded LittleEndian 4096 [(uint8_t, 0); (uint32_t, 0)] demo Hw).
    + reflexivity.
    + repeat constructor; vm_compute; repeat split; discriminate.
Defined.

(** ** Round trip *)

(** The bytes of a value in an order. *)
Definition encode (o : ByteOrder) (f : int_type * Z) : Storage :=
  let bs := be_put (Z.to_nat (sizeof f.1)) f.2 in
  match o with BigEndian => bs | LittleEndian => rev bs end.

Definition encode_all (o : ByteOrder) (fs : list (int_type * Z)) : Storage := concat (map (encode o) fs).

Lemma encode_bytes_len o f : zlen (encode o f) = sizeof f.1.
Proof.
  unfold encode, zlen. pose proof (sizeof_range f.1). destruct o; rewrite ?length_rev, be_put_length; lia.
Qed.

Lemma encode_all_len o fs : zlen (encode_all o fs) = total fs.
Proof.
  induction fs as [|f fs IH]; [done|]. unfold encode_all in *. simpl. rewrite zlen_app, encode_bytes_len, IH. done.
Qed.

Lemma value_of_encode o f : in_type f.1 f.2 -> value_of o f.1 (encode o f) = f.2.
Proof.
  intros Hf. transitivity (cast f.1 f.2); [|by apply cast_id]. unfold value_of, encode.
  assert (be_val (be_put (Z.to_nat (sizeof f.1)) f.2) = f.2 mod modulus f.1) as E.
  { rewrite be_val_put. pose proof (sizeof_range f.1). unfold modulus. do 2 f_equal. lia. }
  pose proof (modulus_pos f.1).
  destruct o; rewrite ?rev_involutive, E; apply cast_mod; apply Z.mod_mod; lia.
Qed.

Lemma values_from_encode o fs rest : forall vars,
  map fst vars = map fst fs -> Forall (fun f => in_type f.1 f.2) fs ->
  values_from o (encode_all o fs ++ rest) vars = map snd fs.
Proof.
  induction fs as [|f fs IH]; intros [|[T i] vars] E Hf; try done. simpl in E. simplify_eq.
  inversion Hf; subst. unfold encode_all. cbn [map concat values_from snd]. rewrite <- app_assoc.
  pose proof (encode_bytes_len o f) as Hl. rewrite zlen_app, Hl.
  pose proof (zlen_nonneg (concat (map (encode o) fs) ++ rest)).
  rewrite (proj2 (Z.leb_le _ _)) by lia. rewrite ztake_app_exact, zdrop_app_exact by done.
  rewrite value_of_encode by done. f_equal. by apply IH.
Qed.

(** Values written one after the other in a byte order, each at a multiple of
    its size, and read back with the same types and order on a little-endian
    machine are the same values, and the stream stands at whatever follows
    them. *)
Theorem fields_round_trip address o fs vars rest :
  map fst vars = map fst fs -> Forall (fun f => in_type f.1 f.2) fs ->
  zlen (encode_all o fs ++ rest) < 2 ^ 63 ->
  aligned address (zlen (encode_all o fs ++ rest)) vars = true ->
  exists s', read_all LittleEndian address vars (setByteOrder o (from_vector (encode_all o fs ++ rest)))
      = (Ret (map snd fs), s')
    /\ m_status s' = Ok /\ left_in s' = rest
    /\ atEnd s' = (Ret (bool_decide (rest = [])), s').
Proof.
  intros Ht Hf Hl Ha. set (s := setByteOrder o _).
  assert (wf s) as Hw.
  { eexists. simpl. split_and!; try done. apply zlen_nonneg. }
  assert (total vars = total fs) as Et.
  { clear -Ht. revert fs Ht. induction vars as [|[] vars IH]; intros [|[] fs] E; simplify_eq/=; [done|]. f_equal. by apply IH. }
  assert (left_in s = encode_all o fs ++ rest) as El by reflexivity.
  pose proof (zlen_nonneg rest). pose proof (zlen_nonneg (encode_all o fs)) as Hn. rewrite zlen_app in Hl.
  destruct (reads_aligned LittleEndian address vars s Hw) as (s' & E & _ & Hs'); [done| |].
  { change (m_idx s) with 0. by rewrite Z.add_0_r. }
  rewrite El, zlen_app, encode_all_len, Et, (proj2 (Z.leb_le _ _)) in Hs' by lia. subst s'.
  eexists. split.
  - rewrite <- (values_from_encode o fs rest vars) by done. exact E.
  - rewrite encode_all_len in *. split; [done|]. split.
    + rewrite left_in_advance by (done || lia). rewrite El. apply zdrop_app_exact. by rewrite encode_all_len.
    + unfold atEnd, bind, deref_data, gets. simpl. do 2 f_equal. rewrite zlen_app, encode_all_len.
      apply eq_true_iff_eq. rewrite Z.eqb_eq, bool_decide_eq_true. split.
      * intros Er. apply zlen_0_inv. lia.
      * intros ->. unfold zlen. simpl. lia.
Qed.

Lemma fields_round_trip_witness :
  exists s', read_all LittleEndian 0 [(uint32_t, 0); (int8_t, 0)]
    (setByteOrder BigEndian (from_vector [x01; x02; x03; x04; xff])) = (Ret [16909060; -1], s') /\ m_status s' = Ok.
Proof.
  destruct (fields_round_trip 0 BigEndian [(uint32_t, 16909060); (int8_t, -1)] [(uint32_t, 0); (int8_t, 0)] [])
    as (s' & E & Hs & _).
  - reflexivity.
  - repeat constructor; vm_compute; repeat split; discriminate.
  - reflexivity.
  - reflexivity.
  - exists s'. split; [exact E|exact Hs].
Defined.

(** On a big-endian machine the two orders change places: [systemByteOrder]
    reports little-endian there too. *)
Lemma big_endian_machine_swapped :
  (read BigEndian 0 uint16_t 0 (from_vector [x01; x02])).1 = Ret 513
  /\ (read BigEndian 0 uint16_t 0 (setByteOrder LittleEndian (from_vector [x01; x02]))).1 = Ret 258.
Proof. split; reflexivity. Qed.

End Data_Stream.
