(* ===== verification/StdString.v ===== *)
(** * std::string, and [src/Base/zstring]

    A [std::string] is the list of its bytes; positions are [size_t], with
    [npos] the largest one. Here are the member functions [settings.cpp] and
    [zstring.cpp] call, and the trimming functions of [Helpz::String]. *)

From S2P Require Import Prelude.
From Stdlib Require Ascii String.
Export String.StringSyntax.
Delimit Scope string_scope with string.
Bind Scope string_scope with String.string.

Abbreviation std_string := (list byte).

#[export] Instance byte_dec : EqDecision byte := Byte.byte_eq_dec.

(** A string literal. *)
Definition lit (s : String.string) : std_string := String.list_byte_of_string s.

Definition u64 (z : Z) : Z := z mod 18446744073709551616.
Definition npos : Z := 18446744073709551615.

Fixpoint is_prefix (p s : std_string) : bool :=
  match p, s with
  | [], _ => true
  | _, [] => false
  | a :: p, b :: s => Byte.eqb a b && is_prefix p s
  end.

(** The place of the first occurrence of [p] in [s], counted from [i]. *)
Fixpoint search (p s : std_string) (i : Z) : option Z :=
  if is_prefix p s then Some i
  else match s with [] => None | _ :: s => search p s (i + 1) end.

(** [text.find(p, pos)]; a character is a string of length one. *)
Definition find (text p : std_string) (pos : Z) : Z :=
  if zlen text <? pos then npos
  else default npos (search p (zdrop pos text) pos).

(** [text.substr(pos, n)] and [text.replace(pos, n, value)] throw for a
    position past the end; the count is cut to what is there. *)
Definition substr (text : std_string) (pos n : Z) : outcome std_string :=
  if zlen text <? pos then Throw else Ret (ztake (Z.min n (zlen text - pos)) (zdrop pos text)).
Definition replace (text : std_string) (pos n : Z) (value : std_string) : outcome std_string :=
  if zlen text <? pos then Throw else 
  Ret (ztake pos text ++ value ++ zdrop (Z.min n (zlen text - pos)) (zdrop pos text)).

(** [std::isspace] of the C locale. The source passes a plain [char]; where
    that is negative (a byte over 127) the standard leaves the result open,
    here it is not a space, as in the tables of the common libraries. *)
Definition isspace (ch : byte) : bool :=
  let c := Z_of_byte ch in ((9 <=? c) && (c <=? 13)) || (c =? 32).

Definition trim_check (ch : byte) : bool := negb (isspace ch).

(** [s.erase(s.begin(), std::find_if(s.begin(), s.end(), trim_check))] *)
Fixpoint ltrim (s : std_string) : std_string :=
  match s with [] => [] | c :: s' => if trim_check c then s else ltrim s' end.

(** The same from the other end: [find_if] over the reversed string. *)
Definition rtrim (s : std_string) : std_string := rev (ltrim (rev s)).

Definition trim (s : std_string) : std_string := rtrim (ltrim s).

(** ** Trimming *)

Definition spaces (s : std_string) : Prop := Forall (fun c => isspace c = true) s.
Definition starts_bare (s : std_string) : Prop :=
  match s with [] => True | c :: _ => isspace c = false end.

Lemma ltrim_split s : exists a, s = a ++ ltrim s /\ spaces a /\ starts_bare (ltrim s).
Proof.
  induction s as [|c s (a & E & Ha & Hs)]; [exists []; repeat split; constructor|]. simpl. unfold trim_check.
  destruct (isspace c) eqn:Ec; simpl.
  - exists (c :: a). split; [simpl; by rewrite <- E|]. split; [by constructor|done].
  - exists []. split; [done|]. split; [constructor|done].
Qed.

Lemma ltrim_bare s : starts_bare s -> ltrim s = s.
Proof. destruct s as [|c s]; [done|]. simpl. unfold trim_check. by intros ->. Qed.

Lemma rtrim_split s : exists b, s = rtrim s ++ b /\ spaces b /\ starts_bare (rev (rtrim s)).
Proof.
  destruct (ltrim_split (rev s)) as (a & E & Ha & Hs). exists (rev a). unfold rtrim. split_and!.
  - rewrite <- rev_app_distr, <- E. by rewrite rev_involutive.
  - by apply Forall_rev.
  - by rewrite rev_involutive.
Qed.

Lemma starts_bare_app s k : starts_bare (s ++ k) -> s <> [] -> starts_bare s.
Proof. by destruct s. Qed.

(** [trim] cuts spaces from both ends and nothing else, and the result neither
    begins nor ends with one. *)
Lemma trim_split s :
  exists a b, s = a ++ trim s ++ b /\ spaces a /\ spaces b
    /\ starts_bare (trim s) /\ starts_bare (rev (trim s)).
Proof.
  destruct (ltrim_split s) as (a & E & Ha & Hl). destruct (rtrim_split (ltrim s)) as (b & E' & Hb & Hr).
  exists a, b. unfold trim. split_and!; try done; [by rewrite <- E'|].
  destruct (rtrim (ltrim s)) as [|c k] eqn:Ek; [done|]. rewrite E' in Hl. exact Hl.
Qed.

(** What has no space at its ends is left alone, so trimming twice is
    trimming once. *)
Lemma trim_bare s : starts_bare s -> starts_bare (rev s) -> trim s = s.
Proof.
  intros Hs Hr. unfold trim, rtrim. rewrite (ltrim_bare s), (ltrim_bare (rev s)) by done.
  apply rev_involutive.
Qed.

Lemma trim_idempotent s : trim (trim s) = trim s.
Proof. destruct (trim_split s) as (_ & _ & _ & _ & _ & Hs & Hr). by apply trim_bare. Qed.

(** ** Searching *)

Lemma byte_eqb_refl a : Byte.eqb a a = true.
Proof. by apply Byte.byte_dec_lb. Qed.

Lemma byte_eqb_eq a b : Byte.eqb a b = true -> a = b.
Proof. apply Byte.byte_dec_bl. Qed.

Lemma is_prefix_app p s : is_prefix p (p ++ s) = true.
Proof. induction p as [|a p IH]; [done|]. simpl. by rewrite byte_eqb_refl. Qed.

Lemma is_prefix_inv p s : is_prefix p s = true -> exists r, s = p ++ r.
Proof.
  revert s. induction p as [|a p IH]; intros [|b s] E; try done; try (by eexists).
  simpl in E. apply andb_true_iff in E as [E1%byte_eqb_eq E2]. subst.
  destruct (IH s E2) as [r ->]. by exists r.
Qed.

(** Where a pattern is found, and where it is not. *)
Definition occurs_at (p s : std_string) (k : nat) : Prop := is_prefix p (drop k s) = true.

Lemma search_Some p s i r :
  search p s i = Some r ->
  exists k, r = i + Z.of_nat k /\ (k <= length s)%nat /\ occurs_at p s k
    /\ forall j, (j < k)%nat -> ~ occurs_at p s j.
Proof.
  unfold occurs_at. revert i. induction s as [|c s IH]; intros i E; cbn [search] in E;
    destruct (is_prefix p _) eqn:Ep; simplify_eq.
  - exists 0%nat. split_and!; [lia|simpl; lia|done|lia].
  - exists 0%nat. split_and!; [lia|simpl; lia|done|lia].
  - destruct (IH _ E) as (k & Er & Hk & Ho & Hn). exists (S k). split_and!; [lia|simpl; lia|done|].
    intros [|j] Hj; simpl; [by rewrite Ep|]. apply Hn. lia.
Qed.

Lemma search_None p s i :
  search p s i = None -> forall j, (j <= length s)%nat -> ~ occurs_at p s j.
Proof.
  unfold occurs_at. revert i. induction s as [|c s IH]; intros i E j Hj; cbn [search] in E;
    destruct (is_prefix p _) eqn:Ep; simplify_eq.
  - simpl in Hj. replace j with 0%nat by lia. simpl. by rewrite Ep.
  - destruct j as [|j]; simpl; [by rewrite Ep|]. apply (IH _ E). simpl in Hj. lia.
Qed.

Lemma search_at p s i k :
  (k <= length s)%nat -> occurs_at p s k -> (forall j, (j < k)%nat -> ~ occurs_at p s j) ->
  search p s i = Some (i + Z.of_nat k).
Proof.
  intros Hk Ho Hn. destruct (search p s i) as [r|] eqn:E.
  - apply search_Some in E as (k' & -> & Hk' & Ho' & Hn').
    destruct (Nat.lt_trichotomy k k') as [Hlt|[->|Hgt]]; [|done|].
    + by destruct (Hn' k Hlt).
    + by destruct (Hn k' Hgt).
  - by destruct (search_None _ _ _ E k Hk).
Qed.

Lemma search_absent p s i : (forall j, (j <= length s)%nat -> ~ occurs_at p s j) -> search p s i = None.
Proof.
  intros Hn. destruct (search p s i) as [r|] eqn:E; [|done].
  apply search_Some in E as (k & _ & Hk & Ho & _). by destruct (Hn k Hk).
Qed.

(** A character occurs where it is. *)
Lemma occurs_char c s k : occurs_at [c] s k <-> s !! k = Some c.
Proof.
  unfold occurs_at. rewrite <- (Nat.add_0_r k) at 2. rewrite <- lookup_drop.
  destruct (drop k s) as [|b r]; simpl; [done|]. rewrite andb_true_r. split.
  - intros E%byte_eqb_eq. by subst.
  - intros. simplify_eq. apply byte_eqb_refl.
Qed.

(** The first occurrence of a character after text without it. *)
Lemma search_char c s r i : ~ In c s -> search [c] (s ++ c :: r) i = Some (i + zlen s).
Proof.
  intros Hn. apply search_at.
  - rewrite length_app. simpl. lia.
  - apply occurs_char. by rewrite lookup_app_r, Nat.sub_diag by lia.
  - intros j Hj Ho%occurs_char. rewrite lookup_app_l in Ho by done.
    apply Hn, list_elem_of_In, list_elem_of_lookup. eauto.
Qed.

Lemma search_char_none c s i : ~ In c s -> search [c] s i = None.
Proof.
  intros Hn. apply search_absent. intros j _ Ho%occurs_char.
  apply Hn, list_elem_of_In, list_elem_of_lookup. eauto.
Qed.

(** An occurrence inside the unchanged beginning of a text is one of both. *)
Lemma occurs_prefix p s a b k :
  (k + length p <= length s)%nat -> occurs_at p (s ++ a) k -> occurs_at p (s ++ b) k.
Proof.
  unfold occurs_at. intros Hk [r E]%is_prefix_inv.
  assert (take (length p) (drop k (s ++ a)) = p) as Et by (by rewrite E, take_app_length).
  rewrite drop_app_le in * by lia.
  rewrite take_app_le in Et by (rewrite length_drop; lia).
  rewrite <- (take_drop (length p) (drop k s)), Et, <- app_assoc. apply is_prefix_app.
Qed.
