(* ===== verification/Settings.v ===== *)
(** * Settings

    [src/Base/settings.cpp]: the value of a parameter in a text of lines
    [name = value], and changing it in place; [src/Base/settingshelper.h]:
    reading a tuple of parameters from a [QSettings], which is outside the
    repository and a parameter here. *)

From S2P Require Import Prelude StdString.

Definition ch_eq : byte := x3d.
Definition ch_newline : byte := x0a.

(** The value, and the positions written through [begin_pos] and [end_pos]. *)
Definition get_param_value (text param : std_string) : outcome (std_string * option (Z * Z)) :=
  let pos := find text param 0 in
  let pos := find text [ch_eq] (u64 (pos + zlen param)) in
  if pos =? npos then Ret ([], None)
  else
    let pos := u64 (pos + 1) in
    let pos_end := find text [ch_newline] pos in
    match substr text pos (u64 (pos_end - pos)) with
    | Ret value => Ret (trim value, Some (pos, pos_end))
    | _ => Throw
    end.

(** Whether the text was changed, and the text after. *)
Definition set_param_value (text param value : std_string) : outcome (bool * std_string) :=
  match get_param_value text param with
  | Ret (old_value, written) =>
      let '(pos, pos_end) := default (npos, 0) written in
      if (pos =? npos) || bool_decide (old_value = value) then Ret (false, text)
      else
        match replace text pos (u64 (pos_end - pos)) value with
        | Ret text' => Ret (true, text')
        | _ => Throw
        end
  | _ => Throw
  end.

(** ** The place of a value *)

(** What follows a value: nothing, or a new line. *)
Definition is_tail (tail : std_string) : Prop := tail = [] \/ exists rest, tail = ch_newline :: rest.

Definition end_of (pos : Z) (val tail : std_string) : Z :=
  match tail with [] => npos | _ => pos + zlen val end.

Lemma find_at text p pos k :
  0 <= pos <= zlen text -> search p (zdrop pos text) pos = Some k -> find text p pos = k.
Proof. intros Hp E. unfold find. destruct (Z.ltb_spec (zlen text) pos); [lia|]. by rewrite E. Qed.

Lemma find_none text p pos :
  0 <= pos <= zlen text -> search p (zdrop pos text) pos = None -> find text p pos = npos.
Proof. intros Hp E. unfold find. destruct (Z.ltb_spec (zlen text) pos); [lia|]. by rewrite E. Qed.

Lemma zdrop_app_le {A} n (l k : list A) : 0 <= n <= zlen l -> zdrop n (l ++ k) = zdrop n l ++ k.
Proof. zlists. intros. apply drop_app_le. lia. Qed.

Lemma u64_small z : 0 <= z < 18446744073709551616 -> u64 z = z.
Proof. apply Z.mod_small. Qed.

(** The value is what stands between the first ['='] from [start] on and the
    end of its line. *)
Lemma get_from text param start pre val tail :
  u64 (find text param 0 + zlen param) = start ->
  text = pre ++ ch_eq :: val ++ tail -> zlen text < 2 ^ 63 ->
  0 <= start <= zlen pre -> ~ In ch_eq (zdrop start pre) -> ~ In ch_newline val -> is_tail tail ->
  get_param_value text param = Ret (trim val, Some (zlen pre + 1, end_of (zlen pre + 1) val tail)).
Proof.
  intros Hs Et Hl Hp Hn Hv Ht. unfold get_param_value. rewrite Hs.
  assert (zlen text = zlen pre + 1 + zlen val + zlen tail) as El.
  { rewrite Et, zlen_app. unfold zlen. simpl. rewrite length_app. lia. }
  pose proof (zlen_nonneg pre). pose proof (zlen_nonneg val). pose proof (zlen_nonneg tail).
  erewrite (find_at text [ch_eq]); [|lia|].
  2:{ rewrite Et, zdrop_app_le by lia. by apply search_char. }
  rewrite zlen_zdrop by lia. replace (start + (zlen pre - start)) with (zlen pre) by lia.
  destruct (Z.eqb_spec (zlen pre) npos) as [E|_]; [unfold npos in E; lia|]. rewrite u64_small by lia.
  assert (zdrop (zlen pre + 1) text = val ++ tail) as Ed.
  { rewrite Et. change (ch_eq :: val ++ tail) with ([ch_eq] ++ val ++ tail). rewrite app_assoc.
    apply zdrop_app_exact. rewrite zlen_app. done. }
  assert (find text [ch_newline] (zlen pre + 1) = end_of (zlen pre + 1) val tail) as ->.
  { destruct Ht as [->|[rest ->]].
    - apply find_none; [lia|]. rewrite Ed, app_nil_r. by apply search_char_none.
    - apply find_at; [lia|]. rewrite Ed. by apply search_char. }
  unfold substr. destruct (Z.ltb_spec (zlen text) (zlen pre + 1)); [lia|]. do 4 f_equal.
  rewrite Ed. destruct Ht as [->|[rest ->]]; simpl end_of.
  - rewrite app_nil_r, ztake_all; [done|]. rewrite zlen_nil in El.
    unfold u64, npos. rewrite Z.mod_small by lia. lia.
  - replace (zlen pre + 1 + zlen val - (zlen pre + 1)) with (zlen val) by lia.
    rewrite u64_small by lia. apply ztake_app_exact. lia.
Qed.

(** The text after setting a value found by [get_from]. *)
Lemma set_from text param start pre val tail value :
  u64 (find text param 0 + zlen param) = start ->
  text = pre ++ ch_eq :: val ++ tail -> zlen text < 2 ^ 63 ->
  0 <= start <= zlen pre -> ~ In ch_eq (zdrop start pre) -> ~ In ch_newline val -> is_tail tail ->
  set_param_value text param value =
    if bool_decide (trim val = value) then Ret (false, text) else Ret (true, pre ++ ch_eq :: value ++ tail).
Proof.
  intros Hs Et Hl Hp Hn Hv Ht. unfold set_param_value.
  erewrite get_from by done. simpl default. cbv iota beta.
  assert (zlen text = zlen pre + 1 + zlen val + zlen tail) as El.
  { rewrite Et, zlen_app. unfold zlen. simpl. rewrite length_app. lia. }
  pose proof (zlen_nonneg pre). pose proof (zlen_nonneg val). pose proof (zlen_nonneg tail).
  destruct (Z.eqb_spec (zlen pre + 1) npos) as [E|_]; [unfold npos in E; lia|]. cbn [orb].
  destruct (bool_decide (trim val = value)); [done|].
  unfold replace. destruct (Z.ltb_spec (zlen text) (zlen pre + 1)); [lia|]. do 2 f_equal.
  replace text with ((pre ++ [ch_eq]) ++ val ++ tail) by (by rewrite Et, <- app_assoc).
  assert (zlen (pre ++ [ch_eq]) = zlen pre + 1) as Ep by (by rewrite zlen_app).
  rewrite ztake_app_exact, zdrop_app_exact by done. rewrite <- app_assoc. simpl. do 3 f_equal.
  destruct Ht as [->|[rest ->]]; simpl end_of.
  - rewrite ?app_nil_r. apply zdrop_all. rewrite zlen_nil in El. rewrite zlen_app, Ep.
    unfold u64, npos. rewrite Z.mod_small by lia. lia.
  - replace (zlen pre + 1 + zlen val - (zlen pre + 1)) with (zlen val) by lia.
    rewrite u64_small by lia. apply zdrop_app_exact. rewrite !zlen_app.
    change (zlen [ch_eq]) with 1. pose proof (zlen_nonneg (ch_newline :: rest)). lia.
Qed.

(** ** A parameter that is there *)

(** [text] has [param] at [pre], for the first time, with [val] its value and
    [mid] between the name and ['=']. *)
Record param_line (text param pre mid val tail : std_string) : Prop := {
  pl_text : text = (pre ++ param ++ mid) ++ ch_eq :: val ++ tail;
  pl_size : zlen text < 2 ^ 63;
  pl_first : forall j, (j < length pre)%nat -> ~ occurs_at param text j;
  pl_mid : ~ In ch_eq mid;
  pl_val : ~ In ch_newline val;
  pl_tail : is_tail tail;
}.

Lemma find_param text param pre rest :
  text = pre ++ param ++ rest -> (forall j, (j < length pre)%nat -> ~ occurs_at param text j) ->
  find text param 0 = zlen pre.
Proof.
  intros Et Hf. pose proof (zlen_nonneg text). apply find_at; [lia|]. rewrite zdrop_0.
  rewrite (search_at param text 0 (length pre)); [done| |  |done].
  - rewrite Et, length_app. lia.
  - unfold occurs_at. rewrite Et, drop_app_length. apply is_prefix_app.
Qed.

Lemma param_start text param pre mid val tail :
  param_line text param pre mid val tail ->
  u64 (find text param 0 + zlen param) = zlen pre + zlen param.
Proof.
  intros [Et Hl Hf Hm Hv Ht]. rewrite (find_param text param pre (mid ++ ch_eq :: val ++ tail)); [|by rewrite Et, <- !app_assoc|done].
  assert (zlen pre + zlen param <= zlen text).
  { rewrite Et, !zlen_app. pose proof (zlen_nonneg mid). pose proof (zlen_nonneg (ch_eq :: val ++ tail)). lia. }
  pose proof (zlen_nonneg pre). pose proof (zlen_nonneg param). apply u64_small. lia.
Qed.

Lemma param_mid (param pre mid : std_string) :
  0 <= zlen pre + zlen param <= zlen (pre ++ param ++ mid)
  /\ zdrop (zlen pre + zlen param) (pre ++ param ++ mid) = mid.
Proof.
  pose proof (zlen_nonneg pre). pose proof (zlen_nonneg param). pose proof (zlen_nonneg mid). split.
  - rewrite !zlen_app. lia.
  - rewrite app_assoc. apply zdrop_app_exact. by rewrite zlen_app.
Qed.

(** Setting the value of a parameter that is there leaves one. *)
Lemma param_line_set text param pre mid val tail value :
  param_line text param pre mid val tail -> ~ In ch_newline value ->
  zlen ((pre ++ param ++ mid) ++ ch_eq :: value ++ tail) < 2 ^ 63 ->
  param_line ((pre ++ param ++ mid) ++ ch_eq :: value ++ tail) param pre mid value tail.
Proof.
  intros [Et Hl Hf Hm Hv Ht] Hn Hs. constructor; try done. intros j Hj Ho. apply (Hf j Hj).
  rewrite Et. eapply occurs_prefix; [|exact Ho]. rewrite !length_app. lia.
Qed.

(** Settings round trip: when a parameter is in the text, [get] returns
    the trimmed rest of its line, [set] replaces exactly that part and reports
    whether it did, and reading the parameter again gives the value set. *)
Theorem set_get_round_trip text param pre mid val tail value :
  param_line text param pre mid val tail ->
  ~ In ch_newline value -> trim value = value ->
  zlen ((pre ++ param ++ mid) ++ ch_eq :: value ++ tail) < 2 ^ 63 ->
  exists text' where_,
    get_param_value text param = Ret (trim val, where_)
    /\ set_param_value text param value = Ret (negb (bool_decide (trim val = value)), text')
    /\ text' = (if bool_decide (trim val = value) then text
                else (pre ++ param ++ mid) ++ ch_eq :: value ++ tail)
    /\ (exists where', get_param_value text' param = Ret (value, where')).
Proof.
  intros Hp Hn Ht Hs. destruct (param_mid param pre mid) as [Hr Hd].
  assert (forall v, param_line ((pre ++ param ++ mid) ++ ch_eq :: v ++ tail) param pre mid v tail ->
    get_param_value ((pre ++ param ++ mid) ++ ch_eq :: v ++ tail) param
    = Ret (trim v, Some (zlen (pre ++ param ++ mid) + 1, end_of (zlen (pre ++ param ++ mid) + 1) v tail))) as Hget.
  { intros v Hv. eapply get_from; [by eapply param_start|done|apply Hv|done| |apply Hv|apply Hv].
    rewrite Hd. apply Hv. }
  pose proof (pl_text _ _ _ _ _ _ Hp) as Et.
  eexists (if bool_decide (trim val = value) then text else _), _.
  split; [rewrite Et; apply Hget; by rewrite <- Et|]. split.
  { rewrite (set_from text param (zlen pre + zlen param) (pre ++ param ++ mid) val tail value);
      [by destruct (bool_decide (trim val = value))|by eapply param_start|done|apply Hp|done| |apply Hp|apply Hp].
    rewrite Hd. apply Hp. }
  split; [done|]. destruct (bool_decide (trim val = value)) eqn:Eb.
  - apply bool_decide_eq_true in Eb. rewrite Et, <- Eb. eexists. apply Hget. by rewrite <- Et.
  - eexists. rewrite Hget, Ht; [done|]. by eapply param_line_set.
Qed.

Definition settings_text : std_string := lit "[Server]" ++ ch_newline :: lit "host = local" ++ ch_newline :: lit "port = 80".

Lemma set_get_round_trip_witness :
  exists text' where_,
    get_param_value settings_text (lit "host") = Ret (lit "local", where_)
    /\ set_param_value settings_text (lit "host") (lit "remote") = Ret (true, text')
    /\ text' = lit "[Server]" ++ ch_newline :: lit "host =remote" ++ ch_newline :: lit "port = 80"
    /\ (exists where', get_param_value text' (lit "host") = Ret (lit "remote", where')).
Proof.
  destruct (set_get_round_trip settings_text (lit "host") (lit "[Server]" ++ [ch_newline]) (lit " ")
    (lit " local") (ch_newline :: lit "port = 80") (lit "remote")) as (t & w & H1 & H2 & H3 & H4).
  - constructor.
    + reflexivity.
    + reflexivity.
    + simpl. intros j Hj. do 9 (destruct j as [|j]; [vm_compute; discriminate|]). lia.
    + vm_compute. intuition discriminate.
    + vm_compute. intuition discriminate.
    + right. eexists. reflexivity.
  - vm_compute. intuition discriminate.
  - reflexivity.
  - reflexivity.
  - exists t, w. split; [exact H1|]. split; [exact H2|]. split; [|exact H4]. rewrite H3. vm_compute. reflexivity.
Defined.

(** ** A parameter that is not there *)

Lemma find_missing text param : (forall j, (j <= length text)%nat -> ~ occurs_at param text j) -> find text param 0 = npos.
Proof. intros Hn. pose proof (zlen_nonneg text). apply find_none; [lia|]. rewrite zdrop_0. by apply search_absent. Qed.

(** A parameter that is not in the text is not reported as missing: the
    position [npos] that [find] returns wraps around, so the first ['='] from
    offset [|param| - 1] on is taken for the parameter's, [get] returns that
    other parameter's value and [set] overwrites it. *)
Theorem missing_param_hits_other text param pre val tail value :
  (forall j, (j <= length text)%nat -> ~ occurs_at param text j) ->
  text = pre ++ ch_eq :: val ++ tail -> zlen text < 2 ^ 63 ->
  0 < zlen param <= zlen pre + 1 -> ~ In ch_eq (zdrop (zlen param - 1) pre) ->
  ~ In ch_newline val -> is_tail tail -> trim val <> value ->
  (exists where_, get_param_value text param = Ret (trim val, where_))
  /\ set_param_value text param value = Ret (true, pre ++ ch_eq :: value ++ tail).
Proof.
  intros Hm Et Hl Hp Hn Hv Ht Hne.
  assert (u64 (find text param 0 + zlen param) = zlen param - 1) as Hs.
  { rewrite find_missing by done. unfold u64, npos.
    replace (18446744073709551615 + zlen param) with (zlen param - 1 + 1 * 18446744073709551616) by lia.
    rewrite Z.mod_add, Z.mod_small; [lia| |lia].
    rewrite Et, zlen_app in Hl. pose proof (zlen_nonneg (ch_eq :: val ++ tail)). lia. }
  split.
  - eexists. eapply get_from; try done. lia.
  - erewrite set_from; try done; [|lia]. by rewrite bool_decide_eq_false_2.
Qed.

Lemma missing_param_hits_other_witness :
  (exists where_, get_param_value settings_text (lit "user") = Ret (lit "local", where_))
  /\ set_param_value settings_text (lit "user") (lit "root")
     = Ret (true, lit "[Server]" ++ ch_newline :: lit "host =root" ++ ch_newline :: lit "port = 80").
Proof.
  apply (missing_param_hits_other settings_text (lit "user") (lit "[Server]" ++ ch_newline :: lit "host ")
    (lit " local") (ch_newline :: lit "port = 80") (lit "root")).
  - intros j Hj. change (length settings_text) with 31%nat in Hj.
    do 32 (destruct j as [|j]; [vm_compute; discriminate|]). lia.
  - reflexivity.
  - reflexivity.
  - vm_compute. split; [reflexivity|discriminate].
  - vm_compute. intuition discriminate.
  - vm_compute. intuition discriminate.
  - right. eexists. reflexivity.
  - vm_compute. discriminate.
Defined.

(** A name is found inside another one too. *)
Lemma name_inside_name :
  get_param_value (lit "report=1" ++ ch_newline :: lit "port=2") (lit "port") = Ret (lit "1", Some (7, 8)).
Proof. reflexivity. Qed.

(** ** SettingsHelper *)

(** [QSettings]: values under keys, relative to a stack of groups. *)
Class QSettings (S K V : Type) := {
  qs_contains : K -> S -> bool;
  qs_value : K -> V -> S -> V;
  qs_setValue : K -> V -> S -> S;
  qs_group : S -> list K;
  qs_beginGroup : K -> S -> S;
  qs_endGroup : S -> S;
}.

(** Documented behaviour: a value set is there until set again; opening the
    group that was just closed gives the same view. *)
Class QSettingsLaws (S K V : Type) `{QSettings S K V, EqDecision K} := {
  contains_set : forall k k' (v : V) (s : S), qs_contains k' (qs_setValue k v s) = bool_decide (k' = k) || qs_contains k' s;
  value_set : forall k (v d : V) (s : S), qs_value k d (qs_setValue k v s) = v;
  value_set_other : forall k k' (v d : V) (s : S), k' <> k -> qs_value k' d (qs_setValue k v s) = qs_value k' d s;
  value_stored : forall k (d d' : V) (s : S), qs_contains k s = true -> qs_value k d s = qs_value k d' s;
  group_set : forall k (v : V) (s : S), qs_group (qs_setValue k v s) = qs_group s;
  group_begin : forall k (s : S), qs_group (qs_beginGroup k s) = k :: qs_group s;
  reopen : forall k g (s : S), qs_group s = k :: g -> qs_beginGroup k (qs_endGroup s) = s;
}.

Module Settings_Helper.
Section helper.
Context {S K V : Type} `{HQ : QSettings S K V, HK : EqDecision K}.
(** [begin_group.isEmpty()] *)
Context (key_isEmpty : K -> bool).

(** [Param<T>]: name, default value, and the function that normalizes. *)
Record Param := { name_ : K; default_value_ : V; normalize_ : option (V -> V) }.

(** An argument of the helper is a plain value or a parameter to read. *)
Inductive argument := Value (v : V) | Setting (p : Param).

Definition normalized (p : Param) (v : V) : V := match normalize_ p with Some f => f v | None => v end.

Definition getValue (a : argument) : M S V :=
  match a with
  | Value v => ret v
  | Setting p =>
      let* there := gets (qs_contains (name_ p)) in
      if there : bool then
        let* value := gets (qs_value (name_ p) (default_value_ p)) in
        ret (normalized p value)
      else
        modify (qs_setValue (name_ p) (default_value_ p));;;
        ret (normalized p (default_value_ p))
  end.

(** [parse]: the arguments one by one, in order. *)
Fixpoint parse (args : list argument) : M S (list V) :=
  match args with
  | [] => ret []
  | a :: args => let* v := getValue a in let* vs := parse args in ret (v :: vs)
  end.

(** The constructor, and the destructor. *)
Definition construct (begin_group : K) (args : list argument) : M S (list V) :=
  when (negb (key_isEmpty begin_group)) (modify (qs_beginGroup begin_group));;; parse args.
Definition destroy (begin_group : K) : M S unit :=
  when (negb (key_isEmpty begin_group)) (modify qs_endGroup).

(** [SettingsHelperPtr::make]: a helper lives for one call, whose result is
    the object built from the values. *)
Definition make {T} (build : list V -> T) (begin_group : K) (args : list argument) : M S T :=
  let* vs := construct begin_group args in
  destroy begin_group;;; ret (build vs).

Context `{HL : !QSettingsLaws S K V}.

(** What [parse] gives when every parameter is already there. *)
Definition current (s : S) (a : argument) : V :=
  match a with Value v => v | Setting p => normalized p (qs_value (name_ p) (default_value_ p) s) end.

Definition present (s : S) (a : argument) : Prop :=
  match a with Value _ => True | Setting p => qs_contains (name_ p) s = true end.

Lemma getValue_present s a : present s a -> getValue a s = (Ret (current s a), s).
Proof.
  destruct a as [v|p]; simpl; [done|]. intros Hp. unfold bind, gets. by rewrite Hp.
Qed.

Lemma parse_present args s : Forall (present s) args -> parse args s = (Ret (map (current s) args), s).
Proof.
  induction 1 as [|a args Ha Hl IH]; [done|]. cbn [parse map].
  erewrite bind_Ret by (by apply getValue_present). by erewrite bind_Ret by exact IH.
Qed.

(** What a step may change: nothing that was there. *)
Definition extends (s s' : S) : Prop :=
  qs_group s' = qs_group s
  /\ forall k, qs_contains k s = true -> qs_contains k s' = true /\ forall d, qs_value k d s' = qs_value k d s.

Lemma extends_refl s : extends s s.
Proof. done. Qed.

Lemma extends_trans s1 s2 s3 : extends s1 s2 -> extends s2 s3 -> extends s1 s3.
Proof.
  intros [G1 H1] [G2 H2]. split; [congruence|]. intros k Hk. destruct (H1 k Hk) as [Hc E].
  destruct (H2 k Hc) as [Hc' E']. split; [done|]. intros d. by rewrite E', E.
Qed.

Lemma extends_current s s' a : extends s s' -> present s a -> present s' a /\ current s' a = current s a.
Proof.
  destruct a as [v|p]; [done|]. simpl. intros [_ He] Hp. destruct (He _ Hp) as [Hc E]. split; [done|]. by rewrite E.
Qed.

Lemma getValue_extends s a :
  exists s', getValue a s = (Ret (current s' a), s') /\ extends s s' /\ present s' a.
Proof.
  destruct a as [v|p]; [by exists s|]. simpl. unfold bind, gets, modify, ret.
  destruct (qs_contains (name_ p) s) eqn:Ec; [by exists s|].
  exists (qs_setValue (name_ p) (default_value_ p) s). rewrite value_set. split; [done|]. split.
  - split; [apply group_set|]. intros k Hk. rewrite contains_set, Hk, orb_true_r. split; [done|].
    intros d. apply value_set_other. intros ->. congruence.
  - rewrite contains_set. by rewrite bool_decide_eq_true_2.
Qed.

Lemma parse_extends args : forall s,
  exists s', parse args s = (Ret (map (current s') args), s') /\ extends s s' /\ Forall (present s') args.
Proof.
  induction args as [|a args IH]; intros s; [by exists s|]. cbn [parse map].
  destruct (getValue_extends s a) as (s1 & E1 & X1 & P1). destruct (IH s1) as (s2 & E2 & X2 & P2).
  destruct (extends_current s1 s2 a X2 P1) as [P1' Ec]. exists s2.
  erewrite bind_Ret by exact E1. erewrite bind_Ret by exact E2. rewrite Ec. split; [done|].
  split; [by eapply extends_trans|by constructor].
Qed.

(** Reading parameters gives each the normalized stored value, changes
    nothing that was stored, and stores the default of each one that was
    missing, so that reading them again gives the same values and changes
    nothing. *)
Theorem settings_read_again {T} (build : list V -> T) group args s :
  exists x s', make build group args s = (Ret x, s')
    /\ make build group args s' = (Ret x, s')
    /\ exists inner, (if key_isEmpty group then inner = s' else s' = qs_endGroup inner)
       /\ extends (if key_isEmpty group then s else qs_beginGroup group s) inner
       /\ x = build (map (current inner) args).
Proof.
  unfold make, construct, destroy. destruct (key_isEmpty group); simpl negb; cbn [when].
  - destruct (parse_extends args s) as (s' & E & X & P). exists (build (map (current s') args)), s'.
    unfold bind at 1 2 3. cbn [ret]. rewrite E. split; [done|]. split; [|by exists s'].
    unfold bind. cbn [ret]. by rewrite parse_present.
  - set (s0 := qs_beginGroup group s). destruct (parse_extends args s0) as (s' & E & X & P).
    exists (build (map (current s') args)), (qs_endGroup s'). split.
    { unfold bind, modify, ret. fold s0. by rewrite E. }
    split; [|by exists s'].
    assert (qs_beginGroup group (qs_endGroup s') = s') as Er.
    { eapply reopen. destruct X as [G _]. rewrite G. apply group_begin. }
    unfold bind, modify, ret. rewrite Er. by rewrite parse_present.
Qed.

End helper.
End Settings_Helper.

(** ** An executable QSettings *)

Module QSettingsRef.

Record store := { groups : list Z; entries : list (list Z * Z) }.

(** The key of a name is the path of groups it is in. *)
Fixpoint lookup (k : list Z) (l : list (list Z * Z)) : option Z :=
  match l with [] => None | (k', v) :: l => if bool_decide (k = k') then Some v else lookup k l end.

#[export] Instance store_settings : QSettings store Z Z := {
  qs_contains k s := match lookup (k :: groups s) (entries s) with Some _ => true | None => false end;
  qs_value k d s := default d (lookup (k :: groups s) (entries s));
  qs_setValue k v s := {| groups := groups s; entries := (k :: groups s, v) :: entries s |};
  qs_group := groups;
  qs_beginGroup k s := {| groups := k :: groups s; entries := entries s |};
  qs_endGroup s := {| groups := tail (groups s); entries := entries s |};
}.

#[export] Instance store_laws : QSettingsLaws store Z Z.
Proof.
  constructor; simpl.
  - intros k k' v s. destruct (decide (k' = k)) as [->|Hn].
    + by rewrite !bool_decide_eq_true_2 by done.
    + by rewrite !bool_decide_eq_false_2 by congruence.
  - intros. by rewrite bool_decide_eq_true_2.
  - intros k k' v d s Hn. by rewrite bool_decide_eq_false_2 by congruence.
  - intros k d d' s. by destruct (lookup _ _).
  - done.
  - done.
  - intros k g [gr en]. simpl. by intros ->.
Qed.

End QSettingsRef.

Import QSettingsRef.

(** Group 5 has a value 8 for the name 1 and nothing for 2. *)
Lemma settings_read_again_witness :
  exists x s',
    Settings_Helper.make (fun k => k =? 0) (fun vs => vs) 5
      [Settings_Helper.Setting {| Settings_Helper.name_ := 1; Settings_Helper.default_value_ := 0;
                                  Settings_Helper.normalize_ := Some (Z.mul 2) |};
       Settings_Helper.Value 3;
       Settings_Helper.Setting {| Settings_Helper.name_ := 2; Settings_Helper.default_value_ := 7;
                                  Settings_Helper.normalize_ := None |}]
      {| QSettingsRef.groups := []; QSettingsRef.entries := [([1; 5], 8)] |} = (Ret x, s')
    /\ x = [16; 3; 7].
Proof.
  destruct (Settings_Helper.settings_read_again (fun k => k =? 0) (fun vs : list Z => vs) 5
      [Settings_Helper.Setting {| Settings_Helper.name_ := 1; Settings_Helper.default_value_ := 0;
                                  Settings_Helper.normalize_ := Some (Z.mul 2) |};
       Settings_Helper.Value 3;
       Settings_Helper.Setting {| Settings_Helper.name_ := 2; Settings_Helper.default_value_ := 7;
                                  Settings_Helper.normalize_ := None |}]
      {| QSettingsRef.groups := []; QSettingsRef.entries := [([1; 5], 8)] |}) as (x & s' & E & _).
  exists x, s'. split; [exact E|]. vm_compute in E. injection E as E1 E2. symmetry. exact E1.
Defined.
