(* ===== verification/ZFile.v ===== *)
(** * File

    [src/Base/zfile.h] and [zfile.cpp]: a file object over POSIX file
    descriptors. The system calls are outside the repository: an interface
    with their documented behaviour on regular files, stated on a view of the
    system as file contents, what the process may do with each file, and open
    descriptors. A call may always fail, and a transfer may always be short;
    a second interface says when neither happens. *)

From S2P Require Import Prelude StdString.
From stdpp Require Import gmap.
Open Scope Z_scope.
Open Scope helpz_scope.

Lemma byte_of_to_N b : default x00 (Byte.of_N (Byte.to_N b)) = b.
Proof. by rewrite Byte.of_to_N. Qed.

#[export] Instance byte_countable : Countable byte :=
  inj_countable' Byte.to_N (fun n => default x00 (Byte.of_N n)) byte_of_to_N.

Module File.

(** [Open_Mode], the flags of [open] *)
Definition READ_ONLY : Z := 0.
Definition WRITE_ONLY : Z := 1.
Definition READ_WRITE : Z := 2.
Definition CREATE : Z := 64.
Definition TRUNCATE : Z := 512.
Definition APPEND : Z := 1024.

(** [File_Permissions], from the octal bits of the owner *)
Definition READ_BY_OWNER : Z := 256.
Definition WRITE_BY_OWNER : Z := 128.
Definition EXEC_BY_OWNER : Z := 64.
Definition READ_WRITE_EXEC_BY_OWNER : Z := Z.lor READ_BY_OWNER (Z.lor WRITE_BY_OWNER EXEC_BY_OWNER).
Definition READ_BY_GROUP : Z := Z.shiftr READ_BY_OWNER 3.
Definition WRITE_BY_GROUP : Z := Z.shiftr WRITE_BY_OWNER 3.
Definition READ_BY_OTHER : Z := Z.shiftr READ_BY_GROUP 3.
Definition WRITE_BY_OTHER : Z := Z.shiftr WRITE_BY_GROUP 3.
Definition DEFAULT_CREATE_PERM : Z :=
  Z.lor READ_BY_OWNER (Z.lor WRITE_BY_OWNER (Z.lor READ_BY_GROUP (Z.lor WRITE_BY_GROUP
    (Z.lor READ_BY_OTHER WRITE_BY_OTHER)))).
Definition DEFAULT_MKDIR_PERM : Z := Z.lor READ_WRITE_EXEC_BY_OWNER (Z.lor READ_BY_GROUP READ_BY_OTHER).

(** ** The system *)

(** An open descriptor: the file, the offset, the mode. *)
Record desc := { d_name : std_string; d_pos : Z; d_mode : Z }.

(** What the process may do with a file: the bits of its owner for a file of
    its own user, others' for others', everything for a privileged process. *)
Record access := { may_read : bool; may_write : bool }.

Record fs := {
  files : gmap std_string (list byte);
  rights : gmap std_string access;
  fds : gmap Z desc;
}.

Definition readable (d : desc) : bool := negb (Z.land (d_mode d) 3 =? WRITE_ONLY).
Definition writable (d : desc) : bool := negb (Z.land (d_mode d) 3 =? READ_ONLY).
Definition appends (d : desc) : bool := has_flag (d_mode d) APPEND.

Definition set_fds x v := {| files := files v; rights := rights v; fds := x |}.
Definition set_files x v := {| files := x; rights := rights v; fds := fds v |}.
Definition set_pos p d := {| d_name := d_name d; d_pos := p; d_mode := d_mode d |}.

Definition content (v : fs) (d : desc) : list byte := default [] (files v !! d_name d).

(** Bytes written over others, and a file cut or extended with zeros. *)
Definition overwrite (p : Z) (bs c : list byte) : list byte :=
  ztake p (c ++ replicate (Z.to_nat (p - zlen c)) x00) ++ bs ++ zdrop (p + zlen bs) c.
Definition cut (n : Z) (c : list byte) : list byte := ztake n c ++ replicate (Z.to_nat (n - zlen c)) x00.

(** The calls the source makes; [-1] or [None] is an error. *)
Class Posix (W : Type) := {
  p_open : std_string -> Z -> Z -> W -> Z * W;
  p_close : Z -> W -> W;
  p_lseek_set : Z -> Z -> W -> Z * W;
  p_lseek_end : Z -> W -> Z * W;
  p_read : Z -> Z -> W -> option (list byte) * W;
  p_write : Z -> list byte -> W -> Z * W;
  p_ftruncate : Z -> Z -> W -> Z * W;
  p_access : std_string -> W -> Z;
  p_mkdir : std_string -> Z -> W -> Z * W;
}.

(** What [open] of a name gives; [a] are the rights on the file if it is
    created. *)
Definition opened (name : std_string) (mode fd : Z) (a : access) (v : fs) : fs :=
  let c := if has_flag mode TRUNCATE then [] else default [] (files v !! name) in
  {| files := <[name := c]> (files v);
     rights := match files v !! name with Some _ => rights v | None => <[name := a]> (rights v) end;
     fds := <[fd := {| d_name := name; d_pos := 0; d_mode := mode |}]> (fds v) |}.

(** The rights that the mode needs on a file that exists. *)
Definition granted (mode : Z) (a : access) : bool :=
  ((Z.land mode 3 =? WRITE_ONLY) || may_read a)
  && ((Z.land mode 3 =? READ_ONLY) && negb (has_flag mode TRUNCATE) || may_write a).

(** A file that [open] creates can be read and written as the bits asked for
    say, less those of the process's mask. *)
Definition created_with (umask perm : Z) (a : access) : Prop :=
  (has_flag (Z.ldiff perm umask) READ_BY_OWNER = true -> may_read a = true)
  /\ (has_flag (Z.ldiff perm umask) WRITE_BY_OWNER = true -> may_write a = true).

(** [read] and [write] transfer at most 0x7ffff000 bytes on Linux. *)
Definition max_transfer : Z := 2147479552.

Class PosixLaws (W : Type) `{Posix W} := {
  view : W -> fs;
  umask : Z;
  open_law : forall name mode perm (w : W) fd w', p_open name mode perm w = (fd, w') ->
    (fd = -1 /\ view w' = view w)
    \/ (0 <= fd /\ fds (view w) !! fd = None
        /\ exists a, created_with umask perm a /\ view w' = opened name mode fd a (view w));
  close_law : forall fd (w : W), view (p_close fd w) = set_fds (base.delete fd (fds (view w))) (view w);
  lseek_set_law : forall fd p (w : W) r w', p_lseek_set fd p w = (r, w') ->
    (r = -1 /\ view w' = view w)
    \/ (r = p /\ exists d, fds (view w) !! fd = Some d /\ view w' = set_fds (<[fd := set_pos p d]> (fds (view w))) (view w));
  lseek_end_law : forall fd (w : W) r w', p_lseek_end fd w = (r, w') ->
    (r = -1 /\ view w' = view w)
    \/ (exists d, fds (view w) !! fd = Some d /\ r = zlen (content (view w) d)
        /\ view w' = set_fds (<[fd := set_pos r d]> (fds (view w))) (view w));
  read_law : forall fd n (w : W) r w', 0 <= n -> p_read fd n w = (r, w') ->
    (r = None /\ view w' = view w)
    \/ (exists d bs k, fds (view w) !! fd = Some d /\ readable d = true /\ r = Some bs
        /\ 0 <= k <= Z.min n max_transfer /\ bs = ztake k (zdrop (d_pos d) (content (view w) d))
        /\ view w' = set_fds (<[fd := set_pos (d_pos d + zlen bs) d]> (fds (view w))) (view w));
  write_law : forall fd bs (w : W) r w', p_write fd bs w = (r, w') ->
    (r = -1 /\ view w' = view w)
    \/ (exists d p, fds (view w) !! fd = Some d /\ writable d = true /\ 0 <= r <= Z.min (zlen bs) max_transfer
        /\ p = (if appends d then zlen (content (view w) d) else d_pos d)
        /\ view w' = {| files := <[d_name d := overwrite p (ztake r bs) (content (view w) d)]> (files (view w));
                        rights := rights (view w);
                        fds := <[fd := set_pos (p + r) d]> (fds (view w)) |});
  ftruncate_law : forall fd n (w : W) r w', p_ftruncate fd n w = (r, w') ->
    (r = -1 /\ view w' = view w)
    \/ (r = 0 /\ exists d, fds (view w) !! fd = Some d /\ writable d = true
        /\ view w' = set_files (<[d_name d := cut n (content (view w) d)]> (files (view w))) (view w));
}.

(** A system where no call fails that has no reason to. [path_ok] holds of a
    name of a regular file, or of none, in a directory that the process may
    search and write; [open_max] descriptors may be open, and [fits] says
    that the storage has room for the files. A call transfers all it is asked
    to when that is not more than [max_transfer]. *)
Class PosixOk (W : Type) `{PosixLaws W} := {
  path_ok : std_string -> Prop;
  open_max : Z;
  fits : gmap std_string (list byte) -> Prop;
  open_ok : forall name mode perm (w : W),
    path_ok name -> Z.of_nat (size (fds (view w))) < open_max ->
    match files (view w) !! name with
    | Some _ => exists a, rights (view w) !! name = Some a /\ granted mode a = true
    | None => has_flag mode CREATE = true /\ fits (<[name := []]> (files (view w)))
    end ->
    (p_open name mode perm w).1 <> -1;
  lseek_ok : forall fd p d (w : W), fds (view w) !! fd = Some d -> 0 <= p -> (p_lseek_set fd p w).1 <> -1;
  lseek_end_ok : forall fd d (w : W), fds (view w) !! fd = Some d -> (p_lseek_end fd w).1 <> -1;
  read_ok : forall fd n d (w : W), fds (view w) !! fd = Some d -> readable d = true -> 0 <= n <= max_transfer ->
    (p_read fd n w).1 = Some (ztake n (zdrop (d_pos d) (content (view w) d)));
  write_ok : forall fd bs d (w : W), fds (view w) !! fd = Some d -> writable d = true -> zlen bs <= max_transfer ->
    fits (<[d_name d := overwrite (if appends d then zlen (content (view w) d) else d_pos d) bs (content (view w) d)]>
      (files (view w))) ->
    (p_write fd bs w).1 = zlen bs;
}.

Arguments umask W {_ _}.
Arguments path_ok W {_ _ _} _.
Arguments open_max W {_ _ _}.
Arguments fits W {_ _ _} _.

(** ** The class *)

(** The default mode of the static [write]. *)
Abbreviation write_mode := (Z.lor CREATE (Z.lor WRITE_ONLY TRUNCATE)).

Record t := { _fd : Z; _name : std_string }.

(** [c_str()] of a name, as the system reads it: up to the first zero. *)
Fixpoint cname (name : std_string) : std_string :=
  match name with [] => [] | b :: name => if Z_of_byte b =? 0 then [] else b :: cname name end.

Definition npos64 : Z := 18446744073709551615.
(** [std::string::max_size()] *)
Definition max_size : Z := 9223372036854775807.

Section file.
Context {W : Type} `{HP : Posix W}.

(** A member function works on the object and the system. *)
Abbreviation F := (M (t * W)).

(** A system call, and an assignment of [_fd]. *)
Definition sys {A} (f : W -> A * W) : F A := fun '(o, w) => let '(a, w') := f w in (Ret a, (o, w')).
Definition set_fd (fd : Z) : F unit := fun '(o, w) => (Ret tt, ({| _fd := fd; _name := _name o |}, w)).
Definition this {A} (f : t -> A) : F A := gets (fun s => f s.1).

Definition is_opened : F bool := this (fun o => negb (_fd o =? -1)).

Definition close : F unit :=
  let* o := is_opened in
  when o (let* fd := this _fd in sys (fun w => (tt, p_close fd w));;; set_fd (-1)).

Definition open (open_mode file_attribute : Z) : F bool :=
  close;;;
  let* name := this _name in
  let* fd := sys (p_open (cname name) open_mode file_attribute) in
  set_fd fd;;;
  is_opened.

Definition seek (pos : Z) : F bool :=
  let* fd := this _fd in
  let* r := sys (p_lseek_set fd pos) in ret (negb (r =? -1)).

Definition truncate (size : Z) : F bool :=
  let* fd := this _fd in
  let* r := sys (p_ftruncate fd size) in ret (negb (r =? -1)).

Definition write (data : list byte) : F bool :=
  let* o := is_opened in
  if o : bool then
    let* fd := this _fd in
    let* r := sys (p_write fd data) in ret (r =? zlen data)
  else ret false.

Definition rewrite_ (data : list byte) : F bool :=
  let* a := seek 0 in
  if a : bool then
    let* b := write data in
    if b : bool then truncate (zlen data) else ret false
  else ret false.

(** The string of [size] zeros filled by [read], and then cut. *)
Definition read_into (size : Z) : F std_string :=
  let* fd := this _fd in
  sys (p_lseek_set fd 0);;;
  if max_size <? size then throw
  else
    let* r := sys (p_read fd size) in
    match r with
    | None => throw (* [resize(size_t(-1))] *)
    | Some bs =>
        if 0 <? zlen bs then ret bs
        else ret (replicate (Z.to_nat size) x00)
    end.

Definition read_all (size : Z) : F std_string :=
  let* o := is_opened in
  if o : bool then
    if size =? npos64 then
      let* fd := this _fd in
      let* size := sys (p_lseek_end fd) in
      if size =? -1 then ret [] else read_into size
    else read_into size
  else ret [].

(** An object that lives for one call; its destructor closes the file, also
    when the call throws. *)
Definition with_file {A} (name : std_string) (body : F A) : M W A :=
  fun w =>
    let '(r, s) := body ({| _fd := -1; _name := name |}, w) in
    let '(_, (_, w')) := close s in (r, w').

(** The static functions. *)
Definition exist (name : std_string) : M W bool := gets (fun w => negb (p_access (cname name) w =? -1)).
Definition create_dir (name : std_string) (permissions : Z) : M W bool :=
  fun w => let '(r, w') := p_mkdir (cname name) permissions w in (Ret (negb (r =? -1)), w').
Definition static_read_all (name : std_string) (size : Z) : M W std_string :=
  with_file name (open READ_ONLY DEFAULT_CREATE_PERM;;; read_all size).
Definition static_write (name : std_string) (data : list byte) (open_mode permissions : Z) : M W bool :=
  with_file name (open open_mode permissions;;; write data).

(** ** Rewriting *)

Context `{HL : !PosixLaws W}.

(** The object has an open descriptor [d]. *)
Definition owns (s : t * W) (d : desc) : Prop := _fd s.1 <> -1 /\ fds (view s.2) !! _fd s.1 = Some d.

Definition others_kept (name : std_string) (v v' : fs) : Prop :=
  forall n, n <> name -> files v' !! n = files v !! n.

Lemma overwrite_start bs c : overwrite 0 bs c = bs ++ zdrop (zlen bs) c.
Proof. unfold overwrite. by rewrite Z.add_0_l. Qed.

Lemma overwrite_end bs c : overwrite (zlen c) bs c = c ++ bs.
Proof.
  unfold overwrite. rewrite Z.sub_diag. simpl. rewrite app_nil_r, ztake_all by lia.
  rewrite zdrop_all by (pose proof (zlen_nonneg bs); lia). by rewrite app_nil_r.
Qed.

Lemma cut_inside n c : 0 <= n <= zlen c -> cut n c = ztake n c.
Proof.
  intros Hn. unfold cut. replace (Z.to_nat (n - zlen c)) with 0%nat by lia. by rewrite app_nil_r.
Qed.

Lemma sys_eq {A} (f : W -> A * W) o w a w' : f w = (a, w') -> sys f (o, w) = (Ret a, (o, w')).
Proof. intros E. unfold sys. by rewrite E. Qed.

Lemma is_opened_owns s d : owns s d -> is_opened s = (Ret true, s).
Proof.
  intros [Hf _]. unfold is_opened, this, gets. destruct (Z.eqb_spec (_fd s.1) (-1)); [done|]. done.
Qed.

Lemma seek_spec p s d :
  owns s d -> exists b s', seek p s = (Ret b, s') /\ files (view s'.2) = files (view s.2)
    /\ (b = true -> owns s' (set_pos p d)).
Proof.
  intros [Hf Hd]. destruct s as [o w]. cbn [fst snd] in *. unfold seek, this.
  destruct (p_lseek_set (_fd o) p w) as [r w'] eqn:E.
  erewrite bind_Ret by reflexivity. erewrite bind_Ret by (apply sys_eq; exact E).
  eexists _, _. split; [reflexivity|]. cbn [fst snd].
  destruct (lseek_set_law _ _ _ _ _ E) as [[-> Hv]|(-> & d' & Hd' & Hv)]; rewrite Hv; [done|].
  split; [done|]. intros _. split; [done|]. cbn [fst snd]. rewrite Hv, Hd in *. simplify_eq.
  apply lookup_insert_eq.
Qed.

Lemma write_spec data s d :
  owns s d -> exists b s', write data s = (Ret b, s') /\ others_kept (d_name d) (view s.2) (view s'.2)
    /\ (b = true -> exists p, p = (if appends d then zlen (content (view s.2) d) else d_pos d)
        /\ owns s' (set_pos (p + zlen data) d)
        /\ files (view s'.2) !! d_name d = Some (overwrite p data (content (view s.2) d))).
Proof.
  intros Ho. destruct s as [o w]. unfold write. erewrite bind_Ret by (by eapply is_opened_owns).
  destruct Ho as [Hf Hd]. cbn [fst snd] in *. unfold this.
  destruct (p_write (_fd o) data w) as [r w'] eqn:E.
  erewrite bind_Ret by reflexivity. erewrite bind_Ret by (apply sys_eq; exact E).
  eexists _, _. split; [reflexivity|]. cbn [fst snd].
  destruct (write_law _ _ _ _ _ E) as [[-> Hv]|(d' & p & Hd' & _ & Hr & Hp & Hv)]; rewrite Hv.
  - split; [done|]. intros Eb%Z.eqb_eq. pose proof (zlen_nonneg data). lia.
  - rewrite Hd in Hd'. simplify_eq. split.
    { intros n Hn. cbn [files]. by rewrite lookup_insert_ne. }
    intros Eb%Z.eqb_eq. subst r. eexists. split; [reflexivity|]. split.
    + split; [done|]. cbn [fst snd]. rewrite Hv. apply lookup_insert_eq.
    + cbn [files]. rewrite lookup_insert_eq. by rewrite ztake_all.
Qed.

Lemma truncate_spec n s d :
  owns s d -> exists b s', truncate n s = (Ret b, s') /\ others_kept (d_name d) (view s.2) (view s'.2)
    /\ (b = true -> files (view s'.2) !! d_name d = Some (cut n (content (view s.2) d))).
Proof.
  intros [Hf Hd]. destruct s as [o w]. cbn [fst snd] in *. unfold truncate, this.
  destruct (p_ftruncate (_fd o) n w) as [r w'] eqn:E.
  erewrite bind_Ret by reflexivity. erewrite bind_Ret by (apply sys_eq; exact E).
  eexists _, _. split; [reflexivity|]. cbn [fst snd].
  destruct (ftruncate_law _ _ _ _ _ E) as [[-> Hv]|(-> & d' & Hd' & _ & Hv)]; rewrite Hv; [done|].
  rewrite Hd in Hd'. simplify_eq. split.
  - intros k Hk. cbn [files set_files]. by rewrite lookup_insert_ne.
  - intros _. cbn [files set_files]. apply lookup_insert_eq.
Qed.

(** [rewrite] always returns. When it returns true the file holds exactly
    the data, and no other file has changed, except in append mode: there the
    data goes to the end, the beginning of the old content is left, and the
    call reports success all the same. *)
Theorem rewrite_exact data s d :
  owns s d ->
  exists b s', rewrite_ data s = (Ret b, s')
    /\ others_kept (d_name d) (view s.2) (view s'.2)
    /\ (b = true -> files (view s'.2) !! d_name d
          = Some (if appends d then ztake (zlen data) (content (view s.2) d ++ data) else data)).
Proof.
  intros Ho. destruct (seek_spec 0 s d Ho) as ([|] & s1 & E1 & F1 & O1); unfold rewrite_;
    erewrite bind_Ret by exact E1; cbn iota.
  2:{ exists false, s1. split; [done|]. split; [|done]. intros n _. by rewrite F1. }
  specialize (O1 eq_refl). destruct (write_spec data s1 _ O1) as ([|] & s2 & E2 & K2 & O2);
    erewrite bind_Ret by exact E2; cbn iota.
  2:{ exists false, s2. split; [done|]. split; [|done]. intros n Hn. rewrite <- F1. by apply K2. }
  destruct (O2 eq_refl) as (p & Hp & O3 & C2).
  destruct (truncate_spec (zlen data) s2 _ O3) as (b & s3 & E3 & K3 & C3).
  exists b, s3. split; [done|]. split.
  { intros n Hn. rewrite K3 by done. rewrite K2 by done. by rewrite F1. }
  intros Hb. cbn [set_pos d_name] in *. rewrite (C3 Hb). f_equal. unfold content at 1. cbn [set_pos d_name].
  rewrite C2. cbn [default]. unfold id. subst p.
  replace (content (view s1.2) (set_pos 0 d)) with (content (view s.2) d) by (unfold content; by rewrite F1).
  pose proof (zlen_nonneg data). change (appends (set_pos 0 d)) with (appends d).
  destruct (appends d).
  - rewrite overwrite_end. apply cut_inside. rewrite zlen_app. pose proof (zlen_nonneg (content (view s.2) d)). lia.
  - cbn [d_pos set_pos]. rewrite overwrite_start, cut_inside.
    + by apply ztake_app_exact.
    + rewrite zlen_app. pose proof (zlen_nonneg (zdrop (zlen data) (content (view s.2) d))). lia.
Qed.

(** ** Writing a file and reading it back *)

Lemma is_opened_closed name w : is_opened ({| _fd := -1; _name := name |}, w) = (Ret false, ({| _fd := -1; _name := name |}, w)).
Proof. done. Qed.

Lemma file_close_spec s d :
  owns s d -> exists w', close s = (Ret tt, ({| _fd := -1; _name := _name s.1 |}, w'))
    /\ view w' = set_fds (base.delete (_fd s.1) (fds (view s.2))) (view s.2).
Proof.
  intros Ho. destruct s as [o w]. unfold close. erewrite bind_Ret by (by eapply is_opened_owns).
  cbn [when]. eexists. split; [reflexivity|]. apply close_law.
Qed.

Context `{HO : !PosixOk W}.

Lemma open_spec name mode perm w :
  path_ok W (cname name) -> Z.of_nat (size (fds (view w))) < open_max W ->
  match files (view w) !! cname name with
  | Some _ => exists a, rights (view w) !! cname name = Some a /\ granted mode a = true
  | None => has_flag mode CREATE = true /\ fits W (<[cname name := []]> (files (view w)))
  end ->
  exists fd a w', open mode perm ({| _fd := -1; _name := name |}, w) = (Ret true, ({| _fd := fd; _name := name |}, w'))
    /\ 0 <= fd /\ fds (view w) !! fd = None /\ created_with (umask W) perm a
    /\ view w' = opened (cname name) mode fd a (view w).
Proof.
  intros Hp Hm Hx. unfold open, close. destruct (p_open (cname name) mode perm w) as [fd w'] eqn:E.
  pose proof (open_ok (cname name) mode perm w Hp Hm Hx) as Hne. rewrite E in Hne. cbn [fst] in Hne.
  destruct (open_law _ _ _ _ _ _ E) as [[-> _]|(Hfd & Hn & a & Ha & Hv)]; [done|].
  exists fd, a, w'. split; [|done]. erewrite bind_Ret.
  2:{ erewrite bind_Ret by apply is_opened_closed. reflexivity. }
  erewrite bind_Ret by reflexivity. erewrite bind_Ret by (apply sys_eq; exact E).
  erewrite bind_Ret by reflexivity. unfold is_opened, this, gets. cbn [fst _fd].
  destruct (Z.eqb_spec fd (-1)); [lia|done].
Qed.

(** [read_all] of an open file gives its content. *)
Lemma read_all_spec s d :
  owns s d -> readable d = true -> zlen (content (view s.2) d) <= max_transfer ->
  exists s' d', read_all npos64 s = (Ret (content (view s.2) d), s') /\ owns s' d'
    /\ _fd s'.1 = _fd s.1 /\ files (view s'.2) = files (view s.2) /\ rights (view s'.2) = rights (view s.2)
    /\ base.delete (_fd s.1) (fds (view s'.2)) = base.delete (_fd s.1) (fds (view s.2)).
Proof.
  intros Ho Hr Hm. destruct s as [o w]. unfold read_all. erewrite bind_Ret by (by eapply is_opened_owns).
  cbn iota. rewrite Z.eqb_refl. destruct Ho as [Hf Hd]. cbn [fst snd] in *.
  erewrite bind_Ret by reflexivity. cbn [fst].
  destruct (p_lseek_end (_fd o) w) as [n w1] eqn:E1. erewrite bind_Ret by (apply sys_eq; exact E1).
  pose proof (lseek_end_ok _ _ w Hd) as N1. rewrite E1 in N1. cbn [fst] in N1.
  destruct (lseek_end_law _ _ _ _ E1) as [[-> _]|(d1 & Hd1 & -> & V1)]; [done|]. rewrite Hd in Hd1. simplify_eq.
  set (c := content (view w) d1) in *. destruct (Z.eqb_spec (zlen c) (-1)); [done|].
  unfold read_into. erewrite bind_Ret by reflexivity. cbn [fst].
  assert (fds (view w1) !! _fd o = Some (set_pos (zlen c) d1)) as D1 by (rewrite V1; apply lookup_insert_eq).
  destruct (p_lseek_set (_fd o) 0 w1) as [r2 w2] eqn:E2. erewrite bind_Ret by (apply sys_eq; exact E2).
  pose proof (lseek_ok _ 0 _ w1 D1 ltac:(lia)) as N2. rewrite E2 in N2. cbn [fst] in N2.
  destruct (lseek_set_law _ _ _ _ _ E2) as [[-> _]|(_ & d2 & Hd2 & V2)]; [done|]. rewrite D1 in Hd2. simplify_eq.
  destruct (Z.ltb_spec max_size (zlen c)); [unfold max_size, max_transfer in *; lia|].
  assert (fds (view w2) !! _fd o = Some (set_pos 0 (set_pos (zlen c) d1))) as D2 by (rewrite V2; apply lookup_insert_eq).
  destruct (p_read (_fd o) (zlen c) w2) as [r3 w3] eqn:E3. erewrite bind_Ret by (apply sys_eq; exact E3).
  pose proof (zlen_nonneg c). pose proof (read_ok _ (zlen c) _ w2 D2 Hr ltac:(lia)) as N3.
  rewrite E3 in N3. cbn [fst] in N3. subst r3.
  destruct (read_law _ _ _ _ _ (zlen_nonneg c) E3) as [[E0 _]|(d3 & bs & k & Hd3 & _ & Eb & _ & _ & V3)]; [done|].
  injection Eb as Eb. rewrite D2 in Hd3. injection Hd3 as <-.
  assert (content (view w2) (set_pos 0 (set_pos (zlen c) d1)) = c) as Ec.
  { unfold c, content. cbn [d_name set_pos]. by rewrite V2, V1. }
  rewrite Ec in Eb. cbn [set_pos d_pos] in Eb. rewrite zdrop_0, ztake_all in Eb by lia. subst bs. rewrite Ec. cbn [set_pos d_pos]. rewrite zdrop_0, ztake_all by lia.
  assert ((if 0 <? zlen c then ret c else ret (replicate (Z.to_nat (zlen c)) x00)) (o, w3) = (Ret c, (o, w3))) as ->.
  { destruct (Z.ltb_spec 0 (zlen c)); [done|]. rewrite (zlen_0_inv c); [done|]. lia. }
  eexists (o, w3), _. split; [done|]. split; [split; [done|cbn [fst snd]; rewrite V3; apply lookup_insert_eq]|].
  cbn [fst snd]. rewrite V3, V2, V1. cbn [set_fds files fds rights]. split_and!; try done.
  by rewrite !delete_insert_eq.
Qed.

(** A descriptor just opened is the object's. *)
Lemma owns_opened name mode fd a w w' :
  0 <= fd -> view w' = opened (cname name) mode fd a (view w) ->
  owns ({| _fd := fd; _name := name |}, w') {| d_name := cname name; d_pos := 0; d_mode := mode |}.
Proof. intros Hfd V. split; cbn [fst snd _fd]; [lia|]. rewrite V. apply lookup_insert_eq. Qed.

Lemma fs_eq v f a d : files v = f -> rights v = a -> fds v = d -> v = {| files := f; rights := a; fds := d |}.
Proof. destruct v. simpl. by intros -> -> ->. Qed.

(** The process may write the file of that name and read it back, and the
    storage has room for it. *)
Definition may_store (name : std_string) (data : list byte) (perm : Z) (v : fs) : Prop :=
  path_ok W name /\ Z.of_nat (size (fds v)) < open_max W
  /\ fits W (<[name := []]> (files v)) /\ fits W (<[name := data]> (files v))
  /\ match files v !! name with
     | Some _ => exists a, rights v !! name = Some a /\ may_read a = true /\ may_write a = true
     | None => has_flag (Z.ldiff perm (umask W)) READ_BY_OWNER = true
     end.

Definition may_read_file (name : std_string) (v : fs) : Prop :=
  exists a, rights v !! name = Some a /\ may_read a = true.

(** The one call of [write] on the file just opened, and the closing. *)
Lemma write_close_spec name data fd a w wo :
  0 <= fd -> fds (view w) !! fd = None -> view wo = opened (cname name) write_mode fd a (view w) ->
  fits W (<[cname name := data]> (files (view w))) ->
  exists b sw w1 c, write data ({| _fd := fd; _name := name |}, wo) = (Ret b, sw)
    /\ close sw = (Ret tt, ({| _fd := -1; _name := name |}, w1))
    /\ (b = true <-> zlen data <= max_transfer) /\ (b = true -> c = data)
    /\ view w1 = {| files := <[cname name := c]> (files (view w)); rights := rights (view wo); fds := fds (view w) |}.
Proof.
  intros Hfd Hn V1 Hfit. pose proof (owns_opened _ _ _ _ _ _ Hfd V1) as Ho.
  set (d := {| d_name := cname name; d_pos := 0; d_mode := write_mode |}) in *.
  assert (content (view wo) d = []) as Hc.
  { unfold content. rewrite V1. cbn [opened files d_name d]. by rewrite lookup_insert_eq. }
  unfold write. erewrite bind_Ret by (by eapply is_opened_owns). cbn iota. erewrite bind_Ret by reflexivity.
  cbn [fst _fd]. destruct (p_write fd data wo) as [r ww] eqn:E2. erewrite bind_Ret by (apply sys_eq; exact E2).
  assert (exists d' c, view ww = {| files := <[cname name := c]> (files (view w)); rights := rights (view wo);
      fds := <[fd := d']> (fds (view w)) |} /\ (r = zlen data <-> zlen data <= max_transfer) /\ (r = zlen data -> c = data))
    as (d' & c & V2 & Hr & Hcd).
  { pose proof (zlen_nonneg data).
    assert (zlen data <= max_transfer -> r = zlen data) as Hall.
    { intros Hm. pose proof (write_ok _ data d wo (proj2 Ho) ltac:(reflexivity) Hm) as Er.
      cbn [fst snd _fd] in Er. rewrite E2 in Er. apply Er. rewrite Hc. change (appends d) with false. cbn [d_pos d]. rewrite overwrite_start, V1.
      unfold zdrop. rewrite drop_nil, app_nil_r. cbn [opened files d_name]. by rewrite insert_insert_eq. }
    destruct (write_law _ _ _ _ _ E2) as [[-> V2]|(d2 & p & Hd & _ & Hr & Hp & V2)].
    - exists d, []. rewrite V2. split; [|split; [split; [lia|auto]|lia]].
      rewrite V1. unfold opened. cbn [files fds rights]. done.
    - pose proof (proj2 Ho) as Hd'. cbn [fst snd _fd] in Hd'. rewrite Hd in Hd'. injection Hd' as ->.
      eexists _, (ztake r data). rewrite V2. split; [|split; [split; [lia|auto]|intros ->; by apply ztake_all]].
      apply fs_eq; cbn [files fds rights]; [|done|rewrite V1; cbn [opened fds]; by rewrite insert_insert_eq].
      rewrite Hc. subst p. change (appends d) with false. cbn [d_pos d d_name]. rewrite overwrite_start, V1.
      unfold zdrop. rewrite drop_nil, app_nil_r. cbn [opened files]. by rewrite insert_insert_eq. }
  set (sw := ({| _fd := fd; _name := name |}, ww)).
  assert (owns sw d') as Hw by (split; cbn [fst snd _fd sw]; [lia|]; rewrite V2; apply lookup_insert_eq).
  destruct (file_close_spec _ _ Hw) as (w1 & E3 & V3).
  exists (r =? zlen data), sw, w1, c. split; [done|]. split; [exact E3|]. rewrite Z.eqb_eq. split; [exact Hr|].
  split; [exact Hcd|]. cbn [_fd fst snd sw] in V3. rewrite V3, V2. apply fs_eq; [done..|].
  cbn [set_fds fds]. by rewrite delete_insert_eq, delete_id.
Qed.

Lemma static_write_spec name data perm w :
  may_store (cname name) data perm (view w) ->
  exists b w1 c, static_write name data write_mode perm w = (Ret b, w1)
    /\ (b = true <-> zlen data <= max_transfer) /\ (b = true -> c = data)
    /\ files (view w1) = <[cname name := c]> (files (view w)) /\ fds (view w1) = fds (view w)
    /\ may_read_file (cname name) (view w1).
Proof.
  intros (Hp & Hmax & Hf0 & Hf & Hr). unfold static_write, with_file.
  destruct (open_spec name write_mode perm w Hp Hmax) as (fd & a & wo & E1 & Hfd & Hn & Ha & V1).
  { destruct (files (view w) !! cname name); [|done]. destruct Hr as (a & Ha & _ & Hwr). exists a.
    split; [done|]. unfold granted. by rewrite Hwr, orb_true_r. }
  erewrite bind_Ret by exact E1.
  destruct (write_close_spec name data fd a w wo Hfd Hn V1 Hf) as (b & sw & w1 & c & E2 & E3 & Hb & Hc & V3).
  rewrite E2, E3. exists b, w1, c. rewrite V3. split_and!; try done. unfold may_read_file.
  cbn [rights]. rewrite V1. unfold opened. cbn [rights].
  destruct (files (view w) !! cname name); [destruct Hr as (a' & Ha' & Hre & _); by exists a'|].
  exists a. rewrite lookup_insert_eq. split; [done|]. by apply Ha.
Qed.

Lemma static_read_spec name c w :
  path_ok W (cname name) -> Z.of_nat (size (fds (view w))) < open_max W -> may_read_file (cname name) (view w) ->
  files (view w) !! cname name = Some c -> zlen c <= max_transfer ->
  exists w2, static_read_all name npos64 w = (Ret c, w2) /\ view w2 = view w.
Proof.
  intros Hp Hmax (a0 & Ha0 & Hr) Hc Hm. unfold static_read_all, with_file.
  destruct (open_spec name READ_ONLY DEFAULT_CREATE_PERM w Hp Hmax) as (fd & a & wp & E1 & Hfd & Hn & _ & V1).
  { rewrite Hc. exists a0. split; [done|]. unfold granted. by rewrite Hr. }
  erewrite bind_Ret by exact E1. pose proof (owns_opened _ _ _ _ _ _ Hfd V1) as Ho.
  assert (files (view wp) = files (view w)) as Fp.
  { rewrite V1. unfold opened. cbn [files]. change (has_flag READ_ONLY TRUNCATE) with false. cbn iota.
    rewrite Hc. by apply insert_id. }
  assert (content (view wp) {| d_name := cname name; d_pos := 0; d_mode := READ_ONLY |} = c) as Ec.
  { unfold content. rewrite Fp. cbn [d_name]. by rewrite Hc. }
  destruct (read_all_spec _ _ Ho ltac:(reflexivity)) as (s' & d' & E5 & Ho' & Efd & Ef & Er & Edel).
  { cbn [snd]. by rewrite Ec. }
  cbn [snd fst _fd] in *. rewrite Ec in E5. rewrite E5.
  destruct (file_close_spec _ _ Ho') as (w2 & E6 & V6). rewrite E6. exists w2. split; [done|].
  rewrite V6, Efd. symmetry. apply fs_eq; [by rewrite Ef, Fp| |].
  - rewrite Er, V1. unfold opened. cbn [rights]. by rewrite Hc.
  - rewrite Edel, V1. unfold opened. cbn [fds]. by rewrite delete_insert_eq, delete_id.
Qed.

(** C37. On a system where no call fails without a reason, for a file that the
    process may write and read, with the bits asked for less the mask when it
    is created, in a storage with room for it: [File::write] with its default
    mode returns true exactly when the data is not longer than one call of
    [write] transfers, 0x7ffff000 bytes; then the file that the name denotes,
    up to its first zero, holds the data and [File::read_all] gives it. Both
    close the descriptor they opened, and no other file changes. *)
Theorem write_read_round_trip name data perm w :
  may_store (cname name) data perm (view w) ->
  exists b w1, static_write name data write_mode perm w = (Ret b, w1)
    /\ (b = true <-> zlen data <= max_transfer)
    /\ others_kept (cname name) (view w) (view w1) /\ fds (view w1) = fds (view w)
    /\ (b = true -> files (view w1) = <[cname name := data]> (files (view w))
        /\ exists w2, static_read_all name npos64 w1 = (Ret data, w2) /\ view w2 = view w1).
Proof.
  intros Hs. destruct (static_write_spec name data perm w Hs) as (b & w1 & c & E1 & Hb & Hc & F1 & D1 & R1).
  exists b, w1. split; [done|]. split; [done|]. split.
  { intros n Hn. rewrite F1. by rewrite lookup_insert_ne. }
  split; [done|]. intros Eb. specialize (Hc Eb) as ->. split; [done|]. destruct Hs as (Hp & Hmax & _).
  apply static_read_spec; try done; [by rewrite D1|rewrite F1; apply lookup_insert_eq|by apply Hb].
Qed.

End file.
End File.

(** ** An executable file system *)

Module PosixRef.
Import File.

Definition fresh_fd (v : fs) : Z := 1 + fold_right Z.max 0 (map fst (map_to_list (fds v))).

Definition with_desc {A} (v : fs) (fd : Z) (failed : A) (f : desc -> A) : A :=
  match fds v !! fd with Some d => f d | None => failed end.

(** The files are those of the process's own user, and it has no mask. *)
Definition owner_access (perm : Z) : access :=
  {| may_read := has_flag perm READ_BY_OWNER; may_write := has_flag perm WRITE_BY_OWNER |}.

Definition may_open (name : std_string) (mode : Z) (v : fs) : bool :=
  match files v !! name with
  | Some _ => match rights v !! name with Some a => granted mode a | None => false end
  | None => has_flag mode CREATE
  end.

#[export] Instance posix_ref : Posix fs := {
  p_open name mode perm v :=
    if may_open name mode v then (fresh_fd v, opened name mode (fresh_fd v) (owner_access perm) v) else (-1, v);
  p_close fd v := set_fds (base.delete fd (fds v)) v;
  p_lseek_set fd p v := with_desc v fd (-1, v) (fun d => (p, set_fds (<[fd := set_pos p d]> (fds v)) v));
  p_lseek_end fd v := with_desc v fd (-1, v) (fun d =>
    (zlen (content v d), set_fds (<[fd := set_pos (zlen (content v d)) d]> (fds v)) v));
  p_read fd n v := with_desc v fd (None, v) (fun d =>
    if readable d then
      let bs := ztake (Z.min n max_transfer) (zdrop (d_pos d) (content v d)) in
      (Some bs, set_fds (<[fd := set_pos (d_pos d + zlen bs) d]> (fds v)) v)
    else (None, v));
  p_write fd bs v := with_desc v fd (-1, v) (fun d =>
    if writable d then
      let p := if appends d then zlen (content v d) else d_pos d in
      let n := Z.min (zlen bs) max_transfer in
      (n, {| files := <[d_name d := overwrite p (ztake n bs) (content v d)]> (files v);
             rights := rights v;
             fds := <[fd := set_pos (p + n) d]> (fds v) |})
    else (-1, v));
  p_ftruncate fd n v := with_desc v fd (-1, v) (fun d =>
    if writable d then (0, set_files (<[d_name d := cut n (content v d)]> (files v)) v) else (-1, v));
  p_access name v := if bool_decide (is_Some (files v !! name)) then 0 else -1;
  p_mkdir _ _ v := (-1, v);
}.

Lemma fresh_fd_new v : 0 <= fresh_fd v /\ fds v !! fresh_fd v = None.
Proof.
  unfold fresh_fd. assert (forall l, 0 <= fold_right Z.max 0 l /\ forall x, In x l -> x <= fold_right Z.max 0 l) as Hm.
  { induction l as [|a l [IH1 IH2]]; simpl; [split; [lia|done]|]. split; [lia|].
    intros x [->|Hx]; [lia|]. specialize (IH2 x Hx). lia. }
  destruct (Hm (map fst (map_to_list (fds v)))) as [H0 Hx]. split; [lia|].
  destruct (fds v !! _) as [d|] eqn:E; [|done]. apply elem_of_map_to_list, list_elem_of_In in E.
  apply (in_map fst), Hx in E. simpl in E. lia.
Qed.

(** Unfold a call and look its descriptor up. *)
Ltac call :=
  simpl; unfold with_desc; intros;
  repeat match goal with
  | H : context [match ?m !! ?k with _ => _ end] |- _ => destruct (m !! k) eqn:?
  | |- context [match ?m !! ?k with _ => _ end] => destruct (m !! k) eqn:?
  end.

#[export] Instance posix_ref_laws : PosixLaws fs.
Proof.
  apply (Build_PosixLaws fs posix_ref id 0); call; unfold id in *; simplify_eq; auto.
  - destruct (may_open _ _ _); simplify_eq; [right|by left]. destruct (fresh_fd_new w). split_and!; auto.
    eexists. split; [|done]. unfold created_with, owner_access. cbn [may_read may_write].
    by rewrite Z.ldiff_0_r.
  - right. eauto.
  - right. eauto.
  - destruct (readable d) eqn:?; simplify_eq; [right|by left]. eexists _, _, (Z.min n max_transfer).
    split_and!; eauto; unfold max_transfer; lia.
  - destruct (writable d) eqn:?; simplify_eq; [right|by left]. pose proof (zlen_nonneg bs).
    eexists _, _. split_and!; eauto; unfold max_transfer; lia.
  - destruct (writable d) eqn:?; simplify_eq; [right|by left]. eauto.
Defined.

#[export] Instance posix_ref_ok : PosixOk fs.
Proof.
  apply (Build_PosixOk fs posix_ref posix_ref_laws (fun _ => True) 1024 (fun _ => True));
    unfold view; call; unfold id in *; simplify_eq; try done.
  - destruct (fresh_fd_new w). unfold may_open. match goal with E : files w !! name = _ |- _ => rewrite E end.
    match goal with E : exists _, _ |- _ => destruct E as (a & -> & ->) end. simpl. lia.
  - destruct (fresh_fd_new w). unfold may_open. match goal with E : files w !! name = _ |- _ => rewrite E end.
    match goal with E : has_flag _ _ = true /\ _ |- _ => destruct E as [-> _] end. simpl. lia.
  - simpl. lia.
  - simpl. match goal with |- zlen ?c <> _ => pose proof (zlen_nonneg c) end. lia.
  - match goal with E : readable _ = true |- _ => rewrite E end. simpl. by rewrite Z.min_l by lia.
  - match goal with E : writable _ = true |- _ => rewrite E end. simpl. by rewrite Z.min_l by lia.
Defined.

End PosixRef.

Import File PosixRef.

(** A system with one file, open in two modes. *)
Definition one_file : fs :=
  {| files := <[lit "a" := lit "old text"]> ∅;
     rights := <[lit "a" := {| may_read := true; may_write := true |}]> ∅;
     fds := <[3 := {| d_name := lit "a"; d_pos := 5; d_mode := READ_WRITE |}]>
            (<[4 := {| d_name := lit "a"; d_pos := 0; d_mode := Z.lor READ_WRITE APPEND |}]> ∅) |}.

Lemma rewrite_exact_witness :
  exists b s', rewrite_ (lit "new") ({| _fd := 3; _name := lit "a" |}, one_file) = (Ret b, s')
    /\ b = true /\ files (view s'.2) !! lit "a" = Some (lit "new").
Proof.
  destruct (rewrite_exact (lit "new") ({| _fd := 3; _name := lit "a" |}, one_file)
    {| d_name := lit "a"; d_pos := 5; d_mode := READ_WRITE |}) as (b & s' & E & _ & H).
  - split; [discriminate|reflexivity].
  - exists b, s'. split; [exact E|]. assert (b = true) as Hb.
    { assert (Ret b = Ret true) as Er; [|injection Er; trivial].
      change (Ret b) with ((Ret b, s').1). rewrite <- E. vm_compute. reflexivity. }
    split; [exact Hb|]. exact (H Hb).
Defined.

(** In append mode [rewrite] reports success and leaves the old beginning. *)
Lemma rewrite_append_keeps_old :
  let '(r, s') := rewrite_ (lit "new") ({| _fd := 4; _name := lit "a" |}, one_file) in
  r = Ret true /\ files s'.2 !! lit "a" = Some (lit "old").
Proof. vm_compute. split; reflexivity. Qed.

(** A read of [n] bytes that finds none gives [n] zero bytes. *)
Lemma read_of_empty_file :
  (static_read_all (lit "e") 3 {| files := <[lit "e" := []]> ∅; rights := <[lit "e" := {| may_read := true; may_write := false |}]> ∅; fds := ∅ |}).1 = Ret [x00; x00; x00].
Proof. vm_compute. reflexivity. Qed.

(** A file created without the bit for reading is written, and then reads as
    empty. *)
Lemma unreadable_file_reads_empty :
  let '(r, w1) := static_write (lit "b") (lit "text") write_mode 0 one_file in
  r = Ret true /\ (static_read_all (lit "b") npos64 w1).1 = Ret [].
Proof. vm_compute. split; reflexivity. Qed.

Lemma write_read_round_trip_witness :
  exists w1 w2,
    static_write (lit "b") (lit "text") write_mode DEFAULT_CREATE_PERM one_file = (Ret true, w1)
    /\ static_read_all (lit "b") npos64 w1 = (Ret (lit "text"), w2).
Proof.
  destruct (write_read_round_trip (lit "b") (lit "text") DEFAULT_CREATE_PERM one_file)
    as (b & w1 & E1 & Hb & _ & _ & Hr).
  - split; [exact I|]. split; [vm_compute; reflexivity|]. split; [exact I|]. split; [exact I|].
    vm_compute. reflexivity.
  - assert (b = true) as Eb by (apply Hb; discriminate).
    destruct (Hr Eb) as (_ & w2 & E2 & _). exists w1, w2. rewrite Eb in E1. split; [exact E1|exact E2].
Defined.
