(* ===== verification/SimpleThread.v ===== *)
(** * ParamThread

    [src/Base/simplethread.h]: a thread that builds an object from stored
    arguments, runs an event loop and destroys the object; [ptr()], called
    from another thread, waits for the object with a promise. The thread
    ([run]) and one caller of [ptr] are two programs over shared members;
    every access of a shared member is a step, and a schedule says who steps.
    Whether the constructor and the event loop throw are parameters. *)

From S2P Require Import Prelude.

Module ParamThread.

(** The object built by the thread: not there, alive, or destroyed. *)
Inductive object := Absent | Alive | Destroyed.

(** The promise of [Thread_Promises]. *)
Inductive promise_state := Pending | Value (b : bool) | Exception.

(** Where the thread is. [W_run] is [run] before the object is built. *)
Inductive worker :=
| W_idle | W_run
| W_store | W_set_value | W_delete | W_null          (* [started] *)
| W_delete_args | W_null_args | W_exec | W_destroy   (* [Thread_Base::run] *)
| W_clear                                            (* [ptr_.store(nullptr)] *)
| W_catch | W_set_exception | W_catch_delete | W_catch_null
| W_end | W_terminated | W_undefined.

(** Where the caller of [ptr] is. *)
Inductive caller :=
| C_load | C_check | C_call | C_wait | C_reload
| C_returned (obj : bool) | C_threw | C_undefined.

Record t := {
  args_ : bool;        (* the pointer is not null *)
  args_freed : nat;    (* times the arguments were deleted *)
  ptr_ : bool;         (* the pointer is not null *)
  promises_ : bool;    (* the pointer is not null *)
  promises_freed : nat;
  promise_ : promise_state;
  obj : object;
  at_ : worker;
  by_ : caller;
}.

(** The constructor. *)
Definition make : t :=
  {| args_ := true; args_freed := 0; ptr_ := false; promises_ := true; promises_freed := 0;
     promise_ := Pending; obj := Absent; at_ := W_idle; by_ := C_load |}.

Definition go w s := {| args_ := args_ s; args_freed := args_freed s; ptr_ := ptr_ s; promises_ := promises_ s;
  promises_freed := promises_freed s; promise_ := promise_ s; obj := obj s; at_ := w; by_ := by_ s |}.
Definition set_ptr v s := {| args_ := args_ s; args_freed := args_freed s; ptr_ := v; promises_ := promises_ s;
  promises_freed := promises_freed s; promise_ := promise_ s; obj := obj s; at_ := at_ s; by_ := by_ s |}.
Definition set_args v n s := {| args_ := v; args_freed := n; ptr_ := ptr_ s; promises_ := promises_ s;
  promises_freed := promises_freed s; promise_ := promise_ s; obj := obj s; at_ := at_ s; by_ := by_ s |}.
Definition set_promises v n s := {| args_ := args_ s; args_freed := args_freed s; ptr_ := ptr_ s; promises_ := v;
  promises_freed := n; promise_ := promise_ s; obj := obj s; at_ := at_ s; by_ := by_ s |}.
Definition set_promise v s := {| args_ := args_ s; args_freed := args_freed s; ptr_ := ptr_ s; promises_ := promises_ s;
  promises_freed := promises_freed s; promise_ := v; obj := obj s; at_ := at_ s; by_ := by_ s |}.
Definition set_obj v s := {| args_ := args_ s; args_freed := args_freed s; ptr_ := ptr_ s; promises_ := promises_ s;
  promises_freed := promises_freed s; promise_ := promise_ s; obj := v; at_ := at_ s; by_ := by_ s |}.
Definition call w s := {| args_ := args_ s; args_freed := args_freed s; ptr_ := ptr_ s; promises_ := promises_ s;
  promises_freed := promises_freed s; promise_ := promise_ s; obj := obj s; at_ := at_ s; by_ := w |}.

(** Setting a promise that is set already throws [future_error]. *)
Definition fulfil (v : promise_state) (next failed : worker) (s : t) : t :=
  if promises_ s && (promises_freed s =? 0)%nat then
    match promise_ s with Pending => go next (set_promise v s) | _ => go failed s end
  else go W_undefined s.

(** [delete promises_] *)
Definition free_promises (next : worker) (s : t) : t :=
  if promises_ s && negb (promises_freed s =? 0)%nat then go W_undefined s
  else go next (set_promises (promises_ s) (if promises_ s then S (promises_freed s) else promises_freed s) s).

(** The destructors of [ParamThread] and [Thread_Base]. *)
Definition destroy (s : t) : t :=
  let s := if promises_ s then set_promises false (S (promises_freed s)) s else s in
  if args_ s then set_args false (S (args_freed s)) s else s.

Section run.
(** Whether the constructor of [T] and the event loop throw. *)
Context (ctor_throws exec_throws : bool).

(** One step of the thread. *)
Definition wstep (s : t) : option t :=
  match at_ s with
  | W_idle => Some (go W_run s)
  | W_run => Some (
      if args_ s then
        if ctor_throws then go W_catch s else go W_store (set_obj Alive s)
      else go W_undefined s)
  | W_store => Some (go W_set_value (set_ptr true s))
  | W_set_value => Some (fulfil (Value true) W_delete W_catch s)
  | W_delete => Some (free_promises W_null s)
  | W_null => Some (go W_delete_args (set_promises false (promises_freed s) s))
  | W_delete_args => Some (go W_null_args (set_args (args_ s) (S (args_freed s)) s))
  | W_null_args => Some (go W_exec (set_args false (args_freed s) s))
  | W_exec => Some (if exec_throws then go W_catch (set_obj Destroyed s) else go W_destroy s)
  | W_destroy => Some (go W_clear (set_obj Destroyed s))
  | W_clear => Some (go W_end (set_ptr false s))
  | W_catch => Some (if promises_ s then go W_set_exception s else go W_terminated s)
  | W_set_exception => Some (fulfil Exception W_catch_delete W_terminated s)
  | W_catch_delete => Some (free_promises W_catch_null s)
  | W_catch_null => Some (go W_end (set_promises false (promises_freed s) s))
  | W_end | W_terminated | W_undefined => None
  end.

(** One step of the caller; it cannot step while the promise is pending. *)
Definition cstep (s : t) : option t :=
  match by_ s with
  | C_load => Some (call (if ptr_ s then C_returned true else C_check) s)
  | C_check => Some (call (if promises_ s then C_call else C_returned false) s)
  | C_call => Some (call (if promises_ s && (promises_freed s =? 0)%nat then C_wait else C_undefined) s)
  | C_wait =>
      match promise_ s with
      | Pending => None
      | Value true => Some (call C_reload s)
      | Value false | Exception => Some (call C_threw s)
      end
  | C_reload => Some (call (C_returned (ptr_ s)) s)
  | C_returned _ | C_threw | C_undefined => None
  end.

Inductive actor := Worker | Caller.

(** A schedule; an actor that cannot step is passed over. *)
Definition step (a : actor) (s : t) : t :=
  default s (match a with Worker => wstep s | Caller => cstep s end).

Fixpoint run (sched : list actor) (s : t) : t :=
  match sched with [] => s | a :: sched => run sched (step a s) end.

(** ** The invariant *)

(** The members as a function of where the thread is. *)
Definition members (w : worker) : bool * nat * bool * bool * nat * promise_state * object :=
  match w with
  | W_idle | W_run => (true, 0, false, true, 0, Pending, Absent)
  | W_store => (true, 0, false, true, 0, Pending, Alive)
  | W_set_value => (true, 0, true, true, 0, Pending, Alive)
  | W_delete => (true, 0, true, true, 0, Value true, Alive)
  | W_null => (true, 0, true, true, 1, Value true, Alive)
  | W_delete_args => (true, 0, true, false, 1, Value true, Alive)
  | W_null_args => (true, 1, true, false, 1, Value true, Alive)
  | W_exec | W_destroy => (false, 1, true, false, 1, Value true, Alive)
  | W_clear => (false, 1, true, false, 1, Value true, Destroyed)
  | W_catch => if ctor_throws then (true, 0, false, true, 0, Pending, Absent)
               else (false, 1, true, false, 1, Value true, Destroyed)
  | W_set_exception => (true, 0, false, true, 0, Pending, Absent)
  | W_catch_delete => (true, 0, false, true, 0, Exception, Absent)
  | W_catch_null => (true, 0, false, true, 1, Exception, Absent)
  | W_end => if ctor_throws then (true, 0, false, false, 1, Exception, Absent)
             else (false, 1, false, false, 1, Value true, Destroyed)
  | W_terminated => (false, 1, true, false, 1, Value true, Destroyed)
  | W_undefined => (true, 0, false, true, 0, Pending, Absent)
  end%nat.

Definition members_of (s : t) : bool * nat * bool * bool * nat * promise_state * object :=
  (args_ s, args_freed s, ptr_ s, promises_ s, promises_freed s, promise_ s, obj s).

(** Where the thread can be, given what its parts do. *)
Definition possible (w : worker) : Prop :=
  match w with
  | W_idle | W_run | W_end => True
  | W_store | W_set_value | W_delete | W_null | W_delete_args | W_null_args | W_exec => ctor_throws = false
  | W_destroy | W_clear => ctor_throws = false /\ exec_throws = false
  | W_catch => ctor_throws = true \/ exec_throws = true
  | W_set_exception | W_catch_delete | W_catch_null => ctor_throws = true
  | W_terminated => ctor_throws = false /\ exec_throws = true
  | W_undefined => False
  end.

(** What the caller knows. *)
Definition caller_ok (s : t) : Prop :=
  match by_ s with
  | C_reload | C_returned true => promise_ s = Value true \/ at_ s = W_set_value
  | C_threw => ctor_throws = true
  | _ => True
  end.

Definition Inv (s : t) : Prop := members_of s = members (at_ s) /\ possible (at_ s) /\ caller_ok s.

Lemma members_of_call c s : members_of (call c s) = members_of s.
Proof. done. Qed.

Lemma wstep_inv s s' : Inv s -> wstep s = Some s' -> Inv s'.
Proof.
  intros (Hm & Hp & Hc) E. destruct s as [a af p q qf pr o w c]. unfold Inv, members_of, caller_ok, members, possible, wstep in *.
  cbn [args_ args_freed ptr_ promises_ promises_freed promise_ obj at_ by_] in *.
  destruct ctor_throws, exec_throws, w; cbn in Hm, Hp, E; try done; try (by destruct Hp);
    simplify_eq; cbn in *; simplify_eq; cbn;
    (split; [done|split; [tauto|]]); destruct c as [| | | | |[]| |]; try done; intuition congruence.
Qed.

Lemma cstep_inv s s' : Inv s -> cstep s = Some s' -> Inv s'.
Proof.
  intros (Hm & Hp & Hc) E. destruct s as [a af p q qf pr o w c]. unfold Inv, members_of, caller_ok, members, possible, wstep in *.
  cbn [args_ args_freed ptr_ promises_ promises_freed promise_ obj at_ by_] in *.
  destruct c as [| | | | |b| |]; cbn in E; try done.
  all: destruct ctor_throws, exec_throws, w; simpl in Hm, Hp; try done; try (by destruct Hp);
    simplify_eq; cbn in *; simplify_eq; cbn;
    (split; [done|split; [tauto|]]); auto; try (destruct Hc; done).
Qed.

Lemma run_inv sched : forall s, Inv s -> Inv (run sched s).
Proof.
  induction sched as [|a sched IH]; intros s Hs; [done|]. simpl. apply IH. unfold step.
  destruct a; [destruct (wstep s) eqn:E|destruct (cstep s) eqn:E]; simpl;
    eauto using wstep_inv, cstep_inv.
Qed.

Lemma make_inv : Inv make.
Proof. done. Qed.

(** ** The caller and the thread *)

Lemma inv_freed s : Inv s -> at_ s <> W_undefined /\ (args_freed s <= 1)%nat /\ (promises_freed s <= 1)%nat.
Proof.
  intros (Hm & Hp & _). unfold members_of, members, possible in *.
  destruct (at_ s); try done; try (destruct ctor_throws); simplify_eq; (split; [done|lia]).
Qed.

Lemma inv_caller s :
  Inv s -> match by_ s with
           | C_returned true => ctor_throws = false /\ obj s <> Absent
           | C_threw => ctor_throws = true
           | _ => True
           end.
Proof.
  intros (Hm & Hp & Hc). unfold members_of, members, possible, caller_ok in *.
  destruct (by_ s) as [| | | | |[]| |]; try done.
  destruct (at_ s), ctor_throws; try done; try (by destruct Hp); simplify_eq; try (destruct Hc; congruence);
    (split; [done|congruence]).
Qed.

(** A thread that never ran, or has ended, is destroyed without a leak. *)
Lemma inv_destroy s :
  Inv s -> at_ s = W_idle \/ at_ s = W_end ->
  args_freed (destroy s) = 1%nat /\ promises_freed (destroy s) = 1%nat.
Proof.
  intros (Hm & _ & _) Hw. destruct s as [a af p q qf pr o w c]. unfold members_of, members in *.
  cbn [args_ args_freed ptr_ promises_ promises_freed promise_ obj at_ by_] in *.
  destruct Hw as [-> | ->]; [|destruct ctor_throws]; simplify_eq; done.
Qed.

(** The steps of the thread until the promise is set. *)
Definition steps_left (w : worker) : nat :=
  match w with
  | W_idle => 4 | W_run => 3
  | W_store | W_catch => 2
  | W_set_value | W_set_exception => 1
  | _ => 0
  end.

Definition ended (w : worker) : bool := match w with W_end => true | _ => false end.

(** A caller that waits gets its answer when the thread has run that far. *)
Lemma inv_answers s :
  Inv s -> by_ s = C_wait ->
  by_ (run (replicate (steps_left (at_ s)) Worker ++ [Caller; Caller]) s)
  = if ctor_throws then C_threw else C_returned (negb (ended (at_ s))).
Proof.
  intros (Hm & Hp & _) Hb. destruct s as [a af p q qf pr o w c].
  unfold members_of, members, possible, run, step, wstep, cstep in *.
  cbn [args_ args_freed ptr_ promises_ promises_freed promise_ obj at_ by_] in *. subst c.
  destruct ctor_throws, exec_throws, w; try done; try (by destruct Hp); simplify_eq; reflexivity.
Qed.

(** C38. However the thread and a caller of [ptr] are interleaved: the thread
    never touches freed memory, its arguments and promise are freed at most
    once, and exactly once when the thread is destroyed before it ran or after
    it ended; [ptr] throws only when the constructor of the object threw and
    returns a pointer only to an object that was built, and a caller that
    waits for the promise is answered when the thread has taken at most four
    more steps: with an exception if the constructor threw, else with the
    object, or null when the thread is over. *)
Theorem ptr_answered sched :
  let s := run sched make in
  at_ s <> W_undefined /\ (args_freed s <= 1)%nat /\ (promises_freed s <= 1)%nat
  /\ (at_ s = W_idle \/ at_ s = W_end -> args_freed (destroy s) = 1%nat /\ promises_freed (destroy s) = 1%nat)
  /\ (by_ s = C_threw -> ctor_throws = true)
  /\ (by_ s = C_returned true -> ctor_throws = false /\ obj s <> Absent)
  /\ (by_ s = C_wait -> exists n, (n <= 4)%nat /\ by_ (run (replicate n Worker ++ [Caller; Caller]) s)
        = if ctor_throws then C_threw else C_returned (negb (ended (at_ s)))).
Proof.
  intros s. pose proof (run_inv sched make make_inv) as HI. fold s in HI.
  destruct (inv_freed s HI) as (? & ? & ?). pose proof (inv_caller s HI) as Hc. split_and!; try done.
  - by apply inv_destroy.
  - intros E. by rewrite E in Hc.
  - intros E. by rewrite E in Hc.
  - intros E. exists (steps_left (at_ s)). split; [destruct (at_ s); simpl; lia|]. by apply inv_answers.
Qed.

End run.

(** The members [promises_] and [ptr_] are not read together with what they
    point to. A caller that has seen the promise may find it freed, *)
Lemma promise_freed_under_caller :
  by_ (run false false ([Caller; Caller] ++ replicate 5 Worker ++ [Caller]) make) = C_undefined.
Proof. reflexivity. Qed.

(** and a caller may be given an object that has just been destroyed. *)
Lemma destroyed_object_returned :
  let s := run false false (replicate 10 Worker ++ [Caller]) make in
  by_ s = C_returned true /\ obj s = Destroyed.
Proof. split; reflexivity. Qed.

(** A thread that is started again has no arguments left. *)
Lemma started_again_undefined :
  at_ (run false false [Worker; Worker] (go W_idle (run false false (replicate 13 Worker) make))) = W_undefined.
Proof. reflexivity. Qed.

End ParamThread.
