(* ===== verification/Logging.v ===== *)
(** * Logging

    [src/Base/logging.h] and [logging.cpp]: the message handler of the
    program, which writes to the console and to a file or the system log. The
    console, the log file and syslog are seen as the lines written to them;
    the clock and its formatting are part of a message. The signal
    [new_message] calls [save] directly, as it does in the thread of the
    object. *)

From S2P Require Import Prelude QtString.

Module Logging.

Inductive QtMsgType := QtDebugMsg | QtWarningMsg | QtCriticalMsg | QtFatalMsg | QtInfoMsg.

#[export] Instance QtMsgType_dec : EqDecision QtMsgType.
Proof. solve_decision. Defined.

(** A message: its type, the category of its context ([LogContext] keeps that
    only), its text, and the formatted current time. *)
Record message := { msg_type : QtMsgType; category : qstring; text : qstring; now : qstring -> qstring }.

(** syslog.h *)
Definition LOG_CRIT : Z := 2.
Definition LOG_ERR : Z := 3.
Definition LOG_WARNING : Z := 4.
Definition LOG_NOTICE : Z := 5.
Definition LOG_INFO : Z := 6.
Definition LOG_DEBUG : Z := 7.

Inductive event :=
| Console (line : qstring)
| File_Line (line : qstring)
| Syslog (level : Z) (category text : qstring)
| Openlog | Closelog | File_Closed.

(** The members. [file_] is null, or a file that is open or could not be
    opened; [ts_] is null or not. *)
Record t := {
  debug_ : bool;
  syslog_ : bool;
  initialized_ : bool;
  file_ : option bool;
  ts_ : bool;
}.

(** The object, the mask of the system log, what was written, and whether the
    handler is installed. *)
Record world := { log : t; logmask : Z; written : list event; installed : bool }.

Definition set_log f w := {| log := f (log w); logmask := logmask w; written := written w; installed := installed w |}.
Definition emit_ e w := {| log := log w; logmask := logmask w; written := written w ++ [e]; installed := installed w |}.

Definition on_log (f : t -> t) : M world unit := modify (set_log f).
Definition put_event (e : event) : M world unit := modify (emit_ e).

(** The constructor. *)
Definition make (debug syslog : bool) : world :=
  {| log := {| debug_ := debug; syslog_ := syslog; initialized_ := false; file_ := None; ts_ := false |};
     logmask := LOG_DEBUG; written := []; installed := true |}.

Definition set_debug (val : bool) : M world unit :=
  on_log (fun l => {| debug_ := val; syslog_ := syslog_ l; initialized_ := initialized_ l; file_ := file_ l; ts_ := ts_ l |}).
Definition set_syslog (val : bool) : M world unit :=
  on_log (fun l => {| debug_ := debug_ l; syslog_ := val; initialized_ := initialized_ l; file_ := file_ l; ts_ := ts_ l |}).

(** The destructor; [delete ts_] and [delete file_] of null do nothing. *)
Definition destroy : M world unit :=
  modify (fun w => {| log := log w; logmask := logmask w; written := written w; installed := false |});;;
  let* l := gets log in
  when (initialized_ l)
    (if syslog_ l then put_event Closelog
     else match file_ l with
          | None => undef
          | Some _ => put_event File_Closed
          end).

Definition type_char (type : QtMsgType) : Z :=
  match type with
  | QtInfoMsg => chr "I"%char
  | QtDebugMsg => chr "D"%char
  | QtWarningMsg => chr "W"%char
  | QtCriticalMsg => chr "C"%char
  | QtFatalMsg => chr "F"%char
  end.

Definition get_prefix (m : message) (date_format : qstring) : qstring :=
  now m date_format ++ str "[" ++ category m ++ str "][" ++ [type_char (msg_type m)] ++ str "] ".

Definition console_format : qstring := str "[hh:mm:ss]".
Definition file_format : qstring := str "[hh:mm:ss dd.MM]".

Definition level_of (type : QtMsgType) : Z :=
  match type with
  | QtInfoMsg => LOG_INFO
  | QtDebugMsg => LOG_DEBUG
  | QtWarningMsg => LOG_WARNING
  | QtCriticalMsg => LOG_ERR
  | QtFatalMsg => LOG_CRIT
  end.

(** [::syslog]: a level outside the mask is not logged. *)
Definition syslog_call (level : Z) (category text : qstring) : M world unit :=
  let* mask := gets logmask in
  when (level <=? mask) (put_event (Syslog level category text)).

Definition save (m : message) : M world unit :=
  let* l := gets log in
  if syslog_ l then syslog_call (level_of (msg_type m)) (category m) (text m)
  else when (ts_ l) (put_event (File_Line (get_prefix m file_format ++ text m))).

Definition handler (m : message) : M world unit :=
  let* l := gets log in
  if negb (debug_ l) && bool_decide (msg_type m = QtDebugMsg) then ret tt
  else
    when (negb (syslog_ l) || debug_ l) (put_event (Console (get_prefix m console_format ++ text m)));;;
    save m.

(** [opens] says whether the log file can be opened. *)
Definition init (opens : bool) : M world unit :=
  let* l := gets log in
  if initialized_ l then ret tt
  else
    (if syslog_ l then
       modify (fun w => {| log := log w; logmask := LOG_NOTICE; written := written w; installed := installed w |});;;
       put_event Openlog
     else
       on_log (fun l => {| debug_ := debug_ l; syslog_ := syslog_ l; initialized_ := initialized_ l;
                           file_ := Some opens; ts_ := opens || ts_ l |}));;;
    on_log (fun l => {| debug_ := debug_ l; syslog_ := syslog_ l; initialized_ := true; file_ := file_ l; ts_ := ts_ l |}).

(** ** The operations of a living object *)

Inductive op := Init (opens : bool) | Set_Debug (v : bool) | Set_Syslog (v : bool) | Message (m : message).

Definition run_op (o : op) : M world unit :=
  match o with
  | Init opens => init opens
  | Set_Debug v => set_debug v
  | Set_Syslog v => set_syslog v
  | Message m => handler m
  end.

Fixpoint run_ops (ops : list op) : M world unit :=
  match ops with [] => ret tt | o :: ops => run_op o;;; run_ops ops end.

(** Whether the first [init] found [syslog] set. *)
Fixpoint init_in_syslog (syslog : bool) (ops : list op) : option bool :=
  match ops with
  | [] => None
  | Init _ :: _ => Some syslog
  | Set_Syslog v :: ops => init_in_syslog v ops
  | _ :: ops => init_in_syslog syslog ops
  end.

(** The value [set_syslog] gave last. *)
Fixpoint last_syslog (syslog : bool) (ops : list op) : bool :=
  match ops with
  | [] => syslog
  | Set_Syslog v :: ops => last_syslog v ops
  | _ :: ops => last_syslog syslog ops
  end.

(** What the members tell about the first [init]: [None] before it. *)
Definition Inv (first : option bool) (l : t) : Prop :=
  initialized_ l = bool_decide (is_Some first)
  /\ (file_ l = None <-> first <> Some false)
  /\ (ts_ l = true -> file_ l = Some true).

(** A message changes no member. *)
Lemma handler_log m w : exists evs, handler m w = (Ret tt, {| log := log w; logmask := logmask w;
  written := written w ++ evs; installed := installed w |}).
Proof.
  destruct w as [[d s i f t] mask wr ins]. unfold handler, save, syslog_call, put_event, emit_, when, bind, gets, modify, ret.
  cbn [log logmask written installed debug_ syslog_ ts_].
  destruct (negb d && _), (negb s || d), s, t; cbn [log logmask written installed debug_ syslog_ ts_];
    try (destruct (level_of (msg_type m) <=? mask); cbn [log logmask written installed]); rewrite <- ?app_assoc;
    first [by eexists | exists []; by rewrite app_nil_r].
Qed.

Lemma init_again opens w : initialized_ (log w) = true -> init opens w = (Ret tt, w).
Proof. intros Hi. unfold init, bind, gets. by rewrite Hi. Qed.

Lemma init_first opens w :
  Inv None (log w) ->
  exists w', init opens w = (Ret tt, w') /\ syslog_ (log w') = syslog_ (log w) /\ Inv (Some (syslog_ (log w'))) (log w').
Proof.
  destruct w as [[d s i f t] mask wr ins]. intros (Hi & Hf & Ht). cbn [log initialized_ file_ ts_] in *. subst i.
  assert (f = None) as -> by (by apply Hf). destruct t; [by specialize (Ht eq_refl)|].
  destruct s; eexists; (split; [reflexivity|]); (split; [done|]); (split; [done|]); cbn.
  - naive_solver.
  - destruct opens; naive_solver.
Qed.

Lemma run_ops_inv ops : forall w first,
  Inv first (log w) ->
  exists w', run_ops ops w = (Ret tt, w')
    /\ syslog_ (log w') = last_syslog (syslog_ (log w)) ops
    /\ Inv (match first with Some b => Some b | None => init_in_syslog (syslog_ (log w)) ops end) (log w').
Proof.
  induction ops as [|o ops IH]; intros w first HI.
  { exists w. simpl. by destruct first. }
  cbn [run_ops]. destruct o as [opens|v|v|m].
  - cbn [run_op]. destruct first as [b|].
    + erewrite bind_Ret by (apply init_again; apply HI). exact (IH w (Some b) HI).
    + destruct (init_first opens w HI) as (w1 & E & Es & HI1). erewrite bind_Ret by exact E.
      cbn [init_in_syslog last_syslog]. rewrite <- Es. exact (IH w1 (Some _) HI1).
  - erewrite bind_Ret by reflexivity. by apply IH.
  - erewrite bind_Ret by reflexivity. by apply IH.
  - destruct (handler_log m w) as [evs E]. erewrite bind_Ret by exact E. by apply IH.
Qed.

(** Logging never fails while the object lives, whatever is called and
    in whatever order. Its destructor dereferences the null log file exactly
    when the log was initialized for syslog and [set_syslog(false)] was called
    since. *)
Theorem logging_destroy debug syslog ops :
  exists w, run_ops ops (make debug syslog) = (Ret tt, w)
    /\ ((destroy w).1 = Undef <-> init_in_syslog syslog ops = Some true /\ last_syslog syslog ops = false)
    /\ ((destroy w).1 = Undef \/ (destroy w).1 = Ret tt).
Proof.
  destruct (run_ops_inv ops (make debug syslog) None) as (w & E & Hs & Hi & Hf & Ht); [by repeat split|].
  exists w. split; [done|]. cbn [make log syslog_] in *. unfold destroy, bind, gets, modify, when. cbn [log].
  rewrite <- Hs, Hi. destruct (init_in_syslog syslog ops) as [[]|].
  - destruct (syslog_ (log w)); [naive_solver|].
    destruct (file_ (log w)) eqn:Ef; [|naive_solver]. exfalso.
    destruct Hf as [_ Hf]. specialize (Hf ltac:(done)). congruence.
  - destruct (syslog_ (log w)); [naive_solver|].
    destruct (file_ (log w)) eqn:Ef; [naive_solver|]. exfalso. by apply Hf.
  - naive_solver.
Qed.

(** ** The lines of the log file *)

Definition file_lines (evs : list event) : list qstring :=
  omap (fun e => match e with File_Line l => Some l | _ => None end) evs.

Definition shown (debug : bool) (m : message) : bool := debug || negb (bool_decide (msg_type m = QtDebugMsg)).

Lemma handler_to_file m w :
  syslog_ (log w) = false -> ts_ (log w) = true ->
  exists w', handler m w = (Ret tt, w') /\ log w' = log w
    /\ file_lines (written w') = file_lines (written w)
         ++ (if shown (debug_ (log w)) m then [get_prefix m file_format ++ text m] else []).
Proof.
  destruct w as [[d s i f t] mask wr ins]. cbn [log syslog_ ts_ debug_ written]. intros -> ->.
  unfold handler, shown, save, put_event, emit_, when, bind, gets, modify, ret.
  cbn [log logmask written installed debug_ syslog_ ts_]. destruct d; cbn [negb andb orb].
  - eexists. split; [done|]. split; [done|]. unfold file_lines. cbn [written].
    rewrite !omap_app. simpl. by rewrite app_nil_r.
  - destruct (bool_decide _); cbn [negb]; eexists; (split; [done|]); (split; [done|]); unfold file_lines; cbn [written];
      [by rewrite app_nil_r|rewrite !omap_app; simpl; by rewrite app_nil_r].
Qed.

(** Every message that is not a suppressed debug message is a line of the
    file, in order, and nothing else is. *)
Lemma messages_in_file ms : forall w,
  syslog_ (log w) = false -> ts_ (log w) = true ->
  exists w', run_ops (map Message ms) w = (Ret tt, w')
    /\ file_lines (written w') = file_lines (written w)
         ++ map (fun m => get_prefix m file_format ++ text m) (List.filter (shown (debug_ (log w))) ms).
Proof.
  induction ms as [|m ms IH]; intros w Hs Ht.
  { exists w. simpl. by rewrite app_nil_r. }
  destruct (handler_to_file m w Hs Ht) as (w1 & E & El & Ef). cbn [map run_ops run_op].
  erewrite bind_Ret by exact E. destruct (IH w1) as (w2 & E2 & Ef2); [by rewrite El..|].
  exists w2. split; [done|]. rewrite Ef2, Ef, El. rewrite <- app_assoc. simpl. f_equal.
  by destruct (shown (debug_ (log w)) m).
Qed.

(** Once the system log is open, its mask leaves informational messages out. *)
Lemma syslog_drops_info m :
  msg_type m = QtInfoMsg ->
  written (run_ops [Init true; Message m] (make false true)).2 = [Openlog].
Proof. intros E. unfold run_ops, run_op, bind, handler, init, save. simpl. rewrite E. reflexivity. Qed.

(** A log opened for syslog and switched to a file: messages are written to
    neither, and the destructor is undefined. *)
Lemma switched_log m :
  msg_type m = QtWarningMsg ->
  let '(_, w) := run_ops [Init true; Set_Syslog false; Message m] (make false true) in
  written w = [Openlog; Console (get_prefix m console_format ++ text m)] /\ (destroy w).1 = Undef.
Proof.
  intros E. cbn [run_ops run_op]. unfold bind, handler, init, save. simpl.
  rewrite bool_decide_eq_false_2 by (by rewrite E). split; reflexivity.
Qed.

End Logging.
