(* ===== verification/DtlsSession.v ===== *)
(** * Session_Manager_SQL

    [src/DTLS/dtls_session_manager_sql.cpp]: TLS sessions kept in an SQL
    table, through the [DB::Base] of [DbBase]. Botan (sessions and their
    encryption, the password hash, hexadecimal text) is outside: an interface
    with its documented laws. The calling thread is the object's own or
    another one; a queued signal is kept until the object's thread runs it. *)

From S2P Require Import Prelude QtString DbQuery DbBase DbBaseProofs.

(** A [QVariant] as it is bound and read here. *)
Inductive value := V_text (s : qstring) | V_int (n : Z) | V_blob (bs : list byte).

(** What a statement that succeeded gives: rows, or a number of rows affected. *)
Record result := { rows : list (list value); numRowsAffected : Z }.

Definition to_bytes (v : value) : list byte := match v with V_blob bs => bs | _ => [] end.
Definition to_uint (v : value) : Z := match v with V_int n => u32 n | _ => 0 end.

(** [QString::number] of a 64-bit integer that is not negative: at most 20
    digits. *)
Definition number64 (n : Z) : qstring := digits 20 n.

(** [static_cast<int>] of a [long] *)
Definition int32 (n : Z) : Z := (n + 2147483648) mod 4294967296 - 2147483648.

(** [value.toUInt()] of the first column of the first row, as [row_count]
    reads it. *)
Definition first_uint (r : result) : option Z :=
  match rows r with (v :: _) :: _ => Some (to_uint v) | _ => None end.

(** Botan. [start_time] is in seconds since the epoch; [encrypt] also takes
    what the random number generator gives. *)
Class Botan_Session (Sess Key : Type) := {
  session_id : Sess -> list byte;
  start_time : Sess -> Z;
  hostname : Sess -> qstring;
  port : Sess -> Z;
  encrypt : Key -> list byte -> Sess -> list byte;
  decrypt : list byte -> Key -> option Sess;
  key_of : list byte -> Key;
  pbkdf_iterations : qstring -> list byte -> Z -> list byte;
  pbkdf_timed : qstring -> list byte -> list byte * Z;
  hex_encode : list byte -> qstring;
}.

(** Documented behaviour: decryption with the same key inverts encryption, the
    timed hash reports the iterations that give the same hash, of 34 bytes as
    asked. *)
Class Botan_Session_Laws (Sess Key : Type) `{Botan_Session Sess Key} := {
  decrypt_encrypt : forall k rnd (s : Sess), decrypt (encrypt k rnd s) k = Some s;
  pbkdf_timed_iterations : forall p salt,
    pbkdf_iterations p salt (pbkdf_timed p salt).2 = (pbkdf_timed p salt).1;
  pbkdf_timed_range : forall p salt, is_u32 (pbkdf_timed p salt).2;
  pbkdf_length : forall p salt n, zlen (pbkdf_iterations p salt n) = 34;
}.

Module Session_Manager.
Section manager.
Context {Sess Key : Type} `{HB : Botan_Session Sess Key} `{HA : QStringArg} (escapeIdentifier : qstring -> qstring).

Abbreviation World := (@DbWorld value result).
Abbreviation SM := (M World).

(** [sessionsTable], and the table of the constructor. *)
Definition sessionsTable : Table.t :=
  Table.mk (str "tls_sessions") (str "ts")
    [str "session_id"; str "session_start"; str "hostname"; str "hostport"; str "session"].
Definition sessionsTypes : list qstring :=
  [str "VARCHAR(128) PRIMARY KEY"; str "INTEGER"; str "TEXT"; str "INTEGER"; str "BLOB"].
Definition tableMetadata : Table.t :=
  Table.mk (str "tls_sessions_metadata") (str "tsm")
    [str "passphrase_salt"; str "passphrase_iterations"; str "passphrase_check"].

(** The default argument [info]: six arguments of the constructor of
    [Connection_Info], the last of which is its [prefix]. *)
Definition default_connection : Connection_Info.t :=
  Connection_Info.make (str ":memory:") [] [] [] (-1) (str "QSQLITE") (str "QMYSQL") [].

(** The members, besides the database. *)
Record t := { m_session_key : Key; m_max_sessions : Z; m_session_lifetime : Z }.

(** [Botan::make_uint16(x[0], x[1])] and the key after it. *)
Definition check_value (x : list byte) : Z := be_val (ztake 2 x).
Definition key_part (x : list byte) : Key := key_of (zdrop 2 x).

(** The part of the constructor for a database that has a salt: a row that
    cannot be read leaves the key empty. *)
Definition existing_database (passphrase : qstring) : SM Key :=
  let* stmt := select escapeIdentifier tableMetadata [] [] [] in
  match stmt with
  | Some r =>
      match rows r with
      | row :: _ =>
          let salt := to_bytes (nth 0 row (V_int 0)) in
          let iterations := to_uint (nth 1 row (V_int 0)) in
          let check_val_db := to_uint (nth 2 row (V_int 0)) in
          let x := pbkdf_iterations passphrase salt iterations in
          if negb (check_value x =? check_val_db) then throw else ret (key_part x)
      | [] => ret (key_of [])
      end
  | None => ret (key_of [])
  end.

(** The part for a new database; [salt] is what the generator gives. *)
Definition new_database (passphrase : qstring) (salt : list byte) : SM Key :=
  let '(x, iterations) := pbkdf_timed passphrase salt in
  insert escapeIdentifier tableMetadata [V_blob salt; V_int (u32 iterations); V_int (u32 (check_value x))] [] []
    (str "INSERT");;;
  ret (key_part x).

(** The constructor, with the connection of [db_] set up. *)
Definition construct (passphrase : qstring) (salt : list byte) (max_sessions session_lifetime : Z) : SM t :=
  create_table sessionsTable sessionsTypes;;;
  create_table tableMetadata [str "BLOB"; str "INTEGER"; str "INTEGER"];;;
  let* salts := row_count first_uint (Table.name_ tableMetadata) [] [] in
  let* key :=
    (if salts =? 1 then existing_database passphrase
     else if negb (salts =? 0) then throw
     else new_database passphrase salt) in
  ret {| m_session_key := key; m_max_sessions := max_sessions; m_session_lifetime := session_lifetime |}.

(** ** Slots *)

(** The rows are tried in order; one that cannot be decrypted is skipped. *)
Fixpoint first_session (m : t) (rs : list (list value)) : option Sess :=
  match rs with
  | [] => None
  | row :: rs =>
      match decrypt (to_bytes (nth 0 row (V_int 0))) (m_session_key m) with
      | Some s => Some s
      | None => first_session m rs
      end
  end.

Definition load_session_slot (m : t) (sql : qstring) : SM (option Sess) :=
  let* stmt := select escapeIdentifier sessionsTable sql [] [4] in
  ret (match stmt with Some r => first_session m (rows r) | None => None end).

Definition quote (s : qstring) : qstring := str "'" ++ s ++ str "'".

Definition remove_entry_slot (session_id : qstring) : SM unit :=
  del (Table.name_ sessionsTable) (str "session_id = " ++ quote session_id) [];;; ret tt.

(** [numRowsAffected] of a query that is not active is -1. *)
Definition remove_all_slot : SM Z :=
  let* q := del (Table.name_ sessionsTable) [] [] in
  ret (match q with Some r => numRowsAffected r | None => -1 end).

Definition expire_where (timeval : Z) : qstring := str "session_start <= " ++ number64 timeval.
Definition surplus_where (n : Z) : qstring :=
  str "session_id in (select session_id from tls_sessions limit " ++ number n ++ str ")".

(** [now] is the system clock, in seconds. *)
Definition prune_session_cache (m : t) (now : Z) : SM unit :=
  let timeval := now - m_session_lifetime m in
  del (Table.name_ sessionsTable) (expire_where timeval) [];;;
  let* sessions := row_count first_uint (str "tls_sessions") [] [] in
  when ((0 <? m_max_sessions m) && (m_max_sessions m <? sessions))
    (del (Table.name_ sessionsTable) (surplus_where (u32 (sessions - m_max_sessions m))) [];;; ret tt).

Definition save_slot (m : t) (now : Z) (values : list value) : SM unit :=
  replace escapeIdentifier sessionsTable values [];;;
  prune_session_cache m now.

(** ** The interface of Botan *)

Definition session_values (m : t) (rnd : list byte) (s : Sess) : list value :=
  [V_text (hex_encode (session_id s)); V_int (int32 (start_time s)); V_text (hostname s); V_int (port s);
   V_blob (encrypt (m_session_key m) rnd s)].

(** Whether the caller is in another thread than the object. The signal
    [load_session] is connected to itself and not to the slot: it is emitted
    again in the object's thread, which then waits for itself. *)
Definition load_session (m : t) (other_thread : bool) (sql : qstring) : SM (option Sess) :=
  if other_thread then fun w => (Unfinished, w) else load_session_slot m sql.

Definition load_from_session_id (m : t) (other_thread : bool) (id : list byte) : SM (option Sess) :=
  load_session m other_thread (str "where session_id = " ++ quote (hex_encode id)).

Definition load_from_server_info (m : t) (other_thread : bool) (host : qstring) (hostport : Z) : SM (option Sess) :=
  load_session m other_thread
    (arg (number hostport) (arg host (str "where hostname = '%1' and hostport = %2 order by session_start desc"))).

(** From another thread the signals of the other three run the slot: blocking
    for [save] and [remove_all]; later, for [remove_entry]. *)
Definition save (m : t) (now : Z) (rnd : list byte) (s : Sess) : SM unit :=
  save_slot m now (session_values m rnd s).
Definition remove_entry (id : list byte) : SM unit := remove_entry_slot (hex_encode id).
(** The slot's [int] is returned as a [size_t]: -1 becomes the largest one. *)
Definition remove_all : SM Z := let* n := remove_all_slot in ret (n mod 2 ^ 64).

End manager.
End Session_Manager.
