(* ===== verification/DtlsSessionProofs.v ===== *)
(** * Correctness of Session_Manager_SQL

    Which statements the manager runs, what they leave in a table of an SQL
    engine, and that a database opened again with its password gives the same
    key. *)

From S2P Require Import Prelude QtString DbQuery DbQueryProofs DbBase DbBaseProofs DtlsSession.

(** ** An SQL engine

    What the statements of the manager do to the table of sessions. *)

Record srow := { r_id : qstring; r_start : Z; r_host : qstring; r_port : Z; r_blob : list byte }.

(** The columns of the table, the first of them its primary key. *)
Definition columns : list qstring :=
  [str "session_id"; str "session_start"; str "hostname"; str "hostport"; str "session"].

(** The value that a statement gives for a column, found by the column's name
    among the names that it lists. *)
Fixpoint cell (names : list qstring) (vs : list value) (c : qstring) : option value :=
  match names, vs with
  | n :: names, v :: vs => if bool_decide (n = c) then Some v else cell names vs c
  | _, _ => None
  end.

Definition row_named (names : list qstring) (vs : list value) : option srow :=
  match cell names vs (str "session_id"), cell names vs (str "session_start"), cell names vs (str "hostname"),
        cell names vs (str "hostport"), cell names vs (str "session") with
  | Some (V_text i), Some (V_int st), Some (V_text h), Some (V_int p), Some (V_blob b) =>
      Some {| r_id := i; r_start := st; r_host := h; r_port := p; r_blob := b |}
  | _, _, _, _, _ => None
  end.

(** [effect sql values before r after]: the statement may give [r] and change
    the table from [before] to [after]. *)
Class Sql_Engine := { effect : qstring -> list value -> list srow -> result -> list srow -> Prop }.

Definition tls_sessions : qstring := str "tls_sessions".

(** Documented behaviour: REPLACE removes the row with the same primary key
    and adds one whose columns are given by their names, quoted as the
    connection quotes identifiers; DELETE removes the rows of the condition,
    which of them a LIMIT selects is open; COUNT counts. *)
Class Sql_Engine_Laws `{Sql_Engine} (escapeIdentifier : qstring -> qstring) := {
  eff_replace : forall names vs x rs r rs', names ≡ₚ columns -> row_named names vs = Some x ->
    effect (insert_text (str "REPLACE") tls_sessions (map escapeIdentifier names) []) vs rs r rs' ->
    rs' ≡ₚ x :: filter (fun y => r_id y <> r_id x) rs;
  eff_expire : forall t rs r rs', 0 <= t < 2 ^ 63 ->
    effect (del_query tls_sessions (Session_Manager.expire_where t)) [] rs r rs' ->
    rs' = filter (fun y => t < r_start y) rs;
  eff_surplus : forall n rs r rs', is_u32 n ->
    effect (del_query tls_sessions (Session_Manager.surplus_where n)) [] rs r rs' ->
    exists gone, rs ≡ₚ gone ++ rs' /\ zlen gone = Z.min n (zlen rs);
  eff_count : forall rs r rs',
    effect (row_count_query tls_sessions []) [] rs r rs' -> rs' = rs /\ rows r = [[V_int (zlen rs)]];
}.

(** A run of statements, the results being those of the driver from [n] on. *)
Fixpoint table_run `{Sql_Engine} (env : nat -> option result) (n : nat) (evs : list (qstring * list value))
    (before after : list srow) : Prop :=
  match evs with
  | [] => after = before
  | (sql, vs) :: evs =>
      exists r mid, env n = Some r /\ effect sql vs before r mid /\ table_run env (S n) evs mid after
  end.

Section proofs.
Context {Sess Key : Type} `{HB : Botan_Session Sess Key} `{HAL : QStringArgLaws} (escapeIdentifier : qstring -> qstring).
(** Quoting an identifier adds neither ['%'] nor ['?']. *)
Context (escape_plain : forall s, plain s -> plain (escapeIdentifier s)).
Abbreviation World := (@DbWorld value result).
Implicit Types (w : World) (m : @Session_Manager.t Key).

(** ** The statements of the manager *)

Lemma del_succeeds name where_ r w :
  name <> [] -> ready w -> env_exec w (n_exec w) = Some r ->
  del name where_ [] w = (Ret (Some r), after [(del_query name where_, [])] w).
Proof.
  intros Hn Hr He. unfold del. assert (del_query name where_ <> []) as Hq.
  { unfold del_query. destruct name; [done|]. by destruct where_. }
  destruct (isEmpty (del_query name where_)) eqn:E; [by destruct (del_query name where_)|].
  by apply exec_succeeds.
Qed.

Lemma row_count_succeeds name r w :
  name <> [] -> ready w -> env_exec w (n_exec w) = Some r ->
  row_count first_uint name [] [] w = (Ret (default 0 (first_uint r)), after [(row_count_query name [], [])] w).
Proof.
  intros Hn Hr He. unfold row_count. assert (isEmpty name = false) as -> by (by destruct name).
  assert (row_count_query name [] <> []) as Hq by (by destruct name).
  by erewrite bind_Ret by (by apply exec_succeeds).
Qed.

(** The text of REPLACE and INSERT into the two tables. *)
Definition fields_of (tb : Table.t) : list qstring := map escapeIdentifier (Table.field_names_ tb).

Lemma insert_succeeds tb values method r w :
  Table.is_null tb = false -> plain method -> plain (Table.name_ tb) -> Forall plain (Table.field_names_ tb) ->
  Table.field_names_ tb <> [] -> zlen (Table.field_names_ tb) = zlen values ->
  ready w -> env_exec w (n_exec w) = Some r ->
  insert escapeIdentifier tb values [] [] method w
  = (Ret true, after [(insert_text method (Table.name_ tb) (fields_of tb) [], values)] w).
Proof.
  intros Hnull Hm Hn Hf Hne Hl Hr He. unfold insert.
  assert (escape_fields escapeIdentifier tb [] false = fields_of tb) as Ef by apply escape_fields_all.
  assert (Forall plain (fields_of tb)) as Hpf.
  { unfold fields_of. apply Forall_map. eapply Forall_impl; [exact Hf|]. apply escape_plain. }
  assert (zlen (fields_of tb) = zlen values) as Hz by (unfold fields_of, zlen; by rewrite length_map).
  pose proof (insert_query_text escapeIdentifier tb (zlen values) [] [] method) as Hq. cbn zeta in Hq. rewrite Ef in Hq.
  rewrite Hq; try done.
  2:{ unfold fields_of. by destruct (Table.field_names_ tb). }
  assert (insert_text method (Table.name_ tb) (fields_of tb) [] <> []) as Ht.
  { unfold insert_text. intros E. apply app_eq_nil in E as [_ E]. discriminate. }
  destruct (isEmpty (insert_text _ _ _ _)) eqn:E; [by destruct (insert_text method (Table.name_ tb) (fields_of tb) [])|].
  erewrite bind_Ret by (by apply exec_succeeds). done.
Qed.

(** ** Saving a session *)

Section saving.
Context `{HE : Sql_Engine} {HEL : Sql_Engine_Laws escapeIdentifier}.

(** The statements of [save]. *)
Definition save_statements (m : @Session_Manager.t Key) (now sessions : Z) (values : list value) : list (qstring * list value) :=
  [(insert_text (str "REPLACE") tls_sessions (fields_of Session_Manager.sessionsTable) [], values);
   (del_query tls_sessions (Session_Manager.expire_where (now - Session_Manager.m_session_lifetime m)), []);
   (row_count_query tls_sessions [], [])]
  ++ if (0 <? Session_Manager.m_max_sessions m) && (Session_Manager.m_max_sessions m <? sessions)
     then [(del_query tls_sessions (Session_Manager.surplus_where (u32 (sessions - Session_Manager.m_max_sessions m))), [])]
     else [].

Lemma save_slot_statements m now values r1 r2 r3 r4 w :
  ready w -> zlen values = 5 -> answers w (n_exec w) [r1; r2; r3; r4] ->
  Session_Manager.save_slot escapeIdentifier m now values w
  = (Ret tt, after (save_statements m now (default 0 (first_uint r3)) values) w).
Proof.
  intros Hr Hl (A1 & A2 & A3 & A4 & _). unfold Session_Manager.save_slot, replace.
  erewrite bind_Ret.
  2:{ apply (insert_succeeds _ _ _ r1); try done.
      - split; by apply (bool_decide_unpack _).
      - split; by apply (bool_decide_unpack _).
      - repeat constructor; by apply (bool_decide_unpack _). }
  unfold Session_Manager.prune_session_cache.
  erewrite bind_Ret by (by apply del_succeeds). rewrite after_after.
  erewrite bind_Ret by (by apply row_count_succeeds). rewrite after_after.
  unfold save_statements. destruct ((0 <? _) && _); cbn [when].
  - erewrite bind_Ret by (by apply del_succeeds). by rewrite after_after.
  - done.
Qed.

(** What they leave in the table. *)
Lemma save_statements_table m now sessions values x env n before left :
  row_named (Table.field_names_ Session_Manager.sessionsTable) values = Some x -> 0 <= now - Session_Manager.m_session_lifetime m < 2 ^ 63 ->
  0 <= Session_Manager.m_max_sessions m -> zlen before < 4294967295 ->
  (forall r, env (S (S n)) = Some r -> sessions = default 0 (first_uint r)) ->
  table_run env n (save_statements m now sessions values) before left ->
  Forall (fun y => now - Session_Manager.m_session_lifetime m < r_start y) left
  /\ (0 < Session_Manager.m_max_sessions m -> zlen left <= Session_Manager.m_max_sessions m)
  /\ (now - Session_Manager.m_session_lifetime m < r_start x ->
      Session_Manager.m_max_sessions m = 0 \/ zlen before < Session_Manager.m_max_sessions m -> x ∈ left).
Proof.
  intros Hx Ht Hm Hb Hs. set (t := now - Session_Manager.m_session_lifetime m) in *.
  set (max := Session_Manager.m_max_sessions m) in *. unfold save_statements. fold t max.
  intros (r1 & rs1 & _ & E1 & r2 & rs2 & _ & E2 & r3 & rs3 & A3 & E3 & Hrest).
  apply (eff_replace (Table.field_names_ Session_Manager.sessionsTable) _ x) in E1; [|done..]. apply eff_expire in E2; [|done]. apply eff_count in E3 as [-> E3].
  assert (zlen rs1 <= 1 + zlen before) as L1.
  { unfold zlen. rewrite E1. simpl. pose proof (length_filter (fun y => r_id y <> r_id x) before). lia. }
  assert (zlen rs2 <= zlen rs1) as L2.
  { subst rs2. unfold zlen. pose proof (length_filter (fun y => t < r_start y) rs1). lia. }
  assert (Forall (fun y => t < r_start y) rs2) as F2.
  { subst rs2. apply Forall_forall. intros y Hy. by apply list_elem_of_filter in Hy as [? _]. }
  pose proof (zlen_nonneg rs2) as Hnn.
  assert (sessions = zlen rs2) as ->.
  { rewrite (Hs r3 A3). unfold first_uint. rewrite E3. simpl. apply u32_small. unfold is_u32. lia. }
  assert (t < r_start x -> x ∈ rs2) as Hin.
  { intros Hlt. subst rs2. apply list_elem_of_filter. split; [done|]. rewrite E1. apply elem_of_cons. by left. }
  assert (max = 0 \/ zlen before < max -> (0 <? max) && (max <? zlen rs2) = false) as Hfew.
  { intros [->|Hlt]; [done|]. apply andb_false_iff. right. apply Z.ltb_ge. lia. }
  destruct ((0 <? max) && (max <? zlen rs2)) eqn:Ec.
  - apply andb_true_iff in Ec as [Hmax%Z.ltb_lt Hsur%Z.ltb_lt].
    destruct Hrest as (r4 & rs4 & _ & E4 & ->). rewrite u32_small in E4 by (unfold is_u32; lia).
    apply eff_surplus in E4 as (gone & Ep & Eg); [|unfold is_u32; lia]. rewrite Z.min_l in Eg by lia.
    assert (zlen rs2 = zlen gone + zlen rs4) as El by (unfold zlen; rewrite Ep, length_app; lia).
    split; [|split; [lia|intros _ Hor; by specialize (Hfew Hor)]].
    rewrite Ep in F2. by apply Forall_app in F2 as [_ F2].
  - simpl in Hrest. subst left. split; [done|]. split; [|by intros ? _; apply Hin].
    intros Hmax. apply andb_false_iff in Ec as [Ec%Z.ltb_ge|Ec%Z.ltb_ge]; lia.
Qed.

(** C26. Saving a session on an open connection whose statements succeed runs
    REPLACE, the deletion of expired sessions, a count, and the deletion of
    the surplus if the limit is not zero and the count is over it. Whatever
    the engine does with them within their documented meaning, from a table of
    fewer than 2^32 - 1 rows and at a time not before the lifetime: no session
    in the table is then as old as the lifetime; there are at most
    [max_sessions] of them unless [max_sessions] is zero, which means no
    limit; and the session saved is there, its identifier and its encrypted
    form in the columns of those names, if its start, cut to 32 bits, is not
    too old and there is no limit or the table was below it. *)
Theorem save_bounds_table m now rnd (s : Sess) r1 r2 r3 r4 w :
  ready w -> answers w (n_exec w) [r1; r2; r3; r4] ->
  0 <= now - Session_Manager.m_session_lifetime m < 2 ^ 63 -> 0 <= Session_Manager.m_max_sessions m ->
  exists evs, Session_Manager.save escapeIdentifier m now rnd s w = (Ret tt, after evs w)
    /\ forall before left, zlen before < 4294967295 -> table_run (env_exec w) (n_exec w) evs before left ->
       Forall (fun y => now - Session_Manager.m_session_lifetime m < r_start y) left
       /\ (0 < Session_Manager.m_max_sessions m -> zlen left <= Session_Manager.m_max_sessions m)
       /\ (now - Session_Manager.m_session_lifetime m < int32 (start_time s) ->
           Session_Manager.m_max_sessions m = 0 \/ zlen before < Session_Manager.m_max_sessions m ->
           exists y, y ∈ left /\ r_id y = hex_encode (session_id s)
             /\ r_blob y = encrypt (Session_Manager.m_session_key m) rnd s).
Proof.
  intros Hr Ha Ht Hm. unfold Session_Manager.save.
  eexists. split; [by eapply save_slot_statements|]. intros before left Hb Hrun.
  destruct Ha as (_ & _ & A3 & _).
  eapply save_statements_table in Hrun as (F & L & Hin); [|reflexivity|done|done|done|].
  2:{ intros r E. rewrite A3 in E. by injection E as <-. }
  split; [done|]. split; [done|]. intros Hs Hor. eexists. split; [by apply Hin|done].
Qed.

End saving.

(** Seconds that do not fit 32 bits are stored as a negative number, which is
    older than any limit: from 2038 on a session is deleted by the call that
    saves it. *)
Lemma late_start_expired m rnd (s : Sess) x t :
  2147483648 <= start_time s < 4294967296 -> row_named columns (Session_Manager.session_values m rnd s) = Some x ->
  0 <= t -> r_start x <= t.
Proof.
  intros Hs Hx Ht. unfold Session_Manager.session_values in Hx. simpl in Hx. injection Hx as <-. simpl.
  unfold int32. rewrite <- (Z.mod_add _ (-1)) by lia. rewrite Z.mod_small by lia. lia.
Qed.

(** ** Opening a database again *)

Lemma create_table_succeeds tb types r w :
  Table.is_null tb = false -> zlen (Table.field_names_ tb) = zlen types -> no_char ch_percent (Table.name_ tb) ->
  ready w -> env_exec w (n_exec w) = Some r ->
  exists sql, create_table tb types w = (Ret true, after [(sql, [])] w).
Proof.
  intros Hnull Hl Hn Hr He. unfold create_table. rewrite Hnull, Hl, Z.eqb_refl. cbn [orb negb].
  assert (create_table_query tb types <> []) as Hq.
  { unfold create_table_query. rewrite Hnull, Hl, Z.eqb_refl. cbn [orb negb].
    change (str "create table if not exists %1 (%2)")
      with (render [Text (str "create table if not exists "); Marker 1; Text (str " ("); Marker 2; Text (str ")")]).
    rewrite arg2; try done; by apply (bool_decide_unpack _). }
  eexists. by erewrite bind_Ret by (by apply exec_succeeds).
Qed.

Lemma select_runs tb suffix ids r w :
  Table.is_null tb = false -> no_char ch_percent (Table.name_ tb ++ Table.short_name_ tb) ->
  Forall plain (escape_fields escapeIdentifier tb ids true) ->
  ready w -> env_exec w (n_exec w) = Some r ->
  exists sql, select escapeIdentifier tb suffix [] ids w = (Ret (Some r), after [(sql, [])] w).
Proof. intros. eexists. by apply select_succeeds. Qed.

Context `{HBL : !Botan_Session_Laws Sess Key}.

(** The constructor up to the count of salts. *)
Lemma construct_tables passphrase salt max life r1 r2 r3 rs w :
  ready w -> answers w (n_exec w) (r1 :: r2 :: r3 :: rs) ->
  exists evs, length evs = 3%nat /\
    Session_Manager.construct escapeIdentifier passphrase salt max life w
    = (let* key := (if default 0 (first_uint r3) =? 1 then Session_Manager.existing_database escapeIdentifier passphrase
                    else if negb (default 0 (first_uint r3) =? 0) then throw
                    else Session_Manager.new_database escapeIdentifier passphrase salt) in
       ret {| Session_Manager.m_session_key := key; Session_Manager.m_max_sessions := max;
              Session_Manager.m_session_lifetime := life |}) (after evs w).
Proof.
  intros Hr (A1 & A2 & A3 & _).
  destruct (create_table_succeeds Session_Manager.sessionsTable Session_Manager.sessionsTypes r1 w) as [q1 E1];
    [done|done|by apply (bool_decide_unpack _)|done|done|].
  destruct (create_table_succeeds Session_Manager.tableMetadata [str "BLOB"; str "INTEGER"; str "INTEGER"] r2
    (after [(q1, [])] w)) as [q2 E2]; [done|done|by apply (bool_decide_unpack _)|done|done|].
  rewrite after_after in E2. eexists. split; [|unfold Session_Manager.construct;
    erewrite bind_Ret by exact E1; erewrite bind_Ret by exact E2;
    erewrite bind_Ret by (apply (row_count_succeeds _ r3); done); rewrite after_after; reflexivity].
  reflexivity.
Qed.

(** The row a new database gets. *)
Definition salt_row (passphrase : qstring) (salt : list byte) : list value :=
  [V_blob salt; V_int (pbkdf_timed passphrase salt).2;
   V_int (Session_Manager.check_value (pbkdf_timed passphrase salt).1)].

Lemma check_value_range x : is_u16 (Session_Manager.check_value x).
Proof.
  unfold Session_Manager.check_value, is_u16. pose proof (be_val_range (ztake 2 x)) as Hr.
  assert (zlen (ztake 2 x) <= 2) as Hl by (unfold ztake, zlen; rewrite length_take; lia).
  assert (256 ^ zlen (ztake 2 x) <= 256 ^ 2) by (apply Z.pow_le_mono_r; lia). lia.
Qed.

Definition manager_of (x : list byte) (max life : Z) : @Session_Manager.t Key :=
  {| Session_Manager.m_session_key := Session_Manager.key_part x;
     Session_Manager.m_max_sessions := max; Session_Manager.m_session_lifetime := life |}.

Lemma salt_row_u32 p salt : is_u32 (pbkdf_timed p salt).2 /\ is_u32 (Session_Manager.check_value (pbkdf_timed p salt).1).
Proof.
  pose proof (check_value_range (pbkdf_timed p salt).1). split; [apply pbkdf_timed_range|]. unfold is_u16, is_u32 in *. lia.
Qed.

Lemma construct_new p salt max life r1 r2 r3 r4 w :
  ready w -> answers w (n_exec w) [r1; r2; r3; r4] -> first_uint r3 = Some 0 ->
  exists evs sql, Session_Manager.construct escapeIdentifier p salt max life w
    = (Ret (manager_of (pbkdf_timed p salt).1 max life), after (evs ++ [(sql, salt_row p salt)]) w).
Proof.
  intros Hr Ha Hc. destruct (construct_tables p salt max life r1 r2 r3 [r4] w Hr Ha) as (evs & Hl & E).
  destruct Ha as (_ & _ & _ & A4 & _). rewrite Hc in E. cbn [default] in E. unfold id in E.
  change (0 =? 1) with false in E. change (0 =? 0) with true in E. cbn [negb] in E. cbn iota in E.
  destruct (salt_row_u32 p salt) as [Hit Hcv]. unfold Session_Manager.new_database in E. unfold salt_row.
  destruct (pbkdf_timed p salt) as [x it]. cbn [fst snd] in *. rewrite (u32_small it Hit), (u32_small _ Hcv) in E.
  erewrite bind_Ret in E.
  2:{ erewrite bind_Ret; [reflexivity|]. apply (insert_succeeds _ _ _ r4); try done.
      - split; by apply (bool_decide_unpack _).
      - split; by apply (bool_decide_unpack _).
      - repeat constructor; by apply (bool_decide_unpack _).
      - simpl. by rewrite Hl. }
  rewrite after_after in E. eexists _, _. exact E.
Qed.

Lemma construct_existing p salt p' salt' max life s1 s2 s3 s4 w :
  ready w -> answers w (n_exec w) [s1; s2; s3; s4] -> first_uint s3 = Some 1 -> rows s4 = [salt_row p salt] ->
  let x := pbkdf_iterations p' salt (pbkdf_timed p salt).2 in
  exists w', Session_Manager.construct escapeIdentifier p' salt' max life w =
    (if Session_Manager.check_value x =? Session_Manager.check_value (pbkdf_timed p salt).1
     then Ret (manager_of x max life) else Throw, w').
Proof.
  intros Hr Ha Hc Hrow x. destruct (construct_tables p' salt' max life s1 s2 s3 [s4] w Hr Ha) as (evs & Hl & E).
  destruct Ha as (_ & _ & _ & A4 & _). rewrite Hc in E. cbn [default] in E. unfold id in E.
  change (1 =? 1) with true in E. cbn iota in E. unfold Session_Manager.existing_database in E.
  destruct (select_runs Session_Manager.tableMetadata [] [] s4 (after evs w)) as [q Eq]; try done.
  { by apply (bool_decide_unpack _). }
  { rewrite escape_fields_all. apply Forall_map. repeat constructor; apply escape_plain; split; by apply (bool_decide_unpack _). }
  { simpl. by rewrite Hl. }
  rewrite bind_assoc in E. erewrite bind_Ret in E by exact Eq. cbn beta iota in E. rewrite Hrow in E.
  destruct (salt_row_u32 p salt) as [Hit Hcv]. unfold salt_row in E.
  cbn [nth to_bytes to_uint] in E. rewrite (u32_small _ Hit), (u32_small _ Hcv) in E. fold x in E.
  destruct (_ =? _); cbn [negb] in E; eexists; exact E.
Qed.

(** C27. The key of the session database. In a new database the constructor
    stores one row and derives the key from the password; a database with that
    row, opened with any password, gives the key that password derives from
    the stored salt and iterations, or throws when the two check bytes differ;
    so the same password always gives the same key. *)
Theorem session_key_reopened p salt max life r1 r2 r3 r4 w :
  ready w -> answers w (n_exec w) [r1; r2; r3; r4] -> first_uint r3 = Some 0 ->
  exists m evs sql, Session_Manager.construct escapeIdentifier p salt max life w = (Ret m, after evs w)
    /\ last evs = Some (sql, salt_row p salt)
    /\ forall p' salt' w' s1 s2 s3 s4,
         ready w' -> answers w' (n_exec w') [s1; s2; s3; s4] -> first_uint s3 = Some 1 -> rows s4 = [salt_row p salt] ->
         let x := pbkdf_iterations p' salt (pbkdf_timed p salt).2 in
         (Session_Manager.construct escapeIdentifier p' salt' max life w').1 =
           (if Session_Manager.check_value x =? Session_Manager.check_value (pbkdf_timed p salt).1
            then Ret (manager_of x max life) else Throw)
         /\ (p' = p -> (Session_Manager.construct escapeIdentifier p' salt' max life w').1 = Ret m).
Proof.
  intros Hr Ha Hc. destruct (construct_new p salt max life r1 r2 r3 r4 w Hr Ha Hc) as (evs & sql & E).
  eexists _, _, _. split; [exact E|]. split; [by rewrite last_snoc|].
  intros p' salt' w' s1 s2 s3 s4 Hr' Ha' Hc' Hrow x.
  destruct (construct_existing p salt p' salt' max life s1 s2 s3 s4 w' Hr' Ha' Hc' Hrow) as (w'' & E').
  rewrite E'. split; [done|]. intros ->. cbn [fst]. by rewrite pbkdf_timed_iterations, Z.eqb_refl.
Qed.

(** ** Loading *)

(** A stored session comes back if no row before it can be decrypted. *)
Lemma load_finds m sql r w rnd (s : Sess) before after_ :
  ready w -> env_exec w (n_exec w) = Some r ->
  rows r = before ++ [V_blob (encrypt (Session_Manager.m_session_key m) rnd s)] :: after_ ->
  Forall (fun row => decrypt (to_bytes (nth 0 row (V_int 0))) (Session_Manager.m_session_key m) = None) before ->
  exists w', Session_Manager.load_session_slot escapeIdentifier m sql w = (Ret (Some s), w').
Proof.
  intros Hr He Hrows Hb.
  destruct (select_runs Session_Manager.sessionsTable sql [4] r w) as [q Eq]; try done.
  { by apply (bool_decide_unpack _). }
  { repeat constructor; apply escape_plain; split; by apply (bool_decide_unpack _). }
  unfold Session_Manager.load_session_slot. erewrite bind_Ret by exact Eq. eexists. unfold ret. do 2 f_equal.
  rewrite Hrows. clear -Hb HBL. induction Hb as [|row l Hrow _ IH]; simpl.
  - by rewrite decrypt_encrypt.
  - by rewrite Hrow.
Qed.

End proofs.

(** ** An executable engine *)

Module SqlRef.

Definition dec_val (s : qstring) : Z := fold_left (fun a c => a * 10 + (c - 48)) s 0.

Lemma dec_digits fuel : forall n, 0 <= n < 10 ^ Z.of_nat fuel -> dec_val (digits fuel n) = n.
Proof.
  induction fuel as [|fuel IH]; intros n Hn; [change (10 ^ Z.of_nat 0) with 1 in Hn; unfold dec_val; simpl; lia|]. cbn [digits].
  destruct (Z.ltb_spec n 10); [unfold dec_val; simpl; lia|].
  rewrite Nat2Z.inj_succ, Z.pow_succ_r in Hn by lia.
  unfold dec_val. rewrite fold_left_app. fold (dec_val (digits fuel (n / 10))).
  rewrite IH by (split; [apply Z.div_pos; lia|apply Z.div_lt_upper_bound; lia]).
  simpl. pose proof (Z.div_mod n 10 ltac:(lia)). lia.
Qed.

Definition starts (p s : qstring) : bool := bool_decide (take (length p) s = p).

Definition expire_head : qstring := str "DELETE FROM tls_sessions WHERE session_start <= ".
Definition surplus_head : qstring :=
  str "DELETE FROM tls_sessions WHERE session_id in (select session_id from tls_sessions limit ".

(** The texts of the statements with the columns in different orders differ. *)
Definition replace_text (names : list qstring) : qstring :=
  insert_text (str "REPLACE") tls_sessions (map id names) [].

Definition orders : list (list qstring) := permutations columns.

Definition names_in (sql : qstring) : list qstring :=
  match list_find (fun names => replace_text names = sql) orders with Some (_, names) => names | None => [] end.

#[export] Instance engine : Sql_Engine := {
  effect sql vs rs r rs' :=
    if starts expire_head sql then
      rs' = filter (fun y => dec_val (drop (length expire_head) sql) < r_start y) rs
    else if starts surplus_head sql then
      let tail := drop (length surplus_head) sql in
      rs' = drop (Z.to_nat (dec_val (take (length tail - 1) tail))) rs
    else if starts (str "SELECT COUNT(*)") sql then rs' = rs /\ rows r = [[V_int (zlen rs)]]
    else match row_named (names_in sql) vs with
         | Some x => rs' = x :: filter (fun y => r_id y <> r_id x) rs
         | None => rs' = rs
         end;
}.

Lemma starts_app p s : starts p (p ++ s) = true.
Proof. unfold starts. rewrite take_app_length. by apply bool_decide_eq_true_2. Qed.

Lemma names_in_text names : names ≡ₚ columns -> names_in (replace_text names) = names.
Proof.
  intros Hp%symmetry%permutations_Permutation. fold orders in Hp.
  assert (forall l, l ∈ orders -> names_in (replace_text l) = l) as H; [|by apply H].
  apply Forall_forall. apply (bool_decide_unpack _). vm_compute. exact I.
Qed.

#[export] Instance engine_laws : Sql_Engine_Laws id.
Proof.
  constructor; intros *.
  - intros Hp Hx. unfold effect, engine. change (insert_text _ _ _ _) with (replace_text names).
    rewrite (names_in_text names Hp), Hx. unfold replace_text.
    change (insert_text (str "REPLACE") tls_sessions (map id names) []) with
      (str "REPLACE INTO tls_sessions(" ++ join [ch_comma] (map id names) ++ str ") VALUES("
        ++ join [ch_comma] (replicate (length (map id names)) [ch_question]) ++ str ")" ++ [] ++ [ch_semicolon]).
    generalize (join [ch_comma] (map id names) ++ str ") VALUES("
        ++ join [ch_comma] (replicate (length (map id names)) [ch_question]) ++ str ")" ++ [] ++ [ch_semicolon]).
    intros rest. assert (starts expire_head (str "REPLACE INTO tls_sessions(" ++ rest) = false) as -> by reflexivity.
    assert (starts surplus_head (str "REPLACE INTO tls_sessions(" ++ rest) = false) as -> by reflexivity.
    assert (starts (str "SELECT COUNT(*)") (str "REPLACE INTO tls_sessions(" ++ rest) = false) as -> by reflexivity.
    by intros ->.
  - intros Ht. unfold effect, engine.
    change (del_query tls_sessions (Session_Manager.expire_where t)) with (expire_head ++ number64 t).
    rewrite starts_app, drop_app_length. unfold number64.
    assert (10 ^ Z.of_nat 20 = 100000000000000000000) as E by reflexivity.
    rewrite dec_digits by (rewrite E; lia). done.
  - intros Hn. unfold effect, engine.
    change (del_query tls_sessions (Session_Manager.surplus_where n)) with (surplus_head ++ number n ++ str ")").
    assert (starts expire_head (surplus_head ++ number n ++ str ")") = false) as -> by reflexivity.
    rewrite starts_app, drop_app_length, length_app. cbn zeta. simpl (length (str ")")).
    rewrite Nat.add_sub, take_app_length. unfold number.
    assert (10 ^ Z.of_nat 10 = 10000000000) as E by reflexivity.
    rewrite dec_digits by (rewrite E; unfold is_u32 in Hn; lia).
    intros ->. exists (take (Z.to_nat n) rs). split; [by rewrite take_drop|].
    unfold zlen. rewrite length_take. unfold is_u32 in Hn. lia.
  - unfold effect, engine. done.
Qed.

(** Sessions that are byte strings, stored after the key. *)
Definition key34 (p : qstring) (salt : list byte) (n : Z) : list byte :=
  [byte_of_Z (zlen p); x07] ++ replicate 32 (byte_of_Z n).

#[export] Instance plain_botan : Botan_Session (list byte) (list byte) := {
  session_id s := s;
  start_time s := 1000 + zlen s;
  hostname _ := str "host";
  port _ := 80;
  encrypt k _ s := k ++ s;
  decrypt bs k := if bool_decide (map Z_of_byte (ztake (zlen k) bs) = map Z_of_byte k) then Some (zdrop (zlen k) bs) else None;
  key_of bs := bs;
  pbkdf_iterations := key34;
  pbkdf_timed p salt := (key34 p salt 5, 5);
  hex_encode bs := map Z_of_byte bs;
}.

#[export] Instance plain_botan_laws : Botan_Session_Laws (list byte) (list byte).
Proof.
  constructor; simpl.
  - intros k _ s. rewrite ztake_app_exact, zdrop_app_exact by done. by rewrite bool_decide_eq_true_2.
  - done.
  - unfold is_u32. lia.
  - done.
Qed.

End SqlRef.

Module Session_Witness.
Import SqlRef QtStringRef.

Definition manager : @Session_Manager.t (list byte) :=
  {| Session_Manager.m_session_key := [x01]; Session_Manager.m_max_sessions := 2; Session_Manager.m_session_lifetime := 100 |}.

Definition counted (n : Z) : result := {| rows := [[V_int n]]; numRowsAffected := 0 |}.

(** An open connection with these results. *)
Definition world_of (f : nat -> option result) : @DbWorld value result :=
  mkDbWorld (mkBase false (str "main") Connection_Info.default_info) [(str "main", true)] (fun _ => true) f 0 0 [].

Definition old_row (i st : Z) : srow :=
  {| r_id := [i]; r_start := st; r_host := str "host"; r_port := 80; r_blob := [] |}.

(** Four sessions, one of them expired; a fifth is saved and two are kept. *)
Lemma save_bounds_table_witness :
  exists evs, Session_Manager.save id manager 1050 [] [x09] (world_of (fun _ => Some (counted 4))) = (Ret tt, after evs (world_of (fun _ => Some (counted 4))))
    /\ forall left, table_run (fun _ => Some (counted 4)) 0 evs
         [old_row 1 900; old_row 2 1001; old_row 3 1002; old_row 4 1003] left -> zlen left <= 2.
Proof.
  destruct (save_bounds_table id (fun s p => p) manager 1050 [] [x09] (counted 4) (counted 4) (counted 4) (counted 4)
    (world_of (fun _ => Some (counted 4)))) as (evs & E & H).
  - split; [discriminate|reflexivity].
  - repeat split.
  - vm_compute. split; [discriminate|reflexivity].
  - discriminate.
  - exists evs. split; [exact E|]. intros left Hrun. apply (H _ left) in Hrun; [|reflexivity].
    destruct Hrun as (_ & Hmax & _). apply Hmax. reflexivity.
Defined.

(** The engine does run the statements. *)
Lemma save_run_exists :
  table_run (fun _ => Some (counted 4)) 0
    (save_statements id manager 1050 4 (Session_Manager.session_values manager [] [x09]))
    [old_row 1 900; old_row 2 1001; old_row 3 1002; old_row 4 1003]
    [old_row 3 1002; old_row 4 1003].
Proof.
  exists (counted 4), [{| r_id := [9]; r_start := 1001; r_host := str "host"; r_port := 80; r_blob := [x01; x09] |};
    old_row 1 900; old_row 2 1001; old_row 3 1002; old_row 4 1003].
  split; [reflexivity|]. split; [vm_compute; reflexivity|].
  exists (counted 4), [{| r_id := [9]; r_start := 1001; r_host := str "host"; r_port := 80; r_blob := [x01; x09] |};
    old_row 2 1001; old_row 3 1002; old_row 4 1003].
  split; [reflexivity|]. split; [vm_compute; reflexivity|].
  eexists _, _. split; [reflexivity|]. split; [split; reflexivity|].
  eexists _, _. split; [reflexivity|]. split; vm_compute; reflexivity.
Qed.

(** A database made with one password, opened with it and with another. *)
Lemma session_key_reopened_witness :
  exists m evs sql,
    Session_Manager.construct id (str "secret") [x01; x02] 2 100 (world_of (fun _ => Some (counted 0))) = (Ret m, after evs (world_of (fun _ => Some (counted 0))))
    /\ last evs = Some (sql, salt_row (str "secret") [x01; x02])
    /\ (Session_Manager.construct id (str "secret") [] 2 100
          (world_of (fun n => Some (if (n =? 3)%nat then {| rows := [salt_row (str "secret") [x01; x02]]; numRowsAffected := 0 |}
                                    else counted 1)))).1 = Ret m
    /\ (Session_Manager.construct id (str "guess") [] 2 100
          (world_of (fun n => Some (if (n =? 3)%nat then {| rows := [salt_row (str "secret") [x01; x02]]; numRowsAffected := 0 |}
                                    else counted 1)))).1 = Throw.
Proof.
  destruct (session_key_reopened id (fun s p => p) (str "secret") [x01; x02] 2 100 (counted 0) (counted 0) (counted 0) (counted 0)
    (world_of (fun _ => Some (counted 0)))) as (m & evs & sql & E & Hl & H).
  - split; [discriminate|reflexivity].
  - repeat split.
  - reflexivity.
  - exists m, evs, sql. split; [exact E|]. split; [exact Hl|].
    set (w2 := world_of (fun n => Some (if (n =? 3)%nat then {| rows := [salt_row (str "secret") [x01; x02]]; numRowsAffected := 0 |}
                                    else counted 1))).
    assert (ready w2) as Hr by (split; [discriminate|reflexivity]).
    assert (answers w2 (n_exec w2) [counted 1; counted 1; counted 1;
      {| rows := [salt_row (str "secret") [x01; x02]]; numRowsAffected := 0 |}]) as Ha by (repeat split).
    split.
    + destruct (H (str "secret") [] w2 _ _ _ _ Hr Ha eq_refl eq_refl) as [_ Hs]. exact (Hs eq_refl).
    + destruct (H (str "guess") [] w2 _ _ _ _ Hr Ha eq_refl eq_refl) as [Hg _]. rewrite Hg. reflexivity.
Defined.

(** The host name goes into the statement as it is, and may end its literal. *)
Lemma host_name_not_quoted :
  db_events (Session_Manager.load_from_server_info id manager false (str "x' or '1'='1") 80
    (world_of (fun _ => None))).2
  = [Ev_exec (str "SELECT ts.session FROM tls_sessions ts where hostname = 'x' or '1'='1' and hostport = 80 order by session_start desc;") [] false;
     Ev_close (str "main"); Ev_remove (str "main"); Ev_open (str "main") true;
     Ev_exec (str "SELECT ts.session FROM tls_sessions ts where hostname = 'x' or '1'='1' and hostport = 80 order by session_start desc;") [] false;
     Ev_close (str "main"); Ev_remove (str "main"); Ev_open (str "main") true;
     Ev_exec (str "SELECT ts.session FROM tls_sessions ts where hostname = 'x' or '1'='1' and hostport = 80 order by session_start desc;") [] false;
     Ev_close (str "main"); Ev_remove (str "main")].
Proof. vm_compute. reflexivity. Qed.

(** Without arguments the manager asks for the MySQL driver. *)
Lemma default_driver_is_mysql :
  Connection_Info.s_driver (Connection_Info.to_db Session_Manager.default_connection) = str "QMYSQL"
  /\ Connection_Info.prefix_ Session_Manager.default_connection = str "QSQLITE".
Proof. split; reflexivity. Qed.

End Session_Witness.
