(* ===== verification/DtlsCredentials.v ===== *)
(** * Credentials_Manager and Tools

    [src/DTLS/dtls_credentials_manager.cpp], [src/DTLS/dtls_tools.cpp]: the
    certificates and keys a TLS channel asks for, and the bundle of objects
    made at start. Botan's certificates, keys and stores are parameters;
    reading a file is what the attempts to parse it give. *)

From S2P Require Import Prelude QtString.

Module Credentials_Manager.
Section manager.
Context {Cert PKey Store : Type} `{EqDecision Cert}.
Context (algo_name : PKey -> qstring) (matches_dns_name : Cert -> qstring -> bool).

Record Certificate_Info := { certs : list Cert; key : PKey }.

Record t := { m_creds : list Certificate_Info; m_certstores : list Store }.

(** [load_certstores]: the one path of the list, or an exception, which is
    caught. *)
Definition load_certstores (path_store : option Store) (m : t) : t :=
  match path_store with
  | Some cs => {| m_creds := m_creds m; m_certstores := m_certstores m ++ [cs] |}
  | None => m
  end.

(** The default constructor. *)
Definition make (path_store : option Store) : t := load_certstores path_store {| m_creds := []; m_certstores := [] |}.

(** The loop over the certificate file: an attempt gives a certificate or an
    exception, which is caught. *)
Fixpoint read_certs (attempts : list (option Cert)) (acc : list Cert) : list Cert :=
  match attempts with
  | [] => acc
  | Some c :: attempts => read_certs attempts (acc ++ [c])
  | None :: attempts => read_certs attempts acc
  end.

(** The constructor from files; loading the key may throw. *)
Definition from_files (server_crt : list (option Cert)) (server_key : option PKey) : outcome t :=
  match server_key with
  | None => Throw
  | Some k => Ret {| m_creds := [{| certs := read_certs server_crt []; key := k |}]; m_certstores := [] |}
  end.

Definition trusted_certificate_authorities (m : t) (type : qstring) : list Store :=
  if bool_decide (type = str "tls-server") then [] else m_certstores m.

(** [certs[0]] of a vector that may be empty. *)
Definition front (i : Certificate_Info) : outcome Cert :=
  match certs i with c :: _ => Ret c | [] => Undef end.

Fixpoint find_chain (creds : list Certificate_Info) (algos : list qstring) (hostname : qstring) : outcome (list Cert) :=
  match creds with
  | [] => Ret []
  | i :: creds =>
      if negb (bool_decide (algo_name (key i) ∈ algos)) then find_chain creds algos hostname
      else if isEmpty hostname then Ret (certs i)
      else match front i with
           | Ret c => if negb (matches_dns_name c hostname) then find_chain creds algos hostname else Ret (certs i)
           | _ => Undef
           end
  end.

Definition cert_chain (m : t) (algos : list qstring) (hostname : qstring) : outcome (list Cert) :=
  find_chain (m_creds m) algos hostname.

Fixpoint find_key (creds : list Certificate_Info) (cert : Cert) : outcome (option PKey) :=
  match creds with
  | [] => Ret None
  | i :: creds =>
      match front i with
      | Ret c => if decide (cert = c) then Ret (Some (key i)) else find_key creds cert
      | _ => Undef
      end
  end.

Definition private_key_for (m : t) (cert : Cert) : outcome (option PKey) := find_key (m_creds m) cert.

(** ** The chain and its key *)

Lemma read_certs_acc attempts : forall acc, read_certs attempts acc = acc ++ omap id attempts.
Proof.
  induction attempts as [|[c|] attempts IH]; intros acc; simpl; [by rewrite app_nil_r| |by apply IH].
  rewrite IH. by rewrite <- app_assoc.
Qed.

(** A manager made from files offers a chain for a handshake exactly when
    its key's algorithm is asked for and the host name, if any, matches; the
    key it then gives for the first certificate of the chain is the loaded
    one. When no certificate of the file could be parsed, asking for a key is
    undefined, as is asking for a chain with a host name and the key's
    algorithm. *)
Theorem chain_and_key crt k m algos hostname :
  from_files crt (Some k) = Ret m ->
  match omap id crt with
  | [] => (forall cert, private_key_for m cert = Undef)
          /\ (algo_name k ∈ algos -> hostname <> [] -> cert_chain m algos hostname = Undef)
  | c :: _ =>
      cert_chain m algos hostname
        = Ret (if bool_decide (algo_name k ∈ algos) && (isEmpty hostname || matches_dns_name c hostname)
               then omap id crt else [])
      /\ private_key_for m c = Ret (Some k)
      /\ (forall c', c' <> c -> private_key_for m c' = Ret None)
  end.
Proof.
  unfold from_files. intros E. injection E as <-. unfold cert_chain, private_key_for. cbn [m_creds].
  rewrite read_certs_acc. cbn [app find_chain find_key]. unfold front. cbn [certs key].
  destruct (omap id crt) as [|c l].
  - split; [done|]. intros Ha Hh. rewrite bool_decide_eq_true_2 by done. cbn [negb]. by destruct hostname.
  - split; [|split].
    + destruct (bool_decide _); [|done]. cbn [negb andb]. destruct (isEmpty hostname); [done|]. cbn [orb].
      by destruct (matches_dns_name c hostname).
    + by rewrite decide_True.
    + intros c' Hc. by rewrite decide_False.
Qed.

End manager.
End Credentials_Manager.

Lemma chain_and_key_witness :
  Credentials_Manager.private_key_for
    {| Credentials_Manager.m_creds := [{| Credentials_Manager.certs := [4; 5]; Credentials_Manager.key := 9 |}];
       Credentials_Manager.m_certstores := @nil Z |} 4 = Ret (Some 9).
Proof.
  apply (Credentials_Manager.chain_and_key (fun _ => str "RSA") (fun c _ => c =? 4) [Some 4; None; Some 5] 9
    {| Credentials_Manager.m_creds := [{| Credentials_Manager.certs := [4; 5]; Credentials_Manager.key := 9 |}];
       Credentials_Manager.m_certstores := @nil Z |} [str "RSA"] []).
  reflexivity.
Defined.

(** ** Tools *)

Module Tools.
Section tools.
Context {Rng Creds Policy : Type}.

(** What the parts of the constructor give; [None] is an exception. The policy
    file may be missing, unreadable or read. *)
Inductive policy_file := Missing | Bad | Read (p : Policy).

Record t := { rng_ : option Rng; session_manager_ : bool; creds_ : option Creds; policy_ : option Policy }.

Definition empty : t := {| rng_ := None; session_manager_ := false; creds_ := None; policy_ := None |}.

(** The constructor: every exception is caught, what comes after it is left
    out. [default_policy] is the policy of an empty text. *)
Definition construct (rng : option Rng) (creds : option Creds) (file : policy_file) (default_policy : option Policy) : t :=
  match rng with
  | None => empty
  | Some r =>
      match creds with
      | None => {| rng_ := Some r; session_manager_ := true; creds_ := None; policy_ := None |}
      | Some c =>
          {| rng_ := Some r; session_manager_ := true; creds_ := Some c;
             policy_ := match file with Read p => Some p | _ => default_policy end |}
      end
  end.

(** The members are set in order: one that is set has all before it. *)
Lemma construct_in_order rng creds file d :
  let t := construct rng creds file d in
  (is_Some (policy_ t) -> is_Some (creds_ t)) /\ (is_Some (creds_ t) -> session_manager_ t = true)
  /\ (session_manager_ t = true -> is_Some (rng_ t))
  /\ (is_Some (creds_ t) -> is_Some d -> is_Some (policy_ t)).
Proof.
  assert (forall A, ~ is_Some (@None A)) as Hn by (by intros A []).
  destruct rng, creds; simpl; split_and!; intros; eauto; try done; try (by edestruct Hn; eauto).
  by destruct file; eauto.
Qed.

End tools.
End Tools.
