(* ===== verification/NetHelpers.v ===== *)
(** * WaitHelper, Waiter and UDPClient

    [src/Network/waithelper.cpp]: waiting in a nested event loop for the
    answer of a command, with a map from commands to those who wait; and
    [src/Network/udpclient.cpp]. *)

From S2P Require Import Prelude StdMap QtString.

(** ** WaitHelper *)

Module WaitHelper.
Section helper.
Context {Variant : Type}.

(** What ends the event loop of [wait]: a call of [finish], or the timer. *)
Inductive wakeup := Finish (value : Variant) | Timeout.

Record t := mk { m_result : option Variant }.

Definition make : t := mk None.

(** [finish] while nobody waits: the event loop forgets the exit when it is
    started. *)
Definition finish (value : Variant) (h : t) : t := mk (Some value).

(** [wait]: true when [finish] ended the loop. *)
Definition wait (e : wakeup) (h : t) : bool * t :=
  match e with
  | Finish v => (true, finish v h)
  | Timeout => (false, h)
  end.

Definition result (h : t) : option Variant := m_result h.

End helper.
End WaitHelper.

(** An answer that comes before [wait] is called is kept, but [wait] still
    runs into its timeout. *)
Lemma early_finish_times_out {V} (v : V) :
  let h := WaitHelper.finish v WaitHelper.make in
  (WaitHelper.wait WaitHelper.Timeout h).1 = false /\ WaitHelper.result h = Some v.
Proof. done. Qed.

(** ** Waiter *)

Module Waiter.

(** The map of the commands waited for, to the helper of the waiter; the
    living waiters with their [it], the entry they own or [end()]. A waiter and
    its helper have the same number. *)
Record world := { wait_map : StdMap.t nat; waiters : list (nat * option Z); next : nat }.

Definition start : world := {| wait_map := []; waiters := []; next := 0 |}.

(** The constructor. *)
Definition construct (cmd : Z) (w : world) : world :=
  match StdMap.find cmd (wait_map w) with
  | Some _ => {| wait_map := wait_map w; waiters := (next w, None) :: waiters w; next := S (next w) |}
  | None =>
      let '(m, inserted) := StdMap.emplace cmd (next w) (wait_map w) in
      {| wait_map := m; waiters := (next w, if inserted then Some cmd else None) :: waiters w; next := S (next w) |}
  end.

Definition it_of (i : nat) (w : world) : option (option Z) :=
  (fun p => p.2) <$> List.find (fun p => (p.1 =? i)%nat) (waiters w).

(** The destructor. *)
Definition destroy (i : nat) (w : world) : world :=
  match it_of i w with
  | None => w
  | Some it =>
      {| wait_map := match it with Some cmd => StdMap.erase cmd (wait_map w) | None => wait_map w end;
         waiters := List.filter (fun p => negb (p.1 =? i)%nat) (waiters w); next := next w |}
  end.

(** [operator bool] *)
Definition is_waiting (i : nat) (w : world) : bool :=
  match it_of i w with Some (Some _) => true | _ => false end.

Inductive op := Construct (cmd : Z) | Destroy (i : nat).

Definition step (o : op) (w : world) : world :=
  match o with Construct cmd => construct cmd w | Destroy i => destroy i w end.

Definition Inv (w : world) : Prop :=
  StdMap.sorted (wait_map w)
  /\ NoDup (map fst (waiters w))
  /\ (forall p, In p (waiters w) -> (p.1 < next w)%nat)
  /\ (forall cmd i, StdMap.find cmd (wait_map w) = Some i <-> In (i, Some cmd) (waiters w)).

Lemma it_of_spec i w it :
  NoDup (map fst (waiters w)) -> it_of i w = Some it <-> In (i, it) (waiters w).
Proof.
  unfold it_of. induction (waiters w) as [|[j x] l IH]; simpl; intros Hn; [done|].
  inversion Hn as [|? ? Hj Hl]; subst. destruct (Nat.eqb_spec j i) as [->|Hne]; simpl.
  - split; [intros E; simplify_eq; by left|]. intros [E|Hin]; [by simplify_eq|].
    destruct Hj. apply list_elem_of_In. by apply (in_map fst) in Hin.
  - rewrite IH by done. split; [by right|]. intros [E|?]; [by simplify_eq|done].
Qed.

Lemma construct_inv cmd w : Inv w -> Inv (construct cmd w).
Proof.
  intros (Hs & Hn & Hlt & Hf). unfold construct.
  assert (NoDup (next w :: map fst (waiters w))) as Hn'.
  { constructor; [|done]. intros Hin%list_elem_of_In%in_map_iff. destruct Hin as (p & E & Hp).
    apply Hlt in Hp. lia. }
  destruct (StdMap.find cmd (wait_map w)) as [j|] eqn:Ef.
  - split; [done|]. split; [done|]. split; [intros p [<-|Hp]; simpl; [lia|]; apply Hlt in Hp; lia|].
    intros c i. cbn [wait_map waiters]. rewrite Hf. simpl. split; [by right|]. intros [E|?]; [by simplify_eq|done].
  - pose proof (StdMap.emplace_sorted cmd (next w) _ Hs) as Hs'.
    pose proof (StdMap.emplace_fresh_flag cmd (next w) _ Ef) as Hb.
    pose proof (fun x => StdMap.emplace_find cmd (next w) (wait_map w) x) as Hfe.
    destruct (StdMap.emplace cmd (next w) (wait_map w)) as [m b]. cbn [fst snd] in *. subst b.
    split; [done|]. split; [done|]. split; [intros p [<-|Hp]; simpl; [lia|]; apply Hlt in Hp; lia|].
    intros c i. cbn [wait_map waiters]. rewrite Hfe by done. destruct (Z.eqb_spec c cmd) as [->|Hne].
    + rewrite Ef. simpl. split; [intros E; simplify_eq; by left|]. intros [E|Hin]; [by simplify_eq|].
      apply Hf in Hin. congruence.
    + rewrite Hf. simpl. split; [by right|]. intros [E|?]; [by simplify_eq|done].
Qed.

Lemma destroy_inv i w : Inv w -> Inv (destroy i w).
Proof.
  intros (Hs & Hn & Hlt & Hf). unfold destroy. destruct (it_of i w) as [it|] eqn:Ei; [|done].
  apply it_of_spec in Ei; [|done].
  assert (forall p, In p (List.filter (fun p => negb (p.1 =? i)%nat) (waiters w)) <-> In p (waiters w) /\ p.1 <> i) as Hin.
  { intros p. rewrite filter_In, negb_true_iff, Nat.eqb_neq. done. }
  assert (forall x, In (i, x) (waiters w) -> x = it) as Huniq.
  { intros x Hx. apply (it_of_spec i w x Hn) in Hx. apply (it_of_spec i w it Hn) in Ei. congruence. }
  split; [destruct it; [by apply StdMap.erase_sorted|done]|]. split.
  { cbn [waiters]. clear -Hn. induction (waiters w) as [|[j x] l IH]; [done|]. simpl in *.
    inversion Hn as [|? ? Hj Hl]; subst. destruct (negb (j =? i)%nat); [|by apply IH]. simpl. constructor; [|by apply IH].
    intros Hx%list_elem_of_In%in_map_iff. destruct Hx as (p & E & Hp). apply filter_In in Hp as [Hp _].
    apply Hj, list_elem_of_In. rewrite <- E. by apply in_map. }
  split; [intros p [Hp _]%Hin; by apply Hlt|].
  intros c j. cbn [wait_map waiters]. rewrite Hin. cbn [fst].
  destruct it as [cmd|].
  - rewrite StdMap.erase_find by done. destruct (Z.eqb_spec c cmd) as [->|Hne].
    + split; [done|]. intros [Hj Hji]. apply Hf in Hj. apply Hf in Ei. congruence.
    + rewrite Hf. split; [|tauto]. intros Hj. split; [done|]. intros ->. by apply Huniq in Hj as [= ->].
  - rewrite Hf. split; [|tauto]. intros Hj. split; [done|]. intros ->. by apply Huniq in Hj.
Qed.

(** Whatever waiters are made and destroyed, in any order: a command is
    in the map exactly while a waiter that owns it lives, so at most one
    waiter waits for a command, a second one converts to false, and destroying
    a waiter never removes the entry of another. *)
Theorem waiters_own_entries ops :
  let w := fold_left (fun w o => step o w) ops start in
  (forall cmd i, StdMap.find cmd (wait_map w) = Some i <-> it_of i w = Some (Some cmd))
  /\ (forall cmd i j, it_of i w = Some (Some cmd) -> it_of j w = Some (Some cmd) -> i = j)
  /\ (forall cmd, is_waiting (next w) (construct cmd w)
        = match StdMap.find cmd (wait_map w) with Some _ => false | None => true end)
  /\ (forall i j cmd, i <> j -> it_of j w = Some (Some cmd) ->
        StdMap.find cmd (wait_map (destroy i w)) = Some j).
Proof.
  intros w. assert (Inv w) as HI.
  { unfold w. assert (Inv start) as H0 by (split_and!; [constructor|constructor|done|done]).
    revert H0. generalize start. induction ops as [|o ops IH]; intros s Hs; [done|]. simpl. apply IH.
    destruct o; [by apply construct_inv|by apply destroy_inv]. }
  pose proof HI as (Hs & Hn & Hlt & Hf).
  assert (forall cmd i, StdMap.find cmd (wait_map w) = Some i <-> it_of i w = Some (Some cmd)) as Hown.
  { intros cmd i. rewrite Hf. symmetry. by apply it_of_spec. }
  split; [done|]. split; [|split].
  - intros cmd i j Hi%Hown Hj%Hown. congruence.
  - intros cmd. pose proof (construct_inv cmd w HI) as (_ & Hn' & _).
    unfold is_waiting, construct in *. destruct (StdMap.find cmd (wait_map w)) eqn:Ef.
    + unfold it_of. simpl. by rewrite Nat.eqb_refl.
    + pose proof (StdMap.emplace_fresh_flag cmd (next w) _ Ef) as Hb.
      destruct (StdMap.emplace cmd (next w) (wait_map w)) as [m b]. simpl in Hb. subst b.
      unfold it_of. simpl. by rewrite Nat.eqb_refl.
  - intros i j cmd Hne Hj. destruct (destroy_inv i w HI) as (_ & _ & _ & Hf'). apply Hf'.
    apply it_of_spec in Hj; [|done]. unfold destroy. destruct (it_of i w); [|done]. cbn [waiters].
    apply filter_In. split; [done|]. apply negb_true_iff, Nat.eqb_neq. simpl. congruence.
Qed.

End Waiter.

(** ** UDPClient *)

Module UDPClient.
Section client.
Context {QHostAddress : Type} (toString : QHostAddress -> qstring) (toIPv4Address : QHostAddress -> Z).

Record t := { m_host : QHostAddress; m_port : Z }.

Definition setHost (host : QHostAddress) (c : t) : t := {| m_host := host; m_port := m_port c |}.
Definition setPort (port : Z) (c : t) : t := {| m_host := m_host c; m_port := port |}.

Definition mapped_prefix : qstring := str "::ffff:".

(** [startsWith] and [mid(7)] *)
Definition hostString (c : t) : qstring :=
  let h := toString (m_host c) in
  if bool_decide (take (length mapped_prefix) h = mapped_prefix) then drop 7 h else h.

Definition equal (host : QHostAddress) (port : Z) (c : t) : bool :=
  (toIPv4Address host =? toIPv4Address (m_host c)) && (port =? m_port c).

(** An IPv4 address and the same one mapped into IPv6 have one text. *)
Lemma hostString_mapped h4 h6 p :
  toString h6 = mapped_prefix ++ toString h4 -> take (length mapped_prefix) (toString h4) <> mapped_prefix ->
  hostString {| m_host := h6; m_port := p |} = hostString {| m_host := h4; m_port := p |}.
Proof.
  intros E Hn. unfold hostString. cbn [m_host]. rewrite E, take_app_length, bool_decide_eq_true_2 by done.
  rewrite bool_decide_eq_false_2 by done. by rewrite (drop_app_length mapped_prefix).
Qed.

(** [toIPv4Address] is zero for every address that is not an IPv4 one: all of
    them are equal. *)
Lemma equal_ignores_ipv6 h h' p :
  toIPv4Address h = 0 -> toIPv4Address h' = 0 -> equal h p {| m_host := h'; m_port := p |} = true.
Proof. intros E E'. unfold equal. cbn [m_host m_port]. by rewrite E, E', !Z.eqb_refl. Qed.

End client.
End UDPClient.
