(* ===== verification/ServiceObject.v ===== *)
(** * Service

    [src/Service/service.h] and [service.cpp]: an object that owns the log
    thread and the worker of a service process, restarts the worker, and is
    ended by a signal. Workers are numbered as they are made; [live] are those
    not deleted, so that a use of a deleted one shows. Lists of commands are
    posted to the worker and reach it from the event loop; those of a worker
    that is deleted before are lost with it. The methods of the worker's class
    and whether its constructor throws are parameters. *)

From S2P Require Import Prelude QtString.

Module Service.

Definition SIGINT : Z := 2.
Definition SIGFPE : Z := 8.
Definition SIGSEGV : Z := 11.
Definition SIGTERM : Z := 15.

(** [Object]; [worker_] is a pointer that may dangle. *)
Record Object := { worker_ : nat }.

Record world := {
  service_ : option Object;
  live : list nat;                 (* workers not deleted *)
  next : nat;
  log_slots : list nat;            (* workers connected to the log's signal *)
  restart_slots : list nat;        (* workers whose signal restarts the service *)
  handler_installed : bool;        (* the log's message handler *)
  caught : list Z;                 (* signals handled by [term_handler] *)
  posted : list (nat * list qstring);    (* queued calls of the worker's slot *)
  received : list (nat * list qstring);  (* calls of the worker's slot *)
  exit_code_ : option Z;           (* of [std::exit] *)
}.

Abbreviation S := (M world).

Definition upd_service v w := {| service_ := v; live := live w; next := next w; log_slots := log_slots w;
  restart_slots := restart_slots w; handler_installed := handler_installed w; caught := caught w;
  posted := posted w; received := received w; exit_code_ := exit_code_ w |}.
Definition upd_workers l n w := {| service_ := service_ w; live := l; next := n; log_slots := log_slots w;
  restart_slots := restart_slots w; handler_installed := handler_installed w; caught := caught w;
  posted := posted w; received := received w; exit_code_ := exit_code_ w |}.
Definition upd_slots l r w := {| service_ := service_ w; live := live w; next := next w; log_slots := l;
  restart_slots := r; handler_installed := handler_installed w; caught := caught w;
  posted := posted w; received := received w; exit_code_ := exit_code_ w |}.
Definition upd_log b w := {| service_ := service_ w; live := live w; next := next w; log_slots := log_slots w;
  restart_slots := restart_slots w; handler_installed := b; caught := caught w;
  posted := posted w; received := received w; exit_code_ := exit_code_ w |}.
Definition upd_caught l w := {| service_ := service_ w; live := live w; next := next w; log_slots := log_slots w;
  restart_slots := restart_slots w; handler_installed := handler_installed w; caught := l;
  posted := posted w; received := received w; exit_code_ := exit_code_ w |}.
Definition upd_calls l r w := {| service_ := service_ w; live := live w; next := next w; log_slots := log_slots w;
  restart_slots := restart_slots w; handler_installed := handler_installed w; caught := caught w;
  posted := l; received := r; exit_code_ := exit_code_ w |}.
Definition upd_exit c w := {| service_ := service_ w; live := live w; next := next w; log_slots := log_slots w;
  restart_slots := restart_slots w; handler_installed := handler_installed w; caught := caught w;
  posted := posted w; received := received w; exit_code_ := c |}.

Definition initial : world :=
  {| service_ := None; live := []; next := 0; log_slots := []; restart_slots := []; handler_installed := false;
     caught := []; posted := []; received := []; exit_code_ := None |}.

(** ** Base_Template

    The name: the application's when none is given; the constructor asserts
    that there is one. *)
Definition template_name (applicationName name : qstring) : option qstring :=
  let n := if isEmpty name then applicationName else name in
  if isEmpty n then None else Some n.

(** [isImmediately_]: the loop over the arguments after the program's name. *)
Fixpoint find_exec (args : list qstring) : bool :=
  match args with
  | [] => false
  | a :: args => if bool_decide (a = str "-e") || bool_decide (a = str "-exec") then true else find_exec args
  end.

Definition isImmediately (argv : list qstring) : bool :=
  match argv with [] => false | _ :: args => find_exec args end.

(** It is set for the option at any place. *)
Lemma isImmediately_spec argv :
  isImmediately argv = true <-> exists i a, argv !! Datatypes.S i = Some a /\ (a = str "-e" \/ a = str "-exec").
Proof.
  destruct argv as [|p args]; [split; [done|by intros (i & a & E & _)]|]. simpl.
  induction args as [|a args IH]; simpl.
  - split; [done|]. by intros (i & b & E & _).
  - destruct (bool_decide _ || bool_decide _) eqn:E.
    + split; [|done]. intros _. exists 0%nat, a. split; [done|]. apply orb_true_iff in E. by rewrite !bool_decide_eq_true in E.
    + apply orb_false_iff in E as [E1 E2]. apply bool_decide_eq_false in E1, E2. rewrite IH. split.
      * intros (i & b & Hi & Hb). by exists (Datatypes.S i), b.
      * intros ([|i] & b & Hi & Hb); [simpl in Hi; destruct Hb; congruence|]. by exists i, b.
Qed.

Section service.
(** The names of the methods of the worker's class. *)
Context (methods : list qstring).

(** The loop of [Impl::create_worker] over the methods, with its early end. *)
Fixpoint find_slots (names : list qstring) (has_log has_restart : bool) : bool * bool :=
  match names with
  | [] => (has_log, has_restart)
  | n :: names =>
      let has_log' := has_log || bool_decide (n = str "logMessage") in
      let has_restart' := has_restart || (negb (bool_decide (n = str "logMessage")) && bool_decide (n = str "serviceRestart")) in
      if has_log' && has_restart' then (has_log', has_restart') else find_slots names has_log' has_restart'
  end.

(** [Object::create_worker]: the worker, or the exception of its constructor. *)
Definition create_worker (throws : bool) : S nat :=
  if throws then throw
  else
    let* n := gets next in
    modify (fun w => upd_workers (n :: live w) (n + 1)%nat w);;;
    let '(has_log, has_restart) := find_slots methods false false in
    modify (fun w => upd_slots (if has_log then n :: log_slots w else log_slots w)
                               (if has_restart then n :: restart_slots w else restart_slots w) w);;;
    ret n.

(** [delete worker_]: its connections end with it, and what is posted to it is
    removed. *)
Definition delete_worker (n : nat) : S unit :=
  let* l := gets live in
  if bool_decide (n ∈ l) then
    modify (fun w => upd_slots (filter (fun x => x <> n) (log_slots w)) (filter (fun x => x <> n) (restart_slots w))
                       (upd_calls (filter (fun c => c.1 <> n) (posted w)) (received w)
                          (upd_workers (filter (fun x => x <> n) l) (next w) w)))
  else undef.

(** The constructor: the log thread starts and installs its handler. *)
Definition construct (throws : bool) : S Object :=
  modify (upd_log true);;;
  let* n := create_worker throws in
  ret {| worker_ := n |}.

(** The destructor: all slots of the log are disconnected, the worker is
    deleted, the log ends and takes the handler away. *)
Definition destruct_ (o : Object) : S unit :=
  modify (fun w => upd_slots [] (restart_slots w) w);;;
  delete_worker (worker_ o);;;
  modify (upd_log false).

(** [Object::restart]: an exception leaves the old pointer. *)
Definition restart (throws : bool) : S unit :=
  let* s := gets service_ in
  match s with
  | None => undef
  | Some o =>
      delete_worker (worker_ o);;;
      let* n := create_worker throws in
      modify (upd_service (Some {| worker_ := n |}))
  end.

(** [Base::start]: the new object is made before the old one is destroyed.
    [no_catch] is the environment variable. *)
Definition start (throws no_catch : bool) : S unit :=
  let* o := construct throws in
  let* old := gets service_ in
  modify (upd_service (Some o));;;
  match old with Some o' => destruct_ o' | None => ret tt end;;;
  modify (fun w => upd_caught (if no_catch then [SIGTERM; SIGINT] else [SIGTERM; SIGINT; SIGSEGV; SIGFPE]) w).

Definition stop : S unit :=
  let* s := gets service_ in
  modify (upd_service None);;;
  match s with Some o => destruct_ o | None => ret tt end.

(** [Base::processCommands] and [Object::processCommands] *)
Definition processCommands (cmdList : list qstring) : S unit :=
  let* s := gets service_ in
  match s with
  | None => undef
  | Some o =>
      let* l := gets live in
      if bool_decide (worker_ o ∈ l) then modify (fun w => upd_calls (posted w ++ [(worker_ o, cmdList)]) (received w) w)
      else undef
  end.

(** The event loop delivers what is posted. *)
Definition deliver_posted : S unit := modify (fun w => upd_calls [] (received w ++ posted w) w).

(** [term_handler], with [g_obj] set; it ends with [std::exit]. *)
Definition term_handler (signal : Z) : S unit :=
  let exit_code := if (signal =? SIGSEGV) || (signal =? SIGFPE) then 1 else 0 in
  stop;;;
  modify (upd_exit (Some exit_code)).

(** ** The slots of the worker *)

Lemma find_slots_flags names : forall a b,
  find_slots names a b =
  (a || bool_decide (str "logMessage" ∈ names), b || bool_decide (str "serviceRestart" ∈ names)).
Proof.
  induction names as [|n names IH]; intros a b; cbn [find_slots].
  { by rewrite !bool_decide_eq_false_2, !orb_false_r by apply not_elem_of_nil. }
  assert (bool_decide (str "logMessage" ∈ n :: names)
    = bool_decide (n = str "logMessage") || bool_decide (str "logMessage" ∈ names)) as ->.
  { apply eq_true_iff_eq. rewrite orb_true_iff, !bool_decide_eq_true, elem_of_cons. naive_solver. }
  assert (bool_decide (str "serviceRestart" ∈ n :: names)
    = (negb (bool_decide (n = str "logMessage")) && bool_decide (n = str "serviceRestart"))
      || bool_decide (str "serviceRestart" ∈ names)) as ->.
  { apply eq_true_iff_eq. rewrite !orb_true_iff, andb_true_iff, negb_true_iff, bool_decide_eq_false, !bool_decide_eq_true, elem_of_cons.
    split; [|naive_solver]. intros [<-|?]; [|by right]. left. split; [|done]. discriminate. }
  set (a' := a || bool_decide (n = str "logMessage")).
  set (b' := b || (negb (bool_decide (n = str "logMessage")) && bool_decide (n = str "serviceRestart"))).
  rewrite !orb_assoc. fold a' b'.
  destruct (a' && b') eqn:E; [|apply IH]. apply andb_true_iff in E as [-> ->]. done.
Qed.

(** ** One worker *)

(** Operations while constructors of the worker do not throw; a signal arrives
    while none of them is under way. *)
Inductive op := Start (no_catch : bool) | Stop | Restart | Commands (l : list qstring) | Deliver | Signal (n : Z).

Definition run_op (o : op) : S unit :=
  match o with
  | Start nc => start false nc
  | Stop => stop
  | Restart => restart false
  | Commands l => processCommands l
  | Deliver => deliver_posted
  | Signal n => term_handler n
  end.

(** A restart and commands need a running service. *)
Fixpoint allowed (ops : list op) (running : bool) : bool :=
  match ops with
  | [] => true
  | Start _ :: ops => allowed ops true
  | Stop :: ops => allowed ops false
  | Deliver :: ops => allowed ops running
  | Signal _ :: ops => true
  | (Restart | Commands _) :: ops => running && allowed ops running
  end.

(** Nothing runs after [std::exit]. *)
Fixpoint run_ops (ops : list op) : S unit :=
  match ops with
  | [] => ret tt
  | o :: ops =>
      run_op o;;;
      let* e := gets exit_code_ in
      match e with Some _ => ret tt | None => run_ops ops end
  end.

Definition is_running (w : world) : bool := match service_ w with Some _ => true | None => false end.

Definition Inv (w : world) : Prop :=
  live w = match service_ w with Some o => [worker_ o] | None => [] end
  /\ Forall (fun n => (n < next w)%nat) (live w)
  /\ (forall n, n ∈ log_slots w -> n ∈ live w) /\ (forall n, n ∈ restart_slots w -> n ∈ live w)
  /\ (forall c, c ∈ posted w -> c.1 ∈ live w).

Lemma filter_self n : filter (fun x : nat => x <> n) [n] = [].
Proof. rewrite filter_cons_False by (intros Hn; by apply Hn). done. Qed.

(** A new worker beside those that live. *)
Lemma create_worker_spec w :
  exists w', create_worker false w = (Ret (next w), w')
    /\ service_ w' = service_ w /\ live w' = next w :: live w /\ next w' = (next w + 1)%nat
    /\ (forall n, n ∈ log_slots w' -> n = next w \/ n ∈ log_slots w)
    /\ (forall n, n ∈ restart_slots w' -> n = next w \/ n ∈ restart_slots w)
    /\ posted w' = posted w /\ exit_code_ w' = exit_code_ w.
Proof.
  unfold create_worker. erewrite bind_Ret by reflexivity. erewrite bind_Ret by reflexivity.
  destruct (find_slots methods false false) as [a b]. erewrite bind_Ret by reflexivity.
  eexists. split; [reflexivity|]. cbn. split; [done|]. split; [done|]. split; [done|].
  split; [|split]; [intros n; destruct a|intros n; destruct b|done]; rewrite ?elem_of_cons; tauto.
Qed.

(** Deleting a worker that lives. *)
Lemma delete_worker_spec n w :
  n ∈ live w ->
  exists w', delete_worker n w = (Ret tt, w')
    /\ service_ w' = service_ w /\ live w' = filter (fun x => x <> n) (live w) /\ next w' = next w
    /\ (forall x, x ∈ log_slots w' -> x ∈ log_slots w /\ x <> n)
    /\ (forall x, x ∈ restart_slots w' -> x ∈ restart_slots w /\ x <> n)
    /\ posted w' = filter (fun c => c.1 <> n) (posted w) /\ exit_code_ w' = exit_code_ w.
Proof.
  intros Hn. unfold delete_worker. erewrite bind_Ret by reflexivity. rewrite bool_decide_eq_true_2 by done.
  eexists. split; [reflexivity|]. cbn. split; [done|]. split; [done|]. split; [done|].
  split; [|split; [|done]]; intros x Hx; apply list_elem_of_filter in Hx; tauto.
Qed.

Lemma destruct_spec o w :
  worker_ o ∈ live w -> (forall n, n ∈ restart_slots w -> n ∈ live w) ->
  exists w', destruct_ o w = (Ret tt, w') /\ service_ w' = service_ w
    /\ live w' = filter (fun x => x <> worker_ o) (live w) /\ next w' = next w
    /\ log_slots w' = [] /\ (forall x, x ∈ restart_slots w' -> x ∈ live w')
    /\ posted w' = filter (fun c => c.1 <> worker_ o) (posted w) /\ exit_code_ w' = exit_code_ w.
Proof.
  intros Ho Hr. unfold destruct_. erewrite bind_Ret by reflexivity.
  destruct (delete_worker_spec (worker_ o) (upd_slots [] (restart_slots w) w)) as (w' & E & Es & El & En & Hl & Hrs & Hp & He); [done|].
  erewrite bind_Ret by exact E. eexists. split; [reflexivity|]. cbn. split; [done|]. split; [done|]. split; [done|]. split; [|split; [|done]].
  - destruct (log_slots w') as [|x l]; [done|]. destruct (Hl x) as [Hx _]; [apply elem_of_cons; by left|].
    by apply not_elem_of_nil in Hx.
  - intros x Hx. rewrite El. apply list_elem_of_filter. destruct (Hrs x Hx). split; [done|by apply Hr].
Qed.

(** What is posted belongs to the workers left. *)
Lemma posted_filter n (l : list nat) (c : list (nat * list qstring)) :
  (forall x, x ∈ c -> x.1 ∈ l) -> forall x, x ∈ filter (fun x => x.1 <> n) c -> x.1 ∈ filter (fun y => y <> n) l.
Proof. intros Hc x. rewrite !list_elem_of_filter. intros [? ?]. auto. Qed.

Lemma stop_spec w : Inv w -> exists w', stop w = (Ret tt, w') /\ Inv w' /\ service_ w' = None /\ exit_code_ w' = exit_code_ w.
Proof.
  intros (Hl & Hn & Hs & Hr & Hp). unfold stop. erewrite bind_Ret by reflexivity. erewrite bind_Ret by reflexivity.
  destruct (service_ w) as [o|] eqn:Eo.
  - destruct (destruct_spec o (upd_service None w)) as (w' & E & Es & El & En & Hls & Hrs & Hps & He); [cbn; rewrite Hl; by left|done|].
    exists w'. split; [done|]. cbn in Es, El, En, Hps, He. pose proof (posted_filter (worker_ o) _ _ Hp) as Hpf. rewrite <- Hps, <- El in Hpf.
    rewrite Hl in El. rewrite filter_self in El.
    split; [|done]. unfold Inv. rewrite Es, El, Hls. split; [done|]. split; [constructor|].
    split; [by intros n Hx%not_elem_of_nil|]. split; [|by rewrite <- El]. intros n Hx%Hrs. by rewrite El in Hx.
  - eexists. split; [reflexivity|]. split; [|done]. split; [done|]. done.
Qed.

Lemma start_spec nc w : Inv w -> exists w', start false nc w = (Ret tt, w') /\ Inv w' /\ is_running w' = true /\ exit_code_ w' = exit_code_ w.
Proof.
  intros (Hl & Hn & Hs & Hr & Hp). unfold start, construct.
  destruct (create_worker_spec (upd_log true w)) as (w1 & E1 & Es1 & El1 & En1 & Hl1 & Hr1 & Hp1 & He1).
  erewrite bind_Ret.
  2:{ erewrite bind_Ret by reflexivity. by erewrite bind_Ret by exact E1. }
  erewrite bind_Ret by reflexivity. erewrite bind_Ret by reflexivity. cbn in Es1, El1, En1, Hl1, Hr1, Hp1, He1.
  rewrite Es1. destruct (service_ w) as [o|] eqn:Eo.
  - rewrite Hl in *. assert (worker_ o <> next w) as Hne by (inversion Hn; subst; lia).
    set (w2 := upd_service _ w1).
    destruct (destruct_spec o w2) as (w3 & E3 & Es3 & El3 & En3 & Hl3 & Hr3 & Hp3 & He3).
    { cbn. rewrite El1. right. by left. }
    { cbn. rewrite El1. intros n [->|Hx]%Hr1; [by left|]. right. by apply Hr. }
    erewrite bind_Ret by exact E3. eexists. split; [reflexivity|]. cbn. unfold is_running. cbn. rewrite Es3. cbn.
    cbn in Hp3, He3, El3. split; [|by rewrite He3].
    assert (forall c, c ∈ posted w3 -> c.1 ∈ live w3) as Hpf.
    { rewrite Hp3, El3. apply posted_filter. rewrite Hp1, El1. intros c Hc. right. by apply Hp. }
    unfold Inv. cbn. rewrite Es3, El3, En3, Hl3. cbn. rewrite El1, En1.
    rewrite filter_cons_True by congruence. rewrite filter_self. split; [done|]. split; [constructor; [lia|constructor]|].
    rewrite El3, El1, filter_cons_True, filter_self in Hpf by congruence.
    split; [by intros n Hx%not_elem_of_nil|]. split; [|done]. intros n Hx%Hr3. rewrite El3 in Hx. rewrite El1 in Hx.
    rewrite filter_cons_True, filter_self in Hx by congruence. done.
  - erewrite bind_Ret by reflexivity. eexists. split; [reflexivity|]. split; [|done]. unfold Inv. cbn.
    rewrite El1, En1, Hl in *. split; [done|]. split; [constructor; [lia|constructor]|].
    split; [|split; [|rewrite Hp1; intros c Hc%Hp; by apply not_elem_of_nil in Hc]]; intros n; [intros [->|Hx]%Hl1|intros [->|Hx]%Hr1]; try (by left);
      [apply Hs in Hx|apply Hr in Hx]; by apply not_elem_of_nil in Hx.
Qed.

Lemma restart_spec w : Inv w -> is_running w = true ->
  exists w', restart false w = (Ret tt, w') /\ Inv w' /\ is_running w' = true /\ exit_code_ w' = exit_code_ w.
Proof.
  intros (Hl & Hn & Hs & Hr & Hp) Hrun. unfold restart, is_running in *. erewrite bind_Ret by reflexivity.
  destruct (service_ w) as [o|] eqn:Eo; [|done].
  destruct (delete_worker_spec (worker_ o) w) as (w1 & E1 & Es1 & El1 & En1 & Hl1 & Hr1 & Hp1 & He1); [rewrite Hl; by left|].
  erewrite bind_Ret by exact E1.
  destruct (create_worker_spec w1) as (w2 & E2 & Es2 & El2 & En2 & Hl2 & Hr2 & Hp2 & He2). erewrite bind_Ret by exact E2.
  eexists. split; [reflexivity|]. split; [|split; [done|cbn; congruence]].
  pose proof (posted_filter (worker_ o) _ _ Hp) as Hpf. rewrite <- Hp1, <- El1 in Hpf.
  rewrite Hl, filter_self in El1. rewrite El1 in El2, Hpf.
  unfold Inv. cbn. rewrite El2. split; [done|]. split; [rewrite En2; constructor; [lia|constructor]|].
  split; [|split; [|rewrite Hp2; intros c Hc%Hpf; by apply not_elem_of_nil in Hc]]; intros n; [intros [->|Hx]%Hl2|intros [->|Hx]%Hr2]; try (by left).
  - apply Hl1 in Hx as [Hx Hne]. apply Hs in Hx. rewrite Hl in Hx. by apply list_elem_of_singleton in Hx.
  - apply Hr1 in Hx as [Hx Hne]. apply Hr in Hx. rewrite Hl in Hx. by apply list_elem_of_singleton in Hx.
Qed.

Lemma commands_spec l w : Inv w -> is_running w = true ->
  exists w', processCommands l w = (Ret tt, w') /\ Inv w' /\ is_running w' = true /\ exit_code_ w' = exit_code_ w.
Proof.
  intros HI Hrun. unfold processCommands, is_running in *. erewrite bind_Ret by reflexivity.
  destruct (service_ w) as [o|] eqn:Eo; [|done]. erewrite bind_Ret by reflexivity.
  destruct HI as (Hl & HI). rewrite Eo in Hl. rewrite Hl, bool_decide_eq_true_2 by (by left).
  eexists. split; [reflexivity|]. cbn. rewrite Eo. split; [|done]. destruct HI as (Hn & Hs & Hr & Hp). unfold Inv. cbn. rewrite Eo.
  split_and!; try done. intros c [Hc|Hc]%elem_of_app; [by apply Hp|]. apply list_elem_of_singleton in Hc as ->. rewrite Hl. by left.
Qed.

(** *** A signal in the middle of a restart *)

(** Where [restart] is interrupted. *)
Inductive moment := Before_Delete | Before_Create | Before_Assign.

(** What it has done until then. *)
Definition restart_until (k : moment) (o : Object) : S unit :=
  match k with
  | Before_Delete => ret tt
  | Before_Create => delete_worker (worker_ o)
  | Before_Assign => delete_worker (worker_ o);;; let* _ := create_worker false in ret tt
  end.

(** The worker is deleted twice when the signal arrives after its deletion
    and before the new one is assigned. *)
Lemma restart_interrupted k o n w :
  Inv w -> service_ w = Some o -> exit_code_ w = None ->
  ((restart_until k o;;; term_handler n) w).1 = match k with Before_Delete => Ret tt | _ => Undef end.
Proof.
  intros HI Ho He. destruct k; cbn [restart_until].
  - destruct (stop_spec w HI) as (w' & E & _). rewrite bind_ret_l. unfold term_handler. by erewrite bind_Ret by exact E.
  - destruct HI as (Hl & Hn & _). rewrite Ho in Hl.
    destruct (delete_worker_spec (worker_ o) w) as (w1 & E1 & Es1 & El1 & _); [rewrite Hl; by left|].
    erewrite bind_Ret by exact E1. rewrite Hl, filter_self in El1.
    unfold term_handler, stop, bind, gets, modify, destruct_, delete_worker. rewrite Es1, Ho. cbn. unfold bind, modify, gets. cbn. by rewrite El1.
  - destruct HI as (Hl & Hn & _). rewrite Ho in Hl.
    destruct (delete_worker_spec (worker_ o) w) as (w1 & E1 & Es1 & El1 & En1 & _); [rewrite Hl; by left|].
    destruct (create_worker_spec w1) as (w2 & E2 & Es2 & El2 & _).
    erewrite bind_Ret; [|erewrite bind_Ret by exact E1; by erewrite bind_Ret by exact E2].
    rewrite Hl, filter_self in El1. rewrite El1, En1 in El2. rewrite Hl in Hn. inversion Hn as [|? ? Hlt]; subst.
    unfold term_handler, stop, bind, gets, modify, destruct_, delete_worker. rewrite Es2, Es1, Ho. cbn. unfold bind, modify, gets. cbn. rewrite El2.
    rewrite bool_decide_eq_false_2; [done|]. rewrite list_elem_of_singleton. lia.
Qed.

(** C39. The workers of a service, while their constructors do not throw, a
    restart or commands come only while the service runs, and a signal arrives
    only while no operation is under way (after it the process has ended).
    Then, however often the service is started, restarted and stopped, and
    whatever is posted and delivered in between, no operation touches a deleted
    worker: there is exactly one worker while the service runs and none after
    it was stopped or ended by the signal, and only that worker is connected to
    the log and to [restart] and has calls waiting. *)
Theorem service_one_worker ops :
  allowed ops false = true ->
  exists w, run_ops ops initial = (Ret tt, w)
    /\ live w = match service_ w with Some o => [worker_ o] | None => [] end
    /\ (exit_code_ w <> None -> live w = [])
    /\ (forall n, n ∈ log_slots w \/ n ∈ restart_slots w \/ n ∈ map fst (posted w) -> n ∈ live w).
Proof.
  assert (forall w, Inv w -> exit_code_ w = None -> allowed ops (is_running w) = true ->
    exists w', run_ops ops w = (Ret tt, w') /\ Inv w' /\ (exit_code_ w' <> None -> live w' = [])) as Hrun.
  { induction ops as [|o ops IH]; intros w HI He Ha; [by exists w|]. cbn [run_ops].
    assert (exists w', run_op o w = (Ret tt, w') /\ Inv w'
      /\ (exit_code_ w' = None /\ allowed ops (is_running w') = true \/ exit_code_ w' <> None /\ live w' = [])) as (w' & E & HI' & Ha').
    { destruct o; cbn [allowed run_op] in *.
      - destruct (start_spec no_catch w HI) as (w' & E & HI' & R & He'). exists w'. rewrite R, He', He. auto.
      - destruct (stop_spec w HI) as (w' & E & HI' & R & He'). exists w'. unfold is_running. rewrite R, He', He. auto.
      - apply andb_true_iff in Ha as [R Ha]. destruct (restart_spec w HI R) as (w' & E & HI' & R' & He').
        exists w'. rewrite R in Ha. rewrite R', He', He. auto.
      - apply andb_true_iff in Ha as [R Ha]. destruct (commands_spec l w HI R) as (w' & E & HI' & R' & He').
        exists w'. rewrite R in Ha. rewrite R', He', He. auto.
      - eexists. split; [reflexivity|]. split; [|left; done]. destruct HI as (? & ? & ? & ? & ?). unfold Inv. cbn.
        split_and!; try done. by intros c Hc%not_elem_of_nil.
      - destruct (stop_spec w HI) as (w' & E & HI' & R & He'). unfold term_handler. erewrite bind_Ret by exact E.
        eexists. split; [reflexivity|]. split; [exact HI'|]. right. split; [done|]. destruct HI' as (Hl & _). cbn. by rewrite Hl, R. }
    erewrite bind_Ret by exact E. erewrite bind_Ret by reflexivity. destruct Ha' as [[He' Ha']|[He' Hl']].
    - rewrite He'. by apply IH.
    - destruct (exit_code_ w') eqn:Ee; [|done]. exists w'. by rewrite Ee. }
  intros Ha. destruct (Hrun initial) as (w & E & (Hl & _ & Hs & Hr & Hp) & He); [|done|done|].
  - split; [done|]. split; [constructor|]. split; [|split]; intros n Hx; by apply not_elem_of_nil in Hx.
  - exists w. split; [done|]. split; [done|]. split; [done|]. intros n [Hx|[Hx|Hx]]; [by apply Hs|by apply Hr|].
    apply list_elem_of_fmap in Hx as (c & -> & Hc). by apply Hp.
Qed.

End service.

(** A worker whose constructor throws in a restart leaves a pointer to the
    deleted one, which [stop] deletes again. *)
Lemma failed_restart_dangles :
  ((start [] false false;;; try_catch (restart [] true) (ret tt);;; stop) initial).1 = Undef.
Proof. reflexivity. Qed.

(** A list that is posted before the worker is deleted does not reach it. *)
Lemma posted_lost_with_worker :
  received ((start [] false false;;; processCommands [str "reload"];;; stop;;; deliver_posted) initial).2 = [].
Proof. reflexivity. Qed.

(** Commands for a service that does not run use a null pointer. *)
Lemma commands_without_service : (processCommands [str "reload"] initial).1 = Undef.
Proof. reflexivity. Qed.

(** Starting twice takes the log away: the old object's log uninstalls the
    handler, and the new worker is no longer connected. *)
Lemma started_twice_loses_log :
  let w := ((start [str "logMessage"] false false;;; start [str "logMessage"] false false) initial).2 in
  handler_installed w = false /\ log_slots w = [] /\ live w = [1%nat].
Proof. repeat split; reflexivity. Qed.

Lemma service_one_worker_witness :
  exists w, run_ops [str "logMessage"; str "serviceRestart"] [Start false; Commands [str "reload"]; Deliver; Restart; Commands [str "quit"]; Signal SIGTERM] initial = (Ret tt, w)
    /\ live w = [] /\ received w = [(0%nat, [str "reload"])].
Proof.
  destruct (service_one_worker [str "logMessage"; str "serviceRestart"]
    [Start false; Commands [str "reload"]; Deliver; Restart; Commands [str "quit"]; Signal SIGTERM]) as (w & E & _ & Hl & _).
  - reflexivity.
  - exists w. split; [exact E|]. vm_compute in E. injection E as <-. split; [apply Hl; discriminate|reflexivity].
Defined.

End Service.
