(* ===== verification/QtServiceCommands.v ===== *)
(** * Qt_Service: the command channel of a service

    [src/qtservice/src/qtservice_unix.cpp], the class [QtServiceSysPrivate]:
    a service process listens on a Unix socket; a command is a line ended by
    CR LF and is answered with [true] or [false]. Bytes arrive in pieces;
    [cache] has those that are not a whole command yet, per connection. The
    service itself is behind an interface, the virtual functions of
    [QtServiceBase]. *)

From stdpp Require Import gmap.
From S2P Require Import Prelude QtString.

(** ** QString *)

Fixpoint starts_with (p s : qstring) : bool :=
  match p, s with
  | [], _ => true
  | x :: p, y :: s => (x =? y) && starts_with p s
  | _ :: _, [] => false
  end.

(** [s.indexOf(p)]; [None] is -1. *)
Fixpoint indexOf (p s : qstring) : option nat :=
  if starts_with p s then Some 0%nat
  else match s with [] => None | _ :: s => option_map S (indexOf p s) end.

(** [s.split(c)] keeps empty parts. *)
Fixpoint split (c : Z) (s : qstring) : list qstring :=
  match s with
  | [] => [[]]
  | x :: s =>
      if x =? c then [] :: split c s
      else match split c s with [] => [[x]] | y :: l => (x :: y) :: l end
  end.

Definition crlf : qstring := [13; 10].
Definition ch_bar : Z := Eval vm_compute in chr "|"%char.
Definition ch_minus : Z := Eval vm_compute in chr "-"%char.

(** [QString::number] of an [int]. *)
Definition number_int (n : Z) : qstring := if n <? 0 then ch_minus :: digits 10 (- n) else digits 10 n.

Definition ascii (c : Z) : Prop := 0 < c < 128.

(** Conversions. Bytes sent are Latin-1, bytes received are taken as UTF-8:
    the two agree on ASCII. [toInt] reads what [number] writes. *)
Class QStringConv := {
  toLatin1 : qstring -> list byte;
  fromUtf8 : list byte -> qstring;
  toLower : qstring -> qstring;
  toInt : qstring -> Z;
}.

Definition lower (c : Z) : Z := if (65 <=? c) && (c <=? 90) then c + 32 else c.

Class QStringConvLaws `{QStringConv} := {
  toLatin1_ascii : forall s, Forall ascii s -> toLatin1 s = map byte_of_Z s;
  fromUtf8_ascii : forall bs, Forall (fun b => ascii (Z_of_byte b)) bs -> fromUtf8 bs = map Z_of_byte bs;
  toLower_ascii : forall s, Forall ascii s -> toLower s = map lower s;
  toInt_number : forall n, -2147483648 <= n < 2147483648 -> toInt (number_int n) = n;
}.

(** A buffer read as a C string ends at the first zero. *)
Fixpoint c_str (bs : list byte) : list byte :=
  match bs with [] => [] | b :: bs => if Z_of_byte b =? 0 then [] else b :: c_str bs end.

(** ** QtServiceBase: what a service overrides *)

(** [app_events]: the calls posted to objects of the service, which the event
    loop delivers before it takes the next event. *)
Class ServiceApp (S : Type) := {
  app_start : M S unit;
  app_stop : M S unit;
  app_pause : M S unit;
  app_resume : M S unit;
  app_processCommand : Z -> M S unit;
  app_processCommands : list qstring -> M S unit;
  app_events : M S unit;
}.

Module ServiceFlag.
Definition Default : Z := 0.
Definition CanBeSuspended : Z := 1.
Definition CannotBeStopped : Z := 2.
Definition NeedsStopOnShutdown : Z := 4.
End ServiceFlag.

(** ** QtServiceSysPrivate *)

(** A connection is named by the address of its socket object. *)
Record Process (S : Type) := mkProcess {
  serviceFlags : Z;
  cache : gmap nat qstring;
  service_object : S;                  (** the service object *)
  quit_called : bool;                  (** [QCoreApplication::quit] *)
  written : list (nat * list byte);    (** what was written to connections *)
  sockets : list nat;                  (** connections that are open *)
}.
Arguments mkProcess {S}.
Arguments serviceFlags {S}.
Arguments cache {S}.
Arguments service_object {S}.
Arguments quit_called {S}.
Arguments written {S}.
Arguments sockets {S}.

Section process.
Context {S : Type} `{ServiceApp S} `{QStringConv}.
(** [qApp->applicationFilePath()] *)
Context (applicationFilePath : qstring).

Definition with_flags v (p : Process S) := let '(mkProcess _ c a q w l) := p in mkProcess v c a q w l.
Definition with_cache v (p : Process S) := let '(mkProcess f _ a q w l) := p in mkProcess f v a q w l.
Definition with_app (v : S) (p : Process S) : Process S := let '(mkProcess f c _ q w l) := p in mkProcess f c v q w l.
Definition with_quit v (p : Process S) := let '(mkProcess f c a _ w l) := p in mkProcess f c a v w l.
Definition with_written v (p : Process S) := let '(mkProcess f c a q _ l) := p in mkProcess f c a q v l.
Definition with_sockets v (p : Process S) := let '(mkProcess f c a q w _) := p in mkProcess f c a q w v.

(** A call of the service object. *)
Definition call {A} (m : M S A) : M (Process S) A :=
  fun p => let '(o, a) := m (service_object p) in (o, with_app a p).

(** The constructor, with the flags [sysInit] copies. *)
Definition sys_make (flags : Z) (a : S) : Process S := mkProcess flags ∅ a false [] [].

(** A new socket object: its address is not that of another open one, but may
    be that of one deleted before. *)
Definition incomingConnection (s : nat) : M (Process S) unit :=
  modify (fun p => with_sockets (s :: sockets p) p).

Definition slotClosed (s : nat) : M (Process S) unit :=
  modify (fun p => with_sockets (filter (fun x => x <> s) (sockets p)) p).

(** [cache[s]]: an entry that is not there is made. *)
Definition cached (s : nat) (p : Process S) : qstring := default [] (cache p !! s).

(** [getCommand]: the first line of what has arrived, which is removed, or an
    empty string. *)
Definition getCommand (s : nat) : M (Process S) qstring :=
  let* text := gets (cached s) in
  match indexOf crlf text with
  | Some pos => modify (fun p => with_cache (<[s := drop (pos + 2) text]> (cache p)) p);;; ret (take pos text)
  | None => modify (fun p => with_cache (<[s := text]> (cache p)) p);;; ret []
  end.

(** The chain of comparisons of [slotReady]; whether the command is accepted. *)
Definition dispatch (cmd : qstring) : M (Process S) bool :=
  if bool_decide (cmd = str "terminate") then
    let* flags := gets serviceFlags in
    if negb (has_flag flags ServiceFlag.CannotBeStopped) then
      call app_stop;;; modify (with_quit true);;; ret true
    else ret false
  else if bool_decide (cmd = str "pause") then
    let* flags := gets serviceFlags in
    if has_flag flags ServiceFlag.CanBeSuspended then call app_pause;;; ret true else ret false
  else if bool_decide (cmd = str "resume") then
    let* flags := gets serviceFlags in
    if has_flag flags ServiceFlag.CanBeSuspended then call app_resume;;; ret true else ret false
  else if bool_decide (cmd = str "alive") then ret true
  else if (5 <? zlen cmd) && bool_decide (take 5 cmd = str "list:") then
    call (app_processCommands (applicationFilePath :: split ch_bar (drop 5 cmd)));;; ret true
  else if (4 <? zlen cmd) && bool_decide (take 4 cmd = str "num:") then
    call (app_processCommand (toInt (drop 4 cmd)));;; ret true
  else ret false.

Definition reply (b : bool) : list byte := toLatin1 (str (if b then "true" else "false")).

(** One turn of the loop: the command is run and answered. *)
Definition serve (s : nat) (cmd : qstring) : M (Process S) unit :=
  let* retValue := dispatch cmd in
  modify (fun p => with_written (written p ++ [(s, reply retValue)]) p).

Fixpoint command_loop (fuel : nat) (s : nat) (cmd : qstring) : M (Process S) unit :=
  if isEmpty cmd then ret tt
  else match fuel with
       | O => fun p => (Unfinished, p)
       | Datatypes.S fuel => serve s cmd;;; let* cmd := getCommand s in command_loop fuel s cmd
       end.

(** [slotReady], with what [readAll] returns. Every turn of the loop removes
    characters from the cache. *)
Definition slotReady (s : nat) (data : list byte) : M (Process S) unit :=
  modify (fun p => with_cache (<[s := cached s p ++ fromUtf8 data]> (cache p)) p);;;
  let* fuel := gets (fun p => length (cached s p)) in
  let* cmd := getCommand s in
  command_loop fuel s cmd.

(** Bytes that arrive in pieces. *)
Fixpoint receive (s : nat) (pieces : list (list byte)) : M (Process S) unit :=
  match pieces with [] => ret tt | d :: pieces => slotReady s d;;; receive s pieces end.

End process.

(** ** Lemmas on text *)

Lemma starts_with_app p s r : starts_with p s = true -> starts_with p (s ++ r) = true.
Proof.
  revert s. induction p as [|x p IH]; intros [|y s]; simpl; try done.
  intros [-> ?]%andb_true_iff. by apply IH.
Qed.

Lemma starts_with_length p s : starts_with p s = true -> (length p <= length s)%nat.
Proof.
  revert s. induction p as [|x p IH]; intros [|y s]; simpl; try done; [lia|].
  intros [_ Hs]%andb_true_iff. specialize (IH _ Hs). lia.
Qed.

Lemma indexOf_cons p x s :
  indexOf p (x :: s) = if starts_with p (x :: s) then Some 0%nat else option_map S (indexOf p s).
Proof. done. Qed.

Lemma indexOf_prefix p a b : indexOf p (a ++ b) = None -> indexOf p a = None.
Proof.
  induction a as [|x a IH].
  - destruct p as [|y p]; simpl; [by destruct b|done].
  - simpl app. rewrite !indexOf_cons. destruct (starts_with p (x :: a)) eqn:E.
    + apply (starts_with_app p (x :: a) b) in E. simpl app in E. by rewrite E.
    + destruct (starts_with p (x :: a ++ b)); [done|]. destruct (indexOf p (a ++ b)); [done|]. by rewrite IH.
Qed.

(** Before the end of its first occurrence a text does not have it. *)
Lemma indexOf_shorter p a b n :
  p <> [] -> indexOf p (a ++ b) = Some n -> (length a < n + length p)%nat -> indexOf p a = None.
Proof.
  intros Hp. revert n. induction a as [|x a IH]; intros n; [by destruct p|].
  simpl app. rewrite !indexOf_cons. destruct (starts_with p (x :: a)) eqn:E.
  - pose proof (starts_with_app p (x :: a) b E) as E'. simpl app in E'. rewrite E'.
    intros [= <-] Hl. apply starts_with_length in E. simpl in *. lia.
  - destruct (starts_with p (x :: a ++ b)).
    + intros [= <-] Hl. enough (indexOf p a = None) as -> by done.
      clear - Hp E Hl. destruct p as [|y p]; [done|]. simpl in Hl.
      assert (length a < length (y :: p))%nat as Ha by (simpl; lia). clear - Ha.
      induction a as [|z a IHa]; [done|]. rewrite indexOf_cons. destruct (starts_with _ (z :: a)) eqn:E.
      * apply starts_with_length in E. simpl in *. lia.
      * rewrite IHa; [done|]. simpl in *. lia.
    + destruct (indexOf p (a ++ b)) as [m|] eqn:Em; [|done]. intros [= <-] Hl. rewrite (IH m); [done|done|]. simpl in Hl. lia.
Qed.

(** A text without CR LF, then CR LF. *)
Lemma indexOf_line c r : indexOf crlf c = None -> indexOf crlf (c ++ crlf ++ r) = Some (length c).
Proof.
  induction c as [|x c IH]; [done|]. rewrite <- app_comm_cons, !indexOf_cons.
  destruct (starts_with crlf (x :: c)) eqn:E; [done|]. intros Hc.
  assert (starts_with crlf (x :: c ++ crlf ++ r) = false) as ->.
  { destruct c as [|y c]; [|exact E]. unfold crlf. cbn [starts_with app]. by rewrite andb_false_r. }
  destruct (indexOf crlf c); [done|]. by rewrite IH.
Qed.

Lemma split_no_char c s : no_char c s -> split c s = [s].
Proof.
  unfold no_char. induction s as [|x s IH]; simpl; intros Hn; [done|]. destruct (Z.eqb_spec x c); [naive_solver|].
  rewrite IH by naive_solver. done.
Qed.

Lemma split_app c s r : no_char c s -> split c (s ++ c :: r) = s :: split c r.
Proof.
  unfold no_char. induction s as [|x s IH]; simpl; intros Hn; [by rewrite Z.eqb_refl|].
  destruct (Z.eqb_spec x c); [naive_solver|]. rewrite IH by naive_solver. done.
Qed.

(** [split] takes apart what [join] has put together. *)
Lemma split_join c l : l <> [] -> Forall (no_char c) l -> split c (join [c] l) = l.
Proof.
  intros Hl Hf. induction Hf as [|x l Hx Hf IH]; [done|]. destruct l as [|y l]; [by apply split_no_char|].
  change (join [c] (x :: y :: l)) with (x ++ c :: join [c] (y :: l)). rewrite split_app by done. by rewrite IH.
Qed.

(** ** The loop *)

Section behaviour.
Context {S : Type} `{ServiceApp S} `{HC : QStringConvLaws}.
Context (applicationFilePath : qstring).
Implicit Types p : Process S.
Notation serve := (serve applicationFilePath).
Notation slotReady := (slotReady applicationFilePath).
Notation command_loop := (command_loop applicationFilePath).
Notation dispatch := (dispatch applicationFilePath).

(** Commands do not touch the cache. *)
Lemma dispatch_cache cmd c p : dispatch cmd (with_cache c p) = (let '(o, p') := dispatch cmd p in (o, with_cache c p')).
Proof.
  unfold QtServiceCommands.dispatch, call, bind, gets, modify, ret. destruct p as [f ca a q w l]. simpl.
  repeat (case_bool_decide || destruct (has_flag _ _) || destruct (_ && _) || simpl); try done;
    by repeat (match goal with |- context [let '(_, _) := ?m ?x in _] => destruct (m x) as [[] ?] end; simpl).
Qed.

Lemma dispatch_sockets cmd l p : dispatch cmd (with_sockets l p) = (let '(o, p') := dispatch cmd p in (o, with_sockets l p')).
Proof.
  unfold QtServiceCommands.dispatch, call, bind, gets, modify, ret. destruct p as [f ca a q w k]. simpl.
  repeat (case_bool_decide || destruct (has_flag _ _) || destruct (_ && _) || simpl); try done;
    by repeat (match goal with |- context [let '(_, _) := ?m ?x in _] => destruct (m x) as [[] ?] end; simpl).
Qed.

(** A command changes nothing but the service object and the request to quit. *)
Lemma dispatch_frame cmd p : let p' := (dispatch cmd p).2 in
  serviceFlags p' = serviceFlags p /\ cache p' = cache p /\ written p' = written p /\ sockets p' = sockets p.
Proof.
  unfold QtServiceCommands.dispatch, call, bind, gets, modify, ret. destruct p as [f ca a q w k]. simpl.
  repeat (case_bool_decide || destruct (has_flag _ _) || destruct (_ && _) || simpl); try done;
    by repeat (match goal with |- context [let '(_, _) := ?m ?x in _] => destruct (m x) as [[] ?] end; simpl).
Qed.

Lemma serve_cache s cmd c p : serve s cmd (with_cache c p) = (let '(o, p') := serve s cmd p in (o, with_cache c p')).
Proof.
  unfold QtServiceCommands.serve, bind. rewrite dispatch_cache. destruct (dispatch cmd p) as [[b| | |] p']; try done.
  by destruct p'.
Qed.

Fixpoint serve_all (s : nat) (cmds : list qstring) : M (Process S) unit :=
  match cmds with [] => ret tt | c :: cmds => serve s c;;; serve_all s cmds end.

Lemma serve_all_cache s cmds : forall c p,
  serve_all s cmds (with_cache c p) = (let '(o, p') := serve_all s cmds p in (o, with_cache c p')).
Proof.
  induction cmds as [|cmd cmds IH]; intros c p; [done|]. cbn [serve_all]. unfold bind. rewrite serve_cache.
  by destruct (serve s cmd p) as [[[]| | |] p1].
Qed.

(** What a client may send as one command. *)
Record command (c : qstring) : Prop := {
  cmd_text : c <> [];
  cmd_ascii : Forall ascii c;
  cmd_line : indexOf crlf c = None;
}.

Definition frames (cmds : list qstring) : qstring := concat (map (fun c => c ++ crlf) cmds).

Lemma with_cache_twice c c' p : with_cache c (with_cache c' p) = with_cache c p.
Proof. by destruct p. Qed.

(** The loop runs the commands that are in the cache. *)
Lemma loop_serves s cmds rest : forall fuel p p',
  Forall command cmds -> indexOf crlf rest = None -> cached s p = frames cmds ++ rest -> (length cmds <= fuel)%nat ->
  serve_all s cmds p = (Ret tt, p') ->
  (let* cmd := getCommand s in command_loop fuel s cmd) p = (Ret tt, with_cache (<[s := rest]> (cache p)) p').
Proof.
  intros fuel p p' Hc Hr. revert fuel p p'. induction Hc as [|c cmds [Hne Hasc Hln] Hc IH]; intros fuel p p' Et Hf Es.
  - unfold getCommand, bind, gets, modify. rewrite Et. unfold frames. simpl concat. rewrite app_nil_l, Hr. simpl.
    injection Es as <-. by destruct fuel.
  - unfold frames in Et. simpl concat in Et. rewrite <- !app_assoc in Et. cbn [serve_all] in Es.
    destruct fuel as [|fuel]; simpl in Hf; [lia|].
    set (c1 := <[s := frames cmds ++ rest]> (cache p)).
    assert (getCommand s p = (Ret c, with_cache c1 p)) as Eg.
    { unfold getCommand, bind, gets, modify. rewrite Et, indexOf_line by done. unfold ret, c1. f_equal; [by rewrite take_app_length|].
      do 2 f_equal. replace (length c + 2)%nat with (length (c ++ crlf)) by (rewrite length_app; done).
      by rewrite app_assoc, drop_app_length. }
    rewrite (bind_Ret _ _ _ _ _ Eg). destruct c as [|x c]; [done|]. cbn [QtServiceCommands.command_loop isEmpty].
    unfold bind at 1 in Es. destruct (serve s (x :: c) p) as [[[]| | |] p1] eqn:E1; try done.
    pose proof (serve_cache s (x :: c) c1 p) as E1'. rewrite E1 in E1'. rewrite (bind_Ret _ _ _ _ _ E1').
    rewrite (IH fuel (with_cache c1 p1) (with_cache c1 p')).
    + rewrite with_cache_twice. unfold c1. destruct p1. simpl. by rewrite insert_insert_eq.
    + unfold cached, c1. destruct p1. simpl. by rewrite lookup_insert_eq.
    + lia.
    + by rewrite serve_all_cache, Es.
Qed.

Lemma frames_cons c cmds : frames (c :: cmds) = c ++ crlf ++ frames cmds.
Proof. unfold frames. simpl. by rewrite <- app_assoc. Qed.

Lemma frames_length cmds : (length cmds <= length (frames cmds))%nat.
Proof. induction cmds as [|c cmds IH]; [done|]. rewrite frames_cons, !length_app. simpl. lia. Qed.

(** A part of the stream is some commands and the beginning of the next. *)
Lemma frames_prefix rest b : forall cmds a,
  Forall command cmds -> indexOf crlf rest = None -> a ++ b = frames cmds ++ rest ->
  exists cmds1 cmds2 r, cmds = cmds1 ++ cmds2 /\ a = frames cmds1 ++ r /\ indexOf crlf r = None /\ r ++ b = frames cmds2 ++ rest.
Proof.
  intros cmds a Hc Hr. revert a. induction Hc as [|c cmds [Hne Hasc Hln] Hc IH]; intros a Ea.
  - exists [], [], a. split_and!; try done. apply (indexOf_prefix crlf a b). by rewrite Ea.
  - rewrite frames_cons, <- !app_assoc in Ea. destruct (decide (length a < length c + 2)%nat) as [Hl|Hl].
    + exists [], (c :: cmds), a. split_and!; try done; [|by rewrite frames_cons, <- !app_assoc].
      apply (indexOf_shorter crlf a b (length c)); [done| |done]. rewrite Ea. by apply indexOf_line.
    + assert (exists a', a = c ++ crlf ++ a') as [a' ->].
      { exists (drop (length (c ++ crlf)) a). rewrite app_assoc. rewrite <- (take_drop (length (c ++ crlf)) a) at 1. f_equal.
        transitivity (take (length (c ++ crlf)) (a ++ b)).
        - rewrite take_app_le; [done|]. rewrite length_app. simpl. lia.
        - rewrite Ea, app_assoc. apply take_app_length. }
      rewrite <- !app_assoc in Ea. apply app_inv_head, app_inv_head in Ea.
      destruct (IH a' Ea) as (c1 & c2 & r & -> & -> & ? & ?). exists (c :: c1), c2, r.
      split_and!; try done. by rewrite frames_cons, <- !app_assoc.
Qed.

Lemma slotReady_serves s data cmds rest p p' :
  Forall command cmds -> indexOf crlf rest = None -> cached s p ++ fromUtf8 data = frames cmds ++ rest ->
  serve_all s cmds p = (Ret tt, p') ->
  slotReady s data p = (Ret tt, with_cache (<[s := rest]> (cache p)) p').
Proof.
  intros Hc Hr Et Es. unfold QtServiceCommands.slotReady. erewrite bind_Ret by (unfold modify; rewrite Et; reflexivity).
  erewrite bind_Ret by reflexivity.
  set (p1 := with_cache (<[s := frames cmds ++ rest]> (cache p)) p).
  assert (cached s p1 = frames cmds ++ rest) as E1 by (unfold cached, p1; destruct p; simpl; by rewrite lookup_insert_eq).
  rewrite (loop_serves s cmds rest (length (cached s p1)) p1 (with_cache (cache p1) p')); try done.
  - rewrite with_cache_twice. unfold p1. destruct p. simpl. by rewrite insert_insert_eq.
  - rewrite E1, length_app. pose proof (frames_length cmds). lia.
  - unfold p1 at 1. rewrite serve_all_cache, Es. unfold p1. by destruct p.
Qed.

Lemma ascii_bytes s : Forall ascii s -> Forall (fun b => ascii (Z_of_byte b)) (map byte_of_Z s) /\ map Z_of_byte (map byte_of_Z s) = s.
Proof.
  induction 1 as [|c s Hc Hs [IH1 IH2]]; [done|]. simpl. rewrite Z_of_byte_of_Z, u8_small, IH2 by (unfold is_u8, ascii in *; lia).
  split; [|done]. constructor; [|done]. by rewrite Z_of_byte_of_Z, u8_small by (unfold is_u8, ascii in *; lia).
Qed.

Lemma frames_ascii cmds : Forall command cmds -> Forall ascii (frames cmds).
Proof.
  induction 1 as [|c cmds [? Hasc ?] Hc IH]; [done|]. rewrite frames_cons. rewrite !Forall_app. split_and!; try done.
  repeat constructor; done.
Qed.

(** Commands in pieces. *)
Lemma receive_serves s rest : forall pieces cmds p p',
  Forall command cmds -> Forall ascii rest -> indexOf crlf rest = None ->
  Forall (fun b => ascii (Z_of_byte b)) (concat pieces) ->
  cached s p ++ map Z_of_byte (concat pieces) = frames cmds ++ rest -> indexOf crlf (cached s p) = None ->
  serve_all s cmds p = (Ret tt, p') ->
  exists c, receive applicationFilePath s pieces p = (Ret tt, with_cache c p')
    /\ default [] (c !! s) = rest /\ forall s', s' <> s -> c !! s' = cache p !! s'.
Proof.
  induction pieces as [|d pieces IH]; intros cmds p p' Hc Ha Hr Hb Et Hn Es.
  - simpl in Et. rewrite app_nil_r in Et. destruct cmds as [|c cmds].
    + exists (cache p). cbn in Es. injection Es as <-. split; [by destruct p|]. split; [exact Et|done].
    + exfalso. rewrite Et, frames_cons, <- !app_assoc in Hn. inversion Hc as [|? ? [? ? Hl] ?]. by rewrite indexOf_line in Hn.
  - simpl concat in *. rewrite Forall_app in Hb. destruct Hb as [Hd Hb]. rewrite map_app, app_assoc in Et.
    destruct (frames_prefix rest _ cmds (cached s p ++ map Z_of_byte d) Hc Hr Et) as (c1 & c2 & r & -> & E1 & Hrn & E2).
    apply Forall_app in Hc as [Hc1 Hc2].
    assert (exists p1, serve_all s c1 p = (Ret tt, p1) /\ serve_all s c2 p1 = (Ret tt, p')) as (p1 & Es1 & Es2).
    { clear - Es. revert p Es. induction c1 as [|c c1 IH]; intros p Es; [by exists p|]. cbn [serve_all app] in *.
      unfold bind in *. destruct (serve s c p) as [[[]| | |] p0]; try done. by apply IH. }
    cbn [receive]. rewrite <- (fromUtf8_ascii d Hd) in E1.
    rewrite (bind_Ret _ _ _ _ _ (slotReady_serves s d c1 r p p1 Hc1 Hrn E1 Es1)).
    set (q := with_cache _ p1). assert (cached s q = r) as Eq by (unfold cached, q; destruct p1; simpl; by rewrite lookup_insert_eq).
    destruct (IH c2 q (with_cache (cache q) p')) as (c & Er & Hcs & Ho); try done.
    + by rewrite Eq.
    + by rewrite Eq.
    + unfold q at 1. rewrite serve_all_cache, Es2. unfold q. by destruct p1.
    + exists c. rewrite with_cache_twice in Er. split; [exact Er|]. split; [done|]. intros s' Hs'. rewrite (Ho s' Hs').
      unfold q. destruct p1. simpl. by rewrite lookup_insert_ne by congruence.
Qed.

(** ** Termination *)

Lemma indexOf_bound t : forall n, indexOf crlf t = Some n -> (n + 2 <= length t)%nat.
Proof.
  induction t as [|x t IH]; intros n; [done|]. rewrite indexOf_cons. destruct (starts_with crlf (x :: t)) eqn:E.
  - intros [= <-]. by apply starts_with_length in E.
  - destruct (indexOf crlf t) as [m|]; [|done]. intros [= <-]. specialize (IH m eq_refl). simpl. lia.
Qed.

(** Every function of the service object comes to an end. *)
Definition ends {T A} (m : M T A) : Prop := forall x, (m x).1 <> Unfinished.

Record calls_end : Prop := {
  stop_ends : ends app_stop;
  pause_ends : ends app_pause;
  resume_ends : ends app_resume;
  command_ends : forall n, ends (app_processCommand n);
  commands_ends : forall l, ends (app_processCommands l);
}.

Lemma call_ends {A} (m : M S A) (k : A -> M (Process S) bool) : ends m -> (forall a, ends (k a)) -> ends (bind (call m) k).
Proof.
  intros Hm Hk p. unfold bind, call. specialize (Hm (service_object p)). destruct (m (service_object p)) as [[a| | |] x]; try done. apply Hk.
Qed.

Lemma dispatch_ends cmd : calls_end -> ends (dispatch cmd).
Proof.
  intros [H1 H2 H3 H4 H5] p. unfold QtServiceCommands.dispatch.
  repeat (case_bool_decide || destruct (_ && _)); try done; unfold bind at 1, gets; try destruct (has_flag _ _); try done;
    try (by apply call_ends).
Qed.

Lemma serve_keeps s cmd p : cache (serve s cmd p).2 = cache p.
Proof.
  pose proof (serve_cache s cmd (cache p) p) as E. replace (with_cache (cache p) p) with p in E by (by destruct p).
  destruct (serve s cmd p) as [o p1]. injection E as ->. by destruct p1.
Qed.

Lemma getCommand_value s p :
  getCommand s p = match indexOf crlf (cached s p) with
    | Some pos => (Ret (take pos (cached s p)), with_cache (<[s := drop (pos + 2) (cached s p)]> (cache p)) p)
    | None => (Ret [], with_cache (<[s := cached s p]> (cache p)) p)
    end.
Proof. unfold getCommand, bind, gets. by destruct (indexOf _ _). Qed.

Lemma loop_ends s : calls_end -> forall fuel p, (length (cached s p) <= fuel)%nat ->
  ((let* cmd := getCommand s in command_loop fuel s cmd) p).1 <> Unfinished.
Proof.
  intros Hcalls fuel. induction fuel as [|fuel IH]; intros p Hf; unfold bind at 1; rewrite getCommand_value;
    (destruct (indexOf crlf (cached s p)) as [pos|] eqn:Ei; [|done]); apply indexOf_bound in Ei; [lia|].
  set (q := with_cache _ p).
  assert (length (cached s q) <= fuel)%nat as Hq.
  { unfold cached at 1, q. destruct p. simpl in *. rewrite lookup_insert_eq. simpl. rewrite length_drop.
    unfold cached in *. simpl in *. lia. }
  destruct (take pos (cached s p)) as [|x cmd]; [done|]. cbn [QtServiceCommands.command_loop isEmpty]. unfold bind at 1.
  assert (ends (serve s (x :: cmd))) as Hse.
  { intros r. unfold QtServiceCommands.serve, bind. pose proof (dispatch_ends (x :: cmd) Hcalls r) as Hd.
    by destruct (dispatch (x :: cmd) r) as [[]]. }
  specialize (Hse q). pose proof (serve_keeps s (x :: cmd) q) as Hk.
  destruct (serve s (x :: cmd) q) as [[[]| | |] r]; try done. apply IH. unfold cached in *. simpl in Hk. by rewrite Hk.
Qed.

(** The loop of [slotReady] ends, whatever has arrived. *)
Theorem slotReady_ends s data : calls_end -> ends (slotReady s data).
Proof.
  intros Hcalls p. unfold QtServiceCommands.slotReady. erewrite bind_Ret by reflexivity. erewrite bind_Ret by reflexivity.
  by apply loop_ends.
Qed.

End behaviour.
