(* ===== verification/QtService.v ===== *)
(** * Qt_Service: controlling and running a service

    [src/qtservice/src/qtservice.cpp] and [qtservice_unix.cpp], with
    [qtunixsocket.cpp] and [qtunixserversocket.cpp]: [QtServiceController]
    (installation in the system's settings, commands over the socket of a
    running service) and [QtServiceBase] (the command line of a service
    program, and the run of the service). The state is that of the machine:
    the settings, the socket files and who listens on them, the processes of
    services. *)

From stdpp Require Import gmap.
From S2P Require Import Prelude QtString QtServiceCommands.

(** ** The system's settings

    [QSettings(QSettings::SystemScope, "QtSoftware")] below the group
    [services]: a group of values per service. *)

Inductive setting := Set_text (s : qstring) | Set_int (n : Z).
Inductive status := NoError | AccessError | FormatError.

Class ServiceSettings (R : Type) := {
  childGroups : R -> list qstring;
  set_value : qstring -> qstring -> R -> option setting;
  setValue : qstring -> qstring -> setting -> R -> R;
  remove : qstring -> R -> R;
  sync : R -> status * R;
}.

(** Documented behaviour, for a service name that is a single group. *)
Definition ch_slash : Z := Eval vm_compute in chr "/"%char.
Definition single (name : qstring) : Prop := name <> [] /\ no_char ch_slash name.

Class ServiceSettingsLaws (R : Type) `{ServiceSettings R} := {
  groups_set : forall g k v (r : R) g', single g -> In g' (childGroups (setValue g k v r)) <-> g' = g \/ In g' (childGroups r);
  value_of_set : forall g k v (r : R), set_value g k (setValue g k v r) = Some v;
  value_of_other : forall g k v (r : R) g' k', (g', k') <> (g, k) -> set_value g' k' (setValue g k v r) = set_value g' k' r;
  groups_removed : forall g (r : R) g', single g -> In g' (childGroups (remove g r)) <-> g' <> g /\ In g' (childGroups r);
  values_kept : forall g (r : R) g' k, single g -> single g' -> g' <> g -> set_value g' k (remove g r) = set_value g' k r;
  synced : forall (r : R), (sync r).1 = NoError ->
    (forall g, In g (childGroups (sync r).2) <-> In g (childGroups r)) /\ (forall g k, set_value g k (sync r).2 = set_value g k r);
}.

(** [toString] and [toInt] of a value that may be missing. *)
Definition text_of (v : option setting) : qstring :=
  match v with Some (Set_text s) => s | Some (Set_int n) => number_int n | None => [] end.

Inductive StartupType := AutoStartup | ManualStartup.
Definition startup_code (t : StartupType) : Z := match t with AutoStartup => 0 | ManualStartup => 1 end.

(** ** Files *)

(** [QDir] and [QFileInfo]: the directory reached from the current one, the
    absolute path of a directory, of the directory of a file, the name of a
    file, a file in a directory, and whether a file exists. *)
Class QDirs := {
  current_cd : qstring -> qstring;
  dir_absolutePath : qstring -> qstring;
  file_absolutePath : qstring -> qstring;
  fileName : qstring -> qstring;
  absoluteFilePath : qstring -> qstring -> qstring;
  file_exists : qstring -> bool;
}.

Module Qt_Service.

(** ** Names *)

Definition legal_chars (allowUpper : bool) : qstring :=
  str "abcdefghijklmnopqrstuvwxyz1234567890"
  ++ (if allowUpper then str "ABCDEFGHIJKLMNOPQRSTUVWXYZ" else []).
Definition legal (allowUpper : bool) (c : Z) : bool := existsb (Z.eqb c) (legal_chars allowUpper).

(** The loop of [encodeName]. *)
Fixpoint encode_loop (allowUpper : bool) (fuel pos : nat) (n : qstring) : outcome qstring :=
  if (length n <=? pos)%nat then Ret n
  else match fuel with
       | O => Unfinished
       | S fuel =>
           match n !! pos with
           | Some c => if legal allowUpper c then encode_loop allowUpper fuel (S pos) n
                       else encode_loop allowUpper fuel pos (delete pos n)
           | None => Undef
           end
       end.

Section names.
Context `{QStringConv}.

Definition encodeName (name : qstring) (allowUpper : bool) : outcome qstring :=
  encode_loop allowUpper (length (toLower name)) 0 (toLower name).

(** [login] is the name of the user, or empty. *)
Definition socketPath (login serviceName : qstring) : outcome qstring :=
  match encodeName serviceName false with
  | Ret sn => Ret (str "/var/tmp/" ++ sn ++ str "." ++ login)
  | o => o
  end.

End names.

(** The last ['/'] of a path. *)
Fixpoint lastIndexOf (c : Z) (s : qstring) : option nat :=
  match s with
  | [] => None
  | x :: s => match lastIndexOf c s with Some n => Some (S n) | None => if x =? c then Some 0%nat else None end
  end.

Section paths.
Context `{QDirs}.

(** The search of [$PATH]. *)
Fixpoint search_path (path : qstring) (envPaths : list qstring) : qstring :=
  match envPaths with
  | [] => []
  | d :: envPaths => if file_exists (d ++ str "/" ++ path) then dir_absolutePath d else search_path path envPaths
  end.

Definition ch_colon : Z := Eval vm_compute in chr ":"%char.

(** [path[0]] of an empty constant string is outside of it. *)
Definition absPath (envPath : option qstring) (path : qstring) : outcome qstring :=
  match path with
  | [] => Undef
  | c :: _ =>
      if negb (c =? ch_slash) then
        match lastIndexOf ch_slash path with
        | Some slashpos => Ret (current_cd (take slashpos path))
        | None => Ret (match envPath with Some e => search_path path (split ch_colon e) | None => [] end)
        end
      else Ret (file_absolutePath path)
  end.

Definition filePath (envPath : option qstring) (args : list qstring) : outcome qstring :=
  match args with
  | [] => Ret []
  | a :: _ =>
      match absPath envPath a with
      | Ret dir => Ret (absoluteFilePath dir (fileName a))
      | o => o
      end
  end.

End paths.

(** ** The machine *)

Record machine (R S : Type) := mkMachine {
  registry : R;
  listeners : gmap qstring nat;          (** socket files: the process listening there *)
  processes : gmap nat (Process S);
  started : list (qstring * list qstring); (** processes started: program and arguments *)
  env_run : bool;                        (** [QTSERVICE_RUN] is in the environment *)
}.
Arguments mkMachine {R S}.
Arguments registry {R S}.
Arguments listeners {R S}.
Arguments processes {R S}.
Arguments started {R S}.
Arguments env_run {R S}.

(** What the operating system does: the user, [$PATH], whether sockets and
    processes can be made, how the bytes of a connection are cut into pieces
    and the address of the object made for it. *)
Record os := {
  os_login : qstring;
  os_path : option qstring;
  os_socket : bool;
  os_bind : qstring -> bool;
  os_startDetached : qstring -> bool;
  os_pieces : list byte -> list (list byte);
  os_address : nat;
  os_applicationFilePath : qstring;
}.

Section machine.
Context {R S : Type} `{ServiceSettings R} `{ServiceApp S} `{QStringConv} `{QDirs}.
Context (env : os).
Abbreviation MM := (M (machine R S)).

Definition with_registry v (m : machine R S) : machine R S := let '(mkMachine _ l p s e) := m in mkMachine v l p s e.
Definition with_listeners v (m : machine R S) : machine R S := let '(mkMachine r _ p s e) := m in mkMachine r v p s e.
Definition with_processes v (m : machine R S) : machine R S := let '(mkMachine r l _ s e) := m in mkMachine r l v s e.
Definition with_started v (m : machine R S) : machine R S := let '(mkMachine r l p _ e) := m in mkMachine r l p v e.
Definition with_env_run v (m : machine R S) : machine R S := let '(mkMachine r l p s _) := m in mkMachine r l p s v.

Definition lift {A} (o : outcome A) : MM A := fun m => (o, m).

(** *** Sockets *)

Definition sizeof_sun_path : Z := 108.

(** [QtUnixSocket::connectTo]: the process at the other end. A path that
    fills [sun_path] has no end there, and [SUN_LEN] reads on. *)
Definition connectTo (path : qstring) : MM (option nat) :=
  if negb (os_socket env) then ret None
  else if sizeof_sun_path <=? zlen (c_str (toLatin1 path)) then undef
  else
    let* l := gets listeners in
    let* ps := gets processes in
    ret (match l !! path with Some pid => if ps !! pid then Some pid else None | None => None end).

(** [QtUnixServerSocket::setPath] of process [pid]; the path it has then. *)
Definition setPath (pid : nat) (path : qstring) : MM qstring :=
  if negb (os_socket env) then ret []
  else
    modify (fun m => with_listeners (delete path (listeners m)) m);;;
    if sizeof_sun_path <=? zlen (c_str (toLatin1 path)) then undef
    else if os_bind env path then modify (fun m => with_listeners (<[path := pid]> (listeners m)) m);;; ret path
    else ret [].

(** [QtUnixServerSocket::close]: the file is removed whoever made it; the
    process listens no more. *)
Definition close (pid : nat) (path_ : qstring) : MM unit :=
  modify (fun m => with_listeners (filter (fun kv => kv.2 <> pid) (listeners m)) m);;;
  when (negb (isEmpty path_)) (modify (fun m => with_listeners (delete path_ (listeners m)) m)).

(** *** sendCmd *)

(** What process [p] wrote to connection [s] after what [old] says. *)
Definition answer (s : nat) (old new : Process S) : list byte :=
  concat (map snd (filter (fun w => w.1 = s) (drop (length (written old)) (written new)))).

Definition process_of (pid : nat) (m : machine R S) : option (Process S) := processes m !! pid.

(** The other process serves the connection. It ends by an exception or by
    undefined behaviour in its handler, and the connection with it; without
    an answer, [waitForReadyRead(-1)] does not return. *)
Definition exchange (pid : nat) (bytes : list byte) : MM qstring :=
  let* q := gets (process_of pid) in
  match q with
  | None => ret []
  | Some p =>
      let s := os_address env in
      let '(o, p') := (incomingConnection s;;; receive (os_applicationFilePath env) s (os_pieces env bytes)) p in
      match o with
      | Ret tt =>
          match answer s p p' with
          | [] => fun m => (Unfinished, with_processes (<[pid := p']> (processes m)) m)
          | a => let '(_, p'') := slotClosed s p' in
                 modify (fun m => with_processes (<[pid := p'']> (processes m)) m);;; ret (fromUtf8 a)
          end
      | Unfinished => fun m => (Unfinished, m)
      | Throw | Undef => modify (fun m => with_processes (delete pid (processes m)) m);;; ret []
      end
  end.

Definition sendCmd (serviceName cmd : qstring) : MM bool :=
  let* path := lift (socketPath (os_login env) serviceName) in
  let* sock := connectTo path in
  match sock with
  | Some pid =>
      let* reply := exchange pid (c_str (toLatin1 (cmd ++ crlf))) in
      ret (bool_decide (reply = str "true"))
  | None => ret false
  end.

(** ** QtServiceController *)

Definition serviceDescription (name : qstring) (m : machine R S) : qstring :=
  text_of (set_value name (str "description") (registry m)).

(** The number is cast to the enumeration. *)
Definition startupType (name : qstring) (m : machine R S) : Z :=
  match set_value name (str "startupType") (registry m) with
  | Some (Set_int n) => n
  | Some (Set_text t) => toInt t
  | None => 0
  end.

Definition serviceFilePath (name : qstring) (m : machine R S) : qstring :=
  text_of (set_value name (str "path") (registry m)).

Definition save_registry (r : R) : MM bool :=
  let '(st, r') := sync r in
  modify (with_registry r');;; ret (match st with NoError => true | _ => false end).

Definition uninstall (name : qstring) : MM bool :=
  let* r := gets registry in save_registry (remove name r).

Definition isInstalled (name : qstring) (m : machine R S) : bool :=
  existsb (fun g => bool_decide (g = name)) (childGroups (registry m)).

Definition isRunning (name : qstring) : MM bool :=
  let* path := lift (socketPath (os_login env) name) in
  let* sock := connectTo path in
  ret (match sock with Some _ => true | None => false end).

Definition startDetached (program : qstring) (arguments : list qstring) : MM bool :=
  if os_startDetached env program then modify (fun m => with_started (started m ++ [(program, arguments)]) m);;; ret true
  else ret false.

Definition controller_start (name : qstring) (arguments : list qstring) : MM bool :=
  let* installed := gets (isInstalled name) in
  if negb installed then ret false
  else
    let* running := isRunning name in
    if running : bool then ret false
    else let* path := gets (serviceFilePath name) in startDetached path arguments.

(** [QtServiceController::install]: the program of the service is run, with a
    result that is zero when it has installed itself. *)
Definition controller_install (execute : qstring -> list qstring -> MM Z) (path account password : qstring) : MM bool :=
  let* code := execute path [str "-i"; account; password] in ret (code =? 0).

Definition controller_stop (name : qstring) : MM bool := sendCmd name (str "terminate").
Definition controller_pause (name : qstring) : MM bool := sendCmd name (str "pause").
Definition controller_resume (name : qstring) : MM bool := sendCmd name (str "resume").
Definition sendCommand (name : qstring) (code : Z) : MM bool := sendCmd name (str "num:" ++ number_int code).
Definition sendCommands (name : qstring) (cmdList : list qstring) : MM bool :=
  sendCmd name (str "list:" ++ join [ch_bar] cmdList).

End machine.

(** ** QtServiceBase *)

Record Base (S : Type) := mkBase {
  serviceName_ : qstring;
  serviceDescription_ : qstring;
  startupType_ : StartupType;
  serviceFlags_ : Z;
  args_ : list qstring;
  is_immediately_ : bool;
  object_ : S;                              (** the members of the derived class *)
  ident_ : option qstring;                  (** [sysd->ident] *)
  syslog_ : list (qstring * Z * qstring);   (** written to the system's log *)
}.
Arguments mkBase {S}.
Arguments serviceName_ {S}.
Arguments serviceDescription_ {S}.
Arguments startupType_ {S}.
Arguments serviceFlags_ {S}.
Arguments args_ {S}.
Arguments is_immediately_ {S}.
Arguments object_ {S}.
Arguments ident_ {S}.
Arguments syslog_ {S}.

Definition ch_backslash : Z := 92.

(** The constructor: a long name is cut, backslashes become zeros. *)
Definition make {S} (argv : list qstring) (name : qstring) (object : S) : Base S :=
  let nm := if 255 <? zlen name then ztake 255 name else name in
  {| serviceName_ := map (fun c => if c =? ch_backslash then 0 else c) nm; serviceDescription_ := [];
     startupType_ := ManualStartup; serviceFlags_ := ServiceFlag.Default; args_ := argv; is_immediately_ := false;
     object_ := object; ident_ := None; syslog_ := [] |}.

Record service (R S : Type) := mkService { mach : machine R S; base : Base S }.
Arguments mkService {R S}.
Arguments mach {R S}.
Arguments base {R S}.

(** What happens in the event loop of the service process. *)
Inductive loop_event := Ev_start | Ev_connect (s : nat) | Ev_ready (s : nat) (data : list byte) | Ev_closed (s : nat).

Inductive MessageType := Success | Error | Warning | Information.
Definition LOG_ERR : Z := 3.
Definition LOG_WARNING : Z := 4.
Definition LOG_INFO : Z := 6.

Section base.
Context {R S : Type} `{ServiceSettings R} `{ServiceApp S} `{QStringConv} `{QDirs}.
(** [pid] is the process that runs this program. *)
Context (env : os) (pid : nat).
Abbreviation SV := (M (service R S)).

Definition setServiceDescription d (b : Base S) : Base S := let '(mkBase n _ t f a i o x y) := b in mkBase n d t f a i o x y.
Definition setStartupType t (b : Base S) : Base S := let '(mkBase n d _ f a i o x y) := b in mkBase n d t f a i o x y.
Definition with_serviceFlags f (b : Base S) : Base S := let '(mkBase n d t _ a i o x y) := b in mkBase n d t f a i o x y.
Definition with_args a (b : Base S) : Base S := let '(mkBase n d t f _ i o x y) := b in mkBase n d t f a i o x y.
Definition with_immediately i (b : Base S) : Base S := let '(mkBase n d t f a _ o x y) := b in mkBase n d t f a i o x y.
Definition with_object o (b : Base S) : Base S := let '(mkBase n d t f a i _ x y) := b in mkBase n d t f a i o x y.
Definition with_log x y (b : Base S) : Base S := let '(mkBase n d t f a i o _ _) := b in mkBase n d t f a i o x y.

Definition on_machine {A} (m : M (machine R S) A) : SV A :=
  fun s => let '(o, m') := m (mach s) in (o, mkService m' (base s)).
Definition on_base (f : Base S -> Base S) : SV unit := modify (fun s => mkService (mach s) (f (base s))).

(** A change of flags reaches the running service too. *)
Definition setServiceFlags (flags : Z) : SV unit :=
  let* old := gets (fun s => serviceFlags_ (base s)) in
  if old =? flags then ret tt
  else
    on_base (with_serviceFlags flags);;;
    on_machine (modify (fun m => with_processes (alter (with_flags flags) pid (processes m)) m)).

(** [logMessage]: line by line, for a service that runs. *)
Definition logMessage (message : qstring) (type : MessageType) : SV unit :=
  let* s := gets (fun s => s) in
  match processes (mach s) !! pid with
  | None => ret tt
  | Some _ =>
      let st := match type with Error => LOG_ERR | Warning => LOG_WARNING | _ => LOG_INFO end in
      let* ident := match ident_ (base s) with
                    | Some i => ret i
                    | None => fun s' => (encodeName (serviceName_ (base s)) true, s')
                    end in
      on_base (with_log (Some ident) (syslog_ (base s) ++ map (fun line => (ident, st, line)) (split 10 message)))
  end.

Definition install : SV bool :=
  let* s := gets (fun s => s) in
  let b := base s in
  let name := serviceName_ b in
  let* path := (fun s' => (filePath (os_path env) (args_ b), s')) in
  on_machine (save_registry
    (setValue name (str "automaticStartup") (Set_int (startup_code (startupType_ b)))
      (setValue name (str "description") (Set_text (serviceDescription_ b))
        (setValue name (str "path") (Set_text path) (registry (mach s)))))).

(** [QtServiceBasePrivate::start] *)
Definition private_start : SV bool :=
  let* b := gets base in
  let* running := on_machine (sendCmd env (serviceName_ b) (str "alive")) in
  if running : bool then ret false
  else
    on_machine (modify (with_env_run true));;;
    let* path := (fun s' => (filePath (os_path env) (args_ b), s')) in
    on_machine (startDetached env path (drop 1 (args_ b))).

(** *** run *)

Definition sysInit : SV unit :=
  let* b := gets base in
  on_machine (modify (fun m => with_processes (<[pid := sys_make (serviceFlags_ b) (object_ b)]> (processes m)) m)).

Definition sysSetPath : SV qstring :=
  let* b := gets base in
  let* path := on_machine (lift (socketPath (os_login env) (serviceName_ b))) in
  on_machine (setPath env pid path).

Definition sysCleanup (path_ : qstring) : SV unit :=
  on_machine (close pid path_);;;
  let* s := gets (fun s => s) in
  match processes (mach s) !! pid with
  | Some p =>
      on_base (fun b => with_object (service_object p) (with_log None (syslog_ b) b));;;
      on_machine (modify (fun m => with_processes (delete pid (processes m)) m))
  | None => ret tt
  end.

Definition handle_event (e : loop_event) : M (Process S) unit :=
  match e with
  | Ev_start => call app_start
  | Ev_connect s => incomingConnection s
  | Ev_ready s data => slotReady (os_applicationFilePath env) s data
  | Ev_closed s => slotClosed s
  end.

(** The loop ends when [quit] has been called; otherwise it delivers what is
    posted before it takes the next event. *)
Fixpoint event_loop (events : list loop_event) : M (Process S) unit :=
  match events with
  | [] => fun p => (Unfinished, p)
  | e :: events =>
      handle_event e;;;
      let* q := gets quit_called in
      if q : bool then ret tt else call app_events;;; event_loop events
  end.

Definition executeApplication (events : list loop_event) : SV unit :=
  fun s =>
    match processes (mach s) !! pid with
    | Some p =>
        let '(o, p') := event_loop events p in
        (o, mkService (with_processes (<[pid := p']> (processes (mach s))) (mach s)) (base s))
    | None => (Undef, s)
    end.

(** [run], as a service: on Unix both callers ask for that. [quit] makes the
    result zero. *)
Definition run (events : list loop_event) : SV Z :=
  sysInit;;;
  let* path_ := sysSetPath in
  executeApplication events;;;
  sysCleanup path_;;;
  ret 0.

(** *** exec *)

Definition is_option (a : qstring) (short long : String.string) : bool :=
  bool_decide (a = str short) || bool_decide (a = str long).

(** The output to the terminal is left out. *)
Definition exec (events : list loop_event) : SV Z :=
  let* s := gets (fun s => s) in
  let name := serviceName_ (base s) in
  let args := args_ (base s) in
  let default_action :=
    if env_run (mach s) then run events
    else let* ok := private_start in ret (if ok : bool then 0 else -4) in
  match args with
  | _ :: a :: rest =>
      if is_option a "-i" "-install" then
        if negb (isInstalled name (mach s)) then
          let* ok := install in ret (if ok : bool then 0 else -1)
        else ret 0
      else if is_option a "-u" "-uninstall" then
        if isInstalled name (mach s) then
          let* ok := on_machine (uninstall name) in ret (if ok : bool then 0 else -1)
        else ret 0
      else if is_option a "-v" "-version" then
        on_machine (isRunning env name);;; ret 0
      else if is_option a "-e" "-exec" then
        on_base (with_args (delete 1%nat args));;;
        on_base (with_immediately true);;;
        run events
      else if is_option a "-t" "-terminate" then
        on_machine (controller_stop env name);;; ret 0
      else if is_option a "-p" "-pause" then
        on_machine (controller_pause env name);;; ret 0
      else if is_option a "-r" "-resume" then
        on_machine (controller_resume env name);;; ret 0
      else if is_option a "-c" "-command" then
        on_machine (sendCommand env name (match rest with n :: _ => toInt n | [] => 0 end));;; ret 0
      else if is_option a "-l" "-list" then
        on_base (with_args rest);;;
        match rest with
        | [] => ret 0
        | _ => on_machine (sendCommands env name rest);;; ret 0
        end
      else if is_option a "-h" "-help" then ret 0
      else default_action
  | _ => default_action
  end.

End base.
End Qt_Service.
