(* ===== verification/QtServiceProofs.v ===== *)
(** * Qt_Service: theorems

    The commands of a controller reach the service, whatever the pieces they
    arrive in; names; installation; the life of a service, alone and with the
    service object of [src/Service]. *)

From stdpp Require Import gmap.
From S2P Require Import Prelude QtString QtServiceCommands QtService ServiceObject.
Import Qt_Service.

(** ** Names *)

Lemma encode_loop_filter up : forall fuel pre n,
  (length n <= fuel)%nat -> Forall (fun c => legal up c = true) pre ->
  encode_loop up fuel (length pre) (pre ++ n) = Ret (pre ++ List.filter (legal up) n).
Proof.
  induction fuel as [|fuel IH]; intros pre n Hf Hp; cbn [encode_loop];
    rewrite length_app; destruct (Nat.leb_spec (length pre + length n) (length pre)) as [Hl|Hl].
  - destruct n; simpl in *; [done|lia].
  - lia.
  - destruct n; simpl in *; [done|lia].
  - destruct n as [|c n]; simpl in Hl, Hf; [lia|]. rewrite list_lookup_middle by done.
    cbn [List.filter]. destruct (legal up c) eqn:Ec.
    + replace (pre ++ c :: n) with ((pre ++ [c]) ++ n) by (by rewrite <- app_assoc).
      replace (S (length pre)) with (length (pre ++ [c])) by (rewrite length_app; simpl; lia).
      rewrite IH; [by rewrite <- app_assoc|lia|]. apply Forall_app. split; [done|]. by constructor.
    + rewrite delete_middle. apply IH; [lia|done].
Qed.

Section names.
Context `{HC : QStringConvLaws}.

(** The loop keeps exactly the legal characters of the name in lower case. *)
Theorem encodeName_filter name up : encodeName name up = Ret (List.filter (legal up) (toLower name)).
Proof. unfold encodeName. apply (encode_loop_filter up _ [] (toLower name)); [lia|done]. Qed.

(** Names that differ in other characters only, or in case, have the same
    socket: the services cannot be told apart. *)
Lemma socketPath_shared login name name' :
  List.filter (legal false) (toLower name) = List.filter (legal false) (toLower name') ->
  socketPath login name = socketPath login name'.
Proof. unfold socketPath. rewrite !encodeName_filter. by intros ->. Qed.

End names.

(** ** Commands of a controller *)

Section commands.
Context {R S : Type} `{ServiceSettings R} `{ServiceApp S} `{HC : QStringConvLaws} `{QDirs}.
Context (env : os).
Implicit Types (m : machine R S) (p : Process S).

(** Process [pid] listens on the socket of service [name]. *)
Record running name m pid p : Prop := {
  ru_socket : os_socket env = true;
  ru_path : exists path, socketPath (os_login env) name = Ret path /\ zlen (c_str (toLatin1 path)) < sizeof_sun_path
            /\ listeners m !! path = Some pid;
  ru_process : processes m !! pid = Some p;
  ru_pieces : forall bs, concat (os_pieces env bs) = bs;
  ru_fresh : cached (os_address env) p = [];
}.

Lemma running_connects name m pid p : running name m pid p ->
  exists path, socketPath (os_login env) name = Ret path /\ connectTo env path m = (Ret (Some pid), m).
Proof.
  intros [Hs (path & Ep & Hl & Hm) Hp _ _]. exists path. split; [done|]. unfold connectTo. rewrite Hs. simpl.
  destruct (Z.leb_spec sizeof_sun_path (zlen (c_str (toLatin1 path)))); [lia|].
  unfold bind, gets, ret. by rewrite Hm, Hp.
Qed.

Lemma c_str_ascii s : Forall ascii s -> c_str (map byte_of_Z s) = map byte_of_Z s.
Proof.
  induction 1 as [|c s Hc Hs IH]; [done|]. simpl. unfold ascii in Hc. rewrite Z_of_byte_of_Z, u8_small by (unfold is_u8; lia).
  destruct (Z.eqb_spec c 0); [lia|]. by rewrite IH.
Qed.

Lemma command_bytes cmd : Forall ascii cmd -> c_str (toLatin1 (cmd ++ crlf)) = map byte_of_Z (cmd ++ crlf).
Proof.
  intros Hc. assert (Forall ascii (cmd ++ crlf)) as Ha by (apply Forall_app; split; [done|repeat constructor; done]).
  rewrite toLatin1_ascii by done. by apply c_str_ascii.
Qed.

Lemma reply_read b : reply b <> [] /\ bool_decide (fromUtf8 (reply b) = str "true") = b.
Proof.
  unfold reply. destruct b.
  - rewrite toLatin1_ascii by (repeat constructor; done). rewrite fromUtf8_ascii by (repeat constructor; done). done.
  - rewrite toLatin1_ascii by (repeat constructor; done). rewrite fromUtf8_ascii by (repeat constructor; done). done.
Qed.

(** A command of the client is run by the service once, and the client gets
    its result. *)
Lemma sendCmd_runs name cmd m pid p b p1 :
  running name m pid p -> command cmd -> dispatch (os_applicationFilePath env) cmd p = (Ret b, p1) ->
  exists p', sendCmd env name cmd m = (Ret b, with_processes (<[pid := p']> (processes m)) m)
    /\ service_object p' = service_object p1 /\ quit_called p' = quit_called p1 /\ serviceFlags p' = serviceFlags p
    /\ cached (os_address env) p' = [].
Proof.
  intros Hr Hc Hd. destruct (running_connects _ _ _ _ Hr) as (path & Ep & Ec). destruct Hr as [_ _ Hp Hpc Hfr].
  set (s := os_address env) in *. set (p0 := with_sockets (s :: sockets p) p).
  pose proof (dispatch_sockets (os_applicationFilePath env) cmd (s :: sockets p) p) as Hd0. rewrite Hd in Hd0. fold p0 in Hd0.
  set (p2 := with_written (written (with_sockets (s :: sockets p) p1) ++ [(s, reply b)]) (with_sockets (s :: sockets p) p1)).
  destruct (receive_serves (os_applicationFilePath env) s [] (os_pieces env (c_str (toLatin1 (cmd ++ crlf)))) [cmd] p0 p2)
    as (c & Er & Hcs & _); try done.
  - by constructor.
  - rewrite Hpc, (command_bytes cmd (cmd_ascii _ Hc)). apply ascii_bytes.
    apply Forall_app. split; [exact (cmd_ascii _ Hc)|repeat constructor; done].
  - rewrite Hpc, (command_bytes cmd (cmd_ascii _ Hc)).
    rewrite (proj2 (ascii_bytes (cmd ++ crlf) ltac:(apply Forall_app; split; [exact (cmd_ascii _ Hc)|repeat constructor; done]))).
    unfold p0, frames. replace (cached s (with_sockets (s :: sockets p) p)) with (cached s p) by (by destruct p). rewrite Hfr.
    simpl. by rewrite !app_nil_r.
  - unfold p0. replace (cached s (with_sockets (s :: sockets p) p)) with (cached s p) by (by destruct p). by rewrite Hfr.
  - cbn [serve_all]. unfold serve, bind at 1, bind at 1. rewrite Hd0. done.
  - pose proof (dispatch_frame (os_applicationFilePath env) cmd p) as Hfrm. rewrite Hd in Hfrm. destruct Hfrm as (F1 & F2 & F3 & F4).
    simpl in F1, F2, F3, F4. destruct (reply_read b) as [Hne Hrd].
    assert (answer s p (with_cache c p2) = reply b) as Ea.
    { unfold answer. unfold p2. destruct p1. simpl in *. rewrite F3, drop_app_length.
      rewrite filter_cons_True by done. simpl. by rewrite app_nil_r. }
    exists (slotClosed s (with_cache c p2)).2. split; [|unfold p2; destruct p1; simpl in *; split_and!; try done].
    unfold sendCmd. rewrite Ep. erewrite bind_Ret by reflexivity. rewrite (bind_Ret _ _ _ _ _ Ec).
    unfold bind at 1, exchange, bind at 1, gets, process_of. rewrite Hp. fold s.
    assert ((incomingConnection s;;; receive (os_applicationFilePath env) s (os_pieces env (c_str (toLatin1 (cmd ++ crlf))))) p
      = (Ret tt, with_cache c p2)) as -> by exact Er.
    rewrite Ea. destruct (reply b) as [|x l]; [done|]. unfold slotClosed at 1, modify. unfold bind, modify, ret. by rewrite Hrd.
Qed.

(** *** The promise of the controller *)

(** What a controller can ask for. *)
Inductive order := Terminate | Pause | Resume | Number (n : Z) | Commands (l : list qstring).

Definition quits (o : order) : bool := match o with Terminate => true | _ => false end.

Definition send name (o : order) : M (machine R S) bool :=
  match o with
  | Terminate => controller_stop env name
  | Pause => controller_pause env name
  | Resume => controller_resume env name
  | Number n => sendCommand env name n
  | Commands l => sendCommands env name l
  end.

(** What the service does then, if its flags allow it. *)
Definition effect (flags : Z) (o : order) : option (M S unit) :=
  match o with
  | Terminate => if has_flag flags ServiceFlag.CannotBeStopped then None else Some app_stop
  | Pause => if has_flag flags ServiceFlag.CanBeSuspended then Some app_pause else None
  | Resume => if has_flag flags ServiceFlag.CanBeSuspended then Some app_resume else None
  | Number n => Some (app_processCommand n)
  | Commands l => Some (app_processCommands (os_applicationFilePath env :: l))
  end.

(** An argument has no separator and no line end; something is sent. *)
Definition sendable (o : order) : Prop :=
  match o with
  | Number n => -2147483648 <= n < 2147483648
  | Commands l => l <> [] /\ l <> [[]] /\ Forall (fun a => Forall ascii a /\ no_char ch_bar a /\ no_char 10 a) l
  | _ => True
  end.

Definition text (o : order) : qstring :=
  match o with
  | Terminate => str "terminate"
  | Pause => str "pause"
  | Resume => str "resume"
  | Number n => str "num:" ++ number_int n
  | Commands l => str "list:" ++ join [ch_bar] l
  end.

Lemma send_text name o : send name o = sendCmd env name (text o).
Proof. by destruct o. Qed.

Lemma no_line t : no_char 10 t -> indexOf crlf t = None.
Proof.
  unfold no_char. induction t as [|x t IH]; [done|]. intros Hn. rewrite indexOf_cons.
  replace (starts_with crlf (x :: t)) with false.
  - rewrite IH; [done|]. intros Hi. apply Hn. by right.
  - symmetry. unfold crlf. cbn [starts_with]. destruct t as [|y t]; [apply andb_false_r|].
    destruct (Z.eqb_spec 10 y) as [<-|]; [exfalso; apply Hn; right; by left|]. by rewrite andb_false_r.
Qed.

Lemma digits_ascii fuel : forall n, 0 <= n -> Forall ascii (digits fuel n) /\ no_char 10 (digits fuel n).
Proof.
  unfold no_char. induction fuel as [|fuel IH]; intros n Hn; simpl; [by split; [constructor|intros []]|].
  destruct (Z.ltb_spec n 10).
  - unfold ascii. split; [repeat constructor; lia|]. intros [Hd|[]]. lia.
  - destruct (IH (n / 10) ltac:(apply Z.div_pos; lia)) as [IH1 IH2]. pose proof (Z.mod_pos_bound n 10 ltac:(lia)). split.
    + apply Forall_app. split; [done|]. unfold ascii. repeat constructor; lia.
    + rewrite in_app_iff. intros [Hd|[Hd|[]]]; [done|lia].
Qed.

Lemma digits_nonempty fuel n : digits (Datatypes.S fuel) n <> [].
Proof. simpl. destruct (n <? 10); [done|]. by destruct (digits fuel (n / 10)). Qed.

Lemma join_ascii l : Forall (fun a => Forall ascii a /\ no_char ch_bar a /\ no_char 10 a) l ->
  Forall ascii (join [ch_bar] l) /\ no_char 10 (join [ch_bar] l).
Proof.
  intros Hl. split.
  - induction Hl as [|x l (Hx & _) Hl IH]; [constructor|]. destruct l as [|y l]; [done|].
    change (join [ch_bar] (x :: y :: l)) with (x ++ [ch_bar] ++ join [ch_bar] (y :: l)).
    rewrite !Forall_app. split_and!; try done. repeat constructor; done.
  - apply no_char_join; [intros [Hb|[]]; discriminate Hb|]. eapply Forall_impl; [exact Hl|]. by intros x (_ & _ & ?).
Qed.

Lemma join_nonempty l : l <> [] -> l <> [[]] -> join [ch_bar] l <> [].
Proof.
  destruct l as [|x [|y l]]; [done| |]; intros _ Hn; [simpl; congruence|].
  change (join [ch_bar] (x :: y :: l)) with (x ++ [ch_bar] ++ join [ch_bar] (y :: l)). by destruct x.
Qed.

Lemma text_command o : sendable o -> command (text o).
Proof.
  destruct o as [| | |n|l]; cbn [sendable text]; intros Ho; try (constructor; [done|repeat constructor; done|done]).
  - assert (Forall ascii (number_int n) /\ no_char 10 (number_int n)) as [Ha Hl].
    { unfold number_int. destruct (Z.ltb_spec n 0).
      - destruct (digits_ascii 10 (- n) ltac:(lia)) as [Hd Hn]. split; [constructor; [done|exact Hd]|]. intros [Hb|Hb]; [discriminate Hb|done].
      - by apply digits_ascii. }
    constructor; [done| |].
    + apply Forall_app. split; [repeat constructor; done|done].
    + apply no_line, no_char_app. split; [|done]. by intros [Hb|[Hb|[Hb|[Hb|[]]]]]; discriminate Hb.
  - destruct Ho as (_ & _ & Hl). destruct (join_ascii l Hl) as [Ha Hn]. constructor; [done| |].
    + apply Forall_app. split; [repeat constructor; done|done].
    + apply no_line, no_char_app. split; [|done]. by intros [Hb|[Hb|[Hb|[Hb|[Hb|[]]]]]]; discriminate Hb.
Qed.

Lemma dispatch_order o p : sendable o ->
  dispatch (os_applicationFilePath env) (text o) p =
  match effect (serviceFlags p) o with
  | None => (Ret false, p)
  | Some f => (call f;;; when (quits o) (modify (with_quit true));;; ret true) p
  end.
Proof.
  intros Ho. assert (forall (f : M S unit) (m : M (Process S) bool) q,
    (call f;;; m) q = (call f;;; when false (modify (with_quit true));;; m) q) as Hwhen.
  { intros f m q. unfold bind, call. by destruct (f (service_object q)) as [[[]| | |] x]. }
  unfold dispatch, effect. destruct o as [| | |n|l]; cbn [text quits].
  - rewrite bool_decide_eq_true_2 by done. unfold bind at 1, gets. by destruct (has_flag _ _).
  - rewrite bool_decide_eq_false_2 by done. rewrite bool_decide_eq_true_2 by done. unfold bind at 1, gets.
    destruct (has_flag _ _); [apply Hwhen|done].
  - do 2 rewrite bool_decide_eq_false_2 by done. rewrite bool_decide_eq_true_2 by done. unfold bind at 1, gets.
    destruct (has_flag _ _); [apply Hwhen|done].
  - do 4 rewrite bool_decide_eq_false_2 by done.
    rewrite (bool_decide_eq_false_2 (take 5 (str "num:" ++ number_int n) = str "list:")) by done. rewrite andb_false_r.
    rewrite bool_decide_eq_true_2 by done.
    assert (number_int n <> []) as Hne by (unfold number_int; destruct (n <? 0); [done|apply digits_nonempty]).
    destruct (Z.ltb_spec 4 (zlen (str "num:" ++ number_int n))) as [_|Hl].
    + change (drop 4 (str "num:" ++ number_int n)) with (number_int n). rewrite toInt_number by exact Ho. apply Hwhen.
    + exfalso. rewrite zlen_app in Hl. change (zlen (str "num:")) with 4 in Hl. apply Hne, zlen_0_inv.
      pose proof (zlen_nonneg (number_int n)). lia.
  - do 4 rewrite bool_decide_eq_false_2 by done. destruct Ho as (Hl1 & Hl2 & Hl).
    rewrite bool_decide_eq_true_2 by done. pose proof (join_nonempty l Hl1 Hl2) as Hne.
    destruct (Z.ltb_spec 5 (zlen (str "list:" ++ join [ch_bar] l))) as [_|Hlen].
    + change (drop 5 (str "list:" ++ join [ch_bar] l)) with (join [ch_bar] l).
      rewrite split_join; [apply Hwhen|done|]. eapply Forall_impl; [exact Hl|]. by intros x (_ & ? & _).
    + exfalso. rewrite zlen_app in Hlen. change (zlen (str "list:")) with 5 in Hlen. apply Hne, zlen_0_inv.
      pose proof (zlen_nonneg (join [ch_bar] l)). lia.
Qed.

(** C12. A controller's order is carried out by the running service, one that
    can be reached at its socket and has nothing buffered under the address of
    the new connection. However the bytes are cut into pieces on their way,
    stop, pause, resume, a number of 32 bits, or a list of arguments that is
    not empty (nor a single empty argument) and whose arguments are ASCII
    without a vertical bar and without a line feed, makes the service call
    exactly the function meant, once, with these arguments, if the service's
    flags allow that order and if that function returns; the controller gets
    true then and false otherwise, and only stop makes the service leave its
    event loop. Nothing else on the machine changes. *)
Theorem orders_delivered name m pid p o x :
  running name m pid p -> sendable o ->
  match effect (serviceFlags p) o with Some f => f (service_object p) = (Ret tt, x) | None => x = service_object p end ->
  exists p', send name o m
      = (Ret (match effect (serviceFlags p) o with Some _ => true | None => false end), with_processes (<[pid := p']> (processes m)) m)
    /\ service_object p' = x
    /\ quit_called p' = match effect (serviceFlags p) o with Some _ => quits o || quit_called p | None => quit_called p end
    /\ serviceFlags p' = serviceFlags p.
Proof.
  intros Hr Ho Hx. pose proof (dispatch_order o p Ho) as Hd.
  destruct (effect (serviceFlags p) o) as [f|].
  - unfold bind, call in Hd. rewrite Hx in Hd.
    assert (exists q, dispatch (os_applicationFilePath env) (text o) p = (Ret true, q) /\ service_object q = x
      /\ quit_called q = quits o || quit_called p) as (q & Eq & E1 & E2).
    { rewrite Hd. destruct p, (quits o); by eexists. }
    destruct (sendCmd_runs name (text o) m pid p true q Hr (text_command o Ho) Eq) as (p' & E & H1' & H2' & H3' & _).
    exists p'. rewrite send_text, H1', H2'. by split_and!.
  - destruct (sendCmd_runs name (text o) m pid p false p Hr (text_command o Ho) Hd) as (p' & E & H1' & H2' & H3' & _).
    exists p'. rewrite send_text, H1', H2'. by split_and!.
Qed.

End commands.

(** ** Installation *)

Section installation.
Context {R S : Type} `{HR : ServiceSettingsLaws R} `{ServiceApp S} `{HC : QStringConvLaws} `{QDirs}.
Context (env : os) (pid : nat).
Implicit Types (m : machine R S) (st : service R S).

Lemma isInstalled_true name m : isInstalled name m = true <-> In name (childGroups (registry m)).
Proof.
  unfold isInstalled. rewrite existsb_exists. split.
  - intros (g & Hg & ->%bool_decide_eq_true). done.
  - intros Hg. exists name. split; [done|]. by apply bool_decide_eq_true.
Qed.

Lemma isInstalled_ext name m m' :
  (In name (childGroups (registry m)) <-> In name (childGroups (registry m'))) -> isInstalled name m = isInstalled name m'.
Proof. intros Hi. apply eq_true_iff_eq. by rewrite !isInstalled_true. Qed.

(** What [install] leaves in the settings. *)
Lemma install_spec st path :
  let name := serviceName_ (base st) in
  single name -> (forall r : R, (sync r).1 = NoError) -> filePath (os_path env) (args_ (base st)) = Ret path ->
  exists m, install env st = (Ret true, mkService m (base st))
    /\ listeners m = listeners (mach st) /\ processes m = processes (mach st)
    /\ isInstalled name m = true /\ serviceFilePath name m = path /\ serviceDescription name m = serviceDescription_ (base st)
    /\ startupType name m = startupType name (mach st)
    /\ (forall g, g <> name -> isInstalled g m = isInstalled g (mach st)).
Proof.
  intros name Hn Hok Hp. unfold install. erewrite bind_Ret by reflexivity. rewrite Hp. erewrite bind_Ret by reflexivity.
  fold name. set (r := setValue name (str "automaticStartup") _ _). unfold on_machine, save_registry.
  pose proof (synced r (Hok r)) as [Hg Hv]. pose proof (Hok r) as Hst. destruct (sync r) as [stt r']. simpl in Hg, Hv, Hst. subst stt.
  unfold bind, modify, ret. eexists. split; [reflexivity|].
  assert (forall g, In g (childGroups r') <-> g = name \/ In g (childGroups (registry (mach st)))) as Hgr.
  { intros g. rewrite Hg. unfold r. rewrite !groups_set by done. tauto. }
  destruct (mach st) as [r0 ls ps sd er] eqn:Em. simpl. split; [done|]. split; [done|]. split_and!.
  - apply isInstalled_true. simpl. apply Hgr. by left.
  - unfold serviceFilePath. simpl. rewrite Hv. unfold r. rewrite !value_of_other by (intros [=]). by rewrite value_of_set.
  - unfold serviceDescription. simpl. rewrite Hv. unfold r. rewrite value_of_other by (intros [=]). by rewrite value_of_set.
  - unfold startupType. simpl. rewrite Hv. unfold r. by rewrite !value_of_other by (intros [=]).
  - intros g Hne. apply isInstalled_ext. simpl. rewrite Hgr. simpl. tauto.
Qed.

Lemma uninstall_spec name m :
  single name -> (forall r : R, (sync r).1 = NoError) ->
  exists m', uninstall name m = (Ret true, m') /\ isInstalled name m' = false
    /\ (forall g, g <> name -> isInstalled g m' = isInstalled g m)
    /\ (forall g, single g -> g <> name -> serviceFilePath g m' = serviceFilePath g m).
Proof.
  intros Hn Hok. unfold uninstall. erewrite bind_Ret by reflexivity. set (r := remove name (registry m)). unfold save_registry.
  pose proof (synced r (Hok r)) as [Hg Hv]. pose proof (Hok r) as Hst. destruct (sync r) as [stt r']. simpl in Hg, Hv, Hst. subst stt.
  unfold bind, modify, ret. eexists. split; [reflexivity|].
  assert (forall g, In g (childGroups r') <-> g <> name /\ In g (childGroups (registry m))) as Hgr.
  { intros g. rewrite Hg. unfold r. by rewrite groups_removed. }
  destruct m as [r0 ls ps sd er]. simpl in *. split_and!.
  - apply not_true_iff_false. rewrite isInstalled_true. simpl. rewrite Hgr. tauto.
  - intros g Hne. apply isInstalled_ext. simpl. rewrite Hgr. tauto.
  - intros g Hgs Hne. unfold serviceFilePath. simpl. rewrite Hv. unfold r. by rewrite values_kept.
Qed.

(** Installing and uninstalling from the command line are inverse. When
    the settings can be written, the option -i installs a service that is not
    installed, with the path of its program and its description; once more it
    changes nothing; the option -u then leaves the same services installed as
    before. *)
Theorem install_uninstall prog rest path b m events :
  let name := serviceName_ b in
  let with_option o := with_args (prog :: str o :: rest) b in
  single name -> (forall r : R, (sync r).1 = NoError) -> filePath (os_path env) (prog :: str "-i" :: rest) = Ret path ->
  isInstalled name m = false ->
  exists m1 m2,
    exec env pid events (mkService m (with_option "-i"%string)) = (Ret 0, mkService m1 (with_option "-i"%string))
    /\ isInstalled name m1 = true /\ serviceFilePath name m1 = path /\ serviceDescription name m1 = serviceDescription_ b
    /\ exec env pid events (mkService m1 (with_option "-i"%string)) = (Ret 0, mkService m1 (with_option "-i"%string))
    /\ exec env pid events (mkService m1 (with_option "-u"%string)) = (Ret 0, mkService m2 (with_option "-u"%string))
    /\ forall g, isInstalled g m2 = isInstalled g m.
Proof.
  intros name with_option Hn Hok Hp Hi.
  assert (forall o, serviceName_ (with_option o) = name) as En by (intros; unfold with_option; by destruct b).
  assert (forall o, args_ (with_option o) = prog :: str o :: rest) as Ea by (intros; unfold with_option; by destruct b).
  destruct (install_spec (mkService m (with_option "-i"%string)) path) as (m1 & E1 & _ & _ & I1 & F1 & D1 & _ & O1).
  { simpl. by rewrite En. }
  { done. }
  { simpl. by rewrite Ea. }
  simpl in E1, I1, F1, D1, O1. rewrite En in I1, F1, D1, O1.
  destruct (uninstall_spec name m1 Hn Hok) as (m2 & E2 & I2 & O2 & _).
  exists m1, m2. split_and!; try done.
  - unfold exec. erewrite bind_Ret by reflexivity. simpl. rewrite Ea, En.
    rewrite Hi. simpl. by rewrite (bind_Ret _ _ _ _ _ E1).
  - rewrite D1. unfold with_option. by destruct b.
  - unfold exec. erewrite bind_Ret by reflexivity. simpl. rewrite Ea, En. by rewrite I1.
  - unfold exec. erewrite bind_Ret by reflexivity. simpl. rewrite Ea, En. rewrite I1.
    assert (on_machine (uninstall name) (mkService m1 (with_option "-u"%string)) = (Ret true, mkService m2 (with_option "-u"%string))) as E3
      by (unfold on_machine; simpl; by rewrite E2).
    change (is_option (str "-u") "-i" "-install") with false. cbv iota. change (is_option (str "-u") "-u" "-uninstall") with true. cbv iota.
    by rewrite (bind_Ret _ _ _ _ _ E3).
  - intros g. destruct (decide (g = name)) as [->|Hg]; [by rewrite I2, Hi|]. by rewrite O2, O1.
Qed.

(** The startup type that was set is not the one read back: it is written
    under another key. *)
Theorem startup_type_lost st path :
  let name := serviceName_ (base st) in
  single name -> (forall r : R, (sync r).1 = NoError) -> filePath (os_path env) (args_ (base st)) = Ret path ->
  set_value name (str "startupType") (registry (mach st)) = None ->
  exists m, install env st = (Ret true, mkService m (base st)) /\ startupType name m = startup_code AutoStartup.
Proof.
  intros name Hn Hok Hp Hv. destruct (install_spec st path Hn Hok Hp) as (m & E & _ & _ & _ & _ & _ & Hs & _).
  exists m. split; [exact E|]. fold name in Hs. rewrite Hs. unfold startupType. by rewrite Hv.
Qed.

End installation.

(** ** The life of a service *)

Section life.
Context {R S : Type} `{ServiceSettings R} `{ServiceApp S} `{HC : QStringConvLaws} `{QDirs}.
Context (env : os) (pid : nat).
Implicit Types (p : Process S).
Notation serve_all := (serve_all (os_applicationFilePath env)).

Lemma serve_all_app s c1 c2 p : serve_all s (c1 ++ c2) p = (serve_all s c1;;; serve_all s c2) p.
Proof.
  revert p. induction c1 as [|c c1 IH]; intros p; [done|]. cbn [QtServiceCommands.serve_all app]. unfold bind at 2.
  unfold bind. by destruct (serve _ s c p) as [[[]| | |] q].
Qed.

End life.

(** *** With the service object of [src/Service] *)

(** [Base_Template] forwards [start], [stop] and [processCommands]; the other
    functions are those of [QtServiceBase], which do nothing. *)
Definition Base_Template (methods : list qstring) (throws no_catch : bool) : ServiceApp Service.world := {|
  app_start := Service.start methods throws no_catch;
  app_stop := Service.stop;
  app_pause := ret tt;
  app_resume := ret tt;
  app_processCommand _ := ret tt;
  app_processCommands l := Service.processCommands l;
  app_events := Service.deliver_posted;
|}.

Lemma stop_received w : Service.received (Service.stop w).2 = Service.received w.
Proof.
  unfold Service.stop, Service.destruct_, Service.delete_worker, bind, gets, modify, ret, undef. simpl.
  destruct (Service.service_ w) as [o|]; [|done]. simpl. by case_bool_decide.
Qed.

Lemma commands_value l w o :
  Service.service_ w = Some o -> Service.worker_ o ∈ Service.live w ->
  Service.processCommands l w = (Ret tt, Service.upd_calls (Service.posted w ++ [(Service.worker_ o, l)]) (Service.received w) w).
Proof. intros Ho Hl. unfold Service.processCommands, bind, gets. rewrite Ho. by rewrite bool_decide_eq_true_2. Qed.

Section service_life.
Context {R : Type} `{ServiceSettings R} `{HC : QStringConvLaws} `{QDirs}.
Context (env : os) (pid : nat) (methods : list qstring) (no_catch : bool).
#[local] Instance the_app : ServiceApp Service.world := Base_Template methods false no_catch.
Notation world := Service.world.
Notation serve_all := (serve_all (os_applicationFilePath env)).
Notation line l := (text (Commands l)).

Lemma serve_lists s o : forall argss (p : Process world),
  Forall (fun l => sendable (Commands l)) argss ->
  Service.service_ (service_object p) = Some o -> Service.worker_ o ∈ Service.live (service_object p) ->
  exists p1, serve_all s (map (fun l => line l) argss) p = (Ret tt, p1) /\ quit_called p1 = quit_called p /\ serviceFlags p1 = serviceFlags p
    /\ service_object p1 = Service.upd_calls
         (Service.posted (service_object p) ++ map (fun l => (Service.worker_ o, os_applicationFilePath env :: l)) argss)
         (Service.received (service_object p)) (service_object p).
Proof.
  induction argss as [|l argss IH]; intros p Hs Ho Hl.
  - exists p. split; [done|]. split; [done|]. split; [done|]. simpl. rewrite app_nil_r. by destruct (service_object p).
  - inversion Hs as [|? ? Hs1 Hs2]; subst. cbn [map QtServiceCommands.serve_all].
    pose proof (dispatch_order env (Commands l) p Hs1) as Hd. cbn [effect quits when] in Hd.
    unfold bind, call in Hd. cbn [app_processCommands the_app Base_Template] in Hd. rewrite (commands_value _ _ _ Ho Hl) in Hd.
    unfold serve at 1. rewrite bind_assoc. rewrite (bind_Ret _ _ _ _ _ Hd). unfold bind at 1, modify at 1.
    set (q := with_written _ _).
    destruct (IH q Hs2) as (p1 & E & Hq & Hf & Hob).
    + unfold q. by destruct p.
    + unfold q. by destruct p.
    + exists p1. split; [exact E|]. rewrite Hq, Hf, Hob. unfold q. destruct p. simpl. split_and!; try done.
      by rewrite <- app_assoc.
Qed.

Lemma start_initial : exists w, Service.start methods false no_catch Service.initial = (Ret tt, w)
  /\ Service.service_ w = Some {| Service.worker_ := 0%nat |} /\ Service.posted w = [] /\ Service.received w = [] /\ Service.Inv w.
Proof.
  assert (Service.Inv Service.initial) as HI
    by (split; [done|]; split; [constructor|]; split; [|split]; intros n Hx; by apply not_elem_of_nil in Hx).
  destruct (Service.start_spec methods no_catch Service.initial HI) as (w & E & Hw & _). exists w. split; [exact E|].
  revert E. unfold Service.start, Service.construct, Service.create_worker, bind, gets, modify, ret. simpl.
  destruct (Service.find_slots methods false false) as [x y]. simpl. by intros [= <-].
Qed.

Lemma serve_terminate s (p : Process world) w :
  has_flag (serviceFlags p) ServiceFlag.CannotBeStopped = false -> Service.stop (service_object p) = (Ret tt, w) ->
  exists p', serve (os_applicationFilePath env) s (text Terminate) p = (Ret tt, p') /\ service_object p' = w /\ quit_called p' = true.
Proof.
  intros Hf Hw. pose proof (dispatch_order env Terminate p I) as Hd. cbn [effect] in Hd. rewrite Hf in Hd.
  unfold bind, call in Hd. cbn [app_stop the_app Base_Template] in Hd. rewrite Hw in Hd.
  unfold serve. rewrite (bind_Ret _ _ _ _ _ Hd). eexists. split; [reflexivity|]. by destruct p.
Qed.

(** A service process that has started, runs and has nothing posted. *)
Record serving s (p : Process world) : Prop := {
  sv_quit : quit_called p = false;
  sv_flags : has_flag (serviceFlags p) ServiceFlag.CannotBeStopped = false;
  sv_inv : Service.Inv (service_object p);
  sv_service : Service.service_ (service_object p) = Some {| Service.worker_ := 0%nat |};
  sv_posted : Service.posted (service_object p) = [];
  sv_cache : indexOf crlf (cached s p) = None;
}.

Notation call_of_list l := (0%nat, os_applicationFilePath env :: l).

Lemma lists_command argss : Forall (fun l => sendable (Commands l)) argss -> Forall command (map (fun l => line l) argss).
Proof. intros Ha. apply Forall_map. eapply Forall_impl; [exact Ha|]. intros l. by apply text_command. Qed.

Lemma sv_live s p : serving s p -> 0%nat ∈ Service.live (service_object p).
Proof. intros []. destruct sv_inv0 as (Hl & _). rewrite Hl, sv_service0. by left. Qed.

(** A piece that completes some lists: they are posted, and the loop delivers
    them. *)
Lemma piece_of_lists s argss d r evs (p : Process world) :
  serving s p -> Forall (fun l => sendable (Commands l)) argss -> Forall (fun b => ascii (Z_of_byte b)) d ->
  cached s p ++ map Z_of_byte d = frames (map (fun l => line l) argss) ++ r -> indexOf crlf r = None ->
  exists q, event_loop env (Ev_ready s d :: evs) p = event_loop env evs q /\ serving s q /\ cached s q = r
    /\ Service.received (service_object q) = Service.received (service_object p) ++ map (fun l => call_of_list l) argss.
Proof.
  intros Hsv Ha Hd Et Hr. pose proof (sv_live _ _ Hsv) as Hlive. destruct Hsv as [Hq Hf Hi Hs Hp Hc].
  destruct (serve_lists s _ argss p Ha Hs Hlive) as (p1 & E1 & Hq1 & Hf1 & Ho1). rewrite <- (fromUtf8_ascii d Hd) in Et.
  pose proof (slotReady_serves (os_applicationFilePath env) s d _ r p p1 (lists_command _ Ha) Hr Et E1) as Esl.
  set (q := with_cache (<[s := r]> (cache p)) p1) in *.
  assert (quit_called q = false /\ serviceFlags q = serviceFlags p /\ service_object q = service_object p1 /\ cached s q = r) as (Q1 & Q2 & Q3 & Q4).
  { unfold q, cached. destruct p1. simpl in *. rewrite lookup_insert_eq. split_and!; done || congruence. }
  exists (with_app (Service.deliver_posted (service_object q)).2 q). split.
  - cbn [event_loop handle_event]. rewrite (bind_Ret _ _ _ _ _ Esl). erewrite bind_Ret by reflexivity. rewrite Q1. reflexivity.
  - rewrite Q3, Ho1. simpl. rewrite Hp. unfold q in *. destruct p1. simpl in *. subst. split_and!; try done.
    constructor; simpl; try done; [|by unfold cached in *; simpl in *; rewrite Q4].
    destruct Hi as (? & ? & ? & ? & ?). split_and!; try done. by intros c Hx%not_elem_of_nil.
Qed.

(** The piece that completes the order to stop ends the loop; lists completed
    by the same piece are lost with the worker. *)
Lemma piece_of_stop s argss d evs (p : Process world) :
  serving s p -> Forall (fun l => sendable (Commands l)) argss -> Forall (fun b => ascii (Z_of_byte b)) d ->
  cached s p ++ map Z_of_byte d = frames (map (fun l => line l) argss ++ [text Terminate]) ->
  exists q, event_loop env (Ev_ready s d :: evs) p = (Ret tt, q)
    /\ Service.service_ (service_object q) = None /\ Service.live (service_object q) = []
    /\ Service.received (service_object q) = Service.received (service_object p).
Proof.
  intros Hsv Ha Hd Et. pose proof (sv_live _ _ Hsv) as Hlive. destruct Hsv as [Hq Hf Hi Hs Hp Hc].
  destruct (serve_lists s _ argss p Ha Hs Hlive) as (p1 & E1 & Hq1 & Hf1 & Ho1).
  assert (Service.Inv (service_object p1)) as Hinv1.
  { rewrite Ho1. destruct Hi as (Hl & ? & ? & ? & ?). rewrite Hs in Hl. split_and!; simpl; rewrite ?Hs; try done. intros c. rewrite Hp. simpl. rewrite Hl.
    intros (l & -> & _)%list_elem_of_fmap. by left. }
  destruct (Service.stop_spec _ Hinv1) as (w2 & E2 & Hinv2 & Hs2 & _).
  destruct (serve_terminate s p1 w2) as (p2 & E3 & Ho2 & Hq2); [by rewrite Hf1|done|].
  rewrite <- (fromUtf8_ascii d Hd), <- (app_nil_r (frames _)) in Et.
  assert (serve_all s (map (fun l => line l) argss ++ [text Terminate]) p = (Ret tt, p2)) as E4.
  { rewrite serve_all_app, (bind_Ret _ _ _ _ _ E1). cbn [QtServiceCommands.serve_all]. by rewrite (bind_Ret _ _ _ _ _ E3). }
  assert (Forall command (map (fun l => line l) argss ++ [text Terminate])) as Hcm.
  { apply Forall_app. split; [by apply lists_command|]. constructor; [by apply text_command|done]. }
  pose proof (slotReady_serves (os_applicationFilePath env) s d _ [] p p2 Hcm eq_refl Et E4) as Esl.
  eexists. split.
  - cbn [event_loop handle_event]. rewrite (bind_Ret _ _ _ _ _ Esl). erewrite bind_Ret by reflexivity.
    replace (quit_called (with_cache (<[s := []]> (cache p)) p2)) with true by (by destruct p2). reflexivity.
  - replace (service_object (with_cache (<[s := []]> (cache p)) p2)) with w2 by (rewrite <- Ho2; by destruct p2).
    split; [done|]. destruct Hinv2 as (Hl2 & _). rewrite Hs2 in Hl2. split; [done|].
    pose proof (stop_received (service_object p1)) as Hr. rewrite E2 in Hr. simpl in Hr. by rewrite Hr, Ho1.
Qed.

(** All pieces: the lists completed before the last piece reach the worker. *)
Lemma loop_life s : forall pieces argss (p : Process world),
  serving s p -> Forall (fun l => sendable (Commands l)) argss -> Forall (fun b => ascii (Z_of_byte b)) (concat pieces) ->
  cached s p ++ map Z_of_byte (concat pieces) = frames (map (fun l => line l) argss ++ [text Terminate]) ->
  exists p' reached lost, argss = reached ++ lost /\ event_loop env (map (Ev_ready s) pieces) p = (Ret tt, p')
    /\ Service.service_ (service_object p') = None /\ Service.live (service_object p') = []
    /\ Service.received (service_object p') = Service.received (service_object p) ++ map (fun l => call_of_list l) reached
    /\ (forall pre post, pieces = pre ++ post ->
          cached s p ++ map Z_of_byte (concat pre) = frames (map (fun l => line l) argss) -> lost = []).
Proof.
  induction pieces as [|d pieces IH]; intros argss p Hsv Ha Hb Et.
  - exfalso. simpl in Et. rewrite app_nil_r in Et. pose proof (sv_cache _ _ Hsv) as Hn. rewrite Et in Hn.
    destruct argss as [|l argss].
    + simpl app in Hn. rewrite frames_cons, indexOf_line in Hn; [done|]. by apply (cmd_line _ (text_command Terminate I)).
    + inversion Ha. simpl app in Hn. rewrite frames_cons, indexOf_line in Hn; [done|].
      by apply (cmd_line _ (text_command (Commands l) ltac:(done))).
  - simpl concat in *. rewrite Forall_app in Hb. destruct Hb as [Hd Hb]. rewrite map_app, app_assoc in Et.
    set (cmds := map (fun l => line l) argss ++ [text Terminate]) in *.
    assert (Forall command cmds) as Hc.
    { apply Forall_app. split; [by apply lists_command|]. constructor; [by apply text_command|done]. }
    rewrite <- (app_nil_r (frames cmds)) in Et.
    destruct (frames_prefix [] _ cmds (cached s p ++ map Z_of_byte d) Hc eq_refl Et) as (c1 & c2 & r & Ec & E1 & Hrn & E2).
    rewrite app_nil_r in E2. destruct c2 as [|c c2].
    + (* the order to stop is complete *)
      rewrite app_nil_r in Ec. subst c1. assert (r = []) as -> by (destruct r; [done|discriminate E2]). rewrite app_nil_r in E1.
      destruct (piece_of_stop s argss d (map (Ev_ready s) pieces) p Hsv Ha Hd E1) as (q & El & Hq1 & Hq2 & Hq3).
      exists q, [], argss. split; [done|]. split; [exact El|]. split; [done|]. split; [done|]. split; [by rewrite app_nil_r|].
      intros pre post Epp Hpre. destruct argss as [|l argss]; [done|]. exfalso. destruct pre as [|d' pre].
      * simpl in Hpre. rewrite app_nil_r in Hpre. pose proof (sv_cache _ _ Hsv) as Hn. rewrite Hpre in Hn. inversion Ha.
        simpl map in Hn. rewrite frames_cons, indexOf_line in Hn; [done|]. by apply (cmd_line _ (text_command (Commands l) ltac:(done))).
      * injection Epp as <- ->. simpl concat in Hpre. rewrite map_app, app_assoc, E1 in Hpre. apply (f_equal length) in Hpre.
        unfold cmds, frames in Hpre. rewrite map_app, concat_app, !length_app in Hpre. simpl in Hpre. lia.
    + (* some lists are complete *)
      assert (exists t1 t2, argss = t1 ++ t2 /\ c1 = map (fun l => line l) t1 /\ c :: c2 = map (fun l => line l) t2 ++ [text Terminate])
        as (t1 & t2 & -> & -> & Ec2).
      { destruct (exists_last (l := c :: c2)) as (c2' & x & E); [done|]. rewrite E in Ec. unfold cmds in Ec. rewrite app_assoc in Ec.
        apply app_inj_tail in Ec as [Ec <-]. apply map_eq_app in Ec as (t1 & t2 & -> & <- & <-).
        exists t1, t2. by rewrite E. }
      apply Forall_app in Ha as [Ha1 Ha2].
      destruct (piece_of_lists s t1 d r (map (Ev_ready s) pieces) p Hsv Ha1 Hd E1 Hrn) as (q & El & Hsq & Hcq & Hrq).
      destruct (IH t2 q Hsq Ha2 Hb) as (p' & reached & lost & -> & El' & H1' & H2' & H3' & H4'); [by rewrite Hcq, E2, Ec2|].
      exists p', (t1 ++ reached), lost. split; [by rewrite app_assoc|]. split; [simpl map; by rewrite El|]. split; [done|]. split; [done|].
      split; [by rewrite H3', Hrq, map_app, app_assoc|].
      intros pre post Epp Hpre. destruct pre as [|d' pre].
      * simpl in Hpre. rewrite app_nil_r in Hpre. pose proof (sv_cache _ _ Hsv) as Hn. rewrite Hpre in Hn.
        destruct (t1 ++ reached ++ lost) as [|l ls] eqn:Et1; [by destruct t1, reached, lost|]. exfalso.
        assert (Forall (fun l => sendable (Commands l)) (l :: ls)) as Ha' by (rewrite <- Et1; by apply Forall_app). inversion Ha'.
        simpl map in Hn. rewrite frames_cons, indexOf_line in Hn; [done|]. by apply (cmd_line _ (text_command (Commands l) ltac:(done))).
      * injection Epp as <- ->. apply (H4' pre post eq_refl). rewrite Hcq. simpl concat in Hpre. rewrite map_app, app_assoc, E1 in Hpre.
        unfold frames in Hpre |- *. rewrite (map_app _ t1), map_app, concat_app, <- app_assoc in Hpre. by apply app_inv_head in Hpre.
Qed.

(** C13. The life of a service, from its start to its end. A service that may
    be stopped, whose worker's constructor does not throw and which can bind
    its socket, started, sent lists of arguments (not empty, ASCII, without
    vertical bars and line feeds) and then the order to stop over one
    connection, in whatever pieces the bytes come, returns 0. The lists are
    posted to its one worker, which gets a beginning of them, each once and in
    order: those the service has read before the piece that completes the order
    to stop; so all of them if the order comes in pieces of its own. Lists
    completed by the same piece are lost. At the end the worker is destroyed,
    and neither the process nor its socket file is left. *)
Theorem service_life argss s pieces (m : machine R world) b path :
  object_ b = Service.initial -> has_flag (serviceFlags_ b) ServiceFlag.CannotBeStopped = false ->
  os_socket env = true -> socketPath (os_login env) (serviceName_ b) = Ret path -> os_bind env path = true ->
  zlen (c_str (toLatin1 path)) < sizeof_sun_path ->
  Forall (fun l => sendable (Commands l)) argss ->
  concat pieces = map byte_of_Z (frames (map text (map Commands argss ++ [Terminate]))) ->
  exists m' b' reached lost,
    run env pid (Ev_start :: Ev_connect s :: map (Ev_ready s) pieces) (mkService m b) = (Ret 0, mkService m' b')
    /\ Service.service_ (object_ b') = None /\ Service.live (object_ b') = []
    /\ argss = reached ++ lost /\ Service.received (object_ b') = map (fun l => (0%nat, os_applicationFilePath env :: l)) reached
    /\ (forall pre post, pieces = pre ++ post -> concat pre = map byte_of_Z (frames (map text (map Commands argss))) -> lost = [])
    /\ processes m' !! pid = None /\ listeners m' !! path = None.
Proof.
  intros Hob Hfl Hso Hpath Hbind Hlen Hargs Hbytes. destruct start_initial as (w & Ew & Hw1 & Hw2 & Hw3 & Hw4).
  set (p0 := mkProcess (serviceFlags_ b) ∅ w false [] [s] : Process world).
  assert (map text (map Commands argss ++ [Terminate]) = map (fun l => line l) argss ++ [text Terminate]) as Ecm by (by rewrite map_app, map_map).
  assert (Forall command (map (fun l => line l) argss ++ [text Terminate])) as Hcm.
  { apply Forall_app. split; [by apply lists_command|]. constructor; [by apply text_command|done]. }
  rewrite Ecm in Hbytes. destruct (ascii_bytes _ (frames_ascii _ Hcm)) as [Hb1 Hb2].
  destruct (ascii_bytes _ (frames_ascii _ (lists_command argss Hargs))) as [_ Hb3].
  destruct (loop_life s pieces argss p0) as (p' & reached & lost & Ea & El & Hp1 & Hp2 & Hp3 & Hp4); try done.
  { by rewrite Hbytes. }
  { by rewrite Hbytes, Hb2. }
  simpl in Hp3. rewrite Hw3 in Hp3.
  assert (event_loop env (Ev_start :: Ev_connect s :: map (Ev_ready s) pieces) (sys_make (serviceFlags_ b) (object_ b)) = (Ret tt, p')) as Eloop.
  { assert (call (app_start (ServiceApp := the_app)) (sys_make (serviceFlags_ b) (object_ b)) = (Ret tt, mkProcess (serviceFlags_ b) ∅ w false [] [])) as Est
      by (unfold call; change (app_start (ServiceApp := the_app)) with (Service.start methods false no_catch); cbn [sys_make service_object]; by rewrite Hob, Ew).
    assert (Service.deliver_posted w = (Ret tt, w)) as Ed.
    { unfold Service.deliver_posted, modify. rewrite Hw2, Hw3. destruct w. simpl in *. by subst. }
    assert (forall f c q wr l, call (app_events (ServiceApp := the_app)) (mkProcess f c w q wr l) = (Ret tt, mkProcess f c w q wr l)) as Edel
      by (intros; unfold call; change (app_events (ServiceApp := the_app)) with Service.deliver_posted; cbn [service_object]; by rewrite Ed).
    cbn [event_loop handle_event]. rewrite (bind_Ret _ _ _ _ _ Est). erewrite bind_Ret by reflexivity. cbn [quit_called].
    rewrite (bind_Ret _ _ _ _ _ (Edel _ _ _ _ _)). erewrite bind_Ret by reflexivity. erewrite bind_Ret by reflexivity.
    cbn [quit_called with_sockets sockets]. by rewrite (bind_Ret _ _ _ _ _ (Edel _ _ _ _ _)). }
  destruct m as [r ls ps sd er]. unfold run.
  set (m1 := mkMachine r ls (<[pid := sys_make (serviceFlags_ b) (object_ b)]> ps) sd er).
  assert (sysInit pid (mkService (mkMachine r ls ps sd er) b) = (Ret tt, mkService m1 b)) as Ein by done.
  rewrite (bind_Ret _ _ _ _ _ Ein). set (m2 := with_listeners (<[path := pid]> (delete path ls)) m1).
  assert (sysSetPath env pid (mkService m1 b) = (Ret path, mkService m2 b)) as Esp.
  { unfold sysSetPath. erewrite bind_Ret by reflexivity. unfold on_machine at 1, lift. simpl. rewrite Hpath.
    erewrite bind_Ret by reflexivity. unfold on_machine, setPath. rewrite Hso. simpl. unfold bind, modify, ret.
    destruct (Z.leb_spec sizeof_sun_path (zlen (c_str (toLatin1 path)))); [lia|]. by rewrite Hbind. }
  rewrite (bind_Ret _ _ _ _ _ Esp). set (m3 := with_processes (<[pid := p']> (processes m2)) m2).
  assert (executeApplication env pid (Ev_start :: Ev_connect s :: map (Ev_ready s) pieces) (mkService m2 b) = (Ret tt, mkService m3 b)) as Eex.
  { unfold executeApplication.
    replace (processes (mach (mkService m2 b)) !! pid) with (Some (sys_make (serviceFlags_ b) (object_ b)))
      by (simpl; by rewrite lookup_insert_eq).
    by rewrite Eloop. }
  rewrite (bind_Ret _ _ _ _ _ Eex).
  unfold sysCleanup, on_machine, close, bind, modify, when, gets, ret.
  assert (isEmpty path = false) as -> by (unfold socketPath in Hpath; destruct (encodeName _ _); simplify_eq; done).
  simpl. rewrite lookup_insert_eq. unfold on_base, modify. simpl. eexists _, _, reached, lost. split; [reflexivity|]. simpl.
  split_and!; try (by destruct b); [|by rewrite lookup_delete_eq..].
  intros pre post Epp Hpre. apply (Hp4 pre post Epp). rewrite Hpre, (map_map Commands text). exact Hb3.
Qed.

End service_life.
