(* ===== verification/QtServiceWitness.v ===== *)
(** * Qt_Service: concrete runs

    Instances of the interfaces of [QtServiceCommands] and [QtService], the
    theorems of [QtServiceProofs] at concrete services, and what the code does
    in some cases its documentation does not mention. *)

From stdpp Require Import gmap.
From S2P Require Import Prelude QtString QtServiceCommands QtService ServiceObject QtServiceProofs.
Import Qt_Service.

Module QtServiceRef.

(** [toInt]: a sign and digits; anything else is zero. *)
Definition digit_value (c : Z) : option Z := if (48 <=? c) && (c <=? 57) then Some (c - 48) else None.
Definition add_digit (acc : option Z) (c : Z) : option Z :=
  match acc, digit_value c with Some n, Some d => Some (10 * n + d) | _, _ => None end.
Definition read_digits (s : qstring) : option Z := fold_left add_digit s (Some 0).
Definition read_int (s : qstring) : Z :=
  match s with
  | [] => 0
  | c :: r => if c =? ch_minus then - default 0 (read_digits r) else default 0 (read_digits s)
  end.

#[export] Instance conv_ref : QStringConv := {
  toLatin1 s := map byte_of_Z s;
  fromUtf8 bs := map Z_of_byte bs;
  toLower s := map lower s;
  toInt := read_int;
}.

Lemma read_digits_value fuel : forall n, 0 <= n < 10 ^ Z.of_nat fuel -> read_digits (digits fuel n) = Some n.
Proof.
  induction fuel as [|fuel IH]; intros n Hn; [change (10 ^ Z.of_nat 0) with 1 in Hn; cbn; f_equal; lia|].
  cbn [digits]. destruct (Z.ltb_spec n 10).
  - unfold read_digits. cbn [fold_left]. unfold add_digit, digit_value.
    replace ((48 <=? 48 + n) && (48 + n <=? 57)) with true by (symmetry; apply andb_true_iff; rewrite !Z.leb_le; lia).
    f_equal. lia.
  - unfold read_digits. rewrite fold_left_app. fold (read_digits (digits fuel (n / 10))).
    rewrite Nat2Z.inj_succ, Z.pow_succ_r in Hn by lia.
    rewrite IH by (split; [apply Z.div_pos; lia|apply Z.div_lt_upper_bound; lia]).
    cbn [fold_left]. unfold add_digit, digit_value. pose proof (Z.mod_pos_bound n 10 ltac:(lia)).
    replace ((48 <=? 48 + n mod 10) && (48 + n mod 10 <=? 57)) with true by (symmetry; apply andb_true_iff; rewrite !Z.leb_le; lia).
    f_equal. pose proof (Z.div_mod n 10 ltac:(lia)). lia.
Qed.

Lemma digits_head fuel n : 0 <= n -> exists c s, digits (S fuel) n = c :: s /\ c <> ch_minus.
Proof.
  intros Hn. revert n Hn. induction fuel as [|fuel IH]; intros n Hn.
  - cbn [digits]. pose proof (Z.mod_pos_bound n 10 ltac:(lia)). destruct (n <? 10); eexists _, _; (split; [reflexivity|]); unfold ch_minus; lia.
  - cbn [digits]. destruct (Z.ltb_spec n 10); [eexists _, _; split; [reflexivity|]; unfold ch_minus; lia|].
    destruct (IH (n / 10) ltac:(apply Z.div_pos; lia)) as (c & s & E & Hc). cbn [digits] in E. rewrite E. by eexists _, _.
Qed.

#[export] Instance conv_laws : QStringConvLaws.
Proof.
  constructor; try done. intros n Hn. cbn [toInt conv_ref]. unfold number_int. destruct (Z.ltb_spec n 0).
  - unfold read_int. rewrite Z.eqb_refl. rewrite read_digits_value by lia. simpl. lia.
  - destruct (digits_head 9 n ltac:(lia)) as (c & s & E & Hc). unfold read_int. rewrite E.
    destruct (Z.eqb_spec c ch_minus); [done|]. rewrite <- E, read_digits_value by lia. done.
Qed.

(** Settings as a list of entries, always writable. *)
Definition store : Type := list (qstring * qstring * setting).
Definition key_is (g k : qstring) (e : qstring * qstring * setting) : bool := bool_decide (e.1 = (g, k)).

#[export] Instance settings_ref : ServiceSettings store := {
  childGroups r := map (fun e => e.1.1) r;
  set_value g k r := snd <$> List.find (key_is g k) r;
  setValue g k v r := (g, k, v) :: r;
  remove g r := List.filter (fun e => negb (bool_decide (e.1.1 = g))) r;
  sync r := (NoError, r);
}.

#[export] Instance settings_ref_laws : ServiceSettingsLaws store.
Proof.
  constructor.
  - intros g k v r g' _. simpl. split; intros [E|E]; auto.
  - intros g k v r. simpl. unfold key_is. by rewrite bool_decide_eq_true_2.
  - intros g k v r g' k' Hn. cbn. unfold key_is at 1. rewrite bool_decide_eq_false_2; [done|]. cbn. congruence.
  - intros g r g' _. simpl. rewrite !in_map_iff. split.
    + intros (e & <- & [Hi Hf]%filter_In). apply negb_true_iff, bool_decide_eq_false in Hf. split; [done|by exists e].
    + intros [Hn (e & <- & Hi)]. exists e. split; [done|]. apply filter_In. split; [done|].
      by apply negb_true_iff, bool_decide_eq_false.
  - intros g r g' k _ _ Hn. simpl. f_equal. induction r as [|e r IH]; [done|]. simpl. unfold key_is at 2.
    case_bool_decide as E1; simpl.
    + rewrite bool_decide_eq_false_2; [exact IH|]. intros E2. rewrite E2 in E1. done.
    + unfold key_is at 1. case_bool_decide; [done|]. exact IH.
  - intros r _. done.
Qed.

#[export] Instance dirs_ref : QDirs := {
  current_cd d := str "/home/" ++ d;
  dir_absolutePath d := d;
  file_absolutePath p := match lastIndexOf ch_slash p with Some n => take n p | None => p end;
  fileName p := match lastIndexOf ch_slash p with Some n => drop (S n) p | None => p end;
  absoluteFilePath d n := d ++ str "/" ++ n;
  file_exists _ := true;
}.

(** Bytes arrive one by one. *)
Definition env : os := {|
  os_login := str "root"; os_path := Some (str "/usr/bin:/bin"); os_socket := true; os_bind _ := true; os_startDetached _ := true;
  os_pieces bs := map (fun b => [b]) bs; os_address := 5; os_applicationFilePath := str "/usr/bin/helpz";
|}.

#[export] Instance app_ref : ServiceApp Service.world := Base_Template [str "logMessage"] false false.

End QtServiceRef.

Module Qt_Service_Witness.
Import QtServiceRef.

Definition name : qstring := str "Helpz Service".
Definition path : qstring := str "/var/tmp/helpzservice.root".
Definition started_object : Service.world := (Service.start [str "logMessage"] false false Service.initial).2.
Definition process (flags : Z) : Process Service.world := sys_make flags started_object.
Definition mach0 (flags : Z) : machine store Service.world := mkMachine [] {[ path := 7%nat ]} {[ 7%nat := process flags ]} [] false.

Lemma running_ref flags : running env name (mach0 flags) 7 (process flags).
Proof.
  constructor; try done.
  - exists path. split; [vm_compute; reflexivity|]. split; [vm_compute; reflexivity|]. apply lookup_insert_eq.
  - intros bs. simpl. induction bs as [|b bs IH]; [done|]. simpl. by rewrite IH.
Qed.

Lemma orders_delivered_witness :
  exists p', send env name (Commands [str "reload"; str "now"]) (mach0 0)
      = (Ret true, with_processes (<[7%nat := p']> (processes (mach0 0))) (mach0 0))
    /\ Service.posted (service_object p') = [(0%nat, [str "/usr/bin/helpz"; str "reload"; str "now"])].
Proof.
  destruct (orders_delivered env name (mach0 0) 7 (process 0) (Commands [str "reload"; str "now"])
    (Service.processCommands [str "/usr/bin/helpz"; str "reload"; str "now"] started_object).2) as (p' & E & Ho & _).
  - exact (running_ref 0).
  - split; [discriminate|]. split; [discriminate|]. repeat constructor; unfold ascii; cbn; try lia; intros Hn;
      repeat (destruct Hn as [Hn|Hn]; [discriminate Hn|]); exact Hn.
  - vm_compute. reflexivity.
  - exists p'. split; [exact E|]. rewrite Ho. vm_compute. reflexivity.
Defined.

Definition base0 : Base Service.world := make [] name Service.initial.

Lemma install_uninstall_witness :
  exists m1 m2 : machine store Service.world,
    exec env 7 [] (mkService (mach0 0) (with_args [str "bin/helpz"; str "-i"] base0))
      = (Ret 0, mkService m1 (with_args [str "bin/helpz"; str "-i"] base0))
    /\ isInstalled name m1 = true /\ serviceFilePath name m1 = str "/home/bin/helpz"
    /\ exec env 7 [] (mkService m1 (with_args [str "bin/helpz"; str "-u"] base0))
      = (Ret 0, mkService m2 (with_args [str "bin/helpz"; str "-u"] base0)).
Proof.
  destruct (install_uninstall env 7 (str "bin/helpz") [] (str "/home/bin/helpz") base0 (mach0 0) [])
    as (m1 & m2 & E1 & I1 & F1 & _ & _ & E2 & _).
  - split; [discriminate|]. intros Hn. repeat (destruct Hn as [Hn|Hn]; [discriminate Hn|]). exact Hn.
  - reflexivity.
  - vm_compute. reflexivity.
  - reflexivity.
  - exists m1, m2. split; [exact E1|]. split; [exact I1|]. split; [exact F1|exact E2].
Defined.

Definition pieces : list (list byte) :=
  map (fun b => [b]) (map byte_of_Z (str "list:reload|now" ++ crlf ++ str "terminate" ++ crlf)).

Lemma service_life_witness :
  exists (m' : machine store Service.world) b',
    run env 9 (Ev_start :: Ev_connect 5 :: map (Ev_ready 5) pieces) (mkService (mach0 0) base0) = (Ret 0, mkService m' b')
    /\ Service.live (object_ b') = []
    /\ Service.received (object_ b') = [(0%nat, [str "/usr/bin/helpz"; str "reload"; str "now"])]
    /\ listeners m' !! path = None.
Proof.
  destruct (service_life env 9 [str "logMessage"] false [[str "reload"; str "now"]] 5 pieces (mach0 0) base0 path)
    as (m' & b' & reached & lost & E & _ & Hl & Ha & Hc & Hall & _ & Hp).
  - reflexivity.
  - reflexivity.
  - reflexivity.
  - vm_compute. reflexivity.
  - reflexivity.
  - vm_compute. reflexivity.
  - constructor; [|constructor]. split; [discriminate|]. split; [discriminate|]. repeat constructor; unfold ascii; cbn; try lia; intros Hn;
      repeat (destruct Hn as [Hn|Hn]; [discriminate Hn|]); exact Hn.
  - vm_compute. reflexivity.
  - assert (lost = []) as El.
    { apply (Hall (take 17 pieces) (drop 17 pieces)); [symmetry; apply take_drop|vm_compute; reflexivity]. }
    rewrite El, app_nil_r in Ha. rewrite <- Ha in Hc. exists m', b'. split; [exact E|]. split; [exact Hl|]. split; [exact Hc|exact Hp].
Defined.

(** A list that comes in one piece with the order to stop is lost. *)
Example list_with_terminate_lost :
  let r := run env 9 [Ev_start; Ev_connect 5; Ev_ready 5 (concat pieces)] (mkService (mach0 0) base0) in
  r.1 = Ret 0 /\ Service.received (object_ (base r.2)) = [].
Proof. vm_compute. split; reflexivity. Qed.

(** ** Other behaviour *)

Definition bytes (s : qstring) : list byte := map byte_of_Z s.
Definition ready (s : nat) (t : qstring) : M (Process Service.world) unit := slotReady (str "/usr/bin/helpz") s (bytes t).

(** An empty line ends the loop: what follows stays in the cache unanswered
    until more bytes arrive. *)
Example empty_command_stalls :
  let p := (ready 5 (crlf ++ str "alive" ++ crlf) (process 0)).2 in
  written p = [] /\ cached 5 p = str "alive" ++ crlf.
Proof. vm_compute. split; reflexivity. Qed.

(** The cache of a connection that was closed is not removed: a new connection
    whose socket has the same address goes on with it. *)
Example leftover_inherited :
  let p := (incomingConnection 5;;; ready 5 (str "termi");;; slotClosed 5;;; incomingConnection 5;;; ready 5 (str "nate" ++ crlf)) (process 0) in
  p.1 = Ret tt /\ quit_called p.2 = true.
Proof. vm_compute. split; reflexivity. Qed.

(** An argument with the separator arrives as two. *)
Example bar_splits :
  let m := (sendCommands env name [str "a|b"] (mach0 0)).2 in
  (fun p => map snd (Service.posted (service_object p))) <$> processes m !! 7%nat
  = Some [[str "/usr/bin/helpz"; str "a"; str "b"]].
Proof. vm_compute. reflexivity. Qed.

(** Commands after [terminate] in the same packet find no service. *)
Example terminate_then_list_undefined :
  (ready 5 (str "terminate" ++ crlf ++ str "list:reload" ++ crlf) (process 0)).1 = Undef.
Proof. vm_compute. reflexivity. Qed.

(** A second instance takes the socket over; when the first ends, it removes
    the socket of the second, which can no longer be reached. *)
Example second_instance_unreachable :
  let m := (setPath env 7 path;;; setPath env 8 path;;; close 7 path) (mkMachine [] ∅ {[ 8%nat := process 0 ]} [] false : machine store Service.world) in
  m.1 = Ret tt /\ (isRunning env name m.2).1 = Ret false.
Proof. vm_compute. split; reflexivity. Qed.

(** A name of a hundred letters, which is allowed, makes a path longer than
    a socket address holds. *)
Example long_name_undefined : (isRunning env (replicate 100 97) (mach0 0)).1 = Undef.
Proof. vm_compute. reflexivity. Qed.

End Qt_Service_Witness.
