(* ===== verification/QtServiceWin.v ===== *)
(** * Qt_Service on Windows: the controller

    [src/qtservice/src/qtservice_win.cpp]: [QtServiceController] over the
    service control manager, installation, and the event log. The manager is
    a parameter; the model has the handles this code holds, so that a use of
    a handle that is not open is undefined behaviour and one that is not
    closed stays on the list. *)

From S2P Require Import Prelude QtString QtServiceCommands QtService.

(** ** The service control manager *)

(** A handle is named by the number of its opening. Texts are UTF-16, as
    those of [QString]. [Some] is the success of a call, with what it gives. *)
Class ServiceManager (W : Type) := {
  scm_open : Z -> nat -> W -> bool * W;                               (** access, and the new handle *)
  scm_open_service : nat -> qstring -> Z -> nat -> W -> bool * W;
  scm_close : nat -> W -> W;
  scm_status : nat -> W -> option Z * W;                              (** [dwCurrentState] *)
  scm_config : nat -> Z -> W -> option (qstring * Z) * W;             (** path and start type *)
  scm_description : nat -> Z -> W -> option (option qstring) * W;     (** [lpDescription] may be null *)
  scm_delete : nat -> W -> bool * W;
  scm_start : nat -> list qstring -> W -> bool * W;
  scm_control : nat -> Z -> W -> option Z * W;                        (** [dwCurrentState] after it *)
  scm_create : nat -> qstring -> Z -> Z -> qstring -> option qstring -> option qstring -> nat -> W -> bool * W;
  scm_describe : nat -> qstring -> W -> W;
  win_sleep : Z -> W -> W;
  event_source : qstring -> nat -> W -> bool * W;
  event_report : nat -> Z -> Z -> Z -> qstring -> list byte -> W -> W;
  event_close : nat -> W -> W;
}.

Module Win_Service.

(** *** Constants of the Windows headers *)

Definition SC_MANAGER_CONNECT : Z := 1.
Definition SC_MANAGER_ALL_ACCESS : Z := 983103.
Definition SERVICE_QUERY_CONFIG : Z := 1.
Definition SERVICE_QUERY_STATUS : Z := 4.
Definition SERVICE_START : Z := 16.
Definition SERVICE_STOP : Z := 32.
Definition SERVICE_PAUSE_CONTINUE : Z := 64.
Definition SERVICE_USER_DEFINED_CONTROL : Z := 256.
Definition DELETE : Z := 65536.
Definition SERVICE_WIN32_OWN_PROCESS : Z := 16.
Definition SERVICE_INTERACTIVE_PROCESS : Z := 256.
Definition SERVICE_AUTO_START : Z := 2.
Definition SERVICE_DEMAND_START : Z := 3.
Definition SERVICE_STOPPED : Z := 1.
Definition SERVICE_CONTROL_STOP : Z := 1.
Definition SERVICE_CONTROL_PAUSE : Z := 2.
Definition SERVICE_CONTROL_CONTINUE : Z := 3.
Definition EVENTLOG_SUCCESS : Z := 0.
Definition EVENTLOG_ERROR_TYPE : Z := 1.
Definition EVENTLOG_WARNING_TYPE : Z := 2.
Definition EVENTLOG_INFORMATION_TYPE : Z := 4.
Definition MAX_PATH : Z := 260.

(** *** State *)

Record win (W : Type) := mkWin {
  world : W;
  pOpenSCManager : bool;      (** the functions of the library are resolved *)
  handles : list nat;         (** handles that are open, the last one first *)
  opened : nat;               (** how many have been opened *)
}.
Arguments mkWin {W}.
Arguments world {W}.
Arguments pOpenSCManager {W}.
Arguments handles {W}.
Arguments opened {W}.

(** One occurrence of [h] is removed. *)
Fixpoint remove_handle (h : nat) (l : list nat) : list nat :=
  match l with [] => [] | x :: l => if bool_decide (x = h) then l else x :: remove_handle h l end.

Section controller.
Context {W : Type} `{ServiceManager W}.
(** Whether the library has the functions. *)
Context (advapi32 : bool).
Abbreviation WM := (M (win W)).

(** A call that opens a handle. *)
Definition opening (f : nat -> W -> bool * W) : WM (option nat) := fun s =>
  let h := opened s in
  let '(ok, w) := f h (world s) in
  if ok then (Ret (Some h), mkWin w (pOpenSCManager s) (h :: handles s) (S h))
  else (Ret None, mkWin w (pOpenSCManager s) (handles s) (S h)).

(** A call with handle [h]. *)
Definition calling {A} (h : nat) (f : W -> A * W) : WM A := fun s =>
  if bool_decide (h ∈ handles s) then
    let '(a, w) := f (world s) in (Ret a, mkWin w (pOpenSCManager s) (handles s) (opened s))
  else (Undef, s).

(** A call that closes it. *)
Definition closing (h : nat) (f : nat -> W -> W) : WM unit := fun s =>
  if bool_decide (h ∈ handles s) then
    (Ret tt, mkWin (f h (world s)) (pOpenSCManager s) (remove_handle h (handles s)) (opened s))
  else (Undef, s).

(** A handle is opened, used, and closed if it could be opened. *)
Definition holding {A} (f : nat -> W -> bool * W) (close : nat -> W -> W) (dflt : A) (body : nat -> WM A) : WM A :=
  let* h := opening f in
  match h with
  | Some h => let* r := body h in closing h close ;;; ret r
  | None => ret dflt
  end.

Definition winServiceInit : WM bool :=
  modify (fun s => mkWin (world s) (pOpenSCManager s || advapi32) (handles s) (opened s)) ;;; gets pOpenSCManager.

(** What the functions of the controller do around their own part: the
    manager and the service are opened, and closed in the end; [dflt] if that
    is not possible. *)
Definition with_manager {A} (access : Z) (dflt : A) (body : nat -> WM A) : WM A :=
  let* ok := winServiceInit in
  if negb ok then ret dflt
  else holding (scm_open access) scm_close dflt body.

Definition with_service {A} (access : Z) (name : qstring) (rights : Z) (dflt : A) (body : nat -> WM A) : WM A :=
  with_manager access dflt (fun hSCM => holding (scm_open_service hSCM name rights) scm_close dflt body).

(** ** QtServiceController *)

Definition isInstalled (name : qstring) : WM bool :=
  with_service 0 name SERVICE_QUERY_CONFIG false (fun _ => ret true).

Definition isRunning (name : qstring) : WM bool :=
  with_service 0 name SERVICE_QUERY_STATUS false (fun h =>
    let* info := calling h (scm_status h) in
    ret (match info with Some st => negb (st =? SERVICE_STOPPED) | None => false end)).

Definition serviceFilePath (name : qstring) : WM qstring :=
  with_service 0 name SERVICE_QUERY_CONFIG [] (fun h =>
    let* config := calling h (scm_config h 8192) in
    ret (match config with Some (path, _) => path | None => [] end)).

Definition serviceDescription (name : qstring) : WM qstring :=
  with_service 0 name SERVICE_QUERY_CONFIG [] (fun h =>
    let* desc := calling h (scm_description h 8096) in
    ret (match desc with Some (Some d) => d | _ => [] end)).

Definition startupType (name : qstring) : WM StartupType :=
  with_service 0 name SERVICE_QUERY_CONFIG ManualStartup (fun h =>
    let* config := calling h (scm_config h 8192) in
    ret (match config with
         | Some (_, t) => if t =? SERVICE_DEMAND_START then ManualStartup else AutoStartup
         | None => ManualStartup
         end)).

Definition uninstall (name : qstring) : WM bool :=
  with_service SC_MANAGER_ALL_ACCESS name DELETE false (fun h => calling h (scm_delete h)).

Definition start (name : qstring) (args : list qstring) : WM bool :=
  with_service SC_MANAGER_CONNECT name SERVICE_START false (fun h => calling h (scm_start h args)).

(** The loop of [stop]: up to ten questions, one every 200 ms. *)
Fixpoint wait_stopped (n : nat) (h : nat) (stopped : bool) : WM bool :=
  match n with
  | O => ret stopped
  | S n =>
      if stopped then ret true
      else
        modify (fun s => mkWin (win_sleep 200 (world s)) (pOpenSCManager s) (handles s) (opened s)) ;;;
        let* st := calling h (scm_status h) in
        match st with Some st => wait_stopped n h (st =? SERVICE_STOPPED) | None => ret false end
  end.

Definition stop (name : qstring) : WM bool :=
  with_service SC_MANAGER_CONNECT name (Z.lor SERVICE_STOP SERVICE_QUERY_STATUS) false (fun h =>
    let* status := calling h (scm_control h SERVICE_CONTROL_STOP) in
    match status with Some st => wait_stopped 10 h (st =? SERVICE_STOPPED) | None => ret false end).

Definition control (name : qstring) (rights code : Z) : WM bool :=
  with_service SC_MANAGER_CONNECT name rights false (fun h =>
    let* status := calling h (scm_control h code) in
    ret (match status with Some _ => true | None => false end)).

Definition pause (name : qstring) : WM bool := control name SERVICE_PAUSE_CONTINUE SERVICE_CONTROL_PAUSE.
Definition resume (name : qstring) : WM bool := control name SERVICE_PAUSE_CONTINUE SERVICE_CONTROL_CONTINUE.

Definition sendCommand (name : qstring) (code : Z) : WM bool :=
  let* ok := winServiceInit in
  if negb ok then ret false
  else if (code <? 0) || (127 <? code) then ret false
  else
    let* running := isRunning name in
    if negb running then ret false else control name SERVICE_USER_DEFINED_CONTROL (128 + code).

(** The arguments are not sent. *)
Definition sendCommands (name : qstring) (cmdList : list qstring) : WM bool :=
  let* ok := winServiceInit in
  if negb ok then ret false
  else match cmdList with
       | [] => ret false
       | _ =>
           let* running := isRunning name in
           if negb running then ret false else control name SERVICE_USER_DEFINED_CONTROL 129
       end.

(** ** QtServiceBase *)

Definition event_type (type : Qt_Service.MessageType) : Z :=
  match type with
  | Qt_Service.Error => EVENTLOG_ERROR_TYPE
  | Qt_Service.Warning => EVENTLOG_WARNING_TYPE
  | Qt_Service.Information => EVENTLOG_INFORMATION_TYPE
  | Qt_Service.Success => EVENTLOG_SUCCESS
  end.

Definition logMessage (name message : qstring) (type : Qt_Service.MessageType) (id category : Z) (data : list byte) : WM unit :=
  let* ok := winServiceInit in
  if negb ok then ret tt
  else
    holding (event_source name) event_close tt (fun h =>
      calling h (fun w => (tt, event_report h (event_type type) category id message data w))).

(** The name of the program is put into an array of [MAX_PATH] characters
    whose size is given in bytes, twice as much. *)
Definition filePath (module_name : qstring) : WM qstring :=
  if zlen module_name <? MAX_PATH then ret module_name else undef.

Definition ch_bs : Z := 92.

(** The account as [CreateService] takes it: "Domain\UserName". None for
    LocalSystem. *)
Definition account_name (account : qstring) : option qstring :=
  if isEmpty account then None
  else
    let acc := if existsb (Z.eqb ch_bs) account then account else str "." ++ [ch_bs] ++ account in
    let suffix := ch_bs :: str "LocalSystem" in
    if bool_decide (drop (length acc - length suffix) acc = suffix) then None else Some acc.

Definition install (module_name name description : qstring) (startup : StartupType) (account password : qstring) : WM bool :=
  with_manager SC_MANAGER_ALL_ACCESS false (fun hSCM =>
    let dwStartType := match startup with AutoStartup => SERVICE_AUTO_START | ManualStartup => SERVICE_DEMAND_START end in
    let act := account_name account in
    let pwd := match act with Some _ => if isEmpty password then None else Some password | None => None end in
    let dwServiceType := match act with
                         | Some _ => SERVICE_WIN32_OWN_PROCESS
                         | None => Z.lor SERVICE_WIN32_OWN_PROCESS SERVICE_INTERACTIVE_PROCESS
                         end in
    let* path := filePath module_name in
    holding (scm_create hSCM name dwServiceType dwStartType path act pwd) scm_close false (fun hService =>
      when (negb (isEmpty description)) (calling hService (fun w => (tt, scm_describe hService description w))) ;;; ret true)).

(** ** Handles *)

(** [m] returns, when [h] is open if there is one, and leaves the open handles
    as they are. *)
Definition closes {A} (h : option nat) (m : WM A) : Prop :=
  forall s, (forall x, h = Some x -> x ∈ handles s) -> exists a s', m s = (Ret a, s') /\ handles s' = handles s.

Lemma closes_ret {A} h (a : A) : closes h (ret a).
Proof. intros s _. by exists a, s. Qed.

Lemma closes_bind {A B} h (m : WM A) (k : A -> WM B) : closes h m -> (forall a, closes h (k a)) -> closes h (bind m k).
Proof.
  intros Hm Hk s Hs. destruct (Hm s Hs) as (a & s1 & E & E1). destruct (Hk a s1) as (b & s2 & E' & E2).
  { by rewrite E1. }
  exists b, s2. split; [by rewrite (bind_Ret _ _ _ _ _ E)|by rewrite E2].
Qed.

Lemma closes_calling {A} h (f : W -> A * W) : closes (Some h) (calling h f).
Proof.
  intros s Hs. unfold calling. rewrite bool_decide_eq_true_2 by auto. destruct (f (world s)) as [a w]. by eexists _, _.
Qed.

Lemma closes_init h : closes h winServiceInit.
Proof. intros s _. by eexists _, _. Qed.

Lemma closes_modify h f : (forall s, handles (f s) = handles s) -> closes h (modify f : WM unit).
Proof. intros Hf s _. exists tt, (f s). by split. Qed.

Lemma closes_holding {A} h f cl dflt (body : nat -> WM A) : (forall x, closes (Some x) (body x)) -> closes h (holding f cl dflt body).
Proof.
  intros Hb s _. unfold holding, opening, bind at 1. destruct (f (opened s) (world s)) as [[] w]; [|by eexists _, _].
  set (s1 := mkWin w _ _ _). destruct (Hb (opened s) s1) as (a & s2 & E & E1).
  { intros x [= <-]. apply list_elem_of_here. }
  rewrite (bind_Ret _ _ _ _ _ E). unfold closing, bind. rewrite E1. simpl. rewrite bool_decide_eq_true_2 by apply list_elem_of_here.
  eexists _, _. split; [reflexivity|]. simpl. by rewrite bool_decide_eq_true_2.
Qed.

Lemma closes_manager {A} h access (dflt : A) body : (forall x, closes (Some x) (body x)) -> closes h (with_manager access dflt body).
Proof.
  intros Hb. unfold with_manager. apply closes_bind; [apply closes_init|]. intros [|]; simpl; [|apply closes_ret].
  by apply closes_holding.
Qed.

Lemma closes_service {A} h access name rights (dflt : A) body :
  (forall x, closes (Some x) (body x)) -> closes h (with_service access name rights dflt body).
Proof. intros Hb. unfold with_service. apply closes_manager. intros x. by apply closes_holding. Qed.

Lemma closes_wait n h : forall b, closes (Some h) (wait_stopped n h b).
Proof.
  induction n as [|n IH]; intros b; cbn [wait_stopped]; [apply closes_ret|]. destruct b; [apply closes_ret|].
  apply closes_bind; [by apply closes_modify|]. intros _. apply closes_bind; [apply closes_calling|]. intros [st|]; [apply IH|apply closes_ret].
Qed.

Ltac closes := repeat first
  [ apply closes_service; intros ? | apply closes_manager; intros ? | apply closes_holding; intros ? | apply closes_wait | apply closes_calling | apply closes_init | apply closes_ret
  | apply closes_bind; [|intros ?]
  | match goal with |- closes _ (match ?x with _ => _ end) => destruct x end ].

Inductive operation :=
  | Op_installed | Op_running | Op_path | Op_description | Op_startup | Op_uninstall | Op_start (args : list qstring)
  | Op_stop | Op_pause | Op_resume | Op_command (code : Z) | Op_commands (l : list qstring)
  | Op_log (message : qstring) (type : Qt_Service.MessageType) (id category : Z) (data : list byte)
  | Op_install (module_name description : qstring) (startup : StartupType) (account password : qstring).

Definition perform (name : qstring) (o : operation) : WM unit :=
  match o with
  | Op_installed => isInstalled name ;;; ret tt
  | Op_running => isRunning name ;;; ret tt
  | Op_path => serviceFilePath name ;;; ret tt
  | Op_description => serviceDescription name ;;; ret tt
  | Op_startup => startupType name ;;; ret tt
  | Op_uninstall => uninstall name ;;; ret tt
  | Op_start args => start name args ;;; ret tt
  | Op_stop => stop name ;;; ret tt
  | Op_pause => pause name ;;; ret tt
  | Op_resume => resume name ;;; ret tt
  | Op_command code => sendCommand name code ;;; ret tt
  | Op_commands l => sendCommands name l ;;; ret tt
  | Op_log message type id category data => logMessage name message type id category data
  | Op_install module_name description startup account password => install module_name name description startup account password ;;; ret tt
  end.

Lemma closes_perform name o h :
  match o with Op_install module_name _ _ _ _ => zlen module_name < MAX_PATH | _ => True end -> closes h (perform name o).
Proof.
  intros Ho. destruct o; cbn [perform]; unfold isInstalled, isRunning, serviceFilePath, serviceDescription, startupType, uninstall, start,
    stop, pause, resume, sendCommand, sendCommands, control, logMessage, when; try solve [closes].
  unfold install, filePath, when. rewrite (proj2 (Z.ltb_lt _ _) Ho). closes.
Qed.

(** Whatever the service control manager answers, every function of the
    controller returns, uses only handles that are open, and closes exactly
    those it has opened. (Installing needs a path shorter than the array.) *)
Theorem handles_closed name os s :
  Forall (fun o => match o with Op_install module_name _ _ _ _ => zlen module_name < MAX_PATH | _ => True end) os ->
  exists s', fold_right (fun o m => perform name o ;;; m) (ret tt) os s = (Ret tt, s') /\ handles s' = handles s.
Proof.
  intros Hos. enough (closes None (fold_right (fun o m => perform name o ;;; m) (ret tt) os)) as Hk.
  { destruct (Hk s) as ([] & s' & E & E'); [done|]. by exists s'. }
  induction Hos as [|o os Ho Hos IH]; simpl; [apply closes_ret|]. apply closes_bind; [by apply closes_perform|]. by intros _.
Qed.

(** A name of 260 characters is written past the array. *)
Example long_module_undefined s : (filePath (replicate 260 97) s).1 = Undef.
Proof. reflexivity. Qed.

End controller.
End Win_Service.
