(* ===== verification/QtServiceWinThreads.v ===== *)
(** * Qt_Service on Windows: the threads of a service

    [src/qtservice/src/qtservice_win.cpp]: [QtServiceBasePrivate::start] in the
    main thread, [HandlerThread], in which the system calls [handler], and the
    thread the system makes for [serviceMain]. They meet at two semaphores, a
    mutex and a wait condition; [handler] posts an event to the main thread and
    waits until that has handled it. A step is what one thread does between
    two points where others can interfere. What the system does (calls of
    [serviceMain] and [handler], the end of the dispatcher) are steps too. *)

From S2P Require Import Prelude QtString QtServiceCommands QtServiceWin.
Import Win_Service.

Module Win_Threads.

Definition QTSERVICE_STARTUP : Z := 256.
Definition SERVICE_CONTROL_INTERROGATE : Z := 4.
Definition SERVICE_CONTROL_SHUTDOWN : Z := 5.
Definition SERVICE_START_PENDING : Z := 2.
Definition SERVICE_STOP_PENDING : Z := 3.
Definition SERVICE_RUNNING : Z := 4.
Definition SERVICE_CONTINUE_PENDING : Z := 5.
Definition SERVICE_PAUSE_PENDING : Z := 6.
Definition SERVICE_PAUSED : Z := 7.
Definition SERVICE_ACCEPT_STOP : Z := 1.
Definition SERVICE_ACCEPT_PAUSE_CONTINUE : Z := 2.
Definition SERVICE_ACCEPT_SHUTDOWN : Z := 4.

(** [QtServiceSysPrivate::serviceFlags] *)
Definition serviceFlags (flags : Z) : Z :=
  Z.lor (if has_flag flags ServiceFlag.CanBeSuspended then SERVICE_ACCEPT_PAUSE_CONTINUE else 0)
    (Z.lor (if negb (has_flag flags ServiceFlag.CannotBeStopped) then SERVICE_ACCEPT_STOP else 0)
      (if has_flag flags ServiceFlag.NeedsStopOnShutdown then SERVICE_ACCEPT_SHUTDOWN else 0)).

(** *** The switch of [handler] *)

(** The state before the event is posted, the event, and the state after it
    has been handled. *)
Definition pending_state (code : Z) : option Z :=
  if code =? QTSERVICE_STARTUP then Some SERVICE_START_PENDING
  else if code =? SERVICE_CONTROL_STOP then Some SERVICE_STOP_PENDING
  else if code =? SERVICE_CONTROL_PAUSE then Some SERVICE_PAUSE_PENDING
  else if code =? SERVICE_CONTROL_CONTINUE then Some SERVICE_CONTINUE_PENDING
  else None.

Definition event_of (code : Z) : option Z :=
  if code =? QTSERVICE_STARTUP then Some code
  else if code =? SERVICE_CONTROL_STOP then Some code
  else if code =? SERVICE_CONTROL_PAUSE then Some code
  else if code =? SERVICE_CONTROL_CONTINUE then Some code
  else if code =? SERVICE_CONTROL_INTERROGATE then None
  else if code =? SERVICE_CONTROL_SHUTDOWN then Some SERVICE_CONTROL_STOP
  else if (128 <=? code) && (code <=? 255) then Some code
  else None.

Definition final_state (code : Z) : option Z :=
  if code =? QTSERVICE_STARTUP then Some SERVICE_RUNNING
  else if code =? SERVICE_CONTROL_PAUSE then Some SERVICE_PAUSED
  else if code =? SERVICE_CONTROL_CONTINUE then Some SERVICE_RUNNING
  else None.

(** *** The switch of [handleCustomEvent] *)

Inductive app_call := C_start | C_stop | C_pause | C_resume | C_command (code : Z).

Definition call_of (code : Z) : option app_call :=
  if code =? QTSERVICE_STARTUP then Some C_start
  else if code =? SERVICE_CONTROL_STOP then Some C_stop
  else if code =? SERVICE_CONTROL_PAUSE then Some C_pause
  else if code =? SERVICE_CONTROL_CONTINUE then Some C_resume
  else if (128 <=? code) && (code <=? 255) then Some (C_command (code - 128))
  else None.

(** ** Threads *)

Inductive thread := Th_service | Th_dispatcher.

(** In [handler]: before [mutex.lock], with the pending state set, in
    [condition.wait], woken and waiting for the mutex, before the last report. *)
Inductive handler_point := H_enter | H_pending | H_waiting | H_woken | H_report.

(** [start]: at [tryAcquire], before [createApplication], in the event loop,
    at the end of [handleCustomEvent], after the loop, waiting for the handler
    thread, before [sysCleanup]; returned without or after that. *)
Inductive main_point := M_acquire | M_create | M_loop | M_wake | M_stopped | M_join | M_cleanup | M_returned | M_done.

(** [HandlerThread]: before the dispatcher call, in it (and in [handler]),
    after its failure (because started from a console, or not), returned. *)
Inductive dispatcher_point := D_start | D_idle | D_handler (code : Z) (h : handler_point) | D_release (console : bool) | D_failed (console : bool) | D_finished.

(** [serviceMain]: not called yet, at its begin, waiting for the application,
    in [handler], returned (and whether the handler was registered). *)
Inductive service_point := S_none | S_begin (args : list qstring) | S_acquire | S_handler (h : handler_point) | S_done (registered : bool).

#[export] Instance main_point_eq_dec : EqDecision main_point.
Proof. solve_decision. Defined.
#[export] Instance handler_point_eq_dec : EqDecision handler_point.
Proof. solve_decision. Defined.
#[export] Instance dispatcher_point_eq_dec : EqDecision dispatcher_point.
Proof. solve_decision. Defined.

Record t := mk {
  semaphore1 : nat;   (** [startSemaphore] *)
  semaphore2 : nat;   (** [startSemaphore2] *)
  mutex : option thread;   (** who holds it *)
  queue : list Z;   (** events posted to [controllerHandler] *)
  dwCurrentState : Z;
  dwControlsAccepted : Z;
  reported : list Z;   (** states given to [SetServiceStatus] *)
  calls : list app_call;   (** calls of the service object *)
  quit_called : bool;
  main : main_point;
  dispatcher : dispatcher_point;
  service : service_point;
  serviceArgs : list qstring;
  delivered : list Z;   (** codes [handler] was called with *)
  undefined : bool;   (** something that is deleted was used *)
}.

Definition with_semaphore1 v (s : t) : t := let '(mk _ b c d e f g h i j k l m n o) := s in mk v b c d e f g h i j k l m n o.
Definition with_semaphore2 v (s : t) : t := let '(mk a _ c d e f g h i j k l m n o) := s in mk a v c d e f g h i j k l m n o.
Definition with_mutex v (s : t) : t := let '(mk a b _ d e f g h i j k l m n o) := s in mk a b v d e f g h i j k l m n o.
Definition with_queue v (s : t) : t := let '(mk a b c _ e f g h i j k l m n o) := s in mk a b c v e f g h i j k l m n o.
Definition with_dwCurrentState v (s : t) : t := let '(mk a b c d _ f g h i j k l m n o) := s in mk a b c d v f g h i j k l m n o.
Definition with_dwControlsAccepted v (s : t) : t := let '(mk a b c d e _ g h i j k l m n o) := s in mk a b c d e v g h i j k l m n o.
Definition with_reported v (s : t) : t := let '(mk a b c d e f _ h i j k l m n o) := s in mk a b c d e f v h i j k l m n o.
Definition with_calls v (s : t) : t := let '(mk a b c d e f g _ i j k l m n o) := s in mk a b c d e f g v i j k l m n o.
Definition with_quit_called v (s : t) : t := let '(mk a b c d e f g h _ j k l m n o) := s in mk a b c d e f g h v j k l m n o.
Definition with_main v (s : t) : t := let '(mk a b c d e f g h i _ k l m n o) := s in mk a b c d e f g h i v k l m n o.
Definition with_dispatcher v (s : t) : t := let '(mk a b c d e f g h i j _ l m n o) := s in mk a b c d e f g h i j v l m n o.
Definition with_service v (s : t) : t := let '(mk a b c d e f g h i j k _ m n o) := s in mk a b c d e f g h i j k v m n o.
Definition with_serviceArgs v (s : t) : t := let '(mk a b c d e f g h i j k l _ n o) := s in mk a b c d e f g h i j k l v n o.
Definition with_delivered v (s : t) : t := let '(mk a b c d e f g h i j k l m _ o) := s in mk a b c d e f g h i j k l m v o.
Definition with_undefined v (s : t) : t := let '(mk a b c d e f g h i j k l m n _) := s in mk a b c d e f g h i j k l m n v.

(** The constructor, with [sysInit]. *)
Definition init (flags : Z) : t :=
  mk 0 0 None [] SERVICE_STOPPED (serviceFlags flags) [] [] false M_acquire D_start S_none [] [] false.

(** What the system knows; a service that has just been started is pending. *)
Definition scm_state (s : t) : Z := List.last (reported s) SERVICE_START_PENDING.

Definition registered (s : t) : bool := match service s with S_handler _ => true | S_done b => b | _ => false end.

Definition setStatus (state : Z) (s : t) : t := with_reported (reported s ++ [state]) (with_dwCurrentState state s).

Definition set_some (state : option Z) (s : t) : t := match state with Some st => setStatus st s | None => s end.

(** The object is deleted; [instance] still points to it. *)
Definition deleted (s : t) : bool := bool_decide (main s = M_done).

(** ** Steps *)

Inductive actor :=
  | A_main | A_dispatcher | A_service    (** a thread goes on *)
  | A_timeout                            (** a wait with a time limit in the main thread ends by it *)
  | W_service (args : list qstring)      (** the system calls [serviceMain] *)
  | W_fail (console : bool)              (** the dispatcher cannot connect *)
  | W_control (code : Z)                 (** the system calls [handler] *)
  | U_flags (flags : Z).                 (** the service calls [setServiceFlags] *)

Section steps.
(** Whether the application and the registration succeed, and which functions
    of the service end the event loop themselves. *)
Context (app_ok register_ok : bool) (self_quit : Z -> bool).

(** [handler] in thread [th]: the point after the step, if it has not
    returned. *)
Definition handler (th : thread) (code : Z) (h : handler_point) (s : t) : option (option handler_point * t) :=
  if deleted s then Some (Some h, with_undefined true s)
  else match h with
       | H_enter => match mutex s with None => Some (Some H_pending, set_some (pending_state code) (with_mutex (Some th) s)) | Some _ => None end
       | H_pending =>
           match event_of code with
           | Some e => Some (Some H_waiting, with_mutex None (with_queue (queue s ++ [e]) s))
           | None => Some (Some H_report, with_mutex None s)
           end
       | H_waiting => None
       | H_woken => match mutex s with None => Some (Some H_report, set_some (final_state code) s) | Some _ => None end
       | H_report =>
           Some (None, if dwCurrentState s =? SERVICE_STOPPED then s else with_reported (reported s ++ [dwCurrentState s]) s)
       end.

(** [condition.wakeAll] *)
Definition wake_point (h : handler_point) : handler_point := match h with H_waiting => H_woken | _ => h end.
Definition wakeAll (s : t) : t :=
  with_dispatcher (match dispatcher s with D_handler c h => D_handler c (wake_point h) | d => d end)
    (with_service (match service s with S_handler h => S_handler (wake_point h) | p => p end) s).

(** [handleCustomEvent] up to [mutex.lock]. *)
Definition handleCustomEvent (code : Z) (s : t) : t :=
  with_quit_called (quit_called s || (code =? SERVICE_CONTROL_STOP) || self_quit code)
    (with_calls (calls s ++ option_list (call_of code)) s).

(** Whether a thread waits on the condition. *)
Definition waiting (s : t) : bool :=
  match dispatcher s with D_handler _ H_waiting => true | _ => match service s with S_handler H_waiting => true | _ => false end end.

(** [QtServiceBasePrivate::start] *)
Definition main_step (s : t) : option t :=
  match main s with
  | M_acquire =>
      match semaphore1 s with
      | O => None
      | S n => Some (with_semaphore1 n (with_main (match dispatcher s with D_failed _ => M_returned | _ => M_create end) s))
      end
  | M_create => Some (if app_ok then with_semaphore2 (S (semaphore2 s)) (with_main M_loop s) else with_main M_returned s)
  | M_loop =>
      if quit_called s then Some (with_main M_stopped s)
      else match queue s with
           | [] => None
           | e :: q => Some (with_main M_wake (handleCustomEvent e (with_queue q s)))
           end
  | M_wake => match mutex s with None => Some (with_main M_loop (wakeAll s)) | Some _ => None end
  | M_stopped => Some (with_main M_join (setStatus SERVICE_STOPPED s))
  | M_join => match dispatcher s with D_finished => Some (with_main M_cleanup s) | _ => None end
  | M_cleanup => Some (if waiting s then with_undefined true s else with_main M_done s)
  | M_returned | M_done => None
  end.

(** [HandlerThread::run] *)
Definition dispatcher_step (s : t) : option t :=
  match dispatcher s with
  | D_handler c h =>
      match handler Th_dispatcher c h s with
      | Some (Some h', s') => Some (with_dispatcher (D_handler c h') s')
      | Some (None, s') => Some (with_dispatcher D_idle s')
      | None => None
      end
  | D_idle => if registered s && (scm_state s =? SERVICE_STOPPED) then Some (with_dispatcher D_finished s) else None
  | D_release console => Some (with_semaphore1 (S (semaphore1 s)) (with_dispatcher (D_failed console) s))
  | _ => None
  end.

(** [serviceMain] *)
Definition service_step (s : t) : option t :=
  match service s with
  | S_begin args => Some (with_semaphore1 (S (semaphore1 s)) (with_serviceArgs (serviceArgs s ++ args) (with_service S_acquire s)))
  | S_acquire =>
      match semaphore2 s with
      | O => None
      | S n =>
          let s := with_semaphore2 n s in
          Some (if register_ok then with_delivered (delivered s ++ [QTSERVICE_STARTUP]) (with_service (S_handler H_enter) s)
                else with_service (S_done false) s)
      end
  | S_handler h =>
      match handler Th_service QTSERVICE_STARTUP h s with
      | Some (Some h', s') => Some (with_service (S_handler h') s')
      | Some (None, s') => Some (with_service (S_done true) s')
      | None => None
      end
  | S_none | S_done _ => None
  end.

Definition timeout_step (s : t) : option t :=
  match main s, semaphore1 s, dispatcher s with
  | M_acquire, O, _ => Some (with_main M_returned s)
  | M_join, _, D_finished => None
  | M_join, _, _ => Some (with_main M_cleanup s)
  | _, _, _ => None
  end.

(** [setServiceFlags], in the main thread. *)
Definition setServiceFlags (flags : Z) (s : t) : t :=
  let s := with_dwControlsAccepted (serviceFlags flags) s in
  if registered s then with_reported (reported s ++ [dwCurrentState s]) s else s.

Definition step (a : actor) (s : t) : option t :=
  if undefined s then None
  else match a with
       | A_main => main_step s
       | A_dispatcher => dispatcher_step s
       | A_service => service_step s
       | A_timeout => timeout_step s
       | W_service args => match dispatcher s with D_start => Some (with_dispatcher D_idle (with_service (S_begin args) s)) | _ => None end
       | W_fail console => match dispatcher s with D_start => Some (with_dispatcher (D_release console) s) | _ => None end
       | W_control code =>
           match dispatcher s with
           | D_idle => if registered s then Some (with_delivered (delivered s ++ [code]) (with_dispatcher (D_handler code H_enter) s)) else None
           | _ => None
           end
       | U_flags flags => match main s with M_loop => if quit_called s then None else Some (setServiceFlags flags s) | _ => None end
       end.

Fixpoint steps (l : list actor) (s : t) : option t :=
  match l with [] => Some s | a :: l => match step a s with Some s => steps l s | None => None end end.

End steps.
End Win_Threads.
