(* ===== verification/QtServiceWinProofs.v ===== *)
(** * Qt_Service on Windows: how controls are served

    The threads of [QtServiceWinThreads] under a service control manager that
    keeps to its documentation. Every state they can reach is in one of a few
    phases; from them follow what the service has been asked to do, what the
    system has been told, and that no thread waits for ever. *)

From S2P Require Import Prelude QtString QtServiceCommands QtServiceWin QtServiceWinThreads.
Import Win_Service Win_Threads.

Module Win_Proofs.

(** ** The manager *)

(** A control that needs it is sent only when it is accepted. *)
Definition accepts (controls code : Z) : bool :=
  if code =? SERVICE_CONTROL_STOP then has_flag controls SERVICE_ACCEPT_STOP
  else if (code =? SERVICE_CONTROL_PAUSE) || (code =? SERVICE_CONTROL_CONTINUE) then has_flag controls SERVICE_ACCEPT_PAUSE_CONTINUE
  else if code =? SERVICE_CONTROL_SHUTDOWN then has_flag controls SERVICE_ACCEPT_SHUTDOWN
  else (code =? SERVICE_CONTROL_INTERROGATE) || ((128 <=? code) && (code <=? 255)).

(** [ControlService] refuses a control for a service that is stopped or about
    to start or stop; a shutdown is the last control. The service changes its
    flags only once it has been started. *)
Definition lawful (s : t) (a : actor) : Prop :=
  match a with
  | W_control code =>
      scm_state s <> SERVICE_STOPPED /\ scm_state s <> SERVICE_START_PENDING /\ scm_state s <> SERVICE_STOP_PENDING
      /\ accepts (dwControlsAccepted s) code = true /\ SERVICE_CONTROL_SHUTDOWN ∉ delivered s
  | U_flags _ => dwCurrentState s <> SERVICE_STOPPED
  | _ => True
  end.

(** ** What is expected *)

(** What the system means by a control code, and what the service's own code
    for starting means, by their documented numbers: 1 stop, 2 pause, 3
    continue, 5 the system shuts down, 128 to 255 are the user's, 256 start. *)
Definition meaning (code : Z) : option app_call :=
  if (128 <=? code) && (code <=? 255) then Some (C_command (code - 128))
  else match code with
       | 1 | 5 => Some C_stop
       | 2 => Some C_pause
       | 3 => Some C_resume
       | 256 => Some C_start
       | _ => None
       end.

(** The state a code leads to, if the service goes on: 4 running, 7 paused. *)
Definition leads_to (code : Z) : option Z :=
  match meaning code with Some C_start | Some C_resume => Some 4 | Some C_pause => Some 7 | _ => None end.

(** The calls for a list of codes. *)
Definition calls_for (l : list Z) : list app_call := omap meaning l.

(** The state of the service after them. *)
Definition state_after (l : list Z) : Z := fold_left (fun st c => default st (leads_to c)) l 2.

(** The switches of the code say the same. *)
Lemma switches_mean c : meaning c = match event_of c with Some e => call_of e | None => None end /\ leads_to c = final_state c.
Proof.
  unfold leads_to, meaning, event_of, call_of, final_state, QTSERVICE_STARTUP, SERVICE_CONTROL_STOP, SERVICE_CONTROL_PAUSE,
    SERVICE_CONTROL_CONTINUE, SERVICE_CONTROL_INTERROGATE, SERVICE_CONTROL_SHUTDOWN, SERVICE_RUNNING, SERVICE_PAUSED.
  repeat match goal with |- context [?x =? ?y] => is_var x; destruct (Z.eqb_spec x y) as [->|?]; [by vm_compute|] end.
  destruct ((128 <=? c) && (c <=? 255)) eqn:E.
  - rewrite E. repeat match goal with |- context [?x =? ?y] => destruct (Z.eqb_spec x y); [lia|] end. done.
  - destruct c as [|q|q]; [done| |done].
    destruct (decide (q = 1%positive)), (decide (q = 2%positive)), (decide (q = 3%positive)), (decide (q = 5%positive)),
      (decide (q = 256%positive)); subst; try done.
    repeat (destruct q as [q|q|]; try done).
Qed.

Lemma calls_for_snoc l c : calls_for (l ++ [c]) = calls_for l ++ match event_of c with Some e => option_list (call_of e) | None => [] end.
Proof.
  unfold calls_for. rewrite omap_app. f_equal. simpl. rewrite (proj1 (switches_mean c)).
  destruct (event_of c) as [e|]; [|done]. by destruct (call_of e).
Qed.

Lemma calls_for_event l c e : event_of c = Some e -> calls_for (l ++ [c]) = calls_for l ++ option_list (call_of e).
Proof. intros He. by rewrite calls_for_snoc, He. Qed.

Lemma state_after_snoc l c : state_after (l ++ [c]) = default (state_after l) (final_state c).
Proof. unfold state_after. rewrite fold_left_app. simpl. by rewrite (proj2 (switches_mean c)). Qed.

Lemma no_event_no_state c : event_of c = None -> pending_state c = None /\ final_state c = None.
Proof. unfold pending_state, event_of, final_state. repeat case_match; done. Qed.

Lemma final_covers c e st : event_of c = Some e -> e <> SERVICE_CONTROL_STOP -> default (default st (pending_state c)) (final_state c) = default st (final_state c).
Proof. unfold pending_state, event_of, final_state. intros. repeat case_match; simplify_eq; try done. breflect; subst; done. Qed.

Lemma stop_codes c : event_of c = Some SERVICE_CONTROL_STOP ->
  final_state c = None /\ (c = SERVICE_CONTROL_SHUTDOWN \/ pending_state c = Some SERVICE_STOP_PENDING).
Proof.
  unfold pending_state, event_of, final_state, SERVICE_CONTROL_STOP, SERVICE_CONTROL_SHUTDOWN, QTSERVICE_STARTUP, SERVICE_CONTROL_PAUSE, SERVICE_CONTROL_CONTINUE.
  intros. repeat case_match; simplify_eq; breflect; auto; lia.
Qed.

Section reach.
Context (app_ok register_ok : bool).
(** The service leaves its event loop only when it is stopped. *)
Notation step := (step app_ok register_ok (fun _ => false)).

Inductive reachable (flags : Z) : t -> Prop :=
  | r_init : reachable flags (init flags)
  | r_step a s s' : reachable flags s -> lawful s a -> step a s = Some s' -> reachable flags s'.

(** ** Phases *)

(** The system has been told the state, last. *)
Definition shows (rep : list Z) (cur : Z) : Prop := exists l, rep = l ++ [cur].

(** No code so far has ended the service. *)
Definition going (l : list Z) : Prop := Forall (fun c => event_of c <> Some SERVICE_CONTROL_STOP) l.

Lemma going_snoc l c : going l -> event_of c <> Some SERVICE_CONTROL_STOP -> going (l ++ [c]).
Proof. intros Hl Hc. apply Forall_app. split; [done|]. by constructor. Qed.

(** [serviceMain] is about to return, or has. *)
Inductive resting : service_point -> Prop := rest_report : resting (S_handler H_report) | rest_done : resting (S_done true).

(** The dispatcher while the service ends, with the code that ended it. *)
Inductive leaving (c : Z) : dispatcher_point -> Prop :=
  | lv_woken : leaving c (D_handler c H_woken)
  | lv_report : leaving c (D_handler c H_report)
  | lv_idle : leaving c D_idle.

(** Before [handler] has been registered. *)
Inductive unstarted : dispatcher_point -> service_point -> Prop :=
  | un_start : unstarted D_start S_none
  | un_release con : unstarted (D_release con) S_none
  | un_failed con : unstarted (D_failed con) S_none
  | un_begin a : unstarted D_idle (S_begin a)
  | un_acquire : unstarted D_idle S_acquire.

Notation quiet := (SERVICE_STOPPED) (only parsing).

Inductive phase : t -> Prop :=
  | ph_wait ctl a : phase (mk 0 0 None [] quiet ctl [] [] false M_acquire D_start S_none a [] false)
  | ph_release ctl con a : phase (mk 0 0 None [] quiet ctl [] [] false M_acquire (D_release con) S_none a [] false)
  | ph_failed ctl con a : phase (mk 1 0 None [] quiet ctl [] [] false M_acquire (D_failed con) S_none a [] false)
  | ph_begin ctl b a : phase (mk 0 0 None [] quiet ctl [] [] false M_acquire D_idle (S_begin b) a [] false)
  | ph_args ctl a : phase (mk 1 0 None [] quiet ctl [] [] false M_acquire D_idle S_acquire a [] false)
  | ph_create ctl a : phase (mk 0 0 None [] quiet ctl [] [] false M_create D_idle S_acquire a [] false)
  | ph_created ctl a : phase (mk 0 1 None [] quiet ctl [] [] false M_loop D_idle S_acquire a [] false)
  | ph_unregistered ctl a : phase (mk 0 0 None [] quiet ctl [] [] false M_loop D_idle (S_done false) a [] false)
  | ph_returned n ctl d p a : unstarted d p -> phase (mk n 0 None [] quiet ctl [] [] false M_returned d p a [] false)
  | ph_startup ctl a : phase (mk 0 0 None [] quiet ctl [] [] false M_loop D_idle (S_handler H_enter) a [QTSERVICE_STARTUP] false)
  | ph_start_pending ctl rep a : shows rep SERVICE_START_PENDING ->
      phase (mk 0 0 (Some Th_service) [] SERVICE_START_PENDING ctl rep [] false M_loop D_idle (S_handler H_pending) a [QTSERVICE_STARTUP] false)
  | ph_start_posted ctl rep a : shows rep SERVICE_START_PENDING ->
      phase (mk 0 0 None [QTSERVICE_STARTUP] SERVICE_START_PENDING ctl rep [] false M_loop D_idle (S_handler H_waiting) a [QTSERVICE_STARTUP] false)
  | ph_start_handled ctl rep a : shows rep SERVICE_START_PENDING ->
      phase (mk 0 0 None [] SERVICE_START_PENDING ctl rep [C_start] false M_wake D_idle (S_handler H_waiting) a [QTSERVICE_STARTUP] false)
  | ph_start_woken ctl rep a : shows rep SERVICE_START_PENDING ->
      phase (mk 0 0 None [] SERVICE_START_PENDING ctl rep [C_start] false M_loop D_idle (S_handler H_woken) a [QTSERVICE_STARTUP] false)
  | ph_idle ctl rep p a l : resting p -> shows rep (state_after l) -> going l ->
      phase (mk 0 0 None [] (state_after l) ctl rep (calls_for l) false M_loop D_idle p a l false)
  | ph_enter ctl rep p a l c : resting p -> shows rep (state_after l) -> going l ->
      phase (mk 0 0 None [] (state_after l) ctl rep (calls_for l) false M_loop (D_handler c H_enter) p a (l ++ [c]) false)
  | ph_pending ctl rep p a l c cur : resting p -> cur = default (state_after l) (pending_state c) -> shows rep cur -> going l ->
      phase (mk 0 0 (Some Th_dispatcher) [] cur ctl rep (calls_for l) false M_loop (D_handler c H_pending) p a (l ++ [c]) false)
  | ph_posted ctl rep p a l c e cur : resting p -> event_of c = Some e -> cur = default (state_after l) (pending_state c) -> shows rep cur -> going l ->
      phase (mk 0 0 None [e] cur ctl rep (calls_for l) false M_loop (D_handler c H_waiting) p a (l ++ [c]) false)
  | ph_handled ctl rep p a l c e cur : resting p -> event_of c = Some e -> cur = default (state_after l) (pending_state c) -> shows rep cur -> going l ->
      phase (mk 0 0 None [] cur ctl rep (calls_for (l ++ [c])) (e =? SERVICE_CONTROL_STOP) M_wake (D_handler c H_waiting) p a (l ++ [c]) false)
  | ph_woken ctl rep p a l c e cur : resting p -> event_of c = Some e -> e <> SERVICE_CONTROL_STOP ->
      cur = default (state_after l) (pending_state c) -> shows rep cur -> going l ->
      phase (mk 0 0 None [] cur ctl rep (calls_for (l ++ [c])) false M_loop (D_handler c H_woken) p a (l ++ [c]) false)
  | ph_report ctl rep p a l c : resting p -> event_of c <> Some SERVICE_CONTROL_STOP -> shows rep (state_after (l ++ [c])) -> going l ->
      phase (mk 0 0 None [] (state_after (l ++ [c])) ctl rep (calls_for (l ++ [c])) false M_loop (D_handler c H_report) p a (l ++ [c]) false)
  | ph_leaving ctl rep p a l c cur mp d : resting p -> event_of c = Some SERVICE_CONTROL_STOP ->
      cur = default (state_after l) (pending_state c) -> shows rep cur -> mp = M_loop \/ mp = M_stopped -> leaving c d ->
      phase (mk 0 0 None [] cur ctl rep (calls_for (l ++ [c])) true mp d p a (l ++ [c]) false)
  | ph_stopped ctl rep p a l c mp d : resting p -> event_of c = Some SERVICE_CONTROL_STOP ->
      shows rep SERVICE_STOPPED -> mp = M_join \/ mp = M_cleanup \/ mp = M_done -> leaving c d \/ d = D_finished ->
      phase (mk 0 0 None [] SERVICE_STOPPED ctl rep (calls_for (l ++ [c])) true mp d p a (l ++ [c]) false)
  | ph_undefined s : undefined s = true -> phase s.

#[local] Hint Constructors phase resting leaving unstarted : core.

Lemma shows_last rep cur : shows rep cur -> List.last rep SERVICE_START_PENDING = cur.
Proof. intros [l ->]. apply List.last_last. Qed.

Lemma shows_snoc rep cur : shows (rep ++ [cur]) cur.
Proof. by exists rep. Qed.
#[local] Hint Resolve shows_snoc going_snoc : core.

Lemma phase_init flags : phase (init flags).
Proof. unfold init. eauto. Qed.

Lemma state_running l : state_after l <> SERVICE_STOPPED.
Proof.
  induction l as [|c l IH] using rev_ind; [done|]. rewrite state_after_snoc. unfold final_state.
  destruct (c =? _); [done|]. destruct (c =? _); [done|]. by destruct (c =? _).
Qed.

Lemma pending_running l c : default (state_after l) (pending_state c) <> SERVICE_STOPPED.
Proof. unfold pending_state. repeat (destruct (c =? _); [done|]). apply state_running. Qed.

Lemma set_some_shows o cur rep : shows rep cur -> shows (match o with Some st => rep ++ [st] | None => rep end) (default cur o).
Proof. destruct o; simpl; auto. Qed.
#[local] Hint Resolve set_some_shows : core.

(** A step of a state that is given. *)
Ltac step_in E :=
  unfold Win_Threads.step, main_step, dispatcher_step, service_step, timeout_step, handler, deleted, waiting, registered, scm_state in E; simpl in E.
Ltac states := unfold setServiceFlags, handleCustomEvent, wakeAll, set_some, setStatus, registered; simpl.
Ltac step_cases := repeat match goal with
  | Hs : Some _ = Some _ |- _ => injection Hs as Hs; subst
  | Hs : None = Some _ |- _ => discriminate Hs
  | Hs : (match ?x with _ => _ end) = Some _ |- _ => destruct x eqn:?; simpl in Hs
  end.

(** Where the threads are, from what a phase says of them. *)
Ltac points := repeat match goal with
  | Hx : _ \/ _ |- _ => destruct Hx; subst
  | Hx : resting _ |- _ => destruct Hx
  | Hx : leaving _ _ |- _ => destruct Hx
  | Hx : unstarted _ _ |- _ => destruct Hx
  end.

Lemma step_defined a s s' : step a s = Some s' -> undefined s = false.
Proof. unfold Win_Threads.step. by destruct (undefined s). Qed.

Ltac by_phase Hp E :=
  pose proof (step_defined _ _ _ E); destruct Hp; [..|congruence]; points; step_in E; try congruence;
  step_cases; states; repeat (case_match; simpl); try solve [eauto].

Lemma phase_main s s' : phase s -> step A_main s = Some s' -> phase s'.
Proof.
  intros Hp E. by_phase Hp E.
  all: try (rewrite orb_false_r; erewrite <- calls_for_event by done; eauto).
  all: destruct (Z.eqb_spec e SERVICE_CONTROL_STOP); subst; eauto.
Qed.

Lemma phase_service s s' : phase s -> step A_service s = Some s' -> phase s'.
Proof.
  intros Hp E. by_phase Hp E.
  - apply ph_start_pending. by exists [].
  - apply (ph_idle _ _ _ _ [QTSERVICE_STARTUP]); eauto. by apply Forall_singleton.
Qed.

#[local] Hint Resolve state_running pending_running : core.

(** The system is told a state other than stopped: the dispatcher does not
    return. *)
Ltac not_stopped E :=
  match goal with Hs : shows ?rep ?cur |- _ =>
    rewrite (shows_last rep cur Hs), (proj2 (Z.eqb_neq cur SERVICE_STOPPED)) in E by first [done|auto];
    try rewrite andb_false_r in E; discriminate E
  end.

Lemma phase_eq s s' : phase s -> s = s' -> phase s'.
Proof. by intros ? <-. Qed.

Lemma phase_dispatcher s s' : phase s -> step A_dispatcher s = Some s' -> phase s'.
Proof.
  intros Hp E. pose proof (step_defined _ _ _ E).
  destruct Hp as [ | | | | | | | | ? ? ? ? ? Hd | | | | | | | ctl rep p a l c Hr Hs | ctl rep p a l c cur Hr Hc Hs | |
    | ctl rep p a l c e cur Hr He Hne Hc Hs | ctl rep p a l c Hr He Hs | ctl rep p a l c cur mp d Hr He Hc Hs Hm Hd
    | ctl rep p a l c mp d Hr He Hs Hm Hd | ]; [..|congruence]; subst; try solve [step_in E; first [discriminate E | not_stopped E | step_cases; eauto]].
  - destruct Hd; step_in E; step_cases; eauto.
  - step_in E. step_cases. eapply phase_eq; [eapply (ph_pending _ (match pending_state c with Some st => rep ++ [st] | None => rep end)); eauto|].
    unfold set_some, setStatus. by destruct (pending_state c).
  - step_in E. destruct (event_of c) as [e|] eqn:He; step_cases; [eauto|]. destruct (no_event_no_state c He) as [Hp0 Hf]. rewrite Hp0 in *.
    eapply phase_eq; [apply (ph_report ctl rep p a l c); [done|congruence|by rewrite state_after_snoc, Hf|done]|].
    by rewrite state_after_snoc, Hf, calls_for_snoc, He, app_nil_r.
  - step_in E. step_cases. pose proof (final_covers c e (state_after l) He Hne) as Hf.
    eapply phase_eq; [apply (ph_report ctl (match final_state c with Some st => rep ++ [st] | None => rep end) p a l c); [exact Hr|congruence| |done]|].
    + rewrite state_after_snoc, <- Hf. by apply set_some_shows.
    + rewrite state_after_snoc, <- Hf. unfold set_some, setStatus. by destruct (final_state c).
  - step_in E. step_cases. rewrite (proj2 (Z.eqb_neq _ _)) by auto. simpl. eauto.
  - destruct (stop_codes c He) as [Hf _]. destruct Hd; [| |destruct Hm; subst; step_in E; not_stopped E].
    + destruct Hm; subst; step_in E; rewrite Hf in E; step_cases; simpl; eauto.
    + destruct Hm; subst; step_in E; step_cases; (rewrite (proj2 (Z.eqb_neq _ _)) by auto); simpl; eauto.
  - destruct (stop_codes c He) as [Hf _]. destruct Hd as [Hd| ->]; [destruct Hd|]; destruct Hm as [->|[->| ->]]; step_in E; try rewrite Hf in E; step_cases;
      first [by apply ph_undefined | rewrite ?Z.eqb_refl; simpl; apply ph_stopped; auto].
Qed.

Lemma phase_system a s s' :
  match a with A_timeout | W_service _ | W_fail _ => True | _ => False end -> phase s -> step a s = Some s' -> phase s'.
Proof.
  intros Ha Hp E. pose proof (step_defined _ _ _ E).
  destruct a; try done; (destruct Hp; [..|congruence]); points; step_in E; try congruence; step_cases; try solve [eauto]; apply ph_stopped; auto.
Qed.

Lemma phase_control c s s' : phase s -> lawful s (W_control c) -> step (W_control c) s = Some s' -> phase s'.
Proof.
  intros Hp (L1 & L2 & L3 & _ & L4) E. pose proof (step_defined _ _ _ E). unfold scm_state in *.
  destruct Hp as [ | | | | | | | | ? ? ? ? ? Hd | | | | | | ctl rep p a l Hr Hs | | | | | | | ctl rep p a l d cur mp dp Hr He Hc Hs Hm Hd | ctl rep p a l d mp dp Hr He Hs Hm Hd | ];
    [..|congruence]; simpl in L1, L2, L3, L4; try done;
    try (match goal with Hs : shows _ _ |- _ => rewrite (shows_last _ _ Hs) in L1, L2, L3 end); try done; try solve [step_in E; discriminate E].
  - destruct Hr; step_in E; step_cases; eauto.
  - exfalso. destruct (stop_codes d He) as [_ [->|Hp]]; [set_solver|]. by rewrite Hc, Hp in L3.
Qed.

Lemma phase_flags f s s' : phase s -> lawful s (U_flags f) -> step (U_flags f) s = Some s' -> phase s'.
Proof.
  intros Hp L E. pose proof (step_defined _ _ _ E). unfold lawful in L.
  destruct Hp; [..|congruence]; points; step_in E; try congruence; step_cases; states; eauto.
Qed.

Lemma reachable_phase flags s : reachable flags s -> phase s.
Proof.
  induction 1 as [|a s s' _ IH L E]; [apply phase_init|]. destruct a.
  - by apply (phase_main s).
  - by apply (phase_dispatcher s).
  - by apply (phase_service s).
  - by apply (phase_system A_timeout s).
  - by apply (phase_system (W_service args) s).
  - by apply (phase_system (W_fail console) s).
  - by apply (phase_control code s).
  - by apply (phase_flags flags0 s).
Qed.

(** ** Progress *)

(** How many steps the threads can still make without the system. *)
Definition handler_rank (h : handler_point) : nat :=
  match h with H_enter => 10 | H_pending => 9 | H_waiting => 5 | H_woken => 4 | H_report => 2 end.
Definition rank (s : t) : nat :=
  if undefined s then 0
  else 1 + 3 * length (queue s)
    + match main s with M_acquire => 11 | M_create => 10 | M_loop => 8 | M_wake => 9 | M_stopped => 6 | M_join => 5 | M_cleanup => 4 | _ => 0 end
    + match dispatcher s with D_start => 3 | D_release _ => 2 | D_idle => 1 | D_handler _ h => 1 + handler_rank h | _ => 0 end
    + match service s with S_none => 0 | S_begin _ => 20 | S_acquire => 15 | S_handler h => handler_rank h | S_done _ => 0 end.

Lemma handler_ranks th c h s o s' :
  handler th c h s = Some (o, s') -> undefined s = false ->
  undefined s' = true \/ undefined s' = false /\ main s' = main s /\ dispatcher s' = dispatcher s /\ service s' = service s
    /\ (3 * length (queue s') + match o with Some h' => handler_rank h' | None => 0 end < 3 * length (queue s) + handler_rank h)%nat.
Proof.
  unfold handler, set_some, setStatus. intros E Hu. destruct s; simpl in *. subst.
  repeat case_match; simplify_eq; simpl; auto; right; split_and!; try done; rewrite ?length_app; simpl; lia.
Qed.

Lemma wake_rank h : (handler_rank (wake_point h) <= handler_rank h)%nat.
Proof. destruct h; simpl; lia. Qed.

Lemma main_ranks s s' : main_step app_ok (fun _ => false) s = Some s' -> undefined s = false -> (rank s' < rank s)%nat.
Proof.
  destruct s as [s1 s2 mx q cur ctl rep cs qt mp d p a l u]. unfold main_step, rank. simpl. intros E ->. destruct mp; try done.
  - destruct s1; [done|]. simplify_eq. simpl. destruct d; simpl; lia.
  - destruct app_ok; simplify_eq; simpl; lia.
  - destruct qt; [simplify_eq; simpl; lia|]. destruct q; [done|]. simplify_eq. simpl. lia.
  - destruct mx; [done|]. simplify_eq. unfold wakeAll. simpl.
    assert (forall h, (handler_rank (wake_point h) <= handler_rank h)%nat) as Hw by apply wake_rank.
    destruct d as [| |? h| | |], p as [| | |h'|]; simpl; try pose proof (Hw h); try pose proof (Hw h'); lia.
  - simplify_eq. simpl. lia.
  - destruct d; try done. simplify_eq. simpl. lia.
  - destruct (waiting _); simplify_eq; simpl; lia.
Qed.

(** Every step of a thread uses up some of it. *)
Lemma rank_decreases a s s' : a = A_main \/ a = A_dispatcher \/ a = A_service -> step a s = Some s' -> (rank s' < rank s)%nat.
Proof.
  intros Ha E. pose proof (step_defined _ _ _ E) as Hu. unfold Win_Threads.step in E. rewrite Hu in E.
  destruct Ha as [->|[->| ->]].
  - by apply main_ranks.
  - unfold dispatcher_step in E. destruct (dispatcher s) eqn:Ed; try done; [by case_match; simplify_eq; unfold rank; destruct s; simpl in *; subst; simpl; lia| |by simplify_eq; unfold rank; destruct s; simpl in *; subst; simpl; lia].
    destruct (handler Th_dispatcher code h s) as [[o s1]|] eqn:Eh; [|done].
    destruct (handler_ranks _ _ _ _ _ _ Eh Hu) as [H1|(H1 & H2 & H3 & H4 & H5)];
      assert (s' = with_dispatcher (match o with Some h' => D_handler code h' | None => D_idle end) s1) as -> by (destruct o; by simplify_eq);
      unfold rank; rewrite Hu; destruct s, s1; simpl in *; subst; [lia|destruct o; simpl; lia].
  - unfold service_step in E. destruct (service s) eqn:Es; try done.
    + simplify_eq. unfold rank. destruct s; simpl in *; subst; simpl; lia.
    + case_match; [done|]. simplify_eq. unfold rank. destruct register_ok, s; simpl in *; subst; simpl; lia.
    + destruct (handler Th_service QTSERVICE_STARTUP h s) as [[o s1]|] eqn:Eh; [|done].
      destruct (handler_ranks _ _ _ _ _ _ Eh Hu) as [H1|(H1 & H2 & H3 & H4 & H5)];
        assert (s' = with_service (match o with Some h' => S_handler h' | None => S_done true end) s1) as -> by (destruct o; by simplify_eq);
        unfold rank; rewrite Hu; destruct s, s1; simpl in *; subst; [lia|destruct o; simpl; lia].
Qed.

(** Nothing is left to do before the system acts. *)
Definition idle (s : t) : Prop :=
  (main s = M_acquire /\ dispatcher s = D_start)
  \/ (main s = M_loop /\ quit_called s = false /\ queue s = [] /\ dispatcher s = D_idle /\ exists b, service s = S_done b).

Ltac go K a :=
  apply (K a); [by auto|]; unfold is_Some, Win_Threads.step, main_step, dispatcher_step, service_step, handler, deleted, registered; simpl; try solve [eauto].

Lemma phase_progress s :
  phase s -> undefined s = false -> main s <> M_returned -> main s <> M_done ->
  idle s \/ exists a s', (a = A_main \/ a = A_dispatcher \/ a = A_service) /\ step a s = Some s'.
Proof.
  intros Hp Hu H1 H2.
  assert (forall a, (a = A_main \/ a = A_dispatcher \/ a = A_service) -> is_Some (step a s) ->
    idle s \/ exists a s', (a = A_main \/ a = A_dispatcher \/ a = A_service) /\ step a s = Some s') as K.
  { intros a Ha [s' E]. right. by exists a, s'. }
  destruct Hp as [ | | | | | | | | | | | | | | ctl rep p a l Hr Hs | | | | | | | ? ? ? ? ? ? ? ? ? ? ? ? ? Hm ?
    | ctl rep p a l c mp d Hr He Hs Hm Hd | ]; [..|congruence]; try congruence.
  - left. left. done.
  - go K A_dispatcher.
  - go K A_main.
  - go K A_service.
  - go K A_main.
  - go K A_main.
  - go K A_service.
  - left. right. split_and!; try done. by exists false.
  - done.
  - go K A_service.
  - go K A_service.
  - go K A_main.
  - go K A_main.
  - go K A_service.
  - destruct Hr; [go K A_service|]. left. right. split_and!; try done. by exists true.
  - go K A_dispatcher.
  - go K A_dispatcher. destruct (event_of c); eauto.
  - go K A_main.
  - go K A_main.
  - go K A_dispatcher.
  - go K A_dispatcher.
  - destruct Hm as [->| ->]; go K A_main.
  - destruct Hm as [->|[->| ->]]; [|go K A_main|done]. destruct Hd as [Hd| ->]; [|go K A_main]. destruct Hd; go K A_dispatcher.
    unfold scm_state. simpl. rewrite (shows_last _ _ Hs). destruct Hr; simpl; eauto.
Qed.

Lemma going_calls l : going l -> C_stop ∉ calls_for l.
Proof.
  unfold going. rewrite Forall_forall. intros Hl (c & Hc & He)%list_elem_of_omap. apply (Hl c Hc).
  rewrite (proj1 (switches_mean c)) in He. destruct (event_of c) as [e|]; [|done]. f_equal.
  unfold call_of in He. repeat case_match; simplify_eq. by breflect.
Qed.

Lemma phase_served s :
  phase s -> undefined s = false ->
  calls s `prefix_of` calls_for (delivered s)
  /\ (forall c h, dispatcher s = D_handler c h -> h = H_woken \/ h = H_report -> calls s = calls_for (delivered s))
  /\ (idle s -> calls s = calls_for (delivered s) /\ C_stop ∉ calls_for (delivered s)
      /\ (registered s = true -> scm_state s = state_after (delivered s))).
Proof.
  intros Hp Hu. unfold idle.
  destruct Hp as [ | | | | | | | | ? ? ? ? ? Hd | | | | | | ctl rep p a l Hr Hs Hg | | | | | | | | | ]; [..|congruence];
    (split; [simpl; try apply prefix_nil; try done; rewrite ?calls_for_snoc; by apply prefix_app_r|]);
    split; simpl; try (intros; by simplify_eq); try (by intros c' h' E [-> | ->]); intros Hi; destruct_and?; destruct_or?; destruct_and?; try done;
    repeat match goal with Hx : exists _, _ |- _ => destruct Hx; try discriminate end; try congruence;
    try (split_and!; [done|by apply not_elem_of_nil|done]).
  - destruct Hr; split_and!; try done; [by apply going_calls|]. intros _. by apply shows_last.
Qed.

(** C40. However the three threads of a service and the system are interleaved,
    if the service control manager keeps its documented rules, no user code
    quits the event loop and nothing undefined has happened, each control
    reaches the service once and in order. The functions called are a prefix
    of those that the codes delivered mean; a handler that is past its wait has
    had its event handled; when nothing is left to do, all of them have been
    called, the system knows the state the last code leads to, and none of
    them was a stop; and until the service has ended some thread can go on,
    each step using up some of a finite rank, so that no thread waits for
    ever. *)
Theorem controls_served flags s :
  reachable flags s -> undefined s = false ->
  calls s `prefix_of` calls_for (delivered s)
  /\ (forall c h, dispatcher s = D_handler c h -> h = H_woken \/ h = H_report -> calls s = calls_for (delivered s))
  /\ (idle s -> calls s = calls_for (delivered s) /\ C_stop ∉ calls_for (delivered s)
      /\ (registered s = true -> scm_state s = state_after (delivered s)))
  /\ (main s <> M_returned -> main s <> M_done ->
      idle s \/ exists a s', (a = A_main \/ a = A_dispatcher \/ a = A_service) /\ step a s = Some s' /\ (rank s' < rank s)%nat).
Proof.
  intros Hr Hu. pose proof (reachable_phase flags s Hr) as Hp. destruct (phase_served s Hp Hu) as (H1 & H2 & H3).
  split_and!; [exact H1|exact H2|exact H3|]. intros M1 M2. destruct (phase_progress s Hp Hu M1 M2) as [Hi|(a & s' & Ha & E)]; [by left|].
  right. exists a, s'. split_and!; [done|done|]. by apply (rank_decreases a).
Qed.

End reach.

(** ** A service that is started, paused and stopped, and what can go wrong *)

Module Win_Witness.

Definition flags : Z := ServiceFlag.CanBeSuspended.
Notation run := (steps true true (fun _ => false)).

(** [start], up to the running service. *)
Definition starting : list actor := [W_service [str "svc"]; A_service; A_main; A_main; A_service].
Definition started : list actor := starting ++ [A_service; A_service; A_main; A_main; A_service; A_service].
(** A control from its delivery to the end of [handler]. *)
Definition served (c : Z) : list actor := [W_control c; A_dispatcher; A_dispatcher; A_main; A_main; A_dispatcher; A_dispatcher].
Definition ending : list actor := [A_main; A_main; A_dispatcher; A_main; A_main].

Definition whole : list actor :=
  started ++ served SERVICE_CONTROL_PAUSE ++ served SERVICE_CONTROL_CONTINUE ++ served 130 ++ served SERVICE_CONTROL_STOP ++ ending.

Definition facts (s : t) := (calls s, reported s, main s, undefined s).

(** Started, paused, resumed, given a command and stopped. *)
Example whole_life :
  facts <$> run whole (init flags)
  = Some ([C_start; C_pause; C_resume; C_command 2; C_stop], [2; 4; 4; 6; 7; 7; 5; 4; 4; 4; 3; 3; 1], M_done, false).
Proof. vm_compute. reflexivity. Qed.

(** Whether the steps keep to the rules of the manager. *)
Fixpoint lawful_run (l : list actor) (s : t) : bool :=
  match l with
  | [] => true
  | a :: l =>
      match a with
      | W_control code =>
          negb (scm_state s =? SERVICE_STOPPED) && negb (scm_state s =? SERVICE_START_PENDING) && negb (scm_state s =? SERVICE_STOP_PENDING)
          && accepts (dwControlsAccepted s) code && negb (existsb (Z.eqb SERVICE_CONTROL_SHUTDOWN) (delivered s))
      | U_flags _ => negb (dwCurrentState s =? SERVICE_STOPPED)
      | _ => true
      end && match step true true (fun _ => false) a s with Some s => lawful_run l s | None => false end
  end.

Lemma lawful_run_reachable fl l : forall s s',
  reachable true true fl s -> lawful_run l s = true -> run l s = Some s' -> reachable true true fl s'.
Proof.
  induction l as [|a l IH]; intros s s' Hr Hl E; cbn [lawful_run steps] in *; [by simplify_eq|].
  apply andb_prop in Hl as [Ha Hl]. destruct (step true true (fun _ => false) a s) as [s1|] eqn:E1; [|done].
  apply (IH s1); try done. apply (r_step true true fl a s); try done. destruct a; try done.
  - repeat match goal with Hx : _ && _ = true |- _ => apply andb_prop in Hx as [? ?] end. unfold lawful. breflect.
    split_and!; try done. intros Hin. rewrite <- not_true_iff_false in *.
    match goal with Hx : ~ existsb _ _ = true |- _ => apply Hx end. apply existsb_exists. eexists. split; [by apply list_elem_of_In|]. by apply Z.eqb_eq.
  - unfold lawful. by breflect.
Qed.

Definition paused : list actor := started ++ served SERVICE_CONTROL_PAUSE.

Lemma controls_served_witness :
  exists s, run paused (init flags) = Some s /\ calls s = [C_start; C_pause] /\ scm_state s = SERVICE_PAUSED.
Proof.
  destruct (run paused (init flags)) as [s|] eqn:E; [|vm_compute in E; discriminate].
  assert (reachable true true flags s) as Hr.
  { apply (lawful_run_reachable flags paused (init flags)); [apply r_init|vm_compute; reflexivity|exact E]. }
  assert (undefined s = false) as Hu by (vm_compute in E; injection E as <-; reflexivity).
  destruct (controls_served true true flags s Hr Hu) as (_ & _ & Hi & _). exists s. split; [reflexivity|].
  destruct Hi as (Hc & _ & Hs).
  - right. vm_compute in E. injection E as <-. repeat split. by exists true.
  - rewrite Hc, Hs; vm_compute in E; injection E as <-; split; reflexivity.
Defined.

(** *** The two waits with a time limit *)

(** The main thread waits one second for the handler thread. If that is late,
    it uses the deleted object. *)
Example late_handler_undefined :
  (fun s => undefined s) <$> run (started ++ [W_control SERVICE_CONTROL_STOP; A_dispatcher; A_dispatcher; A_main; A_main; A_main; A_main; A_timeout; A_main; A_dispatcher]) (init flags)
  = Some true.
Proof. vm_compute. reflexivity. Qed.

(** Nothing waits for the thread of [serviceMain]: it may make its last report
    when the object is deleted. *)
Example late_service_main_undefined :
  (fun s => undefined s) <$> run (starting ++ [A_service; A_service; A_main; A_main; A_service] ++ served SERVICE_CONTROL_STOP ++ ending ++ [A_service]) (init flags)
  = Some true.
Proof. vm_compute. reflexivity. Qed.

(** *** Controls the documentation of the manager leaves out *)

(** A control after a shutdown is never handled: the handler thread waits on a
    condition that is deleted. *)
Example control_after_shutdown_blocks :
  (fun s => (dispatcher s, undefined s)) <$> run (started ++ served SERVICE_CONTROL_SHUTDOWN ++ [W_control 130; A_dispatcher; A_dispatcher; A_main; A_main; A_timeout; A_main]) (init flags)
  = Some (D_handler 130 H_waiting, true).
Proof. vm_compute. reflexivity. Qed.

(** *** A service that ends its event loop itself *)

(** One that calls [quit] in [start] is reported as running after it has
    stopped. *)
Example running_after_stopped :
  (fun s => (main s, scm_state s)) <$> steps true true (fun c => c =? QTSERVICE_STARTUP)
    (starting ++ [A_service; A_service; A_main; A_main; A_main; A_main; A_service]) (init flags)
  = Some (M_join, SERVICE_RUNNING).
Proof. vm_compute. reflexivity. Qed.

End Win_Witness.

End Win_Proofs.
