(* ===== verification/DtlsOpenSsl.v ===== *)
(** * DTLS over OpenSSL

    [src/DTLS/OpenSSL]: an earlier client and server on OpenSSL's API, which
    no build file names: the cookie of the handshake, the socket, the server's
    loop and the client. OpenSSL and the sockets are a parameter, whose every
    answer is arbitrary. *)

From S2P Require Import Prelude StdString.

(** ** OpenSSL and the system *)

Inductive ssl_error := SSL_NONE | SSL_WANT_READ | SSL_WANT_WRITE | SSL_WANT_X509_LOOKUP | SSL_SYSCALL | SSL_SSL | SSL_ZERO_RETURN | SSL_OTHER.

Class OpenSSL (W : Type) := {
  ssl_clear : W -> W;
  ssl_new : W -> W;
  ssl_version_dtls1 : W -> bool;
  ossl_malloc : W -> option (list byte) * W;     (** a buffer with whatever is in it *)
  bio_new_dgram : W -> W;                        (** with its timeouts and options *)
  ssl_set_bio : W -> W;
  ssl_pending : W -> bool;
  sys_select : W -> Z * bool * W;                (** the result, and [FD_ISSET] *)
  ssl_handle_timeout : W -> W;
  ssl_is_init_finished : W -> bool;
  ssl_accept : W -> Z * W;
  ssl_get_error : Z -> W -> ssl_error;
  bio_sock_should_retry : Z -> W -> bool;
  ssl_read : Z -> W -> Z * list byte * W;        (** the result, and the bytes put into the buffer *)
  ssl_write : list byte -> W -> Z * W;
  ssl_set_shutdown : W -> W;
  sys_write : list byte -> W -> W;
  sys_socket : W -> Z * W;
  sys_bind : W -> Z * W;
  sys_connect : W -> Z * W;
  sys_getsockname : W -> Z * W;
  sys_set_nonblocking : W -> W;
  sys_shutdown : W -> W;
  sys_close : Z -> W -> W;
  cin_word : W -> list byte * W;                 (** [std::cin >> val] *)
}.

(** ** DTLSCookie *)

Module DTLSCookie.

Definition COOKIE_SECRET_LENGTH : Z := 16.
Definition EVP_MAX_MD_SIZE : Z := 64.

(** [sa_family] is [AF_INET], with port and address in network order, or
    another one. *)
Inductive peer := Inet (sin_port sin_addr : Z) | Other_family.

Record t := mk { cookie_initialized : bool; secret : list byte }.

Section cookie.
(** [RAND_bytes]: its result and the buffer after it; [HMAC] with SHA-1. *)
Context (RAND_bytes : list byte -> Z * list byte) (HMAC : list byte -> list byte -> list byte).

(** A result of -1 counts as true. *)
Definition init (c : t) : bool * t :=
  if cookie_initialized c then (true, c)
  else let '(r, s) := RAND_bytes (secret c) in
       let c := mk (negb (r =? 0)) s in (cookie_initialized c, c).

(** The constructor; a second object is an end of the program ([throw]
    without an exception). [obj] says whether there is one already. *)
Definition make (obj : bool) (uninitialized : list byte) : outcome t :=
  if obj then Undef else Ret (init (mk false uninitialized)).2.

(** Port and address in a buffer of six bytes. *)
Definition buffer (port addr : Z) : list byte := be_put 2 port ++ be_put 4 addr.

(** The result, if there is one. The allocation may fail. *)
Definition cookieProc (malloc_ok : bool) (p : peer) (c : t) : option (list byte) * t :=
  let '(ok, c) := init c in
  if negb ok then (None, c)
  else match p with
       | Inet port addr => if malloc_ok then (Some (HMAC (secret c) (buffer port addr)), c) else (None, c)
       | Other_family => (None, c)
       end.

Definition genCookie (malloc_ok : bool) (p : peer) (c : t) : Z * option (list byte) * t :=
  match cookieProc malloc_ok p c with
  | (Some r, c) => (1, Some r, c)
  | (None, c) => (0, None, c)
  end.

Definition verifyCookie (malloc_ok : bool) (p : peer) (cookie : list byte) (c : t) : Z * t :=
  match cookieProc malloc_ok p c with
  | (Some r, c) => (if (zlen cookie =? zlen r) && bool_decide (r = ztake (zlen r) cookie) then 1 else 0, c)
  | (None, c) => (0, c)
  end.

Lemma buffer_inj port addr port' addr' :
  is_u16 port -> is_u16 port' -> is_u32 addr -> is_u32 addr' -> buffer port addr = buffer port' addr' -> port = port' /\ addr = addr'.
Proof.
  unfold buffer, is_u16, is_u32. intros H1 H2 H3 H4 E. apply app_inj_1 in E as [E1 E2]; [|by rewrite !be_put_length].
  apply (f_equal be_val) in E1, E2. rewrite !be_val_put in E1, E2.
  change (256 ^ Z.of_nat 2) with 65536 in E1. change (256 ^ Z.of_nat 4) with 4294967296 in E2.
  rewrite !Z.mod_small in E1, E2 by lia. done.
Qed.

(** A cookie is accepted from exactly the address and port it was made for,
    unless the hash of two of them is the same; and what is accepted is such
    a cookie. *)
Theorem cookie_binds_peer c port addr port' addr' cookie c1 :
  is_u16 port -> is_u16 port' -> is_u32 addr -> is_u32 addr' ->
  genCookie true (Inet port addr) c = (1, Some cookie, c1) ->
  verifyCookie true (Inet port addr) cookie c1 = (1, c1)
  /\ ((verifyCookie true (Inet port' addr') cookie c1).1 = 1 ->
      (port', addr') = (port, addr)
      \/ (buffer port' addr' <> buffer port addr /\ HMAC (secret c1) (buffer port' addr') = HMAC (secret c1) (buffer port addr)))
  /\ (forall other, (verifyCookie true (Inet port addr) other c1).1 = 1 -> other = cookie).
Proof.
  intros H1 H2 H3 H4 E. unfold genCookie, cookieProc, init in E.
  assert (cookie_initialized c1 = true /\ cookie = HMAC (secret c1) (buffer port addr)) as [Hi ->].
  { destruct (cookie_initialized c) eqn:Ec; [by simplify_eq/=|]. destruct (RAND_bytes (secret c)) as [r s]. simpl in E.
    destruct (r =? 0) eqn:Er; simpl in E; by simplify_eq/=. }
  clear E. assert (forall p' a' ck, verifyCookie true (Inet p' a') ck c1
    = (if (zlen ck =? zlen (HMAC (secret c1) (buffer p' a'))) && bool_decide (HMAC (secret c1) (buffer p' a') = ztake (zlen (HMAC (secret c1) (buffer p' a'))) ck) then 1 else 0, c1)) as Hv.
  { intros p' a' ck. unfold verifyCookie, cookieProc, init. by rewrite Hi. }
  assert (forall p' a' ck, (verifyCookie true (Inet p' a') ck c1).1 = 1 -> ck = HMAC (secret c1) (buffer p' a')) as Hacc.
  { intros p' a' ck. rewrite Hv. simpl. destruct (_ && _) eqn:Eb; [|done]. intros _. apply andb_true_iff in Eb as [El Eb].
    apply Z.eqb_eq in El. apply bool_decide_eq_true in Eb. rewrite <- El in Eb. rewrite ztake_all in Eb by lia. done. }
  split_and!.
  - rewrite Hv, Z.eqb_refl, ztake_all by lia. by rewrite bool_decide_eq_true_2.
  - intros Hok%Hacc. destruct (decide (buffer port' addr' = buffer port addr)) as [Eb|Hb]; [left|right; by split].
    apply buffer_inj in Eb as [-> ->]; done.
  - intros other Hok%Hacc. done.
Qed.

End cookie.
End DTLSCookie.

(** ** Verification of certificates *)

Definition verify_depth : Z := 0.

(** [dtls_verify_callback]: an error at a depth up to [verify_depth] is
    overruled. *)
Definition dtls_verify_callback (ok : bool) (depth : Z) : bool :=
  if negb ok && (depth <=? verify_depth) then true else ok.

(** The peer's own certificate has depth zero: no error in it is one. *)
Theorem peer_certificate_accepted ok : dtls_verify_callback ok 0 = true.
Proof. by destruct ok. Qed.

(** ** DTLSSocket *)

Section socket.
Context {W : Type} `{OpenSSL W}.
Abbreviation WM := (M W).

Definition call {A} (f : W -> A * W) : WM A := fun w => let '(a, w) := f w in (Ret a, w).

(** [open]: the socket, or -1. *)
Definition open : WM Z :=
  modify ssl_new ;;; call sys_socket.

(** *** The server *)

Definition SSL3_RT_MAX_PLAIN_LENGTH : Z := 16384.

(** [init_ssl_connection] *)
Definition init_ssl_connection : WM bool :=
  let* i := call ssl_accept in
  if i <=? 0 then gets (bio_sock_should_retry i) else ret true.

(** The buffer up to its first zero; without one the comparison reads on
    behind the buffer. *)
Fixpoint c_string (bs : list byte) : option (list byte) :=
  match bs with
  | [] => None
  | b :: bs => if Z_of_byte b =? 0 then Some [] else option_map (cons b) (c_string bs)
  end.

(** The [do] loop: reads until the buffer holds "exit" or there is an end. *)
Fixpoint read_loop (fuel : nat) (ret_ : Z) (buf : list byte) : WM Z :=
  match fuel with
  | O => fun w => (Unfinished, w)
  | S fuel =>
      let* (i, data) := call (fun w => let '(i, d, w) := ssl_read SSL3_RT_MAX_PLAIN_LENGTH w in ((i, d), w)) in
      let buf := data ++ zdrop (zlen data) buf in
      let* e := gets (ssl_get_error i) in
      match e with
      | SSL_NONE =>
          modify (sys_write (ztake i buf)) ;;;
          let* p := gets ssl_pending in
          let ret_ := if p : bool then ret_ else 0 in
          match c_string buf with
          | Some text => if bool_decide (text = lit "exit") then ret ret_ else read_loop fuel ret_ buf
          | None => undef
          end
      | SSL_WANT_READ => read_loop fuel ret_ buf
      | SSL_WANT_WRITE | SSL_WANT_X509_LOOKUP | SSL_OTHER => ret ret_
      | SSL_SYSCALL | SSL_SSL => ret 1
      | SSL_ZERO_RETURN => ret 0
      end
  end.

(** The [for] loop; [true] with [goto shut]. *)
Fixpoint accept_loop (fuel : nat) (buf : list byte) : WM (Z * bool) :=
  match fuel with
  | O => fun w => (Unfinished, w)
  | S fuel =>
      let* pending := gets ssl_pending in
      let* ready := (if pending : bool then ret (Some true)
                     else
                       let* (i, isset) := call (fun w => let '(i, b, w) := sys_select w in ((i, b), w)) in
                       let* v := gets ssl_version_dtls1 in
                       when v (modify ssl_handle_timeout) ;;;
                       ret (if i <? 0 then None else Some isset)) in
      match ready with
      | None => accept_loop fuel buf
      | Some false => ret (2, true)
      | Some true =>
          let* done := gets ssl_is_init_finished in
          if negb done then
            let* ok := init_ssl_connection in
            if ok : bool then accept_loop fuel buf else ret (1, false)
          else let* r := read_loop fuel 1 buf in ret (r, false)
      end
  end.

Definition ack : list byte := lit "ACK from SERVER: READ SUCCESSFULLY DONE" ++ [x0a].

(** The loop behind the label [ERR], with a result of zero. *)
Fixpoint ack_loop (fuel : nat) : WM Z :=
  match fuel with
  | O => fun w => (Unfinished, w)
  | S fuel =>
      let* i := call (ssl_write ack) in
      let* e := gets (ssl_get_error i) in
      match e with
      | SSL_NONE => let* p := gets ssl_pending in if p : bool then ack_loop fuel else ret 0
      | SSL_WANT_WRITE | SSL_WANT_READ | SSL_WANT_X509_LOOKUP | SSL_OTHER => ack_loop fuel
      | SSL_SYSCALL | SSL_SSL | SSL_ZERO_RETURN => ret 1
      end
  end.

Definition finish (fuel : nat) (ret_ : Z) : WM Z :=
  let* r := (if ret_ =? 0 then ack_loop fuel else ret ret_) in
  modify ssl_set_shutdown ;;; ret r.

Definition dtls_get_data (fuel : nat) : WM Z :=
  modify ssl_clear ;;;
  let* buf := call ossl_malloc in
  match buf with
  | None => finish fuel 1
  | Some buf =>
      let* v := gets ssl_version_dtls1 in
      when v (modify bio_new_dgram) ;;;
      modify ssl_set_bio ;;;
      let* (r, shut) := accept_loop fuel buf in
      if shut : bool then ret r else finish fuel r
  end.

(** The loop of [bind] around it. *)
Fixpoint serve_loop (fuel : nat) : WM unit :=
  match fuel with
  | O => fun w => (Unfinished, w)
  | S fuel' => let* r := dtls_get_data fuel in if r <? 0 then ret tt else serve_loop fuel'
  end.

Definition bind_ (fuel : nat) : WM bool :=
  let* sock := open in
  if sock =? -1 then ret false
  else
    let* r := call sys_bind in
    if r =? -1 then ret false
    else
      modify sys_set_nonblocking ;;;
      serve_loop fuel ;;;
      modify (sys_close sock) ;;;
      ret true.

(** *** The client *)

Definition dtls_connect : WM Z :=
  modify bio_new_dgram ;;;
  let* r := call sys_getsockname in
  if r <? 0 then modify sys_shutdown ;;; ret (-1)
  else
    modify ssl_set_bio ;;;
    let* (i, _) := call (fun w => let '(i, b, w) := sys_select w in ((i, b), w)) in
    ret (if i <? 0 then 1 else 0).

(** Words of the standard input are sent until the channel is closed; [false]
    for an error. *)
Fixpoint write_words (fuel : nat) : WM bool :=
  match fuel with
  | O => fun w => (Unfinished, w)
  | S fuel =>
      let* val := call cin_word in
      let* r := call (ssl_write val) in
      let* e := gets (ssl_get_error r) in
      match e with
      | SSL_ZERO_RETURN => ret true
      | SSL_SSL | SSL_SYSCALL => ret false
      | _ => write_words fuel
      end
  end.

Fixpoint read_rest (fuel : nat) : WM Z :=
  match fuel with
  | O => fun w => (Unfinished, w)
  | S fuel =>
      let* (r, data) := call (fun w => let '(i, d, w) := ssl_read 128 w in ((i, d), w)) in
      let* e := gets (ssl_get_error r) in
      match e with
      | SSL_NONE =>
          modify (sys_write (ztake r data)) ;;;
          let* p := gets ssl_pending in if p : bool then read_rest fuel else ret 0
      | SSL_SYSCALL | SSL_SSL => ret (-1)
      | SSL_ZERO_RETURN => ret 0
      | _ => read_rest fuel
      end
  end.

Definition handle_data (fuel : nat) : WM Z :=
  let* ok := write_words fuel in
  if ok : bool then read_rest fuel else ret (-1).

Fixpoint connect_loop (fuel : nat) : WM Z :=
  match fuel with
  | O => fun w => (Unfinished, w)
  | S fuel => let* r := dtls_connect in if r =? 1 then connect_loop fuel else ret r
  end.

Definition connect (fuel : nat) : WM bool :=
  let* sock := open in
  if sock =? -1 then ret false
  else
    let* r := call sys_connect in
    if r =? -1 then modify (sys_close sock) ;;; ret false
    else
      let* r := connect_loop fuel in
      if r =? -1 then ret false
      else let* r := handle_data fuel in ret (negb (r =? -1)).

(** ** Results *)

(** A computation that, if it returns, returns a value in [P]. *)
Definition gives {A} (m : WM A) (P : A -> Prop) : Prop := forall w, match (m w).1 with Ret a => P a | _ => True end.

Lemma gives_ret {A} (a : A) (P : A -> Prop) : P a -> gives (ret a) P.
Proof. by intros Ha w. Qed.

Lemma gives_bind {A A'} (m : WM A) (k : A -> WM A') P Q : gives m P -> (forall a, P a -> gives (k a) Q) -> gives (bind m k) Q.
Proof.
  intros Hm Hk w. specialize (Hm w). unfold bind. destruct (m w) as [[a| | |] w']; try done. apply (Hk a Hm w').
Qed.

Lemma gives_any {A} (m : WM A) : gives m (fun _ => True).
Proof. intros w. by destruct (m w).1. Qed.

Lemma gives_unfinished {A} (P : A -> Prop) : gives (fun w => (Unfinished, w)) P.
Proof. by intros w. Qed.

Ltac gives := repeat first
  [ apply gives_unfinished
  | by intros w
  | apply gives_ret; lia
  | eapply gives_bind; [apply gives_any|intros ? _; cbv zeta]
  | match goal with |- gives (match ?x with _ => _ end) _ => destruct x end ].

Definition code (r : Z) : Prop := 0 <= r <= 2.

Lemma gives_read fuel : forall r buf, code r -> gives (read_loop fuel r buf) code.
Proof.
  unfold code. induction fuel as [|fuel IH]; intros r buf Hr; [apply gives_unfinished|]. cbn [read_loop].
  gives; repeat match goal with |- context [if ?x then r else 0] => destruct x end; first [apply IH; lia|apply gives_ret; lia].
Qed.

Lemma gives_accept fuel : forall buf, gives (accept_loop fuel buf) (fun x => code x.1).
Proof.
  induction fuel as [|fuel IH]; intros buf; [apply gives_unfinished|]. cbn [accept_loop].
  do 2 (eapply gives_bind; [apply gives_any|]; intros ? _). case_match; [|apply IH]. case_match; [|by apply gives_ret].
  eapply gives_bind; [apply gives_any|]. intros fin _. destruct (negb fin).
  - eapply gives_bind; [apply gives_any|]. intros [] _; [apply IH|by apply gives_ret].
  - eapply gives_bind; [apply gives_read; unfold code; lia|]. intros r Hr. by apply gives_ret.
Qed.

Lemma gives_finish fuel r : code r -> gives (finish fuel r) code.
Proof.
  intros Hr. unfold finish. eapply (gives_bind _ _ code).
  - destruct (r =? 0); [|by apply gives_ret]. induction fuel as [|fuel IH]; [apply gives_unfinished|]. cbn [ack_loop].
    unfold code in *. gives; exact IH.
  - intros a Ha. eapply gives_bind; [apply gives_any|]. intros _ _. by apply gives_ret.
Qed.

Lemma gives_get_data fuel : gives (dtls_get_data fuel) code.
Proof.
  unfold dtls_get_data. eapply gives_bind; [apply gives_any|]. intros _ _. eapply gives_bind; [apply gives_any|]. intros [buf|] _.
  - do 3 (eapply gives_bind; [apply gives_any|]; intros ? _). eapply gives_bind; [apply gives_accept|]. intros [r shut] Hr.
    destruct shut; [by apply gives_ret|by apply gives_finish].
  - apply gives_finish. unfold code. lia.
Qed.

(** The server's loop waits for a negative result, and there is none: once
    the socket is bound, [bind] does not return, whatever OpenSSL does. *)
Theorem bind_never_returns_true fuel w : (bind_ fuel w).1 <> Ret true.
Proof.
  assert (gives (serve_loop fuel) (fun _ => False)) as Hs.
  { induction fuel as [|fuel IH]; [apply gives_unfinished|]. cbn [serve_loop].
    eapply gives_bind; [apply gives_get_data|]. intros r Hr. destruct (Z.ltb_spec r 0); [unfold code in Hr; lia|exact IH]. }
  assert (gives (bind_ fuel) (fun b => b = false)) as Hb.
  { unfold bind_. eapply gives_bind; [apply gives_any|]. intros sock _. destruct (sock =? -1); [by apply gives_ret|].
    eapply gives_bind; [apply gives_any|]. intros r _. destruct (r =? -1); [by apply gives_ret|].
    eapply gives_bind; [apply gives_any|]. intros _ _. eapply gives_bind; [exact Hs|]. done. }
  specialize (Hb w). intros E. rewrite E in Hb. done.
Qed.

End socket.
