(* ===== verification/DtlsSslSocket.v ===== *)
(** * Life of a DTLS socket over OpenSSL

    [src/DTLS/OpenSSL/dtlssocket.cpp] and what [dtlsserver.cpp] adds to set it
    up: the objects of OpenSSL and the descriptor a [DTLSSocket] owns, its
    address and its files. The answers of OpenSSL and of the system are those
    of an environment; the calls that matter for ownership are events. *)

From S2P Require Import Prelude StdString.

Module Ssl_Socket.

(** ** OpenSSL and the system *)

(** A pointer; null is [None]. *)
Abbreviation handle := nat.

Inductive event :=
| Library_init
| Ctx_new (h : handle)
| Ctx_free (h : handle)
| Ssl_new (h : handle)
| Ssl_shutdown (h : handle)
| Ssl_free (h : handle)
| Rsa_new (h : handle)
| Rsa_free (h : handle)
| Bio_new (h : handle)
| Bio_free (h : handle)
| Dh_new (h : handle)
| Dh_free (h : handle)
| Socket_open (fd : Z)
| Socket_close (fd : Z)
| Errors_printed
| Text_printed (s : list byte).

(** The answers of the n-th call. *)
Record environment := {
  env_alloc : nat -> bool;                   (** an object is there *)
  env_socket : nat -> Z;                     (** a descriptor, or -1 *)
  env_answer : nat -> Z;                     (** an [int] *)
  env_gethostbyname : list byte -> option Z; (** the first address, in network order *)
}.

Record world := mkWorld { env : environment; calls : nat; bio_err : bool; log : list event }.

Abbreviation IO := (M world).

Definition note (e : event) : IO unit :=
  modify (fun w => mkWorld (env w) (calls w) (bio_err w) (log w ++ [e])).

(** Each call has a number; an object is named by the call that made it. *)
Definition next_call : IO nat :=
  fun w => (Ret (calls w), mkWorld (env w) (S (calls w)) (bio_err w) (log w)).

Definition alloc (mk : handle -> event) : IO (option handle) :=
  let* n := next_call in
  let* ok := gets (fun w => env_alloc (env w) n) in
  if ok : bool then note (mk n) ;;; ret (Some n) else ret None.

Definition answer : IO Z := let* n := next_call in gets (fun w => env_answer (env w) n).

Definition true_ (r : Z) : bool := negb (r =? 0).

(** ** DTLSSocket *)

Record t := mk {
  ctx : option handle;
  ssl : option handle;
  m_sock : Z;
  m_port : option Z;                         (** not initialised *)
  m_host : list byte;
  m_certificatePassword : list byte;
}.

Definition with_ssl v o := mk (ctx o) v (m_sock o) (m_port o) (m_host o) (m_certificatePassword o).
Definition with_sock v o := mk (ctx o) (ssl o) v (m_port o) (m_host o) (m_certificatePassword o).

(** [vfprintf] takes an argument for every [%s] of the format. *)
Fixpoint format (fmt : list byte) (args : list (list byte)) : option (list byte) :=
  match fmt with
  | [] => Some []
  | b :: fmt' =>
      if bool_decide (b = x25) then
        match fmt', args with
        | _ :: fmt'', a :: args => app a <$> format fmt'' args
        | _, _ => None
        end
      else cons b <$> format fmt' args
  end.

Definition dtls_report_err (fmt : list byte) (args : list (list byte)) : IO unit :=
  match format fmt args with
  | None => undef
  | Some s => note (Text_printed s) ;;; note Errors_printed
  end.

Definition fmt_state : list byte := lit "SSL state [" ++ [x22] ++ lit "%s" ++ [x22] ++ lit "]: %s" ++ [x0a].
Definition fmt_alert : list byte := lit "SSL: alert [" ++ [x22] ++ lit "%s" ++ [x22] ++ lit "]: %s : %s" ++ [x0a].

(** [where] as the flags the code tests: connect, accept, loop, alert, read. *)
Record info := { st_connect : bool; st_accept : bool; cb_loop : bool; cb_alert : bool; cb_read : bool }.

Definition dtls_info_callback (where_ : info) (state type desc : list byte) : IO unit :=
  dtls_report_err fmt_state [] ;;;
  let str := if st_connect where_ then lit "connect" else if st_accept where_ then lit "accept" else lit "undefined" in
  if cb_loop where_ then dtls_report_err fmt_state [str; state]
  else when (cb_alert where_)
         (dtls_report_err fmt_alert [if cb_read where_ then lit "read" else lit "write"; type; desc]).

(** The constructor; OpenSSL's functions do not take a null context. *)
Definition DTLSSocket : IO t :=
  let* have := gets bio_err in
  when (negb have)
    (note Library_init ;;; modify (fun w => mkWorld (env w) (calls w) true (log w))) ;;;
  let* c := alloc Ctx_new in
  match c with
  | None => undef
  | Some _ => ret (mk c None (-1) None [] [])
  end.

Definition close (o : t) : IO unit := note (Socket_close (m_sock o)).

Definition destruct_ (o : t) : IO unit :=
  match ssl o with Some s => note (Ssl_shutdown s) ;;; note (Ssl_free s) | None => ret tt end ;;;
  match ctx o with Some c => note (Ctx_free c) | None => ret tt end ;;;
  close o.

Definition port (o : t) : IO Z := match m_port o with Some p => ret p | None => undef end.
Definition setPort (p : Z) (o : t) : t := mk (ctx o) (ssl o) (m_sock o) (Some p) (m_host o) (m_certificatePassword o).
Definition setHost (h : list byte) (o : t) : t := mk (ctx o) (ssl o) (m_sock o) (m_port o) h (m_certificatePassword o).
Definition setCertificatePassword (p : list byte) (o : t) : t := mk (ctx o) (ssl o) (m_sock o) (m_port o) (m_host o) p.

Definition setCertificateChain : IO bool :=
  let* r := answer in
  when (negb (true_ r)) (note Errors_printed) ;;; ret (true_ r).

(** [SSL_CTX_check_private_key] is called only for a key that was read. *)
Definition setPrivateKey : IO bool :=
  let* r := answer in
  if true_ r then let* r := answer in ret (true_ r) else ret false.

Definition setCACertificate : IO bool := let* r := answer in ret (true_ r).

(** [sockaddr_in]: family, port and address in network order; all zero when
    the host is not found. *)
Definition AF_INET : Z := 2.
Definition htons (p : Z) : Z := (p mod 256) * 256 + p / 256 mod 256.

Definition addr (o : t) : IO (Z * Z * Z) :=
  match m_host o with
  | [] => let* p := port o in ret (AF_INET, htons p, 0)
  | h =>
      let* he := gets (fun w => env_gethostbyname (env w) h) in
      match he with
      | Some a => let* p := port o in ret (AF_INET, htons p, a)
      | None => ret (0, 0, 0)
      end
  end.

(** What was there before is overwritten. *)
Definition open (o : t) : IO (bool * t) :=
  let* s := alloc Ssl_new in
  let o := with_ssl s o in
  let* n := next_call in
  let* fd := gets (fun w => env_socket (env w) n) in
  let o := with_sock fd o in
  if fd =? -1 then ret (false, o) else note (Socket_open fd) ;;; ret (true, o).

Definition checkPasswordCallback : Z := 0.

(** ** DTLSServer *)

(** [true] when the key was not accepted; it is not freed then. *)
Definition genRsaKey : IO bool :=
  let* rsa := alloc Rsa_new in
  let* r := answer in
  if negb (true_ r) then ret true
  else match rsa with Some h => note (Rsa_free h) | None => ret tt end ;;; ret false.

(** The constructor, as far as it makes and frees objects. *)
Definition DTLSServer : IO t :=
  let* o := DTLSSocket in
  alloc Bio_new ;;; alloc Bio_new ;;;
  genRsaKey ;;;
  ret o.

Definition setDHParams : IO bool :=
  let* bio := alloc Bio_new in
  match bio with
  | None => ret false
  | Some b =>
      let* dh := alloc Dh_new in
      note (Bio_free b) ;;;
      let* r := answer in
      match dh with Some d => note (Dh_free d) | None => ret tt end ;;;
      ret (0 <=? r)
  end.

(** ** A life *)

Inductive op :=
| Op_port (p : Z)
| Op_host (h : list byte)
| Op_password (p : list byte)
| Op_chain
| Op_key
| Op_ca
| Op_open
| Op_close.

Definition do_op (a : op) (o : t) : IO t :=
  match a with
  | Op_port p => ret (setPort p o)
  | Op_host h => ret (setHost h o)
  | Op_password p => ret (setCertificatePassword p o)
  | Op_chain => setCertificateChain ;;; ret o
  | Op_key => setPrivateKey ;;; ret o
  | Op_ca => setCACertificate ;;; ret o
  | Op_open => let* (_, o) := open o in ret o
  | Op_close => close o ;;; ret o
  end.

Fixpoint use (ops : list op) (o : t) : IO t :=
  match ops with [] => ret o | a :: ops => let* o := do_op a o in use ops o end.

Definition life (ops : list op) : IO unit :=
  let* o := DTLSSocket in
  let* o := use ops o in
  destruct_ o.

Fixpoint opens (ops : list op) : nat :=
  match ops with [] => 0 | Op_open :: ops => S (opens ops) | _ :: ops => opens ops end.

(** Contexts and connections made and freed. *)
Definition made1 (e : event) : option handle := match e with Ctx_new h | Ssl_new h => Some h | _ => None end.
Definition freed1 (e : event) : option handle := match e with Ctx_free h | Ssl_free h => Some h | _ => None end.
Abbreviation made := (omap made1).
Abbreviation freed := (omap freed1).

Definition held (o : t) : list handle := option_list (ssl o).

(** [m] adds to the log [l], in which nothing is freed and what is made is new. *)
Definition adds {A} (m : IO A) (Q : A -> list handle -> Prop) : Prop :=
  forall w, exists a w' l, m w = (Ret a, w') /\ env w' = env w /\ log w' = log w ++ l /\ freed l = []
    /\ NoDup (made l) /\ Forall (fun h => (calls w <= h < calls w')%nat) (made l) /\ (calls w <= calls w')%nat /\ Q a (made l).

Lemma adds_ret {A} (a : A) (Q : A -> list handle -> Prop) : Q a [] -> adds (ret a) Q.
Proof. intros Hq w. exists a, w, []. rewrite app_nil_r. split_and!; try done; constructor. Qed.

Lemma adds_mono {A} (m : IO A) (Q Q' : A -> list handle -> Prop) : adds m Q -> (forall a l, Q a l -> Q' a l) -> adds m Q'.
Proof. intros Hm Hq w. destruct (Hm w) as (a & w' & l & ?). exists a, w', l. naive_solver. Qed.

Lemma adds_bind {A A'} (m : IO A) (k : A -> IO A') Q Q' :
  adds m Q -> (forall a l, Q a l -> adds (k a) (fun b l' => Q' b (l ++ l'))) -> adds (bind m k) Q'.
Proof.
  intros Hm Hk w. destruct (Hm w) as (a & w1 & l1 & E1 & V1 & L1 & F1 & N1 & B1 & C1 & Q1).
  destruct (Hk a _ Q1 w1) as (b & w2 & l2 & E2 & V2 & L2 & F2 & N2 & B2 & C2 & Q2).
  exists b, w2, (l1 ++ l2). rewrite (bind_Ret _ _ _ _ _ E1). split; [done|]. split; [by rewrite V2|].
  split; [by rewrite L2, L1, <- app_assoc|]. rewrite !omap_app, F1, F2. split; [done|]. split; [|split; [|split; [lia|done]]].
  - apply NoDup_app. split; [done|]. split; [|done]. intros h H1' H2'. rewrite Forall_forall in B1, B2.
    specialize (B1 h H1'). specialize (B2 h H2'). lia.
  - apply Forall_app. split; eapply Forall_impl; [exact B1| |exact B2|]; simpl; intros; lia.
Qed.

Lemma adds_note e : made1 e = None -> freed1 e = None -> adds (note e) (fun _ l => l = []).
Proof.
  intros Hm Hf w. eexists tt, _, [e]. split; [reflexivity|]. simpl. rewrite Hm, Hf. split_and!; try done; constructor.
Qed.

Lemma adds_answer : adds answer (fun _ l => l = []).
Proof. intros w. eexists _, _, []. split; [reflexivity|]. simpl. rewrite app_nil_r. split_and!; try done; (lia || constructor). Qed.

Lemma adds_ssl_new : adds (alloc Ssl_new) (fun s l => l = option_list s).
Proof.
  intros w. unfold alloc, bind, next_call, gets. simpl. destruct (env_alloc (env w) (calls w)); simpl.
  - eexists _, _, [Ssl_new (calls w)]. split; [reflexivity|]. simpl. split_and!; try done; [apply NoDup_singleton|repeat constructor; lia|lia].
  - eexists _, _, []. split; [reflexivity|]. simpl. rewrite app_nil_r. split_and!; try done; (lia || constructor).
Qed.

Lemma adds_socket : adds (let* n := next_call in gets (fun w => env_socket (env w) n)) (fun _ l => l = []).
Proof. intros w. eexists _, _, []. split; [reflexivity|]. simpl. rewrite app_nil_r. split_and!; try done; (lia || constructor). Qed.

Lemma adds_open o : adds (open o) (fun r l => l = held r.2 /\ ctx r.2 = ctx o).
Proof.
  unfold open. eapply adds_bind; [apply adds_ssl_new|]. intros s l ->.
  assert (forall {A} (k : Z -> IO A), (let* n := next_call in let* fd := gets (fun w => env_socket (env w) n) in k fd)
    = (let* fd := (let* n := next_call in gets (fun w => env_socket (env w) n)) in k fd)) as -> by reflexivity.
  eapply adds_bind; [apply adds_socket|]. intros fd l ->. cbv zeta. destruct (fd =? -1).
  - apply adds_ret. simpl. by rewrite app_nil_r.
  - eapply adds_bind; [by apply adds_note|]. intros _ l ->. apply adds_ret. simpl. by rewrite app_nil_r.
Qed.

(** An operation keeps what it held, unless it opens. *)
Lemma adds_op a o :
  adds (do_op a o) (fun o' l => ctx o' = ctx o /\ match a with Op_open => l = held o' | _ => l = [] /\ held o' = held o end).
Proof.
  destruct a; simpl; try (by apply adds_ret); unfold setCertificateChain, setPrivateKey, setCACertificate, close, when.
  - eapply adds_bind; [|intros x l Hl; apply adds_ret; rewrite app_nil_r; exact (conj eq_refl (conj Hl eq_refl))].
    eapply adds_bind; [apply adds_answer|]. intros r l ->. eapply adds_bind with (Q := fun _ l => l = []).
    + destruct (negb _); [by apply adds_note|by apply adds_ret].
    + intros _ l ->. by apply adds_ret.
  - eapply adds_bind; [|intros x l Hl; apply adds_ret; rewrite app_nil_r; exact (conj eq_refl (conj Hl eq_refl))].
    eapply adds_bind; [apply adds_answer|]. intros r l ->. destruct (true_ r); [|by apply adds_ret].
    eapply adds_bind; [apply adds_answer|]. intros r' l ->. by apply adds_ret.
  - eapply adds_bind; [|intros x l Hl; apply adds_ret; rewrite app_nil_r; exact (conj eq_refl (conj Hl eq_refl))].
    eapply adds_bind; [apply adds_answer|]. intros r l ->. by apply adds_ret.
  - eapply adds_bind; [apply adds_open|]. intros [b o'] l [-> Hc]. apply adds_ret. simpl in *. by rewrite app_nil_r.
  - eapply adds_bind; [by apply adds_note|]. intros _ l ->. by apply adds_ret.
Qed.

(** A socket opened once at most holds everything that was made. *)
Lemma adds_use ops : forall o,
  (length (held o) + opens ops <= 1)%nat ->
  adds (use ops o) (fun o' l => ctx o' = ctx o /\ held o ++ l = held o').
Proof.
  induction ops as [|a ops IH]; intros o Ho; cbn [use].
  - apply adds_ret. by rewrite app_nil_r.
  - eapply adds_bind; [apply adds_op|]. intros o1 l [Hc Hl].
    assert ((length (held o1) + opens ops <= 1)%nat /\ held o ++ l = held o1) as [Hle Hh].
    { destruct a; simpl in Ho; try (destruct Hl as [-> Hl]; rewrite Hl, app_nil_r; split; [lia|done]).
      subst l. assert (held o = []) as -> by (apply length_zero_iff_nil; lia). split; [|done].
      unfold held. destruct (ssl o1); simpl; lia. }
    eapply adds_mono; [by apply IH|]. simpl. intros o' l' [Hc' Hl']. split; [congruence|]. by rewrite app_assoc, Hh.
Qed.

(** Everything OpenSSL made for a socket that is opened once at most is freed,
    once, when the socket ends. *)
Theorem socket_frees_all ops w :
  (opens ops <= 1)%nat -> env_alloc (env w) (calls w) = true ->
  exists w' l, life ops w = (Ret tt, w') /\ log w' = log w ++ l /\ NoDup (made l) /\ Permutation (made l) (freed l).
Proof.
  intros Ho Hc. unfold life.
  assert (exists w1 l0, DTLSSocket w = (Ret (mk (Some (calls w)) None (-1) None [] []), w1) /\ log w1 = log w ++ l0
    /\ made l0 = [calls w] /\ freed l0 = [] /\ calls w1 = S (calls w)) as (w1 & l0 & E0 & L0 & M0 & F0 & C0).
  { unfold DTLSSocket, alloc, when, bind, next_call, gets, note, modify, ret. destruct (bio_err w); simpl; rewrite Hc;
      (eexists _, _; split; [reflexivity|]); simpl; rewrite <- ?app_assoc; split_and!; done || reflexivity. }
  rewrite (bind_Ret _ _ _ _ _ E0).
  destruct (adds_use ops (mk (Some (calls w)) None (-1) None [] []) ltac:(simpl; lia) w1)
    as (o & w2 & l & E & _ & L & F & N & B & _ & Hctx & Hh). simpl in Hctx, Hh.
  rewrite (bind_Ret _ _ _ _ _ E). unfold destruct_. rewrite Hctx.
  assert (NoDup (calls w :: made l)) as Hnd.
  { apply NoDup_cons. split; [|done]. intros Hin. rewrite Forall_forall in B. specialize (B _ Hin). lia. }
  unfold held in Hh. destruct (ssl o) as [s|]; simpl in Hh; rewrite Hh in Hnd.
  - eexists _, (l0 ++ l ++ [Ssl_shutdown s; Ssl_free s; Ctx_free (calls w); Socket_close (m_sock o)]).
    split; [reflexivity|]. simpl. rewrite L, L0, <- !app_assoc, !omap_app, M0, F0, F, Hh. split; [done|]. simpl.
    split; [done|apply Permutation_swap].
  - eexists _, (l0 ++ l ++ [Ctx_free (calls w); Socket_close (m_sock o)]).
    split; [reflexivity|]. simpl. rewrite L, L0, <- !app_assoc, !omap_app, M0, F0, F, Hh. split; [done|]. simpl. done.
Qed.

(** ** What the results say *)

(** [SSL_CTX_set_tmp_dh] returns 1, or 0 for an error. *)
Definition answers_01 (w : world) : Prop := forall n, env_answer (env w) n = 0 \/ env_answer (env w) n = 1.

(** [setDHParams] reports success whenever the file could be opened, with
    parameters in it or not, taken by OpenSSL or not. *)
Lemma setDHParams_result w : answers_01 w -> (setDHParams w).1 = Ret (env_alloc (env w) (calls w)).
Proof.
  intros Ha. unfold setDHParams, alloc, answer, bind, next_call, gets, note, modify, ret. simpl.
  destruct (env_alloc (env w) (calls w)); simpl; [|done].
  destruct (env_alloc (env w) (S (calls w))); simpl; destruct (Ha (S (S (calls w)))) as [-> | ->]; done.
Qed.

(** [genRsaKey] is true when OpenSSL did not take the key, which stays
    allocated then. *)
Lemma genRsaKey_result w :
  exists w' l, genRsaKey w = (Ret (env_answer (env w) (S (calls w)) =? 0), w') /\ log w' = log w ++ l
    /\ (env_alloc (env w) (calls w) = true ->
        l = Rsa_new (calls w) :: if env_answer (env w) (S (calls w)) =? 0 then [] else [Rsa_free (calls w)]).
Proof.
  unfold genRsaKey, alloc, answer, bind, next_call, gets, note, modify, ret, true_. simpl.
  destruct (env_alloc (env w) (calls w)); simpl; destruct (env_answer (env w) (S (calls w)) =? 0); simpl;
    (eexists _, _; split; [reflexivity|]; simpl; rewrite <- ?app_assoc; split; [reflexivity || by rewrite app_nil_r|done]).
Qed.

(** The first line of [dtls_info_callback] prints two arguments it does not
    pass. *)
Lemma info_callback_undefined where_ state type desc w : (dtls_info_callback where_ state type desc w).1 = Undef.
Proof. reflexivity. Qed.

(** The address of a socket whose port was never set is undefined; a host
    that is not found gives an address of no family. *)
Lemma addr_result o w :
  (addr o w).1 =
    match m_host o, m_port o with
    | [], Some p => Ret (AF_INET, htons p, 0)
    | [], None => Undef
    | h, p => match env_gethostbyname (env w) h, p with
              | Some a, Some p => Ret (AF_INET, htons p, a)
              | Some _, None => Undef
              | None, _ => Ret (0, 0, 0)
              end
    end.
Proof.
  unfold addr, port. destruct (m_host o) as [|b h]; [by destruct (m_port o)|]. unfold bind, gets. simpl.
  destruct (env_gethostbyname (env w) (b :: h)); [|done]. by destruct (m_port o).
Qed.

End Ssl_Socket.

(** ** Concrete lives *)

Module Ssl_Socket_Witness.
Import Ssl_Socket.

Definition good : environment :=
  {| env_alloc := fun _ => true; env_socket := fun n => Z.of_nat n; env_answer := fun _ => 1; env_gethostbyname := fun _ => None |}.
Definition start : world := mkWorld good 0 false [].

Lemma socket_frees_all_witness :
  exists w' l, life [Op_port 41234; Op_chain; Op_key; Op_open; Op_close] start = (Ret tt, w') /\ log w' = l
    /\ NoDup (omap made1 l) /\ Permutation (omap made1 l) (omap freed1 l).
Proof.
  destruct (socket_frees_all [Op_port 41234; Op_chain; Op_key; Op_open; Op_close] start ltac:(reflexivity) eq_refl)
    as (w' & l & E & L & N & P).
  exists w', l. split; [exact E|]. split; [exact L|]. split; [exact N|exact P].
Defined.

(** [close] does not forget the descriptor: it is closed again at the end. *)
Example closed_twice :
  omap (fun e => match e with Socket_close fd => Some fd | _ => None end) (log (life [Op_open; Op_close] start).2) = [2; 2].
Proof. vm_compute. reflexivity. Qed.

(** Opened twice, the first connection is never freed. *)
Example opened_twice_leaks :
  let l := log (life [Op_open; Op_open] start).2 in omap made1 l = [0; 1; 3]%nat /\ omap freed1 l = [3; 0]%nat.
Proof. vm_compute. split; reflexivity. Qed.

End Ssl_Socket_Witness.
