(* ===== verification/Widgets.v ===== *)
(** * Widgets

    [src/Widgets], [src/DBWidgets] and [src/Base/consolereader.cpp]: small Qt
    widgets and helpers. What they inherit from Qt is a parameter; what they
    do with it is modelled. *)

From S2P Require Import Prelude.

(** ** TableSelectMultiMode

    A table that selects many items while Ctrl is held. *)

Module Table_Select.

Inductive SelectionMode := NoSelection | SingleSelection | MultiSelection | ExtendedSelection | ContiguousSelection.
Inductive SelectionBehavior := SelectItems | SelectRows | SelectColumns.
#[export] Instance SelectionMode_eq_dec : EqDecision SelectionMode.
Proof. solve_decision. Defined.

Definition ControlModifier : Z := 67108864.

Section table.
(** The cells of the model; the key of an event; what [QTableView] does for
    an event with its selection. *)
Context {Cell Key : Type}.

Record view := mk { selectionMode : SelectionMode; selectionBehavior : SelectionBehavior; selection : list Cell }.
Record event := mkEvent { key : Key; modifiers : Z }.

Context (QTableView_press QTableView_release : event -> view -> view).

Definition clearSelection (v : view) : view := mk (selectionMode v) (selectionBehavior v) [].
Definition setSelectionMode (m : SelectionMode) (v : view) : view := mk m (selectionBehavior v) (selection v).
Definition setSelectionBehavior (b : SelectionBehavior) (v : view) : view := mk (selectionMode v) b (selection v).

Definition keyPressEvent (e : event) (v : view) : view :=
  QTableView_press e
    (if modifiers e =? ControlModifier then
       if decide (selectionMode v <> MultiSelection) then
         setSelectionBehavior SelectItems (setSelectionMode MultiSelection (clearSelection v))
       else v
     else v).

Definition keyReleaseEvent (e : event) (v : view) : view :=
  QTableView_release e
    (if decide (selectionMode v = MultiSelection) then
       setSelectionBehavior SelectRows (setSelectionMode SingleSelection v)
     else v).

Inductive input := Press (e : event) | Release (e : event).

Definition step (v : view) (i : input) : view :=
  match i with Press e => keyPressEvent e v | Release e => keyReleaseEvent e v end.

(** Ctrl alone has been pressed, or a key with it, since the last release. *)
Definition ctrl_press (i : input) : bool := match i with Press e => modifiers e =? ControlModifier | Release _ => false end.
Fixpoint ctrl_since (ins : list input) (b : bool) : bool :=
  match ins with
  | [] => b
  | Press e :: ins => ctrl_since ins (b || (modifiers e =? ControlModifier))
  | Release _ :: ins => ctrl_since ins false
  end.

(** [QTableView] changes neither property on its own. *)
Definition keeps_mode (f : event -> view -> view) : Prop :=
  forall e v, selectionMode (f e v) = selectionMode v /\ selectionBehavior (f e v) = selectionBehavior v.

(** The table is in its multi mode exactly when Ctrl was pressed after the
    last key was released, and it then selects items; any release of a key
    ends the mode. *)
Theorem multi_mode ins : forall v,
  keeps_mode QTableView_press -> keeps_mode QTableView_release ->
  (selectionMode v = MultiSelection -> selectionBehavior v = SelectItems) ->
  let v' := fold_left step ins v in
  (selectionMode v' = MultiSelection <-> ctrl_since ins (bool_decide (selectionMode v = MultiSelection)) = true)
  /\ (selectionMode v' = MultiSelection -> selectionBehavior v' = SelectItems).
Proof.
  induction ins as [|i ins IH]; intros v Hp Hr Hv; [simpl; split; [by rewrite bool_decide_eq_true|done]|].
  cbn [fold_left]. set (v1 := step v i).
  assert ((selectionMode v1 = MultiSelection -> selectionBehavior v1 = SelectItems)
    /\ bool_decide (selectionMode v1 = MultiSelection)
       = match i with
         | Press e => bool_decide (selectionMode v = MultiSelection) || (modifiers e =? ControlModifier)
         | Release _ => false
         end) as [Hv1 Hb].
  { unfold v1, step, keyPressEvent, keyReleaseEvent. destruct i as [e|e].
    - rewrite (proj1 (Hp _ _)), (proj2 (Hp _ _)). destruct (modifiers e =? ControlModifier); [|by rewrite orb_false_r].
      case_decide as Hd; simpl; [by rewrite orb_true_r|]. rewrite Hd. auto.
    - rewrite (proj1 (Hr _ _)), (proj2 (Hr _ _)). case_decide as Hd; simpl; [done|]. by rewrite bool_decide_eq_false_2. }
  destruct (IH v1 Hp Hr Hv1) as [Hiff Hs]. rewrite Hb in Hiff. split; [|done]. by destruct i.
Qed.

End table.
End Table_Select.

(** ** Check box, line edit and filter *)

Module Small_Widgets.

Inductive CheckState := Unchecked | PartiallyChecked | Checked.

(** [UnCheckSlotCheckBox] *)
Record check_box := mkBox { checkState : CheckState; defaultCheckState : CheckState }.
Definition new_check_box : check_box := mkBox Unchecked Unchecked.
Definition setDefaultCheckState (s : CheckState) (b : check_box) : check_box := mkBox (checkState b) s.
Definition unCheck (b : check_box) : check_box := mkBox (defaultCheckState b) (defaultCheckState b).

(** [LineEditWithPlaceHolderSlot], over [QLineEdit]'s function. *)
Definition setPlaceholderText {L} (QLineEdit_setPlaceholderText : list Z -> L -> L) (text : list Z) (l : L) : L :=
  QLineEdit_setPlaceholderText text l.

(** [FilterLineEdit]: an action is its number; [None] when the sender is not
    an action. *)
Inductive filter_signal := caseSensitiv (b : bool) | fixedString (b : bool).

Definition filterChanged (csAction : nat) (sender : option nat) (b : bool) : list filter_signal :=
  match sender with
  | None => []
  | Some a => [if (a =? csAction)%nat then caseSensitiv b else fixedString b]
  end.

(** The slot is connected to [csAction] only: [fixedString] is never emitted. *)
Lemma filter_signals csAction b : filterChanged csAction (Some csAction) b = [caseSensitiv b].
Proof. unfold filterChanged. by rewrite Nat.eqb_refl. Qed.

End Small_Widgets.

(** ** Dates *)

Module Date_Widgets.

(** What is used of [QDateEdit]: the date, its range. *)
Class QDateEdit (E Date : Type) := {
  date : E -> Date;
  minimumDate : E -> Date;
  setDate : Date -> E -> E;
  setMaximumDate : Date -> E -> E;
  setSpecialValueText : E -> E;
  in_range : Date -> E -> Prop;
}.

(** A date in the range is taken; the minimum is in it. *)
Class QDateEditLaws (E Date : Type) `{QDateEdit E Date} := {
  setDate_date : forall d e, in_range d e -> date (setDate d e) = d;
  minimum_in_range : forall e, in_range (minimumDate e) e;
}.

Section dates.
Context {E Date : Type} `{QDateEditLaws E Date}.

(** A [QVariant]: null, or something with a date. *)
Inductive variant := Null | Has_date (d : Date).

Definition DateWidget (currentDate : Date) (e : E) : E := setMaximumDate currentDate (setSpecialValueText e).

Definition getData (e : E) : variant := Has_date (date e).

Definition setData (value : variant) (e : E) : E :=
  setDate (match value with Null => minimumDate e | Has_date d => d end) e.

(** A date in the range comes back; no date comes back as the first one,
    which the widget shows as a special text. *)
Theorem date_round_trip value e :
  match value with Has_date d => in_range d e | Null => True end ->
  getData (setData value e) = match value with Null => Has_date (minimumDate e) | _ => value end.
Proof. destruct value; intros Hr; unfold getData, setData; f_equal; apply setDate_date; [apply minimum_in_range|done]. Qed.

End dates.

(** [DateEditDelegate]: a model is a map from indexes to values; [toDateTime]
    and [toString] are Qt's conversions, with the formats of the source. *)
Section delegate.
Context {Index Value DateTime Model Text : Type}
  (data : Model -> Index -> Value) (set_data : Index -> Text -> Model -> Model)
  (toDateTime : Value -> option DateTime) (toString : DateTime -> Text) (localeString : option DateTime -> Text).

(** An editor is the date and time it shows. *)
Definition setEditorData (currentDateTime : DateTime) (m : Model) (i : Index) : DateTime :=
  match toDateTime (data m i) with Some v => v | None => currentDateTime end.

Definition setModelData (editor : DateTime) (m : Model) (i : Index) : Model := set_data i (toString editor) m.

Definition displayText (v : Value) : Text := localeString (toDateTime v).

End delegate.
End Date_Widgets.

(** ** SimpleDialog

    A widget is in one layout: [addWidget] takes it out of the one it was in. *)

Module Simple_Dialog.

Inductive button := okBtn | cBtn.
#[export] Instance button_eq_dec : EqDecision button.
Proof. solve_decision. Defined.

Inductive item := Stretch | Button (b : button).
#[export] Instance item_eq_dec : EqDecision item.
Proof. solve_decision. Defined.

(** The rows [exec] has added to [vbox]; whether the layout is set. *)
Record t := mk { rows : list (list item); layout_set : bool }.

Definition construct : t := mk [] false.

Definition take_out (b : button) (row : list item) : list item := filter (fun x => x <> Button b) row.

(** [exec] up to [QDialog::exec]. *)
Definition exec (d : t) : t :=
  mk (map (fun r => take_out cBtn (take_out okBtn r)) (rows d) ++ [[Stretch; Button okBtn; Button cBtn]]) true.

(** Every call adds a row; only the last one has the buttons. *)
Theorem exec_rows n : rows (Nat.iter (S n) exec construct) = replicate n [Stretch] ++ [[Stretch; Button okBtn; Button cBtn]].
Proof.
  induction n as [|n IH]; [done|]. change (rows (exec (Nat.iter (S n) exec construct)) = replicate (S n) [Stretch] ++ [[Stretch; Button okBtn; Button cBtn]]).
  generalize dependent (Nat.iter (S n) exec construct). intros d IH. unfold exec. cbn [rows]. rewrite IH, map_app.
  rewrite replicate_S_end, <- !app_assoc. f_equal. clear IH. induction n as [|n IHn]; [done|]. simpl. by rewrite IHn.
Qed.

End Simple_Dialog.

(** ** ConsoleReader

    [text] makes a stream on the standard input, reads a line and drops the
    stream. [fill] is how much of the input the stream takes into its buffer
    at once: at least one line, when there is one. *)

Module Console_Reader.

Section reader.
Context (fill : list byte -> nat).

Fixpoint line (bs : list byte) : list byte :=
  match bs with [] => [] | b :: bs => if Z_of_byte b =? 10 then [] else b :: line bs end.

(** The input after the call, and the signal. *)
Definition text (stdin : list byte) : list byte * list byte :=
  let buffer := take (fill stdin) stdin in
  (drop (fill stdin) stdin, line buffer).

Fixpoint texts (n : nat) (stdin : list byte) : list (list byte) :=
  match n with O => [] | S n => let '(stdin, l) := text stdin in l :: texts n stdin end.

Fixpoint lines_of (ls : list (list byte)) : list byte :=
  match ls with [] => [] | l :: ls => l ++ x0a :: lines_of ls end.

Definition plain_line (l : list byte) : Prop := Forall (fun b => Z_of_byte b <> 10) l.

Lemma line_first l rest : plain_line l -> line (l ++ x0a :: rest) = l.
Proof.
  induction 1 as [|b l Hb _ IH]; [done|]. simpl. destruct (Z.eqb_spec (Z_of_byte b) 10); [done|]. by rewrite IH.
Qed.

(** When the stream takes one line at a time, as a terminal gives it, every
    line arrives. *)
Theorem every_line ls :
  Forall plain_line ls -> (forall l rest, plain_line l -> fill (l ++ x0a :: rest) = S (length l)) ->
  texts (length ls) (lines_of ls) = ls.
Proof.
  intros Hls Hfill. induction Hls as [|l ls Hl _ IH]; [done|]. cbn [length texts lines_of]. unfold text. rewrite Hfill by done.
  assert (l ++ x0a :: lines_of ls = (l ++ [x0a]) ++ lines_of ls) as E by (by rewrite <- app_assoc).
  assert (length (l ++ [x0a]) = S (length l)) as El by (rewrite length_app; simpl; lia).
  rewrite E, <- El, drop_app_length, take_app_length, IH. f_equal. by apply line_first.
Qed.

(** When it takes all there is, only the first of them does. *)
Theorem first_line_only l ls :
  plain_line l -> (forall bs, fill bs = length bs) -> text (lines_of (l :: ls)) = ([], l).
Proof.
  intros Hl Hfill. unfold text. rewrite Hfill, drop_all, take_ge by lia. cbn [lines_of]. by rewrite line_first.
Qed.

End reader.
End Console_Reader.
