(* ===== verification/QtServiceDebug.v ===== *)
(** * Debug log and session filter of qtservice

    The debug log of [src/qtservice/src/qtservice.cpp], a message handler that
    is compiled with QTSERVICE_DEBUG, and the filters of [qtservice_win.cpp]
    that keep a Windows service alive when a user logs off. *)

From S2P Require Import Prelude QtString.

Module Debug_Log.

Inductive QtMsgType := QtDebugMsg | QtWarningMsg | QtCriticalMsg | QtFatalMsg | QtInfoMsg.

(** The file is open or not; its content; how often it was tried to open it;
    the looks at the clock; the code of [exit]. *)
Record t := mk { f : bool; file : qstring; tries : nat; looks : nat; exit_code : option Z }.

Definition initial : t := mk false [] 0 0 None.

Section log.
(** The time of day as text, the number of the process as text, whether the
    file can be opened, and [qFormatLogMessage]. *)
Context (currentTime : nat -> qstring) (processId : qstring) (opens : nat -> bool) (formatted : QtMsgType -> qstring -> qstring).

Abbreviation LM := (M t).

Definition time : LM qstring :=
  fun s => (Ret (currentTime (looks s)), mk (f s) (file s) (tries s) (S (looks s)) (exit_code s)).
Definition write (x : qstring) : LM unit := modify (fun s => mk (f s) (file s ++ x) (tries s) (looks s) (exit_code s)).
Definition set_f (b : bool) : LM unit := modify (fun s => mk b (file s) (tries s) (looks s) (exit_code s)).
Definition try_open : LM bool :=
  fun s => (Ret (opens (tries s)), mk (f s) (file s) (S (tries s)) (looks s) (exit_code s)).
Definition exit (c : Z) : LM unit := modify (fun s => mk (f s) (file s) (tries s) (looks s) (Some c)).

Definition ch_newline : Z := 10.

Definition closed_text : qstring := str " --- DEBUG LOG CLOSED ---" ++ [ch_newline; ch_newline].
Definition opened_text : qstring := str "--- DEBUG LOG OPENED ---" ++ [ch_newline].

Definition qtServiceCloseDebugLog : LM unit :=
  let* open := gets f in
  if negb open then ret tt
  else
    let* now := time in
    write now ;;;
    write closed_text ;;;
    set_f false.

Definition level (type : QtMsgType) : qstring :=
  match type with
  | QtWarningMsg => str "WARNING: "
  | QtCriticalMsg => str "CRITICAL: "
  | QtFatalMsg => str "FATAL: "
  | QtDebugMsg => str "DEBUG: "
  | QtInfoMsg => []
  end.

Definition qtServiceLogDebug (type : QtMsgType) (msg : qstring) : LM unit :=
  let* now := time in
  let s := now ++ str " [" ++ processId ++ str "] " in
  let* open := gets f in
  let* ready :=
    (if open : bool then ret true
     else
       let* ok := try_open in
       if ok : bool then
         set_f true ;;;
         write ([ch_newline] ++ s ++ opened_text) ;;;
         ret true
       else ret false) in
  if negb ready then ret tt
  else
    write (s ++ level type ++ formatted type msg ++ [ch_newline]) ;;;
    match type with
    | QtFatalMsg => qtServiceCloseDebugLog ;;; exit 1
    | _ => ret tt
    end.

Fixpoint log_all (ms : list (QtMsgType * qstring)) : LM unit :=
  match ms with
  | [] => ret tt
  | (type, msg) :: ms =>
      qtServiceLogDebug type msg ;;;
      let* e := gets exit_code in
      match e with Some _ => ret tt | None => log_all ms end
  end.

(** *** What is written *)

Definition stamp (n : nat) : qstring := currentTime n ++ str " [" ++ processId ++ str "] ".

Definition line (n : nat) (m : QtMsgType * qstring) : qstring :=
  stamp n ++ level m.1 ++ formatted m.1 m.2 ++ [ch_newline].

(** The lines from look [n] on; a fatal message is the last. *)
Fixpoint lines (n : nat) (ms : list (QtMsgType * qstring)) : qstring :=
  match ms with
  | [] => []
  | (QtFatalMsg, msg) :: _ => line n (QtFatalMsg, msg) ++ currentTime (S n) ++ closed_text
  | m :: ms => line n m ++ lines (S n) ms
  end.

Fixpoint has_fatal (ms : list (QtMsgType * qstring)) : bool :=
  match ms with [] => false | (QtFatalMsg, _) :: _ => true | _ :: ms => has_fatal ms end.

Lemma log_open type msg s :
  f s = true -> exit_code s = None ->
  qtServiceLogDebug type msg s
  = (Ret tt, match type with
             | QtFatalMsg => mk false (file s ++ line (looks s) (type, msg) ++ currentTime (S (looks s)) ++ closed_text) (tries s) (S (S (looks s))) (Some 1)
             | _ => mk true (file s ++ line (looks s) (type, msg)) (tries s) (S (looks s)) None
             end).
Proof.
  intros Hf He. destruct s as [fo fi tr lo ex]. simpl in Hf, He. subst. unfold line, stamp.
  unfold qtServiceLogDebug, bind, time, gets, ret, write, modify. simpl. rewrite <- !app_assoc.
  destruct type; try done. unfold qtServiceCloseDebugLog, bind, gets, time, write, set_f, exit, modify. simpl.
  repeat (rewrite <- !app_assoc; simpl). reflexivity.
Qed.

Lemma log_all_open ms : forall s,
  f s = true -> exit_code s = None ->
  exists s', log_all ms s = (Ret tt, s') /\ file s' = file s ++ lines (looks s) ms
    /\ f s' = negb (has_fatal ms) /\ exit_code s' = if has_fatal ms then Some 1 else None.
Proof.
  induction ms as [|[type msg] ms IH]; intros s Hf He.
  - exists s. simpl. by rewrite app_nil_r.
  - cbn [log_all]. rewrite (bind_Ret _ _ _ _ _ (log_open type msg s Hf He)).
    destruct type; try (unfold bind at 1, gets at 1; cbn [exit_code];
      match goal with |- context [log_all ms ?w] => destruct (IH w eq_refl eq_refl) as (s' & E & Ef & Eo & Ee) end;
      exists s'; rewrite E; cbn [file looks lines has_fatal] in *; rewrite Ef, <- app_assoc; done).
    eexists. split; [reflexivity|]. done.
Qed.

(** The log is complete and in order: when the file can be opened, it holds a
    line that says so, then one line per message with its level, up to the
    first fatal one, after which it is closed and the process exits with 1.
    The file is opened once. *)
Theorem log_complete m ms :
  opens 0 = true ->
  exists s, log_all (m :: ms) initial = (Ret tt, s)
    /\ file s = [ch_newline] ++ stamp 0 ++ opened_text ++ lines 0 (m :: ms)
    /\ f s = negb (has_fatal (m :: ms)) /\ exit_code s = if has_fatal (m :: ms) then Some 1 else None.
Proof.
  intros Ho. destruct m as [type msg].
  set (s0 := mk true ([ch_newline] ++ stamp 0 ++ opened_text) 1 0 None).
  assert (log_all ((type, msg) :: ms) initial = log_all ((type, msg) :: ms) s0) as ->.
  { cbn [log_all]. assert (qtServiceLogDebug type msg initial = qtServiceLogDebug type msg s0) as Eq.
    { unfold qtServiceLogDebug, bind, time, gets, try_open, ret. simpl. rewrite Ho. simpl.
      unfold set_f, write, modify, stamp. simpl. by rewrite <- !app_assoc. }
    unfold bind at 1. rewrite Eq. reflexivity. }
  destruct (log_all_open ((type, msg) :: ms) s0 eq_refl eq_refl) as (s & E & Ef & Eo & Ee). exists s.
  split; [done|]. split; [|done]. rewrite Ef. unfold s0. cbn [file looks]. by rewrite <- !app_assoc.
Qed.

(** A message is lost when the file cannot be opened; the next one tries
    again. *)
Lemma log_unopened type msg s :
  f s = false -> opens (tries s) = false ->
  qtServiceLogDebug type msg s = (Ret tt, mk false (file s) (S (tries s)) (S (looks s)) (exit_code s)).
Proof.
  intros Hf Ho. unfold qtServiceLogDebug, bind, time, gets, try_open, ret. simpl. rewrite Hf. simpl. rewrite Ho. reflexivity.
Qed.

End log.
End Debug_Log.

(** ** Windows *)

Module Session_Filter.

Definition WM_ENDSESSION : Z := 22.
Definition ENDSESSION_LOGOFF : Z := 2147483648.

Record MSG := { message : Z; lParam : Z }.

Definition is_logoff (m : MSG) : bool := (message m =? WM_ENDSESSION) && negb (Z.land (lParam m) ENDSESSION_LOGOFF =? 0).

(** Qt 5: the result, set when the filter takes the message. *)
Definition nativeEventFilter (m : MSG) : bool * option bool :=
  if is_logoff m then (true, Some true) else (false, None).

(** Qt 4: another filter may have been installed before; it sees every
    message, a null pointer too, and decides about those that are not a
    log-off. *)
Definition myEventFilter (nextFilter : option (option MSG -> bool * option bool)) (message : option MSG) (has_result : bool) : bool * option bool :=
  let next := match nextFilter with Some g => g message | None => (false, None) end in
  if negb (from_option is_logoff false message) then next
  else (true, if has_result then Some true else next.2).

(** Both take exactly the log-off of a user, and answer it with TRUE. *)
Theorem filters_agree m : myEventFilter None (Some m) true = nativeEventFilter m.
Proof. unfold myEventFilter, nativeEventFilter. simpl. by destruct (is_logoff m). Qed.

End Session_Filter.
